(* ===== verification/_CoqProject ===== *)
-Q . S2P
Prelude.v
Text.v
TextCut.v
Db.v
StorePeople.v
StoreRooms.v
StoreMessages.v
StoreGroup.v
StoreInv.v
StoreWf.v
StoreHistory.v
StorePolicy.v
Names.v
HubCore.v
Clock.v
Ranks.v
People.v
Rooms.v
Post.v
Sha256.v
Commands.v
CmdPeople.v
CmdRooms.v
Moderation.v
Links.v
Whispers.v
Profile.v
Dispatch.v
Maintain.v
HubWf.v
System.v
HubLoop.v
Frame.v
PostSpec.v
RoomSpec.v
ModerationSpec.v
LinkSpec.v
RateSpec.v
RankSpec.v
NamesSpec.v
GoStd.v
Adapters.v
LxmfSplit.v
LxmfGroup.v
LxmfDeliver.v
LxmfSpec.v
LxmfSched.v
Wire.v
WireSpec.v
RrcFrames.v
RrcSession.v
RrcHandle.v
RrcFanout.v
RrcSpec.v
RrcJoin.v
Micron.v
PageCore.v
PageChat.v
PageMe.v
PageProfile.v
PageSpec.v
PageSafety.v
PageText.v
Node.v
Importer.v
ImportWrite.v
ImportMessages.v
AppConfig.v
AppRun.v
AppOps.v
BackupSpec.v
StoreOpen.v
AppMain.v
Demo.v
AdapterDemo.v
ImportDemo.v
AppDemo.v
Findings.v
Witnesses.v
AdapterWitnesses.v
