(* ===== verification/Prelude.v ===== *)
(** * scotmesh-chat: a verification development

    scotmesh-chat is a chat hub for the Reticulum mesh.  One process keeps a
    SQLite store, a hub that holds the rules, and adapters that carry people's
    requests to it: RRC (live rooms over a link), an LXMF group (store and
    forward) and NomadNet pages.  The adapters call the hub's methods; the hub runs each
    call as one request (a transaction, with the events and the changes of
    memory it leaves for after the commit), one at a time, and publishes events
    to bounded queues the adapters read.

    ** The files

    - [Prelude], [Text]: the monad of stateful, failing code ([ST]), invariants
      over it ([pres], [reads] and their rules, hint database [pres]), ordering
      and lists; Go's strings, UTF-8, decimal and time.
    - [Db]: the tables of internal/store/migrations as finite maps, rows as
      records.  [StorePeople], [StoreRooms], [StoreMessages], [StoreGroup]: the
      methods of [Tx] in internal/store/{people,persons,rooms,admin,messages,
      group,whispers}.go, one definition each, named [tx_...].
    - [StoreInv]: the interface of the store, a class: an invariant [I] of the
      database that every [tx_...] keeps, under a policy that says which bans,
      names and texts callers may ask for.  [StoreWf] (the schema's and the
      code's own invariants, [db_wf]), [StoreHistory] (what only grows, [later])
      and [StorePolicy] (what the policy lets in, [allowed]) are its instances.
    - [Names], [HubCore], [Clock], [Ranks], [People], [Rooms], [Post], [Sha256],
      [Commands], [CmdPeople], [CmdRooms], [Moderation], [Links], [Whispers],
      [Profile], [Dispatch], [Maintain]: internal/hub, a file each, and
      NormalizeNick and NormalizeRoom of rrc/wire/names.go.  A request is an
      [H]: it has the database, the hub's memory, and the events and changes it
      leaves ([Req]); [update] and [view] of hub.go run it.  A command is a [C]:
      a request with its arguments and the reply so far.
    - [HubWf]: that every request keeps any invariant that is an instance of
      [StoreInv], and the memory well formed.  [System]: the adapters' calls
      ([Call]), [maintain] and the receipt of events as a step relation between
      hubs, and what is reachable.  [HubLoop]: hub.go's [do] and [Run], the callers,
      the channel between them and the loop, turn by turn ([turn]); it is why a
      call can be one step in [System].
    - [Frame]: how a request that went through is opened; [PostSpec],
      [RoomSpec], [ModerationSpec], [LinkSpec], [RateSpec], [RankSpec],
      [NamesSpec]: what each operation does.  [RoomSpec] ends with the line a join
      draws between what its replay shows and what is still to come, which the RRC
      server's JOIN rests on; [RankSpec] with the help pages; [NamesSpec] with UTF-8
      both ways and the laws of NFC and NFKD under which a clean name cleans to
      itself.
    - [Adapters]: the hub as an adapter sees it, the classes [GroupHub],
      [RrcHub] and [PageHub] (the Go interfaces of the same use), with the hub of [System] as
      their instance.  The adapters' theorems are about any hub that keeps them.
    - [TextCut]: where text is cut.  [LxmfSplit], [LxmfGroup], [LxmfDeliver]:
      internal/lxmfgroup, split.go and group.go: what comes in, what is said and
      done about it, deliveries and replies.  [LxmfSpec] and [LxmfSched]: retries
      of messages and of deliveries; rounds and senders as a step relation.
    - [Wire]: rrc/wire, envelopes and bodies, over any CBOR codec ([Cbor]).
      [WireSpec]: what is written is read back, for a codec with the laws
      [CborLaws], and a codec that keeps them.
    - [RrcFrames], [RrcSession], [RrcHandle], [RrcFanout]: internal/rrcsrv,
      envelopes.go, session.go, handle.go, and fanout.go with server.go.
      Sessions are objects in a heap ([s_heap]) the two maps refer to, as in Go,
      so that an event and a link act on one session.  [RrcSpec] and [RrcJoin]:
      the server's invariant over its step relation [srv_step], what comes before
      HELLO and after a close, the queues its workers take their jobs from
      ([job_step]), and JOIN.
    - [Micron], [PageCore], [PageChat], [PageMe], [PageProfile]: internal/nomadpage,
      page.go's helpers and session tokens, its state and requests, chat.go, me.go,
      and profile.go with help.go and [Serve].  A page is the list of its lines.
      [PageSpec], [PageSafety], [PageText]: the token maps, a request
      step by step ([pres_Serve]), what a link built elsewhere can do, and what
      people write on a page.
    - [Node]: one hub with the three adapters on it, as internal/app wires them, and
      a step relation of all their turns ([node_step]).
    - [GoStd]: float64 by the standard library's
      [SpecFloat], durations, booleans, host and port, paths and query escapes.
    - [Importer]: internal/importer, and what its readers give.  [ImportWrite] (what each part of the write does to a well-formed store) and
      [ImportMessages]: an import from its sources to the store.
    - [AppConfig], [AppRun], [AppOps], [AppMain]: internal/app and
      cmd/scotmesh-chat: config.go with env.go; app.go's [Run] with the identities
      of netstack.go, from a configuration to the hub and the ways in ([Wiring]);
      ops.go with what else runs beside the hub; and main.go's commands.  The first
      two end with their theorems; [BackupSpec] has those about the backups, an
      attempt and night after night, and the dates in their names.
    - [StoreOpen]: internal/store/store.go, opening, closing and the runner of
      migrations; and the SQL of internal/store/migrations, from the tables of one
      version to those of the next ([V1], [V2], [V3], [DB]).
    - [Demo], [AdapterDemo], [ImportDemo], [AppDemo], [Witnesses],
      [AdapterWitnesses], [Findings]: a small hub, server, page,
      cutover and machine to run the definitions on; each theorem applied to them;
      and what the model turned up.

    ** What the groups of theorems show

    [System]: over any interleaving of calls, maintenance and receipts the hub
    stays well formed (the schema's constraints, the code's own invariants and
    the bounds of memory and queues), no owner is banned, names stay distinct
    and clean, texts valid and within their size, and history only grows.
    [HubLoop]: whatever turns the callers, the loop, the clock and the adapters
    take, the hub is as its requests, one at a time and in the order they were
    sent, have left it; what a caller is told is what happened to its request; and
    nobody waits for ever.
    [PostSpec] to [NamesSpec]: what each operation does, on every branch.
    [RoomSpec], [RrcJoin]: between them, no message is lost or repeated to who
    joins a room, as far as that is so ([Findings] shows where it is not).
    [LxmfSpec], [LxmfSched]: a member gets each part of a message once.
    [RrcSpec]: the server's maps agree, its queues are bounded and its frames
    fit, over any interleaving; no job but data is lost on the way to a worker.  [LxmfSplit], [RrcFrames]: the splitters end, lose
    nothing and cut no character.  [WireSpec]: the round trips of envelopes and of a
    resource's announcement.
    [PageSafety]: a request without its visitor's token does what loading a page
    does and no more, and a token is one visitor's; [PageText]: what is said reads
    as text on its line, and where the line for what is new is.  [Node]: the
    program put together keeps all of these invariants, and the hub in it is a hub
    [System] reaches.
    [ImportMessages]: an import is never refused by the store once its sources
    are read, adds each message once and in order, and adds nothing when it is run
    again.  [AppConfig]: which configurations load, and that the environment sets
    what it names and nothing else.  [AppRun]: the parts that [Run] puts
    together agree on addresses and limits and are the same after a restart.
    [BackupSpec]: a nightly backup is whole or is not there, wherever the process is
    killed; the newest stay; the next is at half past three, and every night has its
    own.  [StoreOpen]: an upgrade in several goes, or after a failure, is an upgrade
    in one; and an upgrade from any release goes through and keeps everything.

    ** Choices

    - A request sees one time, [now], and the random bytes it draws, [rnd];
      both are the environment's ([Env]), and every request of [System] may have
      its own.  Map iteration, which Go leaves open, is in the order of the keys.
    - Identities are strings of bytes and the nil identity the empty one; the hub
      counts links by identity and room, as its memory does.
    - Token buckets count in nanosecond units, so that a token is a minute and no
      fraction is lost, where the code has float64.
    - The clock's time zone is Europe/London by the rule in force since 1996.
    - NFC, NFKD and Unicode's tables are parameters with their documented laws
      ([Unicode], [Norm], [NormLaws]); SHA-256 and base32 are implemented.
    - Statements of the database fail where the schema makes them fail
      ([ErrInternal]); a store whose disk fails is not modelled.
    - In [HubLoop] a caller's context may end at any turn.  One that is over when the
      loop comes to its request keeps the transaction from beginning; one that
      ends while the transaction is open is not modelled, and neither are the
      counters that a call which is cut off adds to.  A request's events are
      published in the turn that serves it.  Run's own context may end at any turn too; a
      maintenance that begins after it only clears memory ([maintain_over]).
    - A release's file has the tables of its version ([file_wf]); a statement of
      a migration is what it does to them.  The texts of the migrations are
      arguments, different ones.
    - What an adapter does for one frame, message or event is one step, JOIN
      apart, which is three: the fan-out may run between them ([srv_step]).  A page
      is one step too; for the hub it is a run of steps, one for each call.
    - crypto/rand gives each token of the page once ([PageRand], with the hypothesis
      that no two are the same) and does not fail.
    - The decoders of TOML, CBOR and JSON ([ImportCodecs], [World]), the tz
      database, files, identities and the network of a start ([World],
      [Platform]) and SQLite's driver ([Sqlite], [SqliteLaws]) are parameters.  A
      Go map an importer's decoder gives is the list of its entries, in any order.
    - A disk ([Disk]) is a folder's files by name.  Each call may be refused, or
      be the last one of the process, having done part of its work ([Fault]); a
      rename is there or is not.  Power loss is not modelled.

    ** Fuel

    [split_loop] has [maxParts], which the loop of Split counts to;
    [split_text] the length of the text, which gets shorter each time round
    ([split_text_ends]; on text that is not UTF-8 it need not end).
    [replace_all] has the length of the text, [read_records] that of the file and
    [parse_terms] that of the duration, each of which gets shorter.

    ** Not modelled

    - The goroutines of the adapters around the modelled steps (their Run, work,
      fanOut and watchEvents, each a loop over such steps), panics caught and
      logged, signals and logging.
    - Indexes, triggers and CHECKs of the schema that no statement of the program
      meets, and the reading of rows into structs.
    - Package flag; what the runtime counts of the process is an argument.
    - The time limits of requests (context.WithTimeout), but as contexts that end
      in [HubLoop].
    - Reticulum, LXMF and the CBOR codec themselves: parameters ([LxmfNet],
      [RrcEnv], [Cbor]).
*)
From Stdlib Require Export Ascii String ZArith Lia.
From stdpp Require Export base tactics list gmap strings sorting.

(** ** Errors and results

    A Go function that returns [(T, error)] is a function to [res T].  The
    constructors of [Error] are the error values the code tells apart:
    [hub.UserError] (hub.go), and the sentinels of internal/store
    ([ErrNameTaken], [ErrPersonHasName], [ErrNotFound]); every other error
    (a failed CHECK or foreign key, a bad argument) is [ErrInternal]. *)
Inductive Error :=
  | UserError (text : string)
  | ErrNameTaken
  | ErrPersonHasName
  | ErrNotFound (what : string)
  | ErrInternal (what : string).

#[export] Instance Error_eq_dec : EqDecision Error.
Proof. solve_decision. Defined.

Inductive res (A : Type) :=
  | Ok (a : A)
  | Fail (e : Error).
Arguments Ok {A} a.
Arguments Fail {A} e.

Definition is_ok {A} (r : res A) : bool :=
  match r with Ok _ => true | Fail _ => false end.

(** ** The state and error monad

    A computation keeps the state it had reached when it fails: whether the
    writes made before a failure survive is decided by the transaction around
    it ([HubCore.update]), not by the monad. *)
Definition ST (S A : Type) : Type := S -> res A * S.

Section monad.
Context {S : Type}.

Definition ret {A} (a : A) : ST S A := fun s => (Ok a, s).
Definition fail {A} (e : Error) : ST S A := fun s => (Fail e, s).
Definition bind {A B} (m : ST S A) (k : A -> ST S B) : ST S B := fun s =>
  match m s with
  | (Ok a, s') => k a s'
  | (Fail e, s') => (Fail e, s')
  end.
Definition get : ST S S := fun s => (Ok s, s).
Definition gets {A} (f : S -> A) : ST S A := fun s => (Ok (f s), s).
Definition put (s : S) : ST S unit := fun _ => (Ok tt, s).
Definition modify (f : S -> S) : ST S unit := fun s => (Ok tt, f s).
(** [catch m] is Go's [x, err := m()] with [err] inspected by the caller. *)
Definition catch {A} (m : ST S A) : ST S (res A) := fun s =>
  let '(r, s') := m s in (Ok r, s').
(** The caller looks at the error and answers with its own. *)
Definition handle {A} (m : ST S A) (f : Error -> ST S A) : ST S A := fun s =>
  match m s with
  | (Ok a, s') => (Ok a, s')
  | (Fail e, s') => f e s'
  end.
(** [errors.As(err, &ue)] followed by [return err]: a refusal's text, or the
    result. *)
Definition catch_user {A} (m : ST S A) : ST S (string + A) := fun s =>
  match m s with
  | (Ok a, s') => (Ok (inr a), s')
  | (Fail (UserError t), s') => (Ok (inl t), s')
  | (Fail e, s') => (Fail e, s')
  end.
Definition assert (b : bool) (e : Error) : ST S unit :=
  if b then ret tt else fail e.

Fixpoint foreach {A} (l : list A) (f : A -> ST S unit) : ST S unit :=
  match l with
  | [] => ret tt
  | a :: l' => bind (f a) (fun _ => foreach l' f)
  end.
Fixpoint collect {A B} (l : list A) (f : A -> ST S B) : ST S (list B) :=
  match l with
  | [] => ret []
  | a :: l' => bind (f a) (fun b => bind (collect l' f) (fun bs => ret (b :: bs)))
  end.
(** The first element that satisfies an effectful test. *)
Fixpoint exists_m {A} (l : list A) (f : A -> ST S bool) : ST S bool :=
  match l with
  | [] => ret false
  | a :: l' => bind (f a) (fun b => if b then ret true else exists_m l' f)
  end.
End monad.

Declare Scope st_scope.
Delimit Scope st_scope with st.
Notation "x <- m ;; k" := (bind m (fun x => k))
  (at level 100, m at next level, right associativity) : st_scope.
Notation "'let!' p := m 'in' k" := (bind m (fun x => match x with p => k end))
  (at level 10, p pattern, m at level 200, k at level 200) : st_scope.
Notation "m ;;; k" := (bind m (fun _ => k))
  (at level 100, right associativity) : st_scope.
#[global] Open Scope st_scope.

(** ** Preservation

    [pres I m]: [m] keeps [I], on success and on the errors the hub's own
    code catches and carries on from ([recoverable]).  Any other error aborts
    the transaction, which rolls the state back. *)
Definition recoverable (e : Error) : Prop :=
  match e with UserError _ | ErrNameTaken => True | _ => False end.

(** What an invariant leaves standing when an error aborts the transaction:
    nothing about the database, which is rolled back, but what the request did
    to the memory stays. *)
Class Weakening {S} (I : S -> Prop) := {
  weak : S -> Prop;
  weakens : forall s, I s -> weak s
}.

Definition keeps {S A} (I : S -> Prop) `{!Weakening I} (r : res A * S) : Prop :=
  match r with
  | (Ok _, s) => I s
  | (Fail e, s) => (recoverable e -> I s) /\ weak s
  end.

Definition pres {S A} (I : S -> Prop) `{!Weakening I} (m : ST S A) : Prop :=
  forall s, I s -> keeps I (m s).

Create HintDb pres.

Section pres.
Context {S : Type} (I : S -> Prop) `{!Weakening I}.

Lemma keeps_fail {A} e s : I s -> keeps I (Fail (A:=A) e, s).
Proof. intros Hs. split; [done | by apply weakens]. Qed.
Lemma pres_ret {A} (a : A) : pres I (ret a).
Proof. by intros s. Qed.
Lemma pres_fail {A} e : pres I (fail (A:=A) e).
Proof. intros s. by apply (keeps_fail (A:=A)). Qed.
Lemma pres_bind {A B} (m : ST S A) (k : A -> ST S B) :
  pres I m -> (forall a, pres I (k a)) -> pres I (bind m k).
Proof.
  intros Hm Hk s Hs. specialize (Hm s Hs). unfold bind.
  destruct (m s) as [[a|e] s']; simpl in *; [by apply Hk | done].
Qed.
(** The rest of a computation may count on what [m] has established. *)
Lemma pres_bind_post {A B} (Q : A -> Prop) (m : ST S A) (k : A -> ST S B) :
  pres I m -> (forall s a s', m s = (Ok a, s') -> Q a) -> (forall a, Q a -> pres I (k a)) -> pres I (bind m k).
Proof.
  intros Hm HQ Hk s Hs. specialize (Hm s Hs). unfold bind.
  destruct (m s) as [[a|e] s'] eqn:E; simpl in *; [|done]. by apply Hk; [eapply HQ|].
Qed.
Lemma pres_get : pres I get.
Proof. by intros s. Qed.
Lemma pres_gets {A} (f : S -> A) : pres I (gets f).
Proof. by intros s. Qed.
Lemma pres_modify f : (forall s, I s -> I (f s)) -> pres I (modify f).
Proof. intros Hf s Hs. by apply Hf. Qed.
Lemma pres_assert b e : pres I (assert b e).
Proof. destruct b; [apply pres_ret | apply pres_fail]. Qed.
Lemma pres_foreach_in {A} (l : list A) f :
  (forall a, a ∈ l -> pres I (f a)) -> pres I (foreach l f).
Proof.
  induction l as [|a l IH]; intros Hf; simpl; [apply pres_ret|].
  apply pres_bind; [apply Hf; set_solver|]. intros _. apply IH. set_solver.
Qed.
Lemma pres_foreach {A} (l : list A) f :
  (forall a, pres I (f a)) -> pres I (foreach l f).
Proof. intros Hf. apply pres_foreach_in. auto. Qed.
Lemma pres_collect {A B} (l : list A) (f : A -> ST S B) :
  (forall a, pres I (f a)) -> pres I (collect l f).
Proof.
  intros Hf. induction l as [|a l IH]; simpl; [apply pres_ret|].
  apply pres_bind; [done|]. intros b. apply pres_bind; [done|].
  intros bs. apply pres_ret.
Qed.
Lemma pres_exists_m {A} (l : list A) (f : A -> ST S bool) :
  (forall a, pres I (f a)) -> pres I (exists_m l f).
Proof.
  intros Hf. induction l as [|a l IH]; simpl; [apply pres_ret|].
  apply pres_bind; [done|]. intros []; [apply pres_ret | done].
Qed.
(** A computation that never changes the state keeps everything. *)
Lemma pres_pure {A} (m : ST S A) : (forall s, (m s).2 = s) -> pres I m.
Proof.
  intros Hm s Hs. specialize (Hm s). 
  destruct (m s) as [[a|e] s']; simpl in *; subst; [done | by apply (keeps_fail (A:=A))].
Qed.
(** An error handler that passes on what it does not recover from. *)
Lemma pres_handle {A} (m : ST S A) (f : Error -> ST S A) :
  pres I m -> (forall e, recoverable e -> pres I (f e)) ->
  (forall e s, ~ recoverable e -> f e s = (Fail e, s)) -> pres I (handle m f).
Proof.
  intros Hm Hr Hu s Hs. specialize (Hm s Hs). unfold handle.
  destruct (m s) as [[a|e] s']; simpl in *; [done|]. destruct Hm as [Hm Hw].
  assert (recoverable e \/ ~ recoverable e) as [He|He] by (destruct e; simpl; auto).
  - by apply Hr; auto.
  - rewrite Hu; simpl; auto.
Qed.
(** [catch_user] recovers only from refusals. *)
Lemma pres_catch_user {A} (m : ST S A) : pres I m -> pres I (catch_user m).
Proof.
  intros Hm s Hs. specialize (Hm s Hs). unfold catch_user.
  destruct (m s) as [[a|[]] s']; simpl in *; naive_solver.
Qed.
End pres.

(** What is kept is there when the computation succeeds. *)
Lemma pres_ok {S A} (I : S -> Prop) `{!Weakening I} (m : ST S A) s a s' :
  pres I m -> I s -> m s = (Ok a, s') -> I s'.
Proof. intros Hm Hs E. specialize (Hm s Hs). by rewrite E in Hm. Qed.

(** ** Queries

    A computation that leaves the state alone. *)
Definition reads {S A} (m : ST S A) : Prop := forall s, (m s).2 = s.

Create HintDb reads.

Section reads.
Context {S : Type}.
Lemma reads_ret {A} (a : A) : reads (S:=S) (ret a).
Proof. by intros s. Qed.
Lemma reads_fail {A} e : reads (S:=S) (fail (A:=A) e).
Proof. by intros s. Qed.
Lemma reads_get : reads (S:=S) get.
Proof. by intros s. Qed.
Lemma reads_gets {A} (f : S -> A) : reads (gets f).
Proof. by intros s. Qed.
Lemma reads_assert b e : reads (S:=S) (assert b e).
Proof. by destruct b; intros s. Qed.
Lemma reads_bind {A B} (m : ST S A) (k : A -> ST S B) :
  reads m -> (forall a, reads (k a)) -> reads (bind m k).
Proof.
  intros Hm Hk s. unfold bind. specialize (Hm s).
  destruct (m s) as [[a|e] s']; simpl in *; subst; [apply Hk|done].
Qed.
Lemma reads_collect {A B} (l : list A) (f : A -> ST S B) :
  (forall a, reads (f a)) -> reads (collect l f).
Proof.
  intros Hf. induction l as [|a l IH]; simpl; [apply reads_ret|].
  apply reads_bind; [done|]. intros b. apply reads_bind; [done|]. intros bs. apply reads_ret.
Qed.
Lemma reads_exists_m {A} (l : list A) (f : A -> ST S bool) :
  (forall a, reads (f a)) -> reads (exists_m l f).
Proof.
  intros Hf. induction l as [|a l IH]; simpl; [apply reads_ret|].
  apply reads_bind; [done|]. intros []; [apply reads_ret | done].
Qed.
Lemma reads_catch {A} (m : ST S A) : reads m -> reads (catch m).
Proof. intros Hm s. unfold catch. specialize (Hm s). by destruct (m s). Qed.
Lemma reads_pres {A} (I : S -> Prop) `{!Weakening I} (m : ST S A) : reads m -> pres I m.
Proof. intros Hm. by apply pres_pure. Qed.
(** The result of a query that succeeds comes with the same state. *)
Lemma reads_ok {A} (m : ST S A) s a s' : reads m -> m s = (Ok a, s') -> s' = s.
Proof. intros Hm E. specialize (Hm s). by rewrite E in Hm. Qed.
End reads.
#[export] Hint Resolve reads_ret reads_fail reads_get reads_gets reads_assert : reads.

#[export] Hint Resolve pres_ret pres_fail pres_get pres_gets pres_assert : pres.

(** [pres_auto] walks a computation: it splits binds, loops and matches and
    closes each leaf with the [pres] hints. *)
Ltac pres_step :=
  first
    [ solve [eauto 2 with pres nocore]
    | apply pres_catch_user
    | apply reads_pres, reads_catch; solve [eauto 2 with reads nocore]
    | apply pres_bind; [|intros ?]
    | apply pres_foreach; intros ?
    | apply pres_collect; intros ?
    | apply pres_exists_m; intros ?
    | match goal with
      | |- pres _ (match ?x with _ => _ end) => destruct x
      | |- pres _ (let '_ := ?x in _) => destruct x
      end ].
Ltac reads_step :=
  first
    [ solve [eauto 2 with reads nocore]
    | apply reads_bind; [|intros ?]
    | apply reads_collect; intros ?
    | apply reads_exists_m; intros ?
    | apply reads_catch
    | match goal with
      | |- reads (match ?x with _ => _ end) => destruct x
      | |- reads (let '_ := ?x in _) => destruct x
      end ].
Ltac reads_auto := intros; repeat (reads_step; simpl); try done.
Ltac pres_auto := intros; repeat (pres_step; simpl); try done.

(** ** Running computations *)
Section run.
Context {S : Type}.
Implicit Types (s : S).

Lemma bind_ok {A B} (m : ST S A) (k : A -> ST S B) s b s'' :
  bind m k s = (Ok b, s'') <->
  exists a s', m s = (Ok a, s') /\ k a s' = (Ok b, s'').
Proof.
  unfold bind. destruct (m s) as [[a|e] s'] eqn:E; split.
  - intros H. by exists a, s'.
  - intros (a' & s1 & [= <- <-] & H). done.
  - done.
  - by intros (a' & s1 & [=] & H).
Qed.
Lemma bind_run {A B} (m : ST S A) (k : A -> ST S B) s a s' : m s = (Ok a, s') -> bind m k s = k a s'.
Proof. intros E. unfold bind. by rewrite E. Qed.
(** A loop: what each turn adds to an invariant of the elements done. *)
Lemma foreach_ok {A} (I : list A -> S -> Prop) (l : list A) (f : A -> ST S unit) :
  (forall done a s u s', a ∈ l -> I done s -> f a s = (Ok u, s') -> I (done ++ [a]) s') ->
  forall s u s', I [] s -> foreach l f s = (Ok u, s') -> I l s'.
Proof.
  intros Hf. enough (forall rest done s u s', l = done ++ rest -> I done s -> foreach rest f s = (Ok u, s') -> I l s') as H
    by (intros s u s'; by apply (H l [])).
  induction rest as [|a rest IH]; intros done s u s' Hl Hs Hr.
  - injection Hr as _ <-. by rewrite Hl, app_nil_r.
  - apply bind_ok in Hr as (u1 & s1 & Ha & Hr). eapply (IH (done ++ [a])); [|eapply Hf|done]; eauto.
    + by rewrite <- app_assoc.
    + rewrite Hl. set_solver.
Qed.
End run.

(** [run_ok H] opens every successful bind of the hypothesis [H]. *)
Ltac run_ok H :=
  repeat match type of H with
  | bind _ _ _ = (Ok _, _) =>
      let a := fresh "a" in let s := fresh "s" in let E := fresh "E" in
      apply bind_ok in H as (a & s & E & H)
  end.

(** ** Computations whose effect is a relation's

    Whatever comes of it, the state it leaves is related to the one it had. *)
Section steps.
Context {T : Type} (Rel : relation T) {HR : PreOrder Rel}.
Definition stepping {A} (m : ST T A) : Prop := forall s, Rel s (m s).2.
Lemma stepping_ret {A} (a : A) : stepping (ret a).
Proof. by intros s. Qed.
Lemma stepping_gets {A} (f : T -> A) : stepping (gets f).
Proof. by intros s. Qed.
Lemma stepping_modify f : (forall s, Rel s (f s)) -> stepping (modify f).
Proof. intros Hf s. apply Hf. Qed.
Lemma stepping_bind {A B} (m : ST T A) (k : A -> ST T B) : stepping m -> (forall a, stepping (k a)) -> stepping (bind m k).
Proof.
  intros Hm Hk s. specialize (Hm s). unfold bind. destruct (m s) as [[a|e] s']; cbn in *; [|done]. etrans; [exact Hm|apply Hk].
Qed.
Lemma stepping_foreach {A} (l : list A) (f : A -> ST T unit) : (forall a, stepping (f a)) -> stepping (foreach l f).
Proof. intros Hf. induction l as [|a l IH]; cbn; [apply stepping_ret|]. by apply stepping_bind. Qed.
Lemma stepping_collect {A B} (l : list A) (f : A -> ST T B) : (forall a, stepping (f a)) -> stepping (collect l f).
Proof.
  intros Hf. induction l as [|a l IH]; cbn; [apply stepping_ret|]. apply stepping_bind; [done|]. intros b.
  apply stepping_bind; [done|]. intros; apply stepping_ret.
Qed.
End steps.
Create HintDb stepping.
#[export] Hint Constants Opaque : stepping.
Ltac stepping_step :=
  match goal with
  | |- stepping _ (bind _ _) => apply (stepping_bind _); [|intros ?]
  | |- stepping _ (ret _) => apply (stepping_ret _)
  | |- stepping _ (gets _) => apply (stepping_gets _)
  | |- stepping _ (foreach _ _) => apply (stepping_foreach _); intros ?
  | |- stepping _ (collect _ _) => apply (stepping_collect _); intros ?
  | |- stepping _ (match ?x with _ => _ end) => destruct x
  | |- stepping _ (let '_ := ?x in _) => destruct x
  | |- stepping _ _ => solve [eauto 2 with stepping nocore]
  | |- stepping _ (modify _) => apply stepping_modify; solve [intros ?; red; by repeat case_match | intros ?; by repeat case_match | intros ?; by split | intros ?; split; [done|]; intros []; split; cbn; [done|lia]]
  end.
Ltac stepping_auto := intros; repeat (stepping_step; cbn beta iota zeta); try done.

