(* ===== verification/Text.v ===== *)
(** Go strings.

    A Go string is a sequence of bytes; here it is a [string], one [ascii] per
    byte.  This file models what the program uses of the packages strings,
    unicode, unicode/utf8, encoding/hex, strconv and fmt.  The Unicode
    character tables outside ASCII are the fields of the class [Unicode]; the
    ASCII part of every table is written out, and so is White_Space. *)
From S2P Require Import Prelude.
From stdpp Require Import pretty.
Local Open Scope Z_scope.

(** ** Bytes and runes *)
Definition byte (c : ascii) : Z := Z.of_N (N_of_ascii c).
Definition chr (z : Z) : ascii := ascii_of_N (Z.to_N z).
(** [len(s)]. *)
Definition len (s : string) : Z := Z.of_nat (String.length s).

Fixpoint bytes (s : string) : list Z :=
  match s with
  | EmptyString => []
  | String c s' => byte c :: bytes s'
  end.
Fixpoint of_bytes (l : list Z) : string :=
  match l with
  | [] => EmptyString
  | b :: l' => String (chr b) (of_bytes l')
  end.

Definition rune_error : Z := 65533.
Definition cont (b : Z) : bool := (128 <=? b) && (b <? 192).
(** [utf8.RuneStart]. *)
Definition rune_start (c : ascii) : bool := negb (cont (byte c)).

(** [utf8.DecodeRuneInString]: the rune and its width; a byte that starts no
    well-formed sequence is [(RuneError, 1)]. *)
Definition decode_rune (s : string) : Z * nat :=
  match bytes (substring 0 4 s) with
  | [] => (rune_error, 0%nat)
  | b0 :: r =>
    if b0 <? 128 then (b0, 1%nat)
    else if (194 <=? b0) && (b0 <? 224) then
      match r with
      | b1 :: _ => if cont b1 then ((b0 - 192) * 64 + (b1 - 128), 2%nat) else (rune_error, 1%nat)
      | _ => (rune_error, 1%nat)
      end
    else if (224 <=? b0) && (b0 <? 240) then
      match r with
      | b1 :: b2 :: _ =>
        let lo := if b0 =? 224 then 160 else 128 in
        let hi := if b0 =? 237 then 160 else 192 in
        if (lo <=? b1) && (b1 <? hi) && cont b2
        then ((b0 - 224) * 4096 + (b1 - 128) * 64 + (b2 - 128), 3%nat)
        else (rune_error, 1%nat)
      | _ => (rune_error, 1%nat)
      end
    else if (240 <=? b0) && (b0 <? 245) then
      match r with
      | b1 :: b2 :: b3 :: _ =>
        let lo := if b0 =? 240 then 144 else 128 in
        let hi := if b0 =? 244 then 144 else 192 in
        if (lo <=? b1) && (b1 <? hi) && cont b2 && cont b3
        then ((b0 - 240) * 262144 + (b1 - 128) * 4096 + (b2 - 128) * 64 + (b3 - 128), 4%nat)
        else (rune_error, 1%nat)
      | _ => (rune_error, 1%nat)
      end
    else (rune_error, 1%nat)
  end.

(** [utf8.AppendRune]. *)
Definition encode_rune (r : Z) : string :=
  let r := if (r <? 0) || (1114111 <? r) || ((55296 <=? r) && (r <? 57344)) then rune_error else r in
  of_bytes
    (if r <? 128 then [r]
     else if r <? 2048 then [192 + r / 64; 128 + r mod 64]
     else if r <? 65536 then [224 + r / 4096; 128 + (r / 64) mod 64; 128 + r mod 64]
     else [240 + r / 262144; 128 + (r / 4096) mod 64; 128 + (r / 64) mod 64; 128 + r mod 64]).

(** A string cut into its runes, each with the bytes it was read from: what
    [for i, r := range s] visits. *)
Fixpoint segs_from (skip : nat) (s : string) : list (Z * string) :=
  match s with
  | EmptyString => []
  | String _ s' =>
    match skip with
    | S k => segs_from k s'
    | O => let '(r, n) := decode_rune s in
           (r, substring 0 n s) :: segs_from (n - 1) s'
    end
  end.
Definition segs (s : string) : list (Z * string) := segs_from 0 s.
Definition runes (s : string) : list Z := (segs s).*1.
Definition of_segs (l : list (Z * string)) : string := String.concat "" (l.*2).
Definition seg_valid (p : Z * string) : bool :=
  negb ((p.1 =? rune_error) && (String.length p.2 =? 1)%nat).
(** [utf8.ValidString], [utf8.RuneCountInString], [strings.ToValidUTF8(s, "")]. *)
Definition valid_string (s : string) : bool := forallb seg_valid (segs s).
Definition rune_count (s : string) : Z := Z.of_nat (length (segs s)).
Definition to_valid_utf8 (s : string) : string := of_segs (List.filter seg_valid (segs s)).

(** ** Unicode character classes *)
Class Unicode := {
  uni_letter : Z -> bool;   (** [unicode.IsLetter], beyond ASCII *)
  uni_latin : Z -> bool;    (** [unicode.Is(unicode.Latin, r)], beyond ASCII *)
  uni_mn : Z -> bool;       (** [unicode.Is(unicode.Mn, r)], beyond ASCII *)
  uni_lower : Z -> Z;       (** [unicode.ToLower], beyond ASCII *)
  uni_upper : Z -> Z;       (** [unicode.ToUpper], beyond ASCII *)
  uni_print : Z -> bool     (** [strconv.IsPrint], beyond ASCII *)
}.

Definition ascii_upper_p (r : Z) : bool := (65 <=? r) && (r <=? 90).
Definition ascii_lower_p (r : Z) : bool := (97 <=? r) && (r <=? 122).
Definition ascii_digit_p (r : Z) : bool := (48 <=? r) && (r <=? 57).

(** [unicode.IsSpace]: the White_Space property. *)
Definition is_space (r : Z) : bool :=
  ((9 <=? r) && (r <=? 13)) || (r =? 32) || (r =? 133) || (r =? 160) || (r =? 5760)
  || ((8192 <=? r) && (r <=? 8202)) || (r =? 8232) || (r =? 8233) || (r =? 8239)
  || (r =? 8287) || (r =? 12288).

Section unicode.
Context {U : Unicode}.
Definition is_letter (r : Z) : bool :=
  if r <? 128 then ascii_upper_p r || ascii_lower_p r else uni_letter r.
Definition is_latin (r : Z) : bool :=
  if r <? 128 then ascii_upper_p r || ascii_lower_p r else uni_latin r.
Definition is_mn (r : Z) : bool := if r <? 128 then false else uni_mn r.
Definition rune_lower (r : Z) : Z :=
  if r <? 128 then (if ascii_upper_p r then r + 32 else r) else uni_lower r.
Definition rune_upper (r : Z) : Z :=
  if r <? 128 then (if ascii_lower_p r then r - 32 else r) else uni_upper r.
(** [strings.ToLower], [strings.ToUpper]: rune by rune; a byte that is not
    UTF-8 becomes U+FFFD. *)
Definition to_lower (s : string) : string :=
  String.concat "" (map (fun r => encode_rune (rune_lower r)) (runes s)).
Definition to_upper (s : string) : string :=
  String.concat "" (map (fun r => encode_rune (rune_upper r)) (runes s)).
End unicode.

(** [strings.EqualFold(s, t)] for a word [t] of lower-case ASCII letters other
    than k and s (the two that also fold with a letter outside ASCII). *)
Definition ascii_lower (c : ascii) : ascii :=
  let b := byte c in if ascii_upper_p b then chr (b + 32) else c.
Fixpoint equal_fold (s t : string) : bool :=
  match s, t with
  | EmptyString, EmptyString => true
  | String a s', String b t' => bool_decide (ascii_lower a = ascii_lower b) && equal_fold s' t'
  | _, _ => false
  end.

(** ** package strings *)
Fixpoint drop_while {A} (p : A -> bool) (l : list A) : list A :=
  match l with
  | [] => []
  | a :: l' => if p a then drop_while p l' else l
  end.
Definition drop_while_end {A} (p : A -> bool) (l : list A) : list A :=
  rev (drop_while p (rev l)).
Definition in_cutset (cut : string) (p : Z * string) : bool :=
  existsb (fun r => p.1 =? r) (runes cut).
Definition space_seg (p : Z * string) : bool := is_space p.1.

Definition trim_space (s : string) : string :=
  of_segs (drop_while_end space_seg (drop_while space_seg (segs s))).
Definition trim_right (s cut : string) : string :=
  of_segs (drop_while_end (in_cutset cut) (segs s)).
Definition trim_left (s cut : string) : string :=
  of_segs (drop_while (in_cutset cut) (segs s)).

Definition has_prefix (s p : string) : bool := String.prefix p s.
Definition str_drop (n : nat) (s : string) : string := substring n (String.length s - n) s.
Definition str_take (n : nat) (s : string) : string := substring 0 n s.
Definition trim_prefix (s p : string) : string :=
  if has_prefix s p then str_drop (String.length p) s else s.
Definition has_suffix (s p : string) : bool :=
  (String.length p <=? String.length s)%nat &&
  bool_decide (str_drop (String.length s - String.length p) s = p).
Definition trim_suffix (s p : string) : string :=
  if has_suffix s p then str_take (String.length s - String.length p) s else s.
Definition index_byte (s : string) (c : ascii) : option nat := String.index 0 (String c "") s.
Definition contains_byte (s : string) (c : ascii) : bool :=
  existsb (fun b => b =? byte c) (bytes s).

(** [strings.Join]. *)
Definition strings_Join (sep : string) (l : list string) : string := String.concat sep l.

(** [strings.Fields]: the runs of runes that are not white space. *)
Fixpoint fields_from (cur : string) (l : list (Z * string)) : list string :=
  match l with
  | [] => if bool_decide (cur = "") then [] else [cur]
  | p :: l' =>
    if space_seg p
    then (if bool_decide (cur = "") then fields_from "" l' else cur :: fields_from "" l')
    else fields_from (cur +:+ p.2) l'
  end.
Definition fields (s : string) : list string := fields_from "" (segs s).

(** [strings.Split(s, sep)] for a one-byte separator. *)
Fixpoint split_from (sep : ascii) (cur s : string) : list string :=
  match s with
  | EmptyString => [cur]
  | String c s' =>
    if bool_decide (c = sep) then cur :: split_from sep "" s'
    else split_from sep (cur +:+ String c "") s'
  end.
Definition split (sep : ascii) (s : string) : list string := split_from sep "" s.

(** [strings.Cut(s, sep)], the part before the separator. *)
Definition cut_before (s sep : string) : string :=
  match String.index 0 sep s with
  | Some n => str_take n s
  | None => s
  end.

(** [strings.LastIndex(s, sep)]. *)
Fixpoint last_index_from (i : nat) (s sep : string) : option nat :=
  let rest := match s with
              | EmptyString => None
              | String _ s' => last_index_from (S i) s' sep
              end in
  match rest with
  | Some n => Some n
  | None => if String.prefix sep s then Some i else None
  end.
Definition last_index (s sep : string) : option nat := last_index_from 0 s sep.

(** [strings.ReplaceAll(s, String a (String b ""), r)] for a separator of two
    bytes: left to right, without overlaps. *)
Fixpoint replace2 (a b : ascii) (r s : string) : string :=
  match s with
  | String x ((String y s'') as s') =>
    if bool_decide (x = a /\ y = b) then r +:+ replace2 a b r s''
    else String x (replace2 a b r s')
  | _ => s
  end.

(** ** package encoding/hex *)
Definition hex_digit (d : Z) : ascii := if d <? 10 then chr (48 + d) else chr (87 + d).
Fixpoint hex_encode (s : string) : string :=
  match s with
  | EmptyString => EmptyString
  | String c s' => String (hex_digit (byte c / 16)) (String (hex_digit (byte c mod 16)) (hex_encode s'))
  end.
Definition unhex_digit (c : ascii) : option Z :=
  let b := byte c in
  if ascii_digit_p b then Some (b - 48)
  else if (97 <=? b) && (b <=? 102) then Some (b - 87)
  else if (65 <=? b) && (b <=? 70) then Some (b - 55)
  else None.
Fixpoint hex_decode (s : string) : option string :=
  match s with
  | EmptyString => Some EmptyString
  | String a (String b s') =>
    match unhex_digit a, unhex_digit b, hex_decode s' with
    | Some x, Some y, Some r => Some (String (chr (16 * x + y)) r)
    | _, _, _ => None
    end
  | _ => None
  end.

(** ** package strconv and fmt *)
Definition int_max : Z := 9223372036854775807.
Fixpoint digits_value (acc : Z) (s : string) : option Z :=
  match s with
  | EmptyString => Some acc
  | String c s' =>
    if ascii_digit_p (byte c) then digits_value (10 * acc + (byte c - 48)) s' else None
  end.
(** [strconv.Atoi] on a 64-bit machine. *)
Definition atoi (s : string) : option Z :=
  let '(neg, d) := match s with
                   | String "-" d => (true, d)
                   | String "+" d => (false, d)
                   | _ => (false, s)
                   end in
  if bool_decide (d = "") then None else
  match digits_value 0 d with
  | Some v => if neg then (if v <=? int_max + 1 then Some (- v) else None)
              else (if v <=? int_max then Some v else None)
  | None => None
  end.

(** ["%d"]. *)
Definition itoa (z : Z) : string := pretty z.
(** [fmt.Sprintf] with its verbs already rendered. *)
Definition cat (l : list string) : string := String.concat "" l.

Definition dquote : string := String (chr 34) "".
Definition backslash : string := String (chr 92) "".
Definition newline : string := String (chr 10) "".
Definition hex2 (b : Z) : string := String (hex_digit (b / 16)) (String (hex_digit (b mod 16)) "").
(** ["%q"], [strconv.Quote]. *)
Definition quote_seg `{Unicode} (p : Z * string) : string :=
  let '(r, chunk) := p in
  if negb (seg_valid p) then backslash +:+ "x" +:+ hex_encode chunk
  else if (r =? 34) || (r =? 92) then backslash +:+ chunk
  else if r <? 128 then
    if (32 <=? r) && (r <? 127) then chunk
    else if r =? 7 then backslash +:+ "a" else if r =? 8 then backslash +:+ "b"
    else if r =? 12 then backslash +:+ "f" else if r =? 10 then backslash +:+ "n"
    else if r =? 13 then backslash +:+ "r" else if r =? 9 then backslash +:+ "t"
    else if r =? 11 then backslash +:+ "v"
    else backslash +:+ "x" +:+ hex2 r
  else if uni_print r then chunk
  else if r <? 65536 then backslash +:+ "u" +:+ hex2 (r / 256) +:+ hex2 (r mod 256)
  else backslash +:+ "U00" +:+ hex2 (r / 65536) +:+ hex2 ((r / 256) mod 256) +:+ hex2 (r mod 256).
Definition quote `{Unicode} (s : string) : string :=
  dquote +:+ cat (map quote_seg (segs s)) +:+ dquote.

(** ** Order of strings and blobs: byte by byte *)
Definition str_lt (a b : string) : bool := String.ltb a b.
Definition str_le (a b : string) : Prop := String.leb a b = true.
#[export] Instance str_le_dec : RelDecision str_le.
Proof. intros a b. unfold str_le. apply _. Defined.
