(* ===== verification/TextCut.v ===== *)
(** Cutting strings: slices, the ends of runes, trimming of ASCII, and what is
    left of a text when the white space at its cuts is taken away. *)
From S2P Require Import Prelude Text.
Local Open Scope Z_scope.

(** ** What the program uses *)
(** [strings.TrimLeft] and [strings.TrimRight] for a cutset of ASCII
    characters: byte by byte, as the package does. *)
Definition in_ascii_set (cut : string) (c : ascii) : bool := existsb (fun b => b =? byte c) (bytes cut).
Fixpoint trim_left_ascii (cut s : string) : string :=
  match s with
  | EmptyString => ""
  | String c s' => if in_ascii_set cut c then trim_left_ascii cut s' else s
  end.
Fixpoint trim_right_ascii (cut s : string) : string :=
  match s with
  | EmptyString => ""
  | String c s' =>
    let r := trim_right_ascii cut s' in
    if bool_decide (r = "") && in_ascii_set cut c then "" else String c r
  end.
(** [for i > 0 && !utf8.RuneStart(s[i]) { i-- }], for an [i] inside [s]. *)
Fixpoint rune_floor (s : string) (i : nat) : nat :=
  match i with
  | O => O
  | S j => match String.get i s with
           | Some c => if rune_start c then i else rune_floor s j
           | None => i
           end
  end.
(** [strings.Contains]. *)
Fixpoint contains (s sub : string) : bool :=
  String.prefix sub s || match s with EmptyString => false | String _ s' => contains s' sub end.

(** ** Slices *)
Lemma substring_0 s : substring 0 0 s = "".
Proof. by destruct s. Qed.
Lemma str_take_0 s : str_take 0 s = "".
Proof. apply substring_0. Qed.
Lemma str_take_cons n c s : str_take (S n) (String c s) = String c (str_take n s).
Proof. done. Qed.
Lemma str_drop_cons n c s : str_drop (S n) (String c s) = str_drop n s.
Proof. done. Qed.
Lemma str_drop_0 s : str_drop 0 s = s.
Proof. unfold str_drop. rewrite Nat.sub_0_r. induction s as [|c s IH]; cbn; [done|]. by rewrite IH. Qed.
Lemma take_drop n s : str_take n s +:+ str_drop n s = s.
Proof.
  revert s. induction n as [|n IH]; intros [|c s]; [done|apply str_drop_0|done|].
  rewrite str_take_cons, str_drop_cons. change (String c (str_take n s +:+ str_drop n s) = String c s). by rewrite IH.
Qed.
Lemma str_app_cons c s t : String c s +:+ t = String c (s +:+ t).
Proof. done. Qed.
Lemma str_app_empty t : "" +:+ t = t.
Proof. done. Qed.
Lemma length_str_app s t : String.length (s +:+ t) = (String.length s + String.length t)%nat.
Proof. induction s as [|c s IH]; [done|]. rewrite str_app_cons. cbn [String.length]. by rewrite IH. Qed.
Lemma length_str_take n s : String.length (str_take n s) = Nat.min n (String.length s).
Proof. revert s. induction n as [|n IH]; intros [|c s]; [done..|]. rewrite str_take_cons. cbn [String.length]. by rewrite IH. Qed.
Lemma length_str_drop n s : String.length (str_drop n s) = (String.length s - n)%nat.
Proof. pose proof (f_equal String.length (take_drop n s)) as H. rewrite length_str_app, length_str_take in H. lia. Qed.
Lemma str_take_app s t : str_take (String.length s) (s +:+ t) = s.
Proof. induction s as [|c s IH]; [by destruct t|]. rewrite str_app_cons. cbn [String.length]. by rewrite str_take_cons, IH. Qed.
Lemma str_drop_app s t : str_drop (String.length s) (s +:+ t) = t.
Proof. induction s as [|c s IH]; [apply str_drop_0|]. rewrite str_app_cons. cbn [String.length]. by rewrite str_drop_cons. Qed.
Lemma str_app_assoc (s t u : string) : s +:+ (t +:+ u) = (s +:+ t) +:+ u.
Proof. induction s as [|c s IH]; [done|]. by rewrite !str_app_cons, IH. Qed.
Lemma str_app_nil (s : string) : s +:+ "" = s.
Proof. induction s as [|c s IH]; [done|]. by rewrite str_app_cons, IH. Qed.
Lemma get_app_l s t i : (i < String.length s)%nat -> String.get i (s +:+ t) = String.get i s.
Proof.
  revert i. induction s as [|c s IH]; intros [|i] H; cbn [String.length] in H; [lia..|done|]. rewrite str_app_cons.
  apply IH. lia.
Qed.
Lemma get_app_r s t i : String.get (String.length s + i) (s +:+ t) = String.get i t.
Proof. induction s as [|c s IH]; [done|apply IH]. Qed.
Lemma get_some s i : (i < String.length s)%nat -> exists c, String.get i s = Some c.
Proof. revert i. induction s as [|c s IH]; intros [|i] H; cbn in *; [lia..|by eexists|]. apply IH. lia. Qed.

(** ** Valid UTF-8 is a sequence of well-formed runes *)
Lemma segs_from_drop k s : segs_from k s = segs (str_drop k s).
Proof.
  revert s. induction k as [|k IH]; intros s; [by rewrite str_drop_0|].
  destruct s as [|c s]; [done|]. cbn [segs_from]. by rewrite IH, str_drop_cons.
Qed.
Lemma valid_String c s :
  valid_string (String c s) =
    seg_valid ((decode_rune (String c s)).1, str_take (decode_rune (String c s)).2 (String c s)) &&
    valid_string (str_drop ((decode_rune (String c s)).2 - 1) s).
Proof.
  unfold valid_string at 1, segs. cbn [segs_from]. destruct (decode_rune (String c s)) as [r n]. cbn [forallb fst snd].
  by rewrite segs_from_drop.
Qed.
Lemma cont_not_start x : cont (byte x) = true -> rune_start x = false.
Proof. unfold rune_start. by intros ->. Qed.
Lemma second_not_start lo hi x : (128 <=? lo) = true -> (hi <=? 192) = true ->
  (lo <=? byte x) && (byte x <? hi) = true -> rune_start x = false.
Proof. intros Hlo Hhi H. apply cont_not_start. unfold cont. lia. Qed.
(** [t] is the rune and [u] what follows it. *)
Ltac rune_is t u :=
  exists t, u; split; [reflexivity|]; split; [reflexivity|]; split; [lia|]; split; [unfold rune_start, cont; lia|]; split;
    [ let i := fresh in let d := fresh in let Hg := fresh in intros i d ? Hg;
      destruct i as [|[|[|[|i]]]]; cbn in Hg; simplify_eq; try lia; rewrite ?andb_true_iff in *; destruct_and?;
      first [ by apply cont_not_start | eapply second_not_start; [..|by apply andb_true_iff]; reflexivity ]
    | intros u'; rewrite ?str_app_cons, ?str_app_empty; cbn [substring bytes]; repeat match goal with H : ?x = _ :> bool |- context [?x] => rewrite H end;
      reflexivity ].
(** A rune that decodes does so whatever follows it. *)
Lemma decode_valid c s r n :
  decode_rune (String c s) = (r, n) -> seg_valid (r, str_take n (String c s)) = true ->
  exists t u, String c s = t +:+ u /\ String.length t = n /\ (1 <= n <= 4)%nat /\ rune_start c = true /\
    (forall i d, (0 < i)%nat -> String.get i t = Some d -> rune_start d = false) /\
    forall u', decode_rune (t +:+ u') = (r, n).
Proof.
  intros E Hv.
  assert (r = rune_error -> n = 1%nat -> False) as Hbad by (intros -> ->; by destruct s).
  revert E. unfold decode_rune.
  destruct s as [|c1 [|c2 [|c3 s]]]; cbn [substring bytes]; rewrite ?substring_0; cbn [bytes].
  all: repeat (case_match; simplify_eq; try (intros [= <- <-]; exfalso; by apply Hbad)).
  all: intros [= <- <-].
  all: first
    [ rune_is (String c "") (str_drop 1 (String c ""))
    | rune_is (String c "") (String c1 "") | rune_is (String c "") (String c1 (String c2 ""))
    | rune_is (String c "") (String c1 (String c2 (String c3 s)))
    | rune_is (String c (String c1 "")) "" | rune_is (String c (String c1 "")) (String c2 "")
    | rune_is (String c (String c1 "")) (String c2 (String c3 s))
    | rune_is (String c (String c1 (String c2 ""))) "" | rune_is (String c (String c1 (String c2 ""))) (String c3 s)
    | rune_is (String c (String c1 (String c2 (String c3 "")))) s ].
Qed.

(** ** Cutting valid text between runes *)
(** Position [i] of [s] is where a rune starts or the text ends. *)
Definition boundary (s : string) (i : nat) : Prop :=
  i = O \/ (String.length s <= i)%nat \/ exists c, String.get i s = Some c /\ rune_start c = true.

Definition one_rune (t : string) : Prop :=
  (1 <= String.length t <= 4)%nat /\
  (forall c, String.get 0 t = Some c -> rune_start c = true) /\
  (forall i c, (0 < i)%nat -> String.get i t = Some c -> rune_start c = false) /\
  forall u, valid_string (t +:+ u) = valid_string u.
Lemma one_rune_valid c t r : decode_rune (String c t) = (r, String.length (String c t)) ->
  seg_valid (r, String c t) = true -> forall u, decode_rune (String c t +:+ u) = (r, String.length (String c t)) ->
  valid_string (String c t +:+ u) = valid_string u.
Proof.
  intros _ Hv u Hu. pose proof (str_take_app (String c t) u) as Htk. rewrite str_app_cons in *. rewrite valid_String, Hu.
  cbn [fst snd]. rewrite Htk, Hv. cbn [andb String.length]. by rewrite Nat.sub_succ, Nat.sub_0_r, str_drop_app.
Qed.
Lemma valid_step s : valid_string s = true -> s = "" \/ exists t u, s = t +:+ u /\ one_rune t /\ valid_string u = true.
Proof.
  destruct s as [|c s]; [by left|]. intros Hs. right. pose proof Hs as Hv. rewrite valid_String in Hv.
  apply andb_true_iff in Hv as [Hv _]. destruct (decode_rune (String c s)) as [r n] eqn:E. cbn [fst snd] in *.
  destruct (decode_valid c s r n E Hv) as (t & u & He & Hn & Hl & H0 & Hc & Ht). rewrite He, <- Hn, str_take_app in Hv.
  exists t, u. split; [done|].
  assert (forall u', valid_string (t +:+ u') = valid_string u') as Hall.
  { intros u'. destruct t as [|c' t]; [cbn in Hn; lia|]. apply (one_rune_valid c' t r); [|done|]; rewrite Hn; [|done].
    specialize (Ht ""). by rewrite str_app_nil in Ht. }
  split; [|by rewrite <- Hall, <- He]. split_and!; [lia|lia| |done|done].
  intros d Hd. destruct t as [|c' t]; [cbn in Hn; lia|]. injection Hd as <-. by injection He as ->.
Qed.
(** Induction on the runes of a valid text. *)
Lemma valid_ind (P : string -> Prop) :
  P "" -> (forall t u, one_rune t -> valid_string u = true -> P u -> P (t +:+ u)) ->
  forall s, valid_string s = true -> P s.
Proof.
  intros H0 Hstep s. remember (String.length s) as n eqn:Hn. revert s Hn.
  induction (lt_wf n) as [n _ IH]. intros s -> [->|(t & u & -> & Ht & Hu)]%valid_step; [done|].
  apply Hstep; [done..|]. eapply IH; [|reflexivity|done]. rewrite length_str_app. destruct Ht. lia.
Qed.
Lemma valid_app s t : valid_string s = true -> valid_string (s +:+ t) = valid_string t.
Proof.
  intros Hs. revert s Hs. apply (valid_ind (fun s => valid_string (s +:+ t) = valid_string t)); [done|].
  intros c u (_ & _ & _ & Hc) _ IH. by rewrite <- str_app_assoc, Hc.
Qed.
Lemma str_take_app_ge s t n : (String.length s <= n)%nat -> str_take n (s +:+ t) = s +:+ str_take (n - String.length s) t.
Proof.
  revert n. induction s as [|c s IH]; intros n Hn; [cbn [String.length]; by rewrite Nat.sub_0_r, ?str_app_empty|]. destruct n as [|n]; cbn [String.length] in *; [lia|].
  rewrite !str_app_cons, str_take_cons, IH by lia. done.
Qed.
Lemma str_drop_app_ge s t n : (String.length s <= n)%nat -> str_drop n (s +:+ t) = str_drop (n - String.length s) t.
Proof.
  revert n. induction s as [|c s IH]; intros n Hn; [cbn [String.length]; by rewrite Nat.sub_0_r, ?str_app_empty|]. destruct n as [|n]; cbn [String.length] in *; [lia|].
  rewrite !str_app_cons, str_drop_cons, IH by lia. done.
Qed.
Lemma boundary_app t u i : one_rune t -> boundary (t +:+ u) i -> i = O \/ (String.length t <= i)%nat /\ boundary u (i - String.length t).
Proof.
  intros (Hl & _ & Hc & _) [->|[Hi|(c & Hg & Hs)]]; [by left|right|].
  - rewrite length_str_app in Hi. split; [lia|]. right. left. lia.
  - destruct (decide (i = O)) as [->|Hi0]; [by left|]. right. destruct (decide (i < String.length t)%nat) as [Hi|Hi].
    + rewrite get_app_l in Hg by done. rewrite (Hc i c) in Hs by (done || lia). done.
    + split; [lia|]. replace i with (String.length t + (i - String.length t))%nat in Hg by lia. rewrite get_app_r in Hg.
      right. right. by exists c.
Qed.
(** Cut where a rune starts, both halves of a valid text are valid. *)
Lemma valid_cut s i : valid_string s = true -> boundary s i ->
  valid_string (str_take i s) = true /\ valid_string (str_drop i s) = true.
Proof.
  intros Hs. revert s Hs i. apply (valid_ind (fun s => forall i, boundary s i -> _ /\ _)).
  - intros [|i] _; rewrite ?str_take_0; done.
  - intros t u Ht Hu IH i [->|[Hl Hb]]%boundary_app; [| |done].
    + rewrite str_take_0, str_drop_0. by rewrite (proj2 (proj2 (proj2 Ht))).
    + destruct (IH _ Hb) as [H1 H2]. rewrite str_take_app_ge, str_drop_app_ge by done. by rewrite (proj2 (proj2 (proj2 Ht))).
Qed.

(** ** Where the last rune before a position starts *)
Lemma rune_floor_le s i : (rune_floor s i <= i)%nat.
Proof. induction i as [|i IH]; cbn; [done|]. repeat case_match; lia. Qed.
Lemma rune_floor_boundary s i : boundary s (rune_floor s i).
Proof.
  induction i as [|i IH]; [by left|]. cbn [rune_floor]. destruct (String.get (S i) s) as [c|] eqn:Hg.
  - destruct (rune_start c) eqn:Hc; [|done]. right. right. by exists c.
  - right. left. destruct (decide (S i < String.length s)%nat) as [Hi|]; [|lia]. destruct (get_some _ _ Hi). congruence.
Qed.
Lemma rune_floor_ge s i j : (i < String.length s)%nat -> (j <= i)%nat -> boundary s j -> (j <= rune_floor s i)%nat.
Proof.
  intros Hi Hj Hb. induction i as [|i IH]; [cbn; lia|]. cbn [rune_floor].
  destruct (get_some s (S i) Hi) as [c Hg]. rewrite Hg. destruct (rune_start c) eqn:Hc; [lia|].
  assert (j <> S i).
  { intros ->. destruct Hb as [Hb|[Hb|(d & Hd & Hs)]]; [lia|lia|congruence]. }
  apply IH; lia.
Qed.
(** A rune is four bytes at most, so one starts close by. *)
Lemma rune_floor_near s i : valid_string s = true -> (i < String.length s)%nat -> (i <= rune_floor s i + 3)%nat.
Proof.
  intros Hs Hi. enough (exists j, (j <= i <= j + 3)%nat /\ boundary s j) as (j & Hj & Hb).
  { pose proof (rune_floor_ge s i j Hi ltac:(lia) Hb). lia. }
  clear Hi. revert s Hs i. apply (valid_ind (fun s => forall i, exists j, _)).
  - intros i. exists i. split; [lia|]. right. left. cbn. lia.
  - intros t u (Hl & _ & Hc & _) Hu IH i. destruct (decide (i < String.length t)%nat) as [Hi|Hi].
    + exists O. split; [lia|by left].
    + destruct (IH (i - String.length t)%nat) as (j & Hj & Hb). exists (String.length t + j)%nat. split; [lia|].
      right. destruct Hb as [->|[Hb|(c & Hg & Hcs)]].
      * rewrite Nat.add_0_r. destruct (valid_step u Hu) as [->|(t' & u' & -> & (Hl' & H0 & _) & _)].
        -- left. rewrite length_str_app. cbn. lia.
        -- right. rewrite <- (Nat.add_0_r (String.length t)), get_app_r, get_app_l by lia.
           destruct (get_some t' 0 ltac:(lia)) as [c Hg]. exists c. auto.
      * left. rewrite length_str_app. lia.
      * right. exists c. by rewrite get_app_r.
Qed.

(** ** Text without the characters a cut may take away *)
Lemma cat_cons s l : cat (s :: l) = s +:+ cat l.
Proof. unfold cat. destruct l; cbn; [by rewrite str_app_nil|done]. Qed.
Fixpoint squeeze (cut s : string) : string :=
  match s with
  | EmptyString => ""
  | String c s' => if in_ascii_set cut c then squeeze cut s' else String c (squeeze cut s')
  end.
(** A cutset of ASCII characters. *)
Definition ascii_cutset (cut : string) : Prop := Forall (fun b => b < 128) (bytes cut).

Section squeeze.
Context (cut : string).
Lemma squeeze_app s t : squeeze cut (s +:+ t) = squeeze cut s +:+ squeeze cut t.
Proof.
  induction s as [|c s IH]; [done|]. rewrite str_app_cons. cbn [squeeze]. case_match; [done|]. by rewrite IH.
Qed.
Lemma squeeze_cat l : squeeze cut (cat l) = cat (map (squeeze cut) l).
Proof. induction l as [|s l IH]; [done|]. cbn [map]. by rewrite !cat_cons, squeeze_app, IH. Qed.
Lemma squeeze_trim_left s : squeeze cut (trim_left_ascii cut s) = squeeze cut s.
Proof. induction s as [|c s IH]; [done|]. cbn. destruct (in_ascii_set cut c) eqn:E; [done|]. cbn. by rewrite E. Qed.
Lemma squeeze_trim_right s : squeeze cut (trim_right_ascii cut s) = squeeze cut s.
Proof.
  induction s as [|c s IH]; [done|]. cbn [trim_right_ascii squeeze]. case_bool_decide as Hr; cbn [andb].
  - rewrite <- IH, Hr. cbn. destruct (in_ascii_set cut c) eqn:E; cbn; [done|]. by rewrite E.
  - cbn [squeeze]. by rewrite IH.
Qed.
Lemma squeeze_single c s : in_ascii_set cut c = true -> squeeze cut (String c s) = squeeze cut s.
Proof. cbn. by intros ->. Qed.

Lemma trim_left_length s : (String.length (trim_left_ascii cut s) <= String.length s)%nat.
Proof. induction s as [|c s IH]; cbn; [done|]. case_match; cbn; lia. Qed.
Lemma trim_right_length s : (String.length (trim_right_ascii cut s) <= String.length s)%nat.
Proof. induction s as [|c s IH]; cbn; [done|]. case_match; cbn; lia. Qed.

Lemma valid_ascii_cons c s : byte c < 128 -> valid_string (String c s) = valid_string s.
Proof.
  intros Hc. rewrite valid_String. unfold decode_rune. cbn [substring bytes]. destruct (Z.ltb_spec (byte c) 128); [|lia].
  cbn [fst snd]. rewrite Nat.sub_diag, str_drop_0. unfold seg_valid. cbn.
  destruct (Z.eqb_spec (byte c) rune_error) as [He|]; [unfold rune_error in He; lia|done].
Qed.
Lemma in_set_ascii c : ascii_cutset cut -> in_ascii_set cut c = true -> byte c < 128.
Proof.
  unfold ascii_cutset, in_ascii_set. rewrite existsb_exists, Forall_forall. intros Hs (b & Hb & He).
  apply Z.eqb_eq in He as <-. apply Hs. by apply list_elem_of_In.
Qed.
Lemma trim_left_valid s : ascii_cutset cut -> valid_string s = true -> valid_string (trim_left_ascii cut s) = true.
Proof.
  intros Ha. induction s as [|c s IH]; [done|]. intros Hs. cbn. destruct (in_ascii_set cut c) eqn:E; [|done].
  apply IH. by rewrite <- Hs, (valid_ascii_cons c) by by apply in_set_ascii.
Qed.
(** What is trimmed off the right starts with a character of the cutset. *)
Lemma trim_right_take s : exists k, trim_right_ascii cut s = str_take k s /\
  ((String.length s <= k)%nat \/ exists c, String.get k s = Some c /\ in_ascii_set cut c = true).
Proof.
  induction s as [|c s (k & Hk & Hc)]; [exists O; split; [done|by left]|]. cbn [trim_right_ascii].
  destruct (bool_decide (trim_right_ascii cut s = "") && in_ascii_set cut c) eqn:E.
  - exists O. split; [done|]. right. apply andb_true_iff in E as [_ E]. by exists c.
  - exists (S k). rewrite str_take_cons, Hk. split; [done|]. destruct Hc as [Hc|Hc]; [left; cbn; lia|by right].
Qed.
Lemma trim_right_valid s : ascii_cutset cut -> valid_string s = true -> valid_string (trim_right_ascii cut s) = true.
Proof.
  intros Ha Hs. destruct (trim_right_take s) as (k & -> & Hk). apply valid_cut; [done|]. right.
  destruct Hk as [Hk|(c & Hg & Hc)]; [by left|]. right. exists c. split; [done|].
  pose proof (in_set_ascii c Ha Hc). unfold rune_start, cont. lia.
Qed.
End squeeze.

(** ** Where a separator is *)
Lemma prefix_app p s : String.prefix p s = true -> exists t, s = p +:+ t.
Proof.
  revert s. induction p as [|c p IH]; intros s; [by exists s|]. destruct s as [|d s]; [done|]. cbn.
  case_match; [|done]. subst. intros (t & ->)%IH. by exists t.
Qed.
Lemma last_index_app sep s i : last_index s sep = Some i -> exists a b, s = a +:+ (sep +:+ b) /\ String.length a = i.
Proof.
  unfold last_index. enough (forall k, last_index_from k s sep = Some i ->
    exists a b, s = a +:+ (sep +:+ b) /\ (k + String.length a)%nat = i) as H by (intros (a & b & Hs & Hi)%H; eauto).
  induction s as [|c s IH]; intros k; cbn [last_index_from].
  - destruct (String.prefix sep "") eqn:Hp; [|done]. intros [= <-]. apply prefix_app in Hp as [t Ht].
    exists "", t. split; [done|]. cbn. lia.
  - destruct (last_index_from (S k) s sep) as [n|] eqn:Hn.
    + intros [= <-]. apply IH in Hn as (a & b & -> & <-). exists (String c a), b. split; [done|]. cbn. lia.
    + destruct (String.prefix sep (String c s)) eqn:Hp; [|done]. intros [= <-]. apply prefix_app in Hp as [t Ht].
      exists "", t. split; [done|]. cbn. lia.
Qed.
(** A separator found in the window, seen from the text. *)
Lemma window_sep sep s room i : last_index (str_take room s) sep = Some i ->
  exists t, s = str_take i s +:+ (sep +:+ t) /\ str_drop (i + String.length sep) s = t /\ (i + String.length sep <= room)%nat.
Proof.
  intros (a & b & Hw & <-)%last_index_app. pose proof (take_drop room s) as Hs. rewrite Hw, <- !str_app_assoc in Hs.
  exists (b +:+ str_drop room s). set (t := b +:+ str_drop room s) in *. rewrite <- Hs. split; [by rewrite str_take_app|]. split.
  - rewrite str_drop_app_ge by lia. rewrite Nat.add_comm, Nat.add_sub. apply str_drop_app.
  - pose proof (length_str_take room s) as Hl. rewrite Hw, !length_str_app in Hl. lia.
Qed.

Lemma valid_first s : valid_string s = true -> s = "" \/ exists c, String.get 0 s = Some c /\ rune_start c = true.
Proof.
  intros [->|(t & u & -> & (Hl & H0 & _) & _)]%valid_step; [by left|right].
  destruct (get_some t 0 ltac:(lia)) as [c Hg]. exists c. rewrite get_app_l by lia. auto.
Qed.
Lemma boundary_app_r a t i : boundary t i -> valid_string t = true -> boundary (a +:+ t) (String.length a + i).
Proof.
  intros Hb Ht. right. assert (t = "" \/ (String.length t <= i)%nat \/ exists c, String.get i t = Some c /\ rune_start c = true) as H.
  { destruct Hb as [->|Hb]; [|tauto]. destruct (valid_first t Ht) as [->|(c & Hc)]; [by left|]. right. right. by exists c. }
  destruct H as [->|[H|(c & Hg & Hc)]].
  - left. rewrite length_str_app. cbn. lia.
  - left. rewrite length_str_app. lia.
  - right. exists c. by rewrite get_app_r.
Qed.
