(* ===== verification/Db.v ===== *)
(** The store's data: internal/store's types and the tables of
    internal/store/migrations, as one record of finite maps.

    A table with a primary key is a [gmap] from the key; the audit log, which
    is only ever appended to, is a list.  The [CHECK], [UNIQUE] and [REFERENCES]
    constraints of the schema are the tests the operations of the Store*.v
    files make, and the invariant [db_wf] at the end of this file. *)
From S2P Require Import Prelude Text.
Local Open Scope Z_scope.

(** An identity hash: 16 bytes when valid. *)
Notation ident := string (only parsing).

(** [store.IdentityLen] and [checkID] (store.go). *)
Definition IdentityLen : Z := 16.
Definition checkID (id : ident) : bool := len id =? IdentityLen.

Inductive Via := ViaRRC | ViaLXMF | ViaPage | ViaImport.
Inductive Kind := KindMsg | KindAction.
Inductive LXMFMode := LXMFOn | LXMFOff | LXMFAuto.
Inductive Role := RoleOp | RoleVoice | RoleBan.
(** [store.Rank]: what the column people.role holds. *)
Inductive SRank := SRankMember | SRankMod | SRankAdmin.
Inductive DeliveryState :=
  | DeliveryQueued | DeliverySent | DeliveryPropagated | DeliveryProven | DeliveryFailed.

#[export] Instance Via_eq_dec : EqDecision Via. Proof. solve_decision. Defined.
#[export] Instance Kind_eq_dec : EqDecision Kind. Proof. solve_decision. Defined.
#[export] Instance LXMFMode_eq_dec : EqDecision LXMFMode. Proof. solve_decision. Defined.
#[export] Instance Role_eq_dec : EqDecision Role. Proof. solve_decision. Defined.
#[export] Instance SRank_eq_dec : EqDecision SRank. Proof. solve_decision. Defined.
#[export] Instance DeliveryState_eq_dec : EqDecision DeliveryState. Proof. solve_decision. Defined.

#[export] Instance Via_countable : Countable Via.
Proof.
  refine (inj_countable'
    (fun v => match v with ViaRRC => 0 | ViaLXMF => 1 | ViaPage => 2 | ViaImport => 3 end)
    (fun z => match z with 0 => ViaRRC | 1 => ViaLXMF | 2 => ViaPage | _ => ViaImport end) _).
  by intros [].
Defined.
#[export] Instance Role_countable : Countable Role.
Proof.
  refine (inj_countable'
    (fun r => match r with RoleOp => 0 | RoleVoice => 1 | RoleBan => 2 end)
    (fun z => match z with 0 => RoleOp | 1 => RoleVoice | _ => RoleBan end) _).
  by intros [].
Defined.

(** ** Rows *)
Record Identity := mkIdentity {
  Identity_ID : ident;
  Identity_PublicKey : option string;
  Identity_FirstSeen : Z;
  Identity_LastSeen : Z;
  Identity_LXMFMode : LXMFMode;
  Identity_LXMFMine : bool;
  Identity_Person : Z;
  Identity_PersonSince : Z
}.
Record Prefs := mkPrefs {
  ShareLXMF : bool;
  Whispers : bool;
  WhispersLXMF : bool;
  PageLines : Z;
  PageFlag : bool;
  PageRefresh : Z
}.
Record SPerson := mkSPerson {
  SPerson_ID : Z;
  SPerson_CreatedAt : Z;
  SPerson_Rank : SRank;
  SPerson_RankBy : option ident;
  SPerson_RankAt : Z;
  SPerson_Prefs : Prefs
}.
(** A row of names, keyed by person. *)
Record NameRow := mkNameRow {
  nr_name : string;
  nr_skeleton : string;
  nr_claimed_at : Z
}.
(** [store.Name]: the row with the person's primary identity. *)
Record Name := mkName {
  Name_Person : Z;
  Name_Identity : ident;
  Name_Name : string;
  Name_Skeleton : string;
  Name_ClaimedAt : Z
}.
Record LinkCode := mkLinkCode {
  LinkCode_Hash : string;
  LinkCode_Person : Z;
  LinkCode_IssuedBy : ident;
  LinkCode_IssuedAt : Z;
  LinkCode_ExpiresAt : Z;
  LinkCode_RedeemedBy : option ident;
  LinkCode_RedeemedVia : option Via
}.
Record Room := mkRoom {
  Room_Name : string;
  Room_Topic : string;
  Room_Founder : option ident;
  Room_Registered : bool;
  Room_Modes : string;
  Room_Key : string;
  Room_CreatedAt : Z;
  Room_LastUsed : Z
}.
Record RoleRow := mkRoleRow { role_set_by : option ident; role_set_at : Z }.
Record Message := mkMessage {
  Message_ID : Z;
  Message_Room : string;
  Message_Kind : Kind;
  Message_Author : ident;
  Message_AuthorName : string;
  Message_Body : string;
  Message_Via : Via;
  Message_OriginID : option string;
  Message_SaidAt : Z;
  Message_HubAt : Z;
  Message_Ext : option string
}.
Record Cursor := mkCursor { Cursor_MessageID : Z; Cursor_UpdatedAt : Z }.
(** A row of members, keyed by identity, and [store.Member], its join. *)
Record MemberRow := mkMemberRow { mr_joined_at : Z; mr_away_until : Z }.
Record SMember := mkSMember {
  SMember_Identity : ident;
  SMember_JoinedAt : Z;
  SMember_AwayUntil : Z;
  SMember_LXMFMode : LXMFMode;
  SMember_LXMFMine : bool
}.
(** A row of deliveries or whisper_deliveries, and [store.Delivery]. *)
Record DeliveryRow := mkDeliveryRow {
  dr_state : DeliveryState;
  dr_attempts : Z;
  dr_parts_done : Z;
  dr_next_at : Z;
  dr_updated_at : Z
}.
Record Delivery := mkDelivery {
  Delivery_MessageID : Z;
  Delivery_Whisper : bool;
  Delivery_Identity : ident;
  Delivery_State : DeliveryState;
  Delivery_Attempts : Z;
  Delivery_PartsDone : Z;
  Delivery_NextAt : Z;
  Delivery_UpdatedAt : Z
}.
Record Ban := mkBan {
  Ban_Identity : ident;
  Ban_Name : string;
  Ban_Reason : string;
  Ban_BannedBy : option ident;
  Ban_BannedAt : Z;
  Ban_ExpiresAt : Z
}.
Record Whisper := mkWhisper {
  Whisper_ID : Z;
  Whisper_From : ident;
  Whisper_FromName : string;
  Whisper_ToPerson : Z;
  Whisper_ToName : string;
  Whisper_Body : string;
  Whisper_Via : Via;
  Whisper_SaidAt : Z;
  Whisper_RRCAt : Z;
  Whisper_ReadAt : Z
}.
Record AuditEntry := mkAuditEntry {
  Audit_ID : Z;
  Audit_At : Z;
  Audit_Actor : option ident;
  Audit_Action : string;
  Audit_Target : string;
  Audit_Detail : string
}.

(** ** The database *)
Record DB := mkDB {
  identities : gmap ident Identity;
  people : gmap Z SPerson;
  names : gmap Z NameRow;
  link_codes : gmap string LinkCode;
  rooms : gmap string Room;
  room_roles : gmap (string * ident * Role) RoleRow;
  invites : gmap (string * ident) Z;
  messages : gmap Z Message;
  cursors : gmap (ident * string * Via) Cursor;
  members : gmap ident MemberRow;
  deliveries : gmap (Z * ident) DeliveryRow;
  bans : gmap ident Ban;
  whispers : gmap Z Whisper;
  whisper_deliveries : gmap (Z * ident) DeliveryRow;
  ignores : gmap (Z * Z) Z;
  audit : list AuditEntry;
  meta : gmap string string
}.

Definition set_identities (x : gmap ident Identity) (d : DB) : DB :=
  mkDB x (people d) (names d) (link_codes d) (rooms d) (room_roles d) (invites d) (messages d) (cursors d) (members d) (deliveries d) (bans d) (whispers d) (whisper_deliveries d) (ignores d) (audit d) (meta d).
Definition set_people (x : gmap Z SPerson) (d : DB) : DB :=
  mkDB (identities d) x (names d) (link_codes d) (rooms d) (room_roles d) (invites d) (messages d) (cursors d) (members d) (deliveries d) (bans d) (whispers d) (whisper_deliveries d) (ignores d) (audit d) (meta d).
Definition set_names (x : gmap Z NameRow) (d : DB) : DB :=
  mkDB (identities d) (people d) x (link_codes d) (rooms d) (room_roles d) (invites d) (messages d) (cursors d) (members d) (deliveries d) (bans d) (whispers d) (whisper_deliveries d) (ignores d) (audit d) (meta d).
Definition set_link_codes (x : gmap string LinkCode) (d : DB) : DB :=
  mkDB (identities d) (people d) (names d) x (rooms d) (room_roles d) (invites d) (messages d) (cursors d) (members d) (deliveries d) (bans d) (whispers d) (whisper_deliveries d) (ignores d) (audit d) (meta d).
Definition set_rooms (x : gmap string Room) (d : DB) : DB :=
  mkDB (identities d) (people d) (names d) (link_codes d) x (room_roles d) (invites d) (messages d) (cursors d) (members d) (deliveries d) (bans d) (whispers d) (whisper_deliveries d) (ignores d) (audit d) (meta d).
Definition set_room_roles (x : gmap (string * ident * Role) RoleRow) (d : DB) : DB :=
  mkDB (identities d) (people d) (names d) (link_codes d) (rooms d) x (invites d) (messages d) (cursors d) (members d) (deliveries d) (bans d) (whispers d) (whisper_deliveries d) (ignores d) (audit d) (meta d).
Definition set_invites (x : gmap (string * ident) Z) (d : DB) : DB :=
  mkDB (identities d) (people d) (names d) (link_codes d) (rooms d) (room_roles d) x (messages d) (cursors d) (members d) (deliveries d) (bans d) (whispers d) (whisper_deliveries d) (ignores d) (audit d) (meta d).
Definition set_messages (x : gmap Z Message) (d : DB) : DB :=
  mkDB (identities d) (people d) (names d) (link_codes d) (rooms d) (room_roles d) (invites d) x (cursors d) (members d) (deliveries d) (bans d) (whispers d) (whisper_deliveries d) (ignores d) (audit d) (meta d).
Definition set_cursors (x : gmap (ident * string * Via) Cursor) (d : DB) : DB :=
  mkDB (identities d) (people d) (names d) (link_codes d) (rooms d) (room_roles d) (invites d) (messages d) x (members d) (deliveries d) (bans d) (whispers d) (whisper_deliveries d) (ignores d) (audit d) (meta d).
Definition set_members (x : gmap ident MemberRow) (d : DB) : DB :=
  mkDB (identities d) (people d) (names d) (link_codes d) (rooms d) (room_roles d) (invites d) (messages d) (cursors d) x (deliveries d) (bans d) (whispers d) (whisper_deliveries d) (ignores d) (audit d) (meta d).
Definition set_deliveries (x : gmap (Z * ident) DeliveryRow) (d : DB) : DB :=
  mkDB (identities d) (people d) (names d) (link_codes d) (rooms d) (room_roles d) (invites d) (messages d) (cursors d) (members d) x (bans d) (whispers d) (whisper_deliveries d) (ignores d) (audit d) (meta d).
Definition set_bans (x : gmap ident Ban) (d : DB) : DB :=
  mkDB (identities d) (people d) (names d) (link_codes d) (rooms d) (room_roles d) (invites d) (messages d) (cursors d) (members d) (deliveries d) x (whispers d) (whisper_deliveries d) (ignores d) (audit d) (meta d).
Definition set_whispers (x : gmap Z Whisper) (d : DB) : DB :=
  mkDB (identities d) (people d) (names d) (link_codes d) (rooms d) (room_roles d) (invites d) (messages d) (cursors d) (members d) (deliveries d) (bans d) x (whisper_deliveries d) (ignores d) (audit d) (meta d).
Definition set_whisper_deliveries (x : gmap (Z * ident) DeliveryRow) (d : DB) : DB :=
  mkDB (identities d) (people d) (names d) (link_codes d) (rooms d) (room_roles d) (invites d) (messages d) (cursors d) (members d) (deliveries d) (bans d) (whispers d) x (ignores d) (audit d) (meta d).
Definition set_ignores (x : gmap (Z * Z) Z) (d : DB) : DB :=
  mkDB (identities d) (people d) (names d) (link_codes d) (rooms d) (room_roles d) (invites d) (messages d) (cursors d) (members d) (deliveries d) (bans d) (whispers d) (whisper_deliveries d) x (audit d) (meta d).
Definition set_audit (x : list AuditEntry) (d : DB) : DB :=
  mkDB (identities d) (people d) (names d) (link_codes d) (rooms d) (room_roles d) (invites d) (messages d) (cursors d) (members d) (deliveries d) (bans d) (whispers d) (whisper_deliveries d) (ignores d) x (meta d).
Definition set_meta (x : gmap string string) (d : DB) : DB :=
  mkDB (identities d) (people d) (names d) (link_codes d) (rooms d) (room_roles d) (invites d) (messages d) (cursors d) (members d) (deliveries d) (bans d) (whispers d) (whisper_deliveries d) (ignores d) (audit d) x.

Definition db_empty : DB := mkDB ∅ ∅ ∅ ∅ ∅ ∅ ∅ ∅ ∅ ∅ ∅ ∅ ∅ ∅ ∅ [] ∅.

(** A transaction: [store.Tx]'s methods are computations over the database. *)
Notation Tx := (ST DB).

(** ** Queries *)

(** The rowid SQLite gives a new row of a table with an INTEGER PRIMARY KEY:
    one more than the largest in use. *)
Definition next_id {A} (m : gmap Z A) : Z := map_fold (fun k _ acc => Z.max k acc) 0 m + 1.

(** ORDER BY and LIMIT. *)
Definition order_by {A} (le : A -> A -> bool) (l : list A) : list A :=
  merge_sort (fun x y => Is_true (le x y)) l.
Definition limit {A} (n : Z) (l : list A) : list A :=
  if n <? 0 then l else take (Z.to_nat n) l.
Definition blob_le (a b : ident) : bool := String.leb a b.
(** Lexicographic order on two columns. *)
Definition then_by (c : comparison) (b : bool) : bool :=
  match c with Lt => true | Eq => b | Gt => false end.

(** ** Well-formed databases

    The schema's constraints, with what the operations keep beyond them: a row
    carries its own key, a person has an identity, and preferences are among
    the allowed values. *)
Definition PageLineChoices : list Z := [10; 20; 30; 50; 100].
Definition PageRefreshChoices : list Z := [0; 10; 30; 60].
Definition Prefs_valid (p : Prefs) : bool :=
  existsb (Z.eqb (PageLines p)) PageLineChoices &&
  existsb (Z.eqb (PageRefresh p)) PageRefreshChoices.

Record db_wf (d : DB) : Prop := {
  wf_identity : forall id i, identities d !! id = Some i ->
    Identity_ID i = id /\ checkID id = true /\ is_Some (people d !! Identity_Person i);
  wf_person : forall p sp, people d !! p = Some sp ->
    SPerson_ID sp = p /\ 0 < p /\ Prefs_valid (SPerson_Prefs sp) = true;
  wf_populated : forall p, is_Some (people d !! p) ->
    exists id i, identities d !! id = Some i /\ Identity_Person i = p;
  wf_name : forall p n, names d !! p = Some n ->
    is_Some (people d !! p) /\ nr_name n <> "" /\ nr_skeleton n <> "";
  wf_skeleton : forall p q n m, names d !! p = Some n -> names d !! q = Some m ->
    nr_skeleton n = nr_skeleton m -> p = q;
  wf_member : forall id r, members d !! id = Some r -> is_Some (identities d !! id);
  wf_room : forall n r, rooms d !! n = Some r -> Room_Name r = n;
  wf_role : forall r id ro x, room_roles d !! (r, id, ro) = Some x -> is_Some (rooms d !! r);
  wf_invite : forall r id x, invites d !! (r, id) = Some x -> is_Some (rooms d !! r);
  wf_link_code : forall h c, link_codes d !! h = Some c ->
    LinkCode_Hash c = h /\ is_Some (people d !! LinkCode_Person c);
  wf_message : forall k m, messages d !! k = Some m -> Message_ID m = k /\ 0 < k;
  wf_origin : forall k l m n o, messages d !! k = Some m -> messages d !! l = Some n ->
    Message_OriginID m = Some o -> Message_OriginID n = Some o ->
    Message_Via m = Message_Via n -> k = l;
  wf_ban : forall id b, bans d !! id = Some b -> Ban_Identity b = id;
  wf_whisper : forall k w, whispers d !! k = Some w ->
    Whisper_ID w = k /\ 0 < k /\ is_Some (people d !! Whisper_ToPerson w);
  wf_whisper_delivery : forall k id r, whisper_deliveries d !! (k, id) = Some r ->
    is_Some (whispers d !! k);
  wf_ignore : forall p q x, ignores d !! (p, q) = Some x ->
    p <> q /\ is_Some (people d !! p) /\ is_Some (people d !! q)
}.

(** ** Lemmas *)
Lemma next_id_fresh {A} (m : gmap Z A) : m !! next_id m = None.
Proof.
  assert (forall k a, m !! k = Some a -> k < next_id m) as H.
  { unfold next_id.
    refine (map_fold_weak_ind (fun r m => forall k a, m !! k = Some a -> k < r + 1) _ _ _ _ m).
    - intros k a. by rewrite lookup_empty.
    - intros i x m' r Hi IH k a. rewrite lookup_insert.
      case_decide; intros ?; [subst; lia|]. specialize (IH _ _ ltac:(eassumption)). lia. }
  destruct (m !! next_id m) eqn:E; [|done]. apply H in E. lia.
Qed.

Lemma next_id_gt {A} (m : gmap Z A) k a : m !! k = Some a -> k < next_id m.
Proof.
  unfold next_id.
  revert k a. refine (map_fold_weak_ind (fun r m => forall k a, m !! k = Some a -> k < r + 1) _ _ _ _ m).
  - intros k a. by rewrite lookup_empty.
  - intros i x m' r Hi IH k a. rewrite lookup_insert.
    case_decide; intros ?; [subst; lia|]. specialize (IH _ _ ltac:(eassumption)). lia.
Qed.

Lemma next_id_pos {A} (m : gmap Z A) : 0 < next_id m.
Proof.
  unfold next_id. enough (0 <= map_fold (fun k _ acc => Z.max k acc) 0 m) by lia.
  refine (map_fold_weak_ind (fun r _ => 0 <= r) _ _ _ _ m); intros; lia.
Qed.

Lemma order_by_perm {A} (le : A -> A -> bool) l : order_by le l ≡ₚ l.
Proof. apply merge_sort_Permutation. Qed.

Lemma elem_of_order_by {A} (le : A -> A -> bool) l x : x ∈ order_by le l <-> x ∈ l.
Proof. by rewrite order_by_perm. Qed.

Lemma order_by_sorted {A} (le : A -> A -> bool) l :
  (forall x y, le x y = true \/ le y x = true) ->
  (forall x y z, le x y = true -> le y z = true -> le x z = true) ->
  StronglySorted (fun x y => le x y = true) (order_by le l).
Proof.
  intros Htot Htr.
  assert (Transitive (fun x y : A => Is_true (le x y))).
  { intros x y z Hx Hy. apply Is_true_true in Hx, Hy. apply Is_true_true. eauto. }
  assert (Total (fun x y : A => Is_true (le x y))).
  { intros x y. destruct (Htot x y); [left|right]; by apply Is_true_true. }
  pose proof (StronglySorted_merge_sort (fun x y => Is_true (le x y)) l) as H1.
  unfold order_by.
  induction H1 as [|x l' _ IH Hall]; constructor; [done|].
  eapply Forall_impl; [exact Hall|]. intros y Hy. by apply Is_true_true.
Qed.

Lemma db_wf_empty : db_wf db_empty.
Proof.
  constructor; simpl; intros *; by rewrite ?lookup_empty.
Qed.
