(* ===== verification/StorePeople.v ===== *)
(** internal/store/people.go and internal/store/persons.go: identities, the
    people they are part of, claimed names, preferences, ranks and link codes. *)
From S2P Require Import Prelude Text Db.
Local Open Scope Z_scope.

(** ** people.go *)

Definition bad_id : Error := ErrInternal "identity hash must be 16 bytes".
Definition check_id (id : ident) : Tx unit := assert (checkID id) bad_id.

(** The CHECK on identities.public_key. *)
Definition public_key_ok (pk : option string) : bool :=
  match pk with None => true | Some k => len k =? 64 end.

Definition DefaultPrefs : Prefs := mkPrefs true true true 30 true 30.

(** INSERT INTO people (created_at) with the column defaults. *)
Definition newPerson (now : Z) : Tx Z :=
  d <- get ;;
  let p := next_id (people d) in
  put (set_people (<[p := mkSPerson p now SRankMember None 0 DefaultPrefs]> (people d)) d) ;;;
  ret p.

Definition put_identity (i : Identity) : Tx unit :=
  modify (fun d => set_identities (<[Identity_ID i := i]> (identities d)) d).

Definition tx_TouchIdentity (id : ident) (publicKey : option string) (now : Z) : Tx unit :=
  check_id id ;;;
  d <- get ;;
  match identities d !! id with
  | Some i =>
    let pk := match publicKey with Some k => Some k | None => Identity_PublicKey i end in
    assert (public_key_ok pk) (ErrInternal "touch identity") ;;;
    put_identity (mkIdentity id pk (Identity_FirstSeen i) (Z.max (Identity_LastSeen i) now)
      (Identity_LXMFMode i) (Identity_LXMFMine i) (Identity_Person i) (Identity_PersonSince i))
  | None =>
    person <- newPerson now ;;
    assert (public_key_ok publicKey) (ErrInternal "add identity") ;;;
    put_identity (mkIdentity id publicKey now now LXMFOn false person now)
  end.

Definition tx_Identity (id : ident) : Tx (option Identity) :=
  gets (fun d => identities d !! id).

Definition personID (id : ident) : Tx Z :=
  d <- get ;;
  match identities d !! id with
  | Some i => ret (Identity_Person i)
  | None => fail (ErrNotFound "identity")
  end.

(** UPDATE identities SET lxmf_mode = ? WHERE id = ?, and mustAffect. *)
Definition tx_SetLXMFMode (id : ident) (mode : LXMFMode) : Tx unit :=
  d <- get ;;
  match identities d !! id with
  | Some i => put_identity (mkIdentity id (Identity_PublicKey i) (Identity_FirstSeen i) (Identity_LastSeen i)
                mode (Identity_LXMFMine i) (Identity_Person i) (Identity_PersonSince i))
  | None => fail (ErrNotFound "identity")
  end.

Definition tx_SetLXMFMine (id : ident) (on : bool) : Tx unit :=
  d <- get ;;
  match identities d !! id with
  | Some i => put_identity (mkIdentity id (Identity_PublicKey i) (Identity_FirstSeen i) (Identity_LastSeen i)
                (Identity_LXMFMode i) on (Identity_Person i) (Identity_PersonSince i))
  | None => fail (ErrNotFound "identity")
  end.

(** SELECT ... FROM identities WHERE person = ? ORDER BY person_since, id. *)
Definition identity_le (a b : Identity) : bool :=
  then_by (Identity_PersonSince a ?= Identity_PersonSince b) (blob_le (Identity_ID a) (Identity_ID b)).
Definition identities_of (d : DB) (person : Z) : list Identity :=
  order_by identity_le (List.filter (fun i => Identity_Person i =? person) (map_to_list (identities d)).*2).
Definition tx_PersonIdentities (person : Z) : Tx (list Identity) :=
  gets (fun d => identities_of d person).
Definition primaryOf (person : Z) : Tx ident :=
  d <- get ;;
  match identities_of d person with
  | i :: _ => ret (Identity_ID i)
  | [] => fail (ErrInternal "primary identity of person")
  end.

(** scanName: the row found, with the person's primary identity. *)
Definition scanName (row : option (Z * NameRow)) : Tx (option Name) :=
  match row with
  | None => ret None
  | Some (p, n) =>
    primary <- primaryOf p ;;
    ret (Some (mkName p primary (nr_name n) (nr_skeleton n) (nr_claimed_at n)))
  end.
Definition tx_NameOf (id : ident) : Tx (option Name) :=
  d <- get ;;
  scanName (i ← identities d !! id;
            n ← names d !! Identity_Person i;
            Some (Identity_Person i, n)).
Definition skeleton_row (d : DB) (skeleton : string) : option (Z * NameRow) :=
  head (map_to_list (filter (fun pn => nr_skeleton pn.2 = skeleton) (names d))).
Definition tx_NameBySkeleton (skeleton : string) : Tx (option Name) :=
  d <- get ;; scanName (skeleton_row d skeleton).

Definition tx_ClaimName (id : ident) (name skeleton : string) (now : Z) : Tx unit :=
  check_id id ;;;
  assert (negb (bool_decide (name = "" \/ skeleton = ""))) (ErrInternal "claim name: empty name or skeleton") ;;;
  person <- personID id ;;
  holder <- tx_NameBySkeleton skeleton ;;
  let upsert (claimedAt : Z) :=
    modify (fun d => set_names (<[person := mkNameRow name skeleton claimedAt]> (names d)) d) in
  match holder with
  | Some h => if Name_Person h =? person then upsert (Name_ClaimedAt h) else fail ErrNameTaken
  | None => upsert now
  end.

Definition tx_ReleaseName (id : ident) : Tx (option Name) :=
  n <- tx_NameOf id ;;
  match n with
  | None => ret None
  | Some n => modify (fun d => set_names (delete (Name_Person n) (names d)) d) ;;; ret (Some n)
  end.

(** ** persons.go *)

Definition tx_PersonOf (id : ident) : Tx (option SPerson) :=
  gets (fun d => i ← identities d !! id; people d !! Identity_Person i).
Definition tx_PersonByID (person : Z) : Tx (option SPerson) :=
  gets (fun d => people d !! person).

Definition SetPrefsOfPerson (person : Z) (p : Prefs) : Tx unit :=
  assert (Prefs_valid p) (ErrInternal "preferences") ;;;
  d <- get ;;
  match people d !! person with
  | Some sp => put (set_people (<[person := mkSPerson (SPerson_ID sp) (SPerson_CreatedAt sp) (SPerson_Rank sp)
                 (SPerson_RankBy sp) (SPerson_RankAt sp) p]> (people d)) d)
  | None => fail (ErrNotFound "person")
  end.
Definition tx_SetPrefs (id : ident) (p : Prefs) : Tx unit :=
  assert (Prefs_valid p) (ErrInternal "preferences") ;;;
  person <- personID id ;;
  SetPrefsOfPerson person p.

Definition tx_SetRank (id : ident) (rank : SRank) (by_ : option ident) (now : Z) : Tx unit :=
  person <- personID id ;;
  let member := bool_decide (rank = SRankMember) in
  let byArg := if member then None else by_ in
  let at_ := if member then 0 else now in
  assert (match byArg with Some b => checkID b | None => true end) (ErrInternal "set rank") ;;;
  modify (fun d => set_people (alter (fun sp => mkSPerson (SPerson_ID sp) (SPerson_CreatedAt sp) rank byArg at_
                     (SPerson_Prefs sp)) person (people d)) d).

(** ORDER BY role = 'mod', role_at, id. *)
Definition rank_holder_le (a b : SPerson) : bool :=
  let m p := if bool_decide (SPerson_Rank p = SRankMod) then 1 else 0 in
  then_by (m a ?= m b) (then_by (SPerson_RankAt a ?= SPerson_RankAt b) (SPerson_ID a <=? SPerson_ID b)).
Definition tx_RankHolders : Tx (list SPerson) :=
  gets (fun d => order_by rank_holder_le
    (List.filter (fun p => bool_decide (SPerson_Rank p <> SRankMember)) (map_to_list (people d)).*2)).

(** DELETE FROM people WHERE id = ?: refused while identities or names point at
    the row; link codes, whispers (with their deliveries) and ignores go with it. *)
Definition people_cascade (p : Z) (d : DB) : DB :=
  let ws := filter (fun kw => Whisper_ToPerson kw.2 <> p) (whispers d) in
  set_ignores (filter (fun kv => kv.1.1 <> p /\ kv.1.2 <> p) (ignores d))
  (set_whisper_deliveries (filter (fun kv => is_Some (ws !! kv.1.1)) (whisper_deliveries d))
  (set_whispers ws
  (set_link_codes (filter (fun kc => LinkCode_Person kc.2 <> p) (link_codes d))
  (set_people (delete p (people d)) d)))).
Definition delete_person (p : Z) : Tx unit :=
  d <- get ;;
  assert (bool_decide (identities_of d p = [] /\ names d !! p = None)) (ErrInternal "remove merged person") ;;;
  put (people_cascade p d).

(** How many identities of [person] there are besides [id]. *)
Definition others (d : DB) (person : Z) (id : ident) : list Identity :=
  List.filter (fun i => negb (bool_decide (Identity_ID i = id))) (identities_of d person).
(** UPDATE identities SET person = ?, person_since = ? WHERE id = ?. *)
Definition move_identity (id : ident) (to now : Z) : Tx unit :=
  modify (fun d => set_identities (alter (fun i => mkIdentity (Identity_ID i) (Identity_PublicKey i)
    (Identity_FirstSeen i) (Identity_LastSeen i) (Identity_LXMFMode i) (Identity_LXMFMine i) to now) id (identities d)) d).

(** The whispers and ignores of a person merged into another (LinkIdentity). *)
Definition merge_whispers (from to : Z) (d : DB) : DB :=
  set_whispers ((fun w => if Whisper_ToPerson w =? from
    then mkWhisper (Whisper_ID w) (Whisper_From w) (Whisper_FromName w) to (Whisper_ToName w) (Whisper_Body w)
           (Whisper_Via w) (Whisper_SaidAt w) (Whisper_RRCAt w) (Whisper_ReadAt w)
    else w) <$> whispers d) d.
(** INSERT OR IGNORE INTO ignores SELECT ... FROM ignores: [key] gives the row
    a selected row adds, if it is selected; a row that is there stays. *)
Definition insert_or_ignore (key : Z * Z -> option (Z * Z)) (m : gmap (Z * Z) Z) : gmap (Z * Z) Z :=
  map_fold (fun k at_ acc =>
    match key k with
    | Some k' => if bool_decide (acc !! k' = None) then <[k' := at_]> acc else acc
    | None => acc
    end) m m.
Definition merge_ignores_by (from to : Z) (d : DB) : DB :=
  set_ignores (insert_or_ignore (fun k => if (k.1 =? from) && negb (k.2 =? to) then Some (to, k.2) else None) (ignores d)) d.
Definition merge_ignores_of (from to : Z) (d : DB) : DB :=
  set_ignores (insert_or_ignore (fun k => if (k.2 =? from) && negb (k.1 =? to) then Some (k.1, to) else None) (ignores d)) d.

Definition tx_LinkIdentity (id : ident) (to now : Z) : Tx unit :=
  from <- personID id ;;
  if from =? to then ret tt else
  p <- tx_PersonByID to ;;
  match p with
  | None => fail (ErrNotFound "person")
  | Some _ =>
    d <- get ;;
    let alone := bool_decide (others d from id = []) in
    assert (negb (alone && bool_decide (is_Some (names d !! from)))) ErrPersonHasName ;;;
    move_identity id to now ;;;
    if alone then
      modify (merge_whispers from to) ;;;
      modify (merge_ignores_by from to) ;;;
      modify (merge_ignores_of from to) ;;;
      delete_person from
    else ret tt
  end.

Definition tx_UnlinkIdentity (id : ident) (now : Z) : Tx Z :=
  p <- tx_PersonOf id ;;
  match p with
  | None => fail (ErrNotFound "identity")
  | Some p =>
    d <- get ;;
    if bool_decide (others d (SPerson_ID p) id = []) then ret (SPerson_ID p) else
    fresh <- newPerson now ;;
    SetPrefsOfPerson fresh (SPerson_Prefs p) ;;;
    move_identity id fresh now ;;;
    ret fresh
  end.

(** ** Link codes *)
Definition tx_PutLinkCode (c : LinkCode) : Tx unit :=
  assert (len (LinkCode_Hash c) =? 32) (ErrInternal "link code hash must be 32 bytes") ;;;
  check_id (LinkCode_IssuedBy c) ;;;
  modify (fun d => set_link_codes (filter (fun kc => ~ (LinkCode_Person kc.2 = LinkCode_Person c
                     /\ LinkCode_RedeemedBy kc.2 = None)) (link_codes d)) d) ;;;
  d <- get ;;
  assert (bool_decide (link_codes d !! LinkCode_Hash c = None /\ is_Some (people d !! LinkCode_Person c)))
    (ErrInternal "add link code") ;;;
  put (set_link_codes (<[LinkCode_Hash c := mkLinkCode (LinkCode_Hash c) (LinkCode_Person c) (LinkCode_IssuedBy c)
         (LinkCode_IssuedAt c) (LinkCode_ExpiresAt c) None None]> (link_codes d)) d).

Definition tx_LinkCodeByHash (hash : string) : Tx (option LinkCode) :=
  gets (fun d => link_codes d !! hash).

Definition tx_RedeemLinkCode (hash : string) (by_ : ident) (via : Via) : Tx unit :=
  check_id by_ ;;;
  d <- get ;;
  match link_codes d !! hash with
  | Some c =>
    match LinkCode_RedeemedBy c with
    | None =>
      assert (negb (bool_decide (via = ViaImport))) (ErrInternal "redeem link code") ;;;
      put (set_link_codes (<[hash := mkLinkCode (LinkCode_Hash c) (LinkCode_Person c) (LinkCode_IssuedBy c)
                (LinkCode_IssuedAt c) (LinkCode_ExpiresAt c) (Some by_) (Some via)]> (link_codes d)) d)
    | Some _ => fail (ErrNotFound "unredeemed link code")
    end
  | None => fail (ErrNotFound "unredeemed link code")
  end.

(** ORDER BY issued_at, code_hash. *)
Definition link_code_le (a b : LinkCode) : bool :=
  then_by (LinkCode_IssuedAt a ?= LinkCode_IssuedAt b) (blob_le (LinkCode_Hash a) (LinkCode_Hash b)).
Definition tx_PendingLinks (person now : Z) : Tx (list LinkCode) :=
  gets (fun d => order_by link_code_le
    (List.filter (fun c => (LinkCode_Person c =? person) && bool_decide (is_Some (LinkCode_RedeemedBy c))
                           && (now <? LinkCode_ExpiresAt c)) (map_to_list (link_codes d)).*2)).

Definition tx_DeleteLinkCode (hash : string) : Tx unit :=
  modify (fun d => set_link_codes (delete hash (link_codes d)) d).
Definition tx_PruneLinkCodes (now : Z) : Tx unit :=
  modify (fun d => set_link_codes (filter (fun kc => now < LinkCode_ExpiresAt kc.2) (link_codes d)) d).
