(* ===== verification/StoreRooms.v ===== *)
(** internal/store/rooms.go and internal/store/admin.go: rooms, room roles,
    invites, hub-wide bans, the audit log and the key/value table. *)
From S2P Require Import Prelude Text Db StorePeople.
Local Open Scope Z_scope.

(** ** rooms.go *)

Definition HasMode (r : Room) (m : ascii) : bool := contains_byte (Room_Modes r) m.

(** SetMode: the letters as a set, sorted. *)
Definition SetMode_modes (modes : string) (m : ascii) (on : bool) : string :=
  let set : gset Z := list_to_set (bytes modes) in
  let set' := if on then {[byte m]} ∪ set else set ∖ {[byte m]} in
  of_bytes (order_by Z.leb (elements set')).
Definition SetMode (r : Room) (m : ascii) (on : bool) : Room :=
  mkRoom (Room_Name r) (Room_Topic r) (Room_Founder r) (Room_Registered r)
    (SetMode_modes (Room_Modes r) m on) (Room_Key r) (Room_CreatedAt r) (Room_LastUsed r).

Definition tx_Room (name : string) : Tx (option Room) := gets (fun d => rooms d !! name).
Definition room_name_le (a b : Room) : bool := String.leb (Room_Name a) (Room_Name b).
Definition tx_Rooms : Tx (list Room) :=
  gets (fun d => order_by room_name_le (map_to_list (rooms d)).*2).

Definition mode_letters_ok (modes : string) : bool :=
  forallb (fun b => existsb (fun l => b =? l) (bytes "ikmnpt")) (bytes modes).
(** INSERT ... ON CONFLICT (name) DO UPDATE keeps created_at. *)
Definition tx_PutRoom (r : Room) : Tx unit :=
  match Room_Founder r with Some f => check_id f | None => ret tt end ;;;
  assert (mode_letters_ok (Room_Modes r)) (ErrInternal "unknown mode") ;;;
  modify (fun d =>
    let created := match rooms d !! Room_Name r with Some old => Room_CreatedAt old | None => Room_CreatedAt r end in
    set_rooms (<[Room_Name r := mkRoom (Room_Name r) (Room_Topic r) (Room_Founder r) (Room_Registered r)
      (Room_Modes r) (Room_Key r) created (Room_LastUsed r)]> (rooms d)) d).

(** DELETE FROM rooms, with its roles and invites (ON DELETE CASCADE). *)
Definition tx_DeleteRoom (name : string) : Tx unit :=
  modify (fun d =>
    set_room_roles (filter (fun kv => kv.1.1.1 <> name) (room_roles d))
    (set_invites (filter (fun kv => kv.1.1 <> name) (invites d))
    (set_rooms (delete name (rooms d)) d))).

Definition tx_SetRole (room : string) (identity : ident) (role : Role) (on : bool)
    (by_ : option ident) (now : Z) : Tx unit :=
  check_id identity ;;;
  if on then
    d <- get ;;
    match room_roles d !! (room, identity, role) with
    | Some _ => ret tt
    | None =>
      assert (bool_decide (is_Some (rooms d !! room))) (ErrInternal "set role") ;;;
      put (set_room_roles (<[(room, identity, role) := mkRoleRow by_ now]> (room_roles d)) d)
    end
  else modify (fun d => set_room_roles (delete (room, identity, role) (room_roles d)) d).

Definition tx_HasRole (room : string) (identity : ident) (role : Role) : Tx bool :=
  gets (fun d => bool_decide (is_Some (room_roles d !! (room, identity, role)))).

Definition tx_RoleHolders (room : string) (role : Role) : Tx (list ident) :=
  gets (fun d => order_by blob_le (map (fun kv => kv.1.1.2)
    (List.filter (fun kv => bool_decide (kv.1.1.1 = room /\ kv.1.2 = role)) (map_to_list (room_roles d))))).

Definition tx_SetInvite (room : string) (identity : ident) (expiresAt : Z) : Tx unit :=
  check_id identity ;;;
  d <- get ;;
  assert (bool_decide (is_Some (rooms d !! room))) (ErrInternal "invite") ;;;
  put (set_invites (<[(room, identity) := expiresAt]> (invites d)) d).

Definition tx_InviteValid (room : string) (identity : ident) (now : Z) : Tx bool :=
  gets (fun d => match invites d !! (room, identity) with
                 | Some exp => now <? exp
                 | None => false
                 end).

Record Invite := mkInvite { Invite_Identity : ident; Invite_ExpiresAt : Z }.
Definition invite_le (a b : Invite) : bool := blob_le (Invite_Identity a) (Invite_Identity b).
Definition tx_Invites (room : string) (now : Z) : Tx (list Invite) :=
  gets (fun d => order_by invite_le (map (fun kv => mkInvite kv.1.2 kv.2)
    (List.filter (fun kv => bool_decide (kv.1.1 = room) && (now <? kv.2)) (map_to_list (invites d))))).

Definition tx_DeleteInvite (room : string) (identity : ident) : Tx unit :=
  modify (fun d => set_invites (delete (room, identity) (invites d)) d).
Definition tx_PruneInvites (now : Z) : Tx unit :=
  modify (fun d => set_invites (filter (fun kv => now < kv.2) (invites d)) d).

(** ** admin.go *)

Definition tx_AddBan (b : Ban) : Tx unit :=
  check_id (Ban_Identity b) ;;;
  modify (fun d => set_bans (<[Ban_Identity b := b]> (bans d)) d).

Definition tx_RemoveBan (identity : ident) : Tx bool :=
  d <- get ;;
  put (set_bans (delete identity (bans d)) d) ;;;
  ret (bool_decide (is_Some (bans d !! identity))).

Definition tx_IsBanned (identity : ident) : Tx bool :=
  gets (fun d => bool_decide (is_Some (bans d !! identity))).

(** ORDER BY banned_at DESC, identity. *)
Definition ban_le (a b : Ban) : bool :=
  then_by (Ban_BannedAt b ?= Ban_BannedAt a) (blob_le (Ban_Identity a) (Ban_Identity b)).
Definition tx_Bans : Tx (list Ban) := gets (fun d => order_by ban_le (map_to_list (bans d)).*2).
(** WHERE expires_at != 0 AND expires_at <= ? ORDER BY expires_at, identity. *)
Definition ban_expired (now : Z) (b : Ban) : bool :=
  negb (Ban_ExpiresAt b =? 0) && (Ban_ExpiresAt b <=? now).
Definition ban_expiry_le (a b : Ban) : bool :=
  then_by (Ban_ExpiresAt a ?= Ban_ExpiresAt b) (blob_le (Ban_Identity a) (Ban_Identity b)).
Definition tx_ExpiredBans (now : Z) : Tx (list Ban) :=
  gets (fun d => order_by ban_expiry_le (List.filter (ban_expired now) (map_to_list (bans d)).*2)).

Definition tx_Audit (at_ : Z) (actor : option ident) (action target detail : string) : Tx unit :=
  modify (fun d => set_audit (audit d ++
    [mkAuditEntry (Z.of_nat (length (audit d)) + 1) at_ actor action target detail]) d).
Definition tx_AuditLog (n : Z) : Tx (list AuditEntry) :=
  gets (fun d => limit n (rev (audit d))).

Definition tx_Meta (key : string) : Tx (option string) := gets (fun d => meta d !! key).
Definition tx_SetMeta (key value : string) : Tx unit :=
  modify (fun d => set_meta (<[key := value]> (meta d)) d).
