(* ===== verification/StoreMessages.v ===== *)
(** internal/store/messages.go: the messages table and catch-up cursors. *)
From S2P Require Import Prelude Text Db StorePeople.
Local Open Scope Z_scope.

(** SELECT id FROM messages WHERE via = ? AND origin_id = ?. *)
Definition same_origin (via : Via) (origin : string) (m : Message) : Prop :=
  Message_Via m = via /\ Message_OriginID m = Some origin.
#[export] Instance same_origin_dec via o m : Decision (same_origin via o m).
Proof. unfold same_origin. apply _. Defined.
Definition origin_id (d : DB) (via : Via) (origin : string) : option Z :=
  head (map_to_list (filter (fun km => same_origin via origin km.2) (messages d))).*1.

Definition with_message_id (id : Z) (m : Message) : Message :=
  mkMessage id (Message_Room m) (Message_Kind m) (Message_Author m) (Message_AuthorName m) (Message_Body m)
    (Message_Via m) (Message_OriginID m) (Message_SaidAt m) (Message_HubAt m) (Message_Ext m).

(** The message's ID and whether it was there already. *)
Definition tx_AddMessage (m : Message) : Tx (Z * bool) :=
  check_id (Message_Author m) ;;;
  d <- get ;;
  match o ← Message_OriginID m; origin_id d (Message_Via m) o with
  | Some id => ret (id, true)
  | None =>
    let id := next_id (messages d) in
    put (set_messages (<[id := with_message_id id m]> (messages d)) d) ;;;
    ret (id, false)
  end.

Definition tx_Message (id : Z) : Tx (option Message) := gets (fun d => messages d !! id).

Definition message_le (a b : Message) : bool := Message_ID a <=? Message_ID b.
(** The messages that satisfy a WHERE clause, ORDER BY id. *)
Definition messages_where (d : DB) (p : Message -> bool) : list Message :=
  order_by message_le (List.filter p (map_to_list (messages d)).*2).
Definition in_room (room : string) (m : Message) : bool := bool_decide (Message_Room m = room).

Definition tx_MessagesAfter (room : string) (afterID n : Z) : Tx (list Message) :=
  gets (fun d => limit n (messages_where d (fun m => in_room room m && (afterID <? Message_ID m)))).

(** The inner query is ORDER BY id DESC LIMIT ?; the outer one turns it round. *)
Definition latest (n : Z) (l : list Message) : list Message := rev (limit n (rev l)).
Definition max_int64 : Z := 9223372036854775807.
Definition tx_LatestMessages (room : string) (beforeID n : Z) : Tx (list Message) :=
  let beforeID := if beforeID <=? 0 then max_int64 else beforeID in
  gets (fun d => latest n (messages_where d (fun m => in_room room m && (Message_ID m <? beforeID)))).

Definition tx_LatestMessagesByPerson (person : Z) (room : string) (n : Z) : Tx (list Message) :=
  gets (fun d => latest n (messages_where d (fun m =>
    match identities d !! Message_Author m with
    | Some i => (Identity_Person i =? person) && in_room room m
    | None => false
    end))).

(** DeleteMessages: each message with its deliveries; the result is how many
    queued deliveries went. *)
Definition delete_message (id : Z) (d : DB) : DB :=
  set_messages (delete id (messages d))
    (set_deliveries (filter (fun kr => kr.1.1 <> id) (deliveries d)) d).
Definition queued_for (d : DB) (id : Z) : Z :=
  Z.of_nat (size (filter (fun kr => kr.1.1 = id /\ dr_state kr.2 = DeliveryQueued) (deliveries d))).
Fixpoint tx_DeleteMessages (ids : list Z) : Tx Z :=
  match ids with
  | [] => ret 0
  | id :: ids' =>
    n <- gets (fun d => queued_for d id) ;;
    modify (delete_message id) ;;;
    rest <- tx_DeleteMessages ids' ;;
    ret (n + rest)
  end.

Definition tx_CountAfter (room : string) (afterID : Z) : Tx Z :=
  gets (fun d => Z.of_nat (length (messages_where d (fun m => in_room room m && (afterID <? Message_ID m))))).

Definition last_message_id (d : DB) (room : string) : Z :=
  match last (messages_where d (in_room room)) with
  | Some m => Message_ID m
  | None => 0
  end.
Definition tx_LastMessageID (room : string) : Tx Z := gets (fun d => last_message_id d room).

(** SELECT id FROM messages WHERE hub_at < ?, as a test on ids. *)
Definition pruned (cutoff : Z) (d : DB) (id : Z) : bool :=
  match messages d !! id with Some m => Message_HubAt m <? cutoff | None => false end.
Definition tx_PruneMessages (cutoff : Z) : Tx Z :=
  d <- get ;;
  let kept := filter (fun km => pruned cutoff d km.1 = false) (messages d) in
  put (set_messages kept
    (set_deliveries (filter (fun kr => pruned cutoff d kr.1.1 = false) (deliveries d)) d)) ;;;
  ret (Z.of_nat (size (messages d)) - Z.of_nat (size kept)).

(** ** Cursors *)
Definition tx_Cursor (identity : ident) (room : string) (via : Via) : Tx (option Cursor) :=
  gets (fun d => cursors d !! (identity, room, via)).

(** ON CONFLICT DO UPDATE SET message_id = max(message_id, excluded.message_id). *)
Definition tx_SetCursor (identity : ident) (room : string) (via : Via) (messageID now : Z) : Tx unit :=
  check_id identity ;;;
  assert (negb (bool_decide (via = ViaImport))) (ErrInternal "set cursor") ;;;
  modify (fun d =>
    let id := match cursors d !! (identity, room, via) with
              | Some c => Z.max (Cursor_MessageID c) messageID
              | None => messageID
              end in
    set_cursors (<[(identity, room, via) := mkCursor id now]> (cursors d)) d).
