(* ===== verification/StoreGroup.v ===== *)
(** internal/store/group.go and internal/store/whispers.go: the LXMF group,
    deliveries, whispers and ignores. *)
From S2P Require Import Prelude Text Db StorePeople.
Local Open Scope Z_scope.

(** ** group.go *)

(** INSERT ... ON CONFLICT DO NOTHING; members.identity REFERENCES identities. *)
Definition tx_AddMember (identity : ident) (now : Z) : Tx bool :=
  check_id identity ;;;
  d <- get ;;
  match members d !! identity with
  | Some _ => ret false
  | None =>
    assert (bool_decide (is_Some (identities d !! identity))) (ErrInternal "add member") ;;;
    put (set_members (<[identity := mkMemberRow now 0]> (members d)) d) ;;;
    ret true
  end.

Definition tx_RemoveMember (identity : ident) : Tx bool :=
  d <- get ;;
  put (set_members (delete identity (members d))
      (set_whisper_deliveries (filter (fun kr => kr.1.2 <> identity) (whisper_deliveries d))
      (set_deliveries (filter (fun kr => kr.1.2 <> identity) (deliveries d)) d))) ;;;
  ret (bool_decide (is_Some (members d !! identity))).

Definition tx_IsMember (identity : ident) : Tx bool :=
  gets (fun d => bool_decide (is_Some (members d !! identity))).

(** members JOIN identities ORDER BY joined_at, identity. *)
Definition member_le (a b : SMember) : bool :=
  then_by (SMember_JoinedAt a ?= SMember_JoinedAt b) (blob_le (SMember_Identity a) (SMember_Identity b)).
Definition member_of (d : DB) (kr : ident * MemberRow) : option SMember :=
  i ← identities d !! kr.1;
  Some (mkSMember kr.1 (mr_joined_at kr.2) (mr_away_until kr.2) (Identity_LXMFMode i) (Identity_LXMFMine i)).
Definition members_of (d : DB) : list SMember := order_by member_le (omap (member_of d) (map_to_list (members d))).
Definition tx_Members : Tx (list SMember) := gets members_of.

Definition tx_SetAway (identity : ident) (until : Z) : Tx unit :=
  modify (fun d => set_members (alter (fun r => mkMemberRow (mr_joined_at r) until) identity (members d)) d).

Definition delivery_row (d : Delivery) : DeliveryRow :=
  mkDeliveryRow (Delivery_State d) (Delivery_Attempts d) (Delivery_PartsDone d) (Delivery_NextAt d) (Delivery_UpdatedAt d).
(** parts_done >= 0 is a CHECK; whisper_deliveries.whisper_id REFERENCES whispers. *)
Definition tx_PutDelivery (x : Delivery) : Tx unit :=
  check_id (Delivery_Identity x) ;;;
  assert (0 <=? Delivery_PartsDone x) (ErrInternal "put delivery") ;;;
  let key := (Delivery_MessageID x, Delivery_Identity x) in
  if Delivery_Whisper x then
    d <- get ;;
    assert (bool_decide (is_Some (whispers d !! Delivery_MessageID x))) (ErrInternal "put delivery") ;;;
    put (set_whisper_deliveries (<[key := delivery_row x]> (whisper_deliveries d)) d)
  else modify (fun d => set_deliveries (<[key := delivery_row x]> (deliveries d)) d).

Definition to_delivery (whisper : bool) (kr : (Z * ident) * DeliveryRow) : Delivery :=
  mkDelivery kr.1.1 whisper kr.1.2 (dr_state kr.2) (dr_attempts kr.2) (dr_parts_done kr.2)
    (dr_next_at kr.2) (dr_updated_at kr.2).
(** ORDER BY 1 DESC, 2, 3: whispers first, then by id and identity. *)
Definition delivery_le (a b : Delivery) : bool :=
  match Delivery_Whisper a, Delivery_Whisper b with
  | true, false => true
  | false, true => false
  | _, _ => then_by (Delivery_MessageID a ?= Delivery_MessageID b) (blob_le (Delivery_Identity a) (Delivery_Identity b))
  end.
Definition delivery_due (now : Z) (x : Delivery) : bool :=
  bool_decide (Delivery_State x = DeliveryQueued) && (Delivery_NextAt x <=? now).
Definition all_deliveries (d : DB) : list Delivery :=
  (to_delivery true <$> map_to_list (whisper_deliveries d)) ++ (to_delivery false <$> map_to_list (deliveries d)).
Definition tx_DueDeliveries (now n : Z) : Tx (list Delivery) :=
  gets (fun d => limit n (order_by delivery_le (List.filter (delivery_due now) (all_deliveries d)))).

(** state IN ('proven', 'propagated', 'failed') AND updated_at < cutoff. *)
Definition delivery_over (cutoff : Z) (r : DeliveryRow) : bool :=
  match dr_state r with
  | DeliveryProven | DeliveryPropagated | DeliveryFailed => dr_updated_at r <? cutoff
  | _ => false
  end.
Definition tx_FinishDeliveries (cutoff : Z) : Tx unit :=
  modify (fun d =>
    set_whisper_deliveries (filter (fun kr => delivery_over cutoff kr.2 = false) (whisper_deliveries d))
    (set_deliveries (filter (fun kr => delivery_over cutoff kr.2 = false) (deliveries d)) d)).

(** ** whispers.go *)

Definition tx_AddWhisper (w : Whisper) : Tx Z :=
  check_id (Whisper_From w) ;;;
  d <- get ;;
  assert (bool_decide (is_Some (people d !! Whisper_ToPerson w) /\ Whisper_Via w <> ViaImport)) (ErrInternal "add whisper") ;;;
  let id := next_id (whispers d) in
  put (set_whispers (<[id := mkWhisper id (Whisper_From w) (Whisper_FromName w) (Whisper_ToPerson w) (Whisper_ToName w)
         (Whisper_Body w) (Whisper_Via w) (Whisper_SaidAt w) 0 0]> (whispers d)) d) ;;;
  ret id.

Definition tx_Whisper (id : Z) : Tx (option Whisper) := gets (fun d => whispers d !! id).
Definition whisper_le (a b : Whisper) : bool := Whisper_ID a <=? Whisper_ID b.
Definition whispers_where (d : DB) (p : Whisper -> bool) : list Whisper :=
  order_by whisper_le (List.filter p (map_to_list (whispers d)).*2).
Definition to_person (person : Z) (w : Whisper) : bool := Whisper_ToPerson w =? person.

Definition tx_WhispersTo (person n : Z) : Tx (list Whisper) :=
  gets (fun d => rev (limit n (rev (whispers_where d (to_person person))))).
Definition tx_UnsentRRCWhispers (person : Z) : Tx (list Whisper) :=
  gets (fun d => whispers_where d (fun w => to_person person w && (Whisper_RRCAt w =? 0))).

Definition with_rrc_at (at_ : Z) (w : Whisper) : Whisper :=
  mkWhisper (Whisper_ID w) (Whisper_From w) (Whisper_FromName w) (Whisper_ToPerson w) (Whisper_ToName w)
    (Whisper_Body w) (Whisper_Via w) (Whisper_SaidAt w) at_ (Whisper_ReadAt w).
Definition with_read_at (at_ : Z) (w : Whisper) : Whisper :=
  mkWhisper (Whisper_ID w) (Whisper_From w) (Whisper_FromName w) (Whisper_ToPerson w) (Whisper_ToName w)
    (Whisper_Body w) (Whisper_Via w) (Whisper_SaidAt w) (Whisper_RRCAt w) at_.
Definition tx_MarkWhisperRRC (id at_ : Z) : Tx unit :=
  modify (fun d => set_whispers (alter (fun w => if Whisper_RRCAt w =? 0 then with_rrc_at at_ w else w) id (whispers d)) d).
Definition unread_upto (person upTo : Z) (w : Whisper) : bool :=
  to_person person w && (Whisper_ID w <=? upTo) && (Whisper_ReadAt w =? 0).
Definition tx_MarkWhispersRead (person upTo at_ : Z) : Tx Z :=
  d <- get ;;
  put (set_whispers ((fun w => if unread_upto person upTo w then with_read_at at_ w else w) <$> whispers d) d) ;;;
  ret (Z.of_nat (length (whispers_where d (unread_upto person upTo)))).
Definition tx_UnreadWhispers (person : Z) : Tx Z :=
  gets (fun d => Z.of_nat (length (whispers_where d (fun w => to_person person w && (Whisper_ReadAt w =? 0))))).
Definition tx_LastWhisperTo (person : Z) : Tx (option Whisper) :=
  gets (fun d => last (whispers_where d (to_person person))).

(** DELETE FROM whispers WHERE said_at < ?, with their deliveries. *)
Definition tx_PruneWhispers (cutoff : Z) : Tx unit :=
  modify (fun d =>
    let kept := filter (fun kw => ~ Whisper_SaidAt kw.2 < cutoff) (whispers d) in
    set_whisper_deliveries (filter (fun kr => is_Some (kept !! kr.1.1)) (whisper_deliveries d))
    (set_whispers kept d)).

Definition tx_Ignore (person ignored at_ : Z) : Tx unit :=
  assert (negb (person =? ignored)) (ErrInternal "a person can't ignore themselves") ;;;
  d <- get ;;
  match ignores d !! (person, ignored) with
  | Some _ => ret tt
  | None =>
    assert (bool_decide (is_Some (people d !! person) /\ is_Some (people d !! ignored))) (ErrInternal "ignore") ;;;
    put (set_ignores (<[(person, ignored) := at_]> (ignores d)) d)
  end.
Definition tx_Unignore (person ignored : Z) : Tx bool :=
  d <- get ;;
  put (set_ignores (delete (person, ignored) (ignores d)) d) ;;;
  ret (bool_decide (is_Some (ignores d !! (person, ignored)))).
Definition tx_IsIgnoring (person ignored : Z) : Tx bool :=
  gets (fun d => bool_decide (is_Some (ignores d !! (person, ignored)))).
(** ORDER BY at, ignored. *)
Definition ignored_le (a b : Z * Z) : bool := then_by (a.2 ?= b.2) (a.1 <=? b.1).
Definition tx_Ignored (person : Z) : Tx (list Z) :=
  gets (fun d => (order_by ignored_le (map (fun kv => (kv.1.2, kv.2))
    (List.filter (fun kv => kv.1.1 =? person) (map_to_list (ignores d))))).*1).
