(* ===== verification/StoreInv.v ===== *)
(** What the store promises to the hub, as an interface: an invariant of the
    database that every operation of internal/store keeps.  The hub's theorems
    (HubWf.v, System.v) are proved against this interface; StoreWf.v,
    StoreHistory.v and StorePolicy.v discharge it.

    Some invariants depend on what the hub writes.  A [Policy] says what may be
    written, the operation that writes it keeps the invariant if the policy
    allows the row, and the hub shows that it asks for nothing else
    ([HubWf.Grants]). *)
From S2P Require Import Prelude Text Db StorePeople StoreRooms StoreMessages StoreGroup.
Local Open Scope Z_scope.

(** A database is rolled back when an operation aborts. *)
#[export] Instance db_weakening (I : DB -> Prop) : Weakening I | 10 := {| weak _ := True; weakens _ _ := Logic.I |}.

Record Policy := mkPolicy {
  may_ban : ident -> Prop;
  may_name : string -> string -> Prop;
  may_post : string -> Prop;
  may_whisper : string -> Prop
}.
Definition anything : Policy := mkPolicy (fun _ => True) (fun _ _ => True) (fun _ => True) (fun _ => True).

Class StoreInv (P : Policy) (I : DB -> Prop) : Prop := {
  inv_TouchIdentity id pk now : pres I (tx_TouchIdentity id pk now);
  inv_SetLXMFMode id mode : pres I (tx_SetLXMFMode id mode);
  inv_SetLXMFMine id on : pres I (tx_SetLXMFMine id on);
  inv_ClaimName id name sk now : may_name P name sk -> pres I (tx_ClaimName id name sk now);
  inv_ReleaseName id : pres I (tx_ReleaseName id);
  inv_SetPrefs id p : pres I (tx_SetPrefs id p);
  inv_SetRank id r b now : pres I (tx_SetRank id r b now);
  inv_LinkIdentity id to now : pres I (tx_LinkIdentity id to now);
  inv_UnlinkIdentity id now : pres I (tx_UnlinkIdentity id now);
  inv_PutLinkCode c : pres I (tx_PutLinkCode c);
  inv_RedeemLinkCode h b via : pres I (tx_RedeemLinkCode h b via);
  inv_DeleteLinkCode h : pres I (tx_DeleteLinkCode h);
  inv_PruneLinkCodes now : pres I (tx_PruneLinkCodes now);
  inv_PutRoom r : pres I (tx_PutRoom r);
  inv_DeleteRoom n : pres I (tx_DeleteRoom n);
  inv_SetRole room id ro on b now : pres I (tx_SetRole room id ro on b now);
  inv_SetInvite room id x : pres I (tx_SetInvite room id x);
  inv_DeleteInvite room id : pres I (tx_DeleteInvite room id);
  inv_PruneInvites now : pres I (tx_PruneInvites now);
  inv_AddBan b : may_ban P (Ban_Identity b) -> pres I (tx_AddBan b);
  inv_RemoveBan id : pres I (tx_RemoveBan id);
  inv_Audit now a x y z : pres I (tx_Audit now a x y z);
  inv_AddMessage m : may_post P (Message_Body m) -> pres I (tx_AddMessage m);
  inv_DeleteMessages ids : pres I (tx_DeleteMessages ids);
  inv_PruneMessages c : pres I (tx_PruneMessages c);
  inv_SetCursor id room via m now : pres I (tx_SetCursor id room via m now);
  inv_AddMember id now : pres I (tx_AddMember id now);
  inv_RemoveMember id : pres I (tx_RemoveMember id);
  inv_SetAway id u : pres I (tx_SetAway id u);
  inv_PutDelivery x : pres I (tx_PutDelivery x);
  inv_FinishDeliveries c : pres I (tx_FinishDeliveries c);
  inv_AddWhisper w : may_whisper P (Whisper_Body w) -> pres I (tx_AddWhisper w);
  inv_MarkWhisperRRC id a : pres I (tx_MarkWhisperRRC id a);
  inv_MarkWhispersRead p u a : pres I (tx_MarkWhispersRead p u a);
  inv_PruneWhispers c : pres I (tx_PruneWhispers c);
  inv_Ignore p q a : pres I (tx_Ignore p q a);
  inv_Unignore p q : pres I (tx_Unignore p q)
}.
#[export] Hint Resolve inv_TouchIdentity inv_SetLXMFMode inv_SetLXMFMine inv_ReleaseName
  inv_SetPrefs inv_SetRank inv_LinkIdentity inv_UnlinkIdentity inv_PutLinkCode inv_RedeemLinkCode
  inv_DeleteLinkCode inv_PruneLinkCodes inv_PutRoom inv_DeleteRoom inv_SetRole inv_SetInvite inv_DeleteInvite
  inv_PruneInvites inv_RemoveBan inv_Audit inv_DeleteMessages inv_PruneMessages
  inv_SetCursor inv_AddMember inv_RemoveMember inv_SetAway inv_PutDelivery inv_FinishDeliveries 
  inv_MarkWhisperRRC inv_MarkWhispersRead inv_PruneWhispers inv_Ignore inv_Unignore : pres.
