(* ===== verification/StoreWf.v ===== *)
(** Every operation of the store keeps the database well formed. *)
From S2P Require Import Prelude Text Db StorePeople StoreRooms StoreMessages StoreGroup StoreInv.
Local Open Scope Z_scope.

(** [wf_tac]: the clauses of [db_wf] about tables an update leaves alone
    follow from the same clauses before it; the rest are left to prove. *)
Ltac wf_tac H := pose proof H as Hwf; destruct H; constructor; cbn; try assumption.

Lemma elem_of_values {K A} `{Countable K} (m : gmap K A) x :
  x ∈ (map_to_list m).*2 <-> exists k, m !! k = Some x.
Proof.
  rewrite list_elem_of_fmap. split.
  - intros ([k a] & -> & Hk%elem_of_map_to_list). by exists k.
  - intros [k Hk]. exists (k, x). split; [done|]. by apply elem_of_map_to_list.
Qed.

Lemma elem_of_bfilter {A} (p : A -> bool) l x : x ∈ List.filter p l <-> x ∈ l /\ p x = true.
Proof. rewrite !list_elem_of_In. apply filter_In. Qed.

Lemma elem_of_identities_of d p i :
  i ∈ identities_of d p <-> (exists id, identities d !! id = Some i) /\ Identity_Person i = p.
Proof.
  unfold identities_of. rewrite elem_of_order_by, elem_of_bfilter, elem_of_values. by rewrite Z.eqb_eq.
Qed.

Lemma identities_of_nil d p :
  identities_of d p = [] <-> forall id i, identities d !! id = Some i -> Identity_Person i <> p.
Proof.
  split.
  - intros Hnil id i Hi Hp.
    assert (i ∈ identities_of d p) as Hin by (apply elem_of_identities_of; eauto).
    rewrite Hnil in Hin. by apply not_elem_of_nil in Hin.
  - intros Hno. destruct (identities_of d p) as [|i l] eqn:E; [done|].
    assert (i ∈ identities_of d p) as ((id & Hi) & Hp)%elem_of_identities_of
      by (rewrite E; constructor).
    by destruct (Hno _ _ Hi).
Qed.

Lemma others_spec d p id i :
  db_wf d ->
  i ∈ others d p id <-> identities d !! Identity_ID i = Some i /\ Identity_Person i = p /\ Identity_ID i <> id.
Proof.
  intros Hwf. unfold others. rewrite elem_of_bfilter, elem_of_identities_of, negb_true_iff, bool_decide_eq_false.
  split.
  - intros [[[k Hk] Hp] Hne]. destruct (wf_identity _ Hwf _ _ Hk) as [Hid _]. by rewrite Hid in *.
  - intros (Hi & Hp & Hne). eauto.
Qed.

Lemma others_nil d p id :
  db_wf d -> others d p id = [] <-> forall k i, identities d !! k = Some i -> Identity_Person i = p -> k = id.
Proof.
  intros Hwf. split.
  - intros Hnil k i Hi Hp. destruct (decide (k = id)); [done|].
    destruct (wf_identity _ Hwf _ _ Hi) as [Hk _].
    assert (i ∈ others d p id) as Hin by (apply others_spec; [done|]; by rewrite Hk).
    rewrite Hnil in Hin. by apply not_elem_of_nil in Hin.
  - intros Hall. destruct (others d p id) as [|i l] eqn:E; [done|].
    assert (i ∈ others d p id) as Hin by (rewrite E; constructor).
    apply others_spec in Hin as (Hi & Hp & Hne); [|done]. by destruct Hne; eapply Hall.
Qed.

(** ** Single-table updates *)

(** Changing an identity's row but not its person. *)
Lemma wf_put_identity d i old :
  db_wf d -> identities d !! Identity_ID i = Some old -> Identity_Person i = Identity_Person old ->
  db_wf (set_identities (<[Identity_ID i := i]> (identities d)) d).
Proof.
  intros H Hold Hp. wf_tac H.
  - intros id j [[<- <-]|[Hne Hj]]%lookup_insert_Some; [|eauto].
    destruct (wf_identity _ _ Hold) as (? & ? & ?). by rewrite Hp.
  - intros p (id & j & Hj & Hjp)%wf_populated. destruct (decide (id = Identity_ID i)) as [->|].
    + exists (Identity_ID i), i. rewrite lookup_insert_eq. split; [done|congruence].
    + exists id, j. by rewrite lookup_insert_ne.
  - intros id r Hr. destruct (decide (id = Identity_ID i)) as [->|].
    + rewrite lookup_insert_eq. eauto.
    + rewrite lookup_insert_ne by done. eauto.
Qed.

(** A new identity in a new person. *)
Lemma wf_new_identity d i sp :
  db_wf d -> identities d !! Identity_ID i = None -> checkID (Identity_ID i) = true ->
  people d !! Identity_Person i = None -> SPerson_ID sp = Identity_Person i -> 0 < Identity_Person i ->
  Prefs_valid (SPerson_Prefs sp) = true ->
  db_wf (set_identities (<[Identity_ID i := i]> (identities d))
        (set_people (<[Identity_Person i := sp]> (people d)) d)).
Proof.
  intros H Hnone Hck Hnp Hsp Hpos Hpref.
  assert (forall q, is_Some (people d !! q) -> is_Some (<[Identity_Person i := sp]> (people d) !! q)) as Hmono.
  { intros q [x Hx]. rewrite lookup_insert_ne by congruence. eauto. }
  wf_tac H.
  - intros id j [[<- <-]|[Hne Hj]]%lookup_insert_Some.
    + rewrite lookup_insert_eq. eauto.
    + destruct (wf_identity _ _ Hj) as (? & ? & ?). auto.
  - intros p q [[<- <-]|[Hne Hq]]%lookup_insert_Some; [done|eauto].
  - intros p. destruct (decide (p = Identity_Person i)) as [->|].
    + intros _. exists (Identity_ID i), i. by rewrite lookup_insert_eq.
    + rewrite lookup_insert_ne by done. intros (id & j & Hj & Hjp)%wf_populated.
      exists id, j. by rewrite lookup_insert_ne by congruence.
  - intros p n Hn. destruct (wf_name _ _ Hn) as (? & ? & ?). auto.
  - intros id r Hr. destruct (wf_member _ _ Hr) as [x Hx]. rewrite lookup_insert_ne by congruence. eauto.
  - intros h c Hc. destruct (wf_link_code _ _ Hc). auto.
  - intros k w Hw. destruct (wf_whisper _ _ Hw) as (? & ? & ?). auto.
  - intros p q x Hx. destruct (wf_ignore _ _ _ Hx) as (? & ? & ?). auto.
Qed.

(** Changing a person's row but not its key or existence. *)
Lemma wf_put_person d p old sp :
  db_wf d -> people d !! p = Some old -> SPerson_ID sp = p -> Prefs_valid (SPerson_Prefs sp) = true ->
  db_wf (set_people (<[p := sp]> (people d)) d).
Proof.
  intros H Hold Hid Hpref.
  assert (forall q, is_Some (<[p := sp]> (people d) !! q) <-> is_Some (people d !! q)) as Hiff.
  { intros q. rewrite lookup_insert_is_Some'. naive_solver. }
  wf_tac H; intros *; rewrite ?Hiff; try (solve [eauto]).
  intros [[<- <-]|[Hne Hq]]%lookup_insert_Some; [|eauto].
  destruct (wf_person _ _ Hold) as (? & ? & ?). done.
Qed.

Lemma pres_put_name p n :
  nr_name n <> "" -> nr_skeleton n <> "" ->
  forall d, db_wf d -> is_Some (people d !! p) ->
  (forall q m, names d !! q = Some m -> nr_skeleton m = nr_skeleton n -> q = p) ->
  db_wf (set_names (<[p := n]> (names d)) d).
Proof.
  intros Hn Hs d H Hp Huniq. wf_tac H.
  - intros q m [[<- <-]|[Hne Hm]]%lookup_insert_Some; eauto.
  - intros q r m k [[<- <-]|[Hne Hm]]%lookup_insert_Some [[<- <-]|[Hne' Hk]]%lookup_insert_Some Heq;
      first [done | symmetry; by eapply Huniq | by eapply Huniq | by eapply wf_skeleton].
Qed.

(** Removing rows that nothing refers to. *)
Lemma wf_del_name d p : db_wf d -> db_wf (set_names (delete p (names d)) d).
Proof.
  intros H. wf_tac H.
  - intros q n [_ Hn]%lookup_delete_Some. eauto.
  - intros q r n m [_ Hn]%lookup_delete_Some [_ Hm]%lookup_delete_Some. eauto.
Qed.

(** ** people.go and persons.go *)
Lemma pres_TouchIdentity id pk now : pres db_wf (tx_TouchIdentity id pk now).
Proof.
  intros d H. unfold tx_TouchIdentity, check_id, bind, assert, get.
  destruct (checkID id) eqn:Hck; cbn; [|done].
  destruct (identities d !! id) as [i|] eqn:Hi.
  - destruct (public_key_ok _); cbn; [|done]. by eapply wf_put_identity.
  - destruct (public_key_ok _); cbn; [|done].
    eapply (wf_new_identity d (mkIdentity id pk now now LXMFOn false _ now)); cbn; eauto using next_id_fresh, next_id_pos.
Qed.

Lemma pres_SetLXMFMode id m : pres db_wf (tx_SetLXMFMode id m).
Proof.
  intros d H. unfold tx_SetLXMFMode, bind, get. destruct (identities d !! id) eqn:E; cbn; [|done].
  eapply wf_put_identity; eauto.
Qed.

Lemma pres_SetLXMFMine id m : pres db_wf (tx_SetLXMFMine id m).
Proof.
  intros d H. unfold tx_SetLXMFMine, bind, get. destruct (identities d !! id) eqn:E; cbn; [|done].
  eapply wf_put_identity; eauto.
Qed.

Lemma reads_primaryOf p : reads (primaryOf p).
Proof. intros d. unfold primaryOf, bind, get. by case_match. Qed.
Lemma reads_scanName row : reads (scanName row).
Proof.
  destruct row as [[p n]|]; [|by intros d]. apply reads_bind; [apply reads_primaryOf|]. by intros ? d.
Qed.
Lemma reads_NameOf id : reads (tx_NameOf id).
Proof. intros d. apply reads_scanName. Qed.
Lemma reads_NameBySkeleton s : reads (tx_NameBySkeleton s).
Proof. intros d. apply reads_scanName. Qed.
Lemma reads_personID id : reads (personID id).
Proof. intros d. unfold personID, bind, get. by case_match. Qed.

Lemma personID_ok d id p d' : personID id d = (Ok p, d') ->
  d' = d /\ exists i, identities d !! id = Some i /\ Identity_Person i = p.
Proof.
  unfold personID, bind, get. destruct (identities d !! id) eqn:E; cbn; [|done].
  intros [= <- <-]. eauto.
Qed.

Lemma skeleton_row_spec d s p n :
  skeleton_row d s = Some (p, n) -> names d !! p = Some n /\ nr_skeleton n = s.
Proof.
  unfold skeleton_row. intros Hh%head_Some_elem_of.
  apply elem_of_map_to_list, map_lookup_filter_Some in Hh as [??]. done.
Qed.
Lemma skeleton_row_none d s : skeleton_row d s = None <->
  forall p n, names d !! p = Some n -> nr_skeleton n <> s.
Proof.
  unfold skeleton_row. split.
  - intros Hh%head_None p n Hn Hs.
    apply map_to_list_empty_iff in Hh. by eapply (map_empty_filter_1 _ _ Hh p n Hn).
  - intros Hno. apply head_None, map_to_list_empty_iff, map_empty_filter_2.
    intros p n Hn. cbn. by apply Hno with p.
Qed.

Lemma NameBySkeleton_ok d s r d' :
  tx_NameBySkeleton s d = (Ok r, d') ->
  d' = d /\ match r with
            | None => forall p n, names d !! p = Some n -> nr_skeleton n <> s
            | Some h => exists n, names d !! Name_Person h = Some n /\ nr_skeleton n = s /\
                        h = mkName (Name_Person h) (Name_Identity h) (nr_name n) (nr_skeleton n) (nr_claimed_at n)
            end.
Proof.
  unfold tx_NameBySkeleton, bind, get, scanName. destruct (skeleton_row d s) as [[p n]|] eqn:E.
  - apply skeleton_row_spec in E as [Hn Hs]. unfold bind, primaryOf, bind, get.
    destruct (identities_of d p) as [|i l]; cbn; [done|]. intros [= <- <-]. cbn. eauto.
  - intros [= <- <-]. split; [done|]. by apply skeleton_row_none.
Qed.

Lemma keeps_bind_reads {A B} (m : Tx A) (k : A -> Tx B) d :
  reads m -> db_wf d -> (forall a, m d = (Ok a, d) -> keeps db_wf (k a d)) -> keeps db_wf (bind m k d).
Proof.
  intros Hr HI Hk. unfold bind. specialize (Hr d).
  destruct (m d) as [[a|e] d']; cbn in *; subst; [by apply Hk|done].
Qed.
Lemma keeps_assert {B} b e (k : unit -> Tx B) d :
  db_wf d -> (b = true -> keeps db_wf (k tt d)) -> keeps db_wf (bind (assert b e) k d).
Proof. intros HI Hk. destruct b; cbn; [by apply Hk|done]. Qed.

Lemma pres_ClaimName id name sk now : pres db_wf (tx_ClaimName id name sk now).
Proof.
  intros d H. unfold tx_ClaimName, check_id.
  apply keeps_assert; [done|]. intros Hid.
  apply keeps_assert; [done|]. intros [Hn Hs]%negb_true_iff%bool_decide_eq_false%Decidable.not_or.
  apply keeps_bind_reads; [apply reads_personID|done|]. intros p (_ & i & Hi & <-)%personID_ok.
  destruct (wf_identity _ H _ _ Hi) as (_ & _ & Hpp).
  apply keeps_bind_reads; [apply reads_NameBySkeleton|done|]. intros [h|] [_ Hr]%NameBySkeleton_ok.
  - destruct Hr as (n & Hn' & Hsk & _). destruct (Z.eqb_spec (Name_Person h) (Identity_Person i)) as [E|]; cbn; [|done].
    rewrite E in Hn'. apply pres_put_name; cbn; auto.
    intros q m Hm Hms. eapply (wf_skeleton _ H); eauto. congruence.
  - cbn. apply pres_put_name; cbn; auto. intros q m Hm Hms. by destruct (Hr _ _ Hm).
Qed.

Lemma pres_ReleaseName id : pres db_wf (tx_ReleaseName id).
Proof.
  apply pres_bind; [apply reads_pres, reads_NameOf|]. intros [n|]; [|apply pres_ret].
  apply pres_bind; [|intros; apply pres_ret]. apply pres_modify. intros d. apply wf_del_name.
Qed.

Lemma pres_SetPrefsOfPerson p pr : pres db_wf (SetPrefsOfPerson p pr).
Proof.
  intros d H. unfold SetPrefsOfPerson, bind, assert, get. destruct (Prefs_valid pr) eqn:E; cbn; [|done].
  destruct (people d !! p) eqn:Hp; cbn; [|done].
  destruct (wf_person _ H _ _ Hp) as [? _]. eapply wf_put_person; cbn; eauto.
Qed.
Lemma pres_SetPrefs id pr : pres db_wf (tx_SetPrefs id pr).
Proof.
  apply pres_bind; [apply pres_assert|]. intros _. apply pres_bind; [apply reads_pres, reads_personID|].
  intros p. apply pres_SetPrefsOfPerson.
Qed.
Lemma pres_SetRank id r b now : pres db_wf (tx_SetRank id r b now).
Proof.
  apply pres_bind; [apply reads_pres, reads_personID|]. intros p.
  apply pres_bind; [apply pres_assert|]. intros _. apply pres_modify. intros d H.
  destruct (people d !! p) as [sp|] eqn:E.
  - destruct (wf_person _ H _ _ E) as (? & ? & ?).
    rewrite (alter_alt_Some _ _ _ _ E). eapply wf_put_person; cbn; eauto.
  - rewrite alter_id; [by destruct d|]. congruence.
Qed.

(** ** Moving an identity to another person *)
Definition with_person (to now : Z) (i : Identity) : Identity :=
  mkIdentity (Identity_ID i) (Identity_PublicKey i) (Identity_FirstSeen i) (Identity_LastSeen i)
    (Identity_LXMFMode i) (Identity_LXMFMine i) to now.

Lemma move_identity_eq id to now d :
  move_identity id to now d = (Ok tt, set_identities (alter (with_person to now) id (identities d)) d).
Proof. done. Qed.

Lemma alter_is_Some {K A} `{Countable K} (f : A -> A) (m : gmap K A) i j :
  is_Some (alter f i m !! j) <-> is_Some (m !! j).
Proof. rewrite lookup_alter. case_decide; [|done]. subst. by rewrite fmap_is_Some. Qed.

(** A person that keeps another identity stays populated. *)
Lemma populated_move d id to now p :
  db_wf d -> is_Some (people d !! p) -> others d p id <> [] ->
  exists k i, alter (with_person to now) id (identities d) !! k = Some i /\ Identity_Person i = p.
Proof.
  intros Hwf Hp Ho. destruct (others d p id) as [|i l] eqn:E; [done|].
  assert (i ∈ others d p id) as Hin by (rewrite E; constructor).
  apply others_spec in Hin as (Hi & Hip & Hne); [|done].
  exists (Identity_ID i), i. by rewrite lookup_alter_ne.
Qed.

Lemma populated_other d id to now p i :
  db_wf d -> is_Some (people d !! p) -> identities d !! id = Some i -> Identity_Person i <> p ->
  exists k j, alter (with_person to now) id (identities d) !! k = Some j /\ Identity_Person j = p.
Proof.
  intros Hwf Hp Hi Hne. destruct (wf_populated _ Hwf _ Hp) as (k & j & Hj & Hjp).
  exists k, j. rewrite lookup_alter_ne; [done|]. intros ->. congruence.
Qed.

Lemma lookup_moved d id to now k j :
  alter (with_person to now) id (identities d) !! k = Some j ->
  exists i, identities d !! k = Some i /\ Identity_ID j = Identity_ID i /\
            (k = id /\ Identity_Person j = to \/ k <> id /\ i = j).
Proof.
  rewrite lookup_alter. case_decide; [subst|by eauto 6].
  intros (i & Hi & ->)%fmap_Some. exists i. cbn. auto.
Qed.

(** UnlinkIdentity's writes. *)
Lemma wf_unlink d id i fresh sp now :
  db_wf d -> identities d !! id = Some i -> others d (Identity_Person i) id <> [] ->
  people d !! fresh = None -> 0 < fresh -> SPerson_ID sp = fresh -> Prefs_valid (SPerson_Prefs sp) = true ->
  db_wf (set_identities (alter (with_person fresh now) id (identities d)) (set_people (<[fresh := sp]> (people d)) d)).
Proof.
  intros H Hi Ho Hnp Hpos Hid Hpref.
  assert (forall q, is_Some (people d !! q) -> is_Some (<[fresh := sp]> (people d) !! q)) as Hmono.
  { intros q ?. rewrite lookup_insert_is_Some'. auto. }
  wf_tac H.
  - intros k j (i' & Hk & Hj & Hc)%lookup_moved. destruct (wf_identity _ _ Hk) as (? & ? & ?).
    destruct Hc as [[-> ->]|[? ->]]; [|auto]. rewrite lookup_insert_eq. split; [congruence|eauto].
  - intros p q [[<- <-]|[Hne Hq]]%lookup_insert_Some; [done|eauto].
  - intros p Hp. destruct (decide (p = fresh)) as [->|].
    { exists id, (with_person fresh now i). by rewrite lookup_alter_eq, Hi. }
    rewrite lookup_insert_ne in Hp by done. destruct (decide (Identity_Person i = p)) as [<-|].
    + by apply populated_move.
    + by eapply populated_other.
  - intros p n Hn. destruct (wf_name _ _ Hn) as (? & ? & ?). auto.
  - intros k r Hr. rewrite alter_is_Some. eauto.
  - intros h c Hc. destruct (wf_link_code _ _ Hc). auto.
  - intros k w Hw. destruct (wf_whisper _ _ Hw) as (? & ? & ?). auto.
  - intros p q x Hx. destruct (wf_ignore _ _ _ Hx) as (? & ? & ?). auto.
Qed.

Lemma pres_UnlinkIdentity id now : pres db_wf (tx_UnlinkIdentity id now).
Proof.
  intros d H. unfold tx_UnlinkIdentity, tx_PersonOf.
  apply keeps_bind_reads; [by intros ?|done|]. intros p [= Hp].
  destruct p as [p|]; [|done].
  apply bind_Some in Hp as (i & Hi & Hp). destruct (wf_person _ H _ _ Hp) as (Hpid & Hpos & Hpref).
  apply keeps_bind_reads; [by intros ?|done|]. intros ? [= <-]. rewrite Hpid.
  case_bool_decide as Ho; [done|].
  cbn. unfold SetPrefsOfPerson, bind, assert, get. rewrite Hpref. cbn. rewrite lookup_insert_eq. cbn.
  rewrite insert_insert_eq.
  by apply (wf_unlink d id i (next_id (people d))
    (mkSPerson (next_id (people d)) now SRankMember None 0 (SPerson_Prefs p)));
    auto using next_id_fresh, next_id_pos.
Qed.

(** LinkIdentity onto a person while its own keeps another identity. *)
Lemma wf_link d id i to now :
  db_wf d -> identities d !! id = Some i -> others d (Identity_Person i) id <> [] ->
  is_Some (people d !! to) ->
  db_wf (set_identities (alter (with_person to now) id (identities d)) d).
Proof.
  intros H Hi Ho Hto. wf_tac H.
  - intros k j (i' & Hk & Hj & Hc)%lookup_moved. destruct (wf_identity _ _ Hk) as (? & ? & ?).
    destruct Hc as [[-> ->]|[? ->]]; [|auto]. split; [congruence|eauto].
  - intros p Hp. destruct (decide (Identity_Person i = p)) as [<-|].
    + by apply populated_move.
    + by eapply populated_other.
  - intros k r Hr. rewrite alter_is_Some. eauto.
Qed.

(** The ignores a merge adds. *)
Lemma insert_or_ignore_keys key m k x :
  insert_or_ignore key m !! k = Some x ->
  is_Some (m !! k) \/ exists k0, is_Some (m !! k0) /\ key k0 = Some k.
Proof.
  unfold insert_or_ignore. generalize m at 1 3 as b. intros b. revert k x.
  refine (map_fold_weak_ind (fun r m => forall k x, r !! k = Some x ->
    is_Some (b !! k) \/ exists k0, is_Some (m !! k0) /\ key k0 = Some k) _ _ _ _ m); [eauto|].
  intros k1 y m' r _ IH k x Hk.
  assert (r !! k = Some x \/ key k1 = Some k) as [[?|(k0 & ? & ?)]%IH|Hnew].
  { destruct (key k1) as [k'|]; [|auto]. case_bool_decide; [|auto].
    apply lookup_insert_Some in Hk as [[-> _]|[_ ?]]; auto. }
  - auto.
  - right. exists k0. rewrite lookup_insert_is_Some'. auto.
  - right. exists k1. rewrite lookup_insert_eq. eauto.
Qed.

Lemma merge_ignores_by_keys from to d p q x :
  ignores (merge_ignores_by from to d) !! (p, q) = Some x ->
  is_Some (ignores d !! (p, q)) \/ p = to /\ q <> to /\ is_Some (ignores d !! (from, q)).
Proof.
  intros [?|([a b] & Hk & Hkey)]%insert_or_ignore_keys; [auto|]. right. cbn in Hkey.
  destruct (Z.eqb_spec a from), (Z.eqb_spec b to); cbn in Hkey; try done. by simplify_eq.
Qed.
Lemma merge_ignores_of_keys from to d p q x :
  ignores (merge_ignores_of from to d) !! (p, q) = Some x ->
  is_Some (ignores d !! (p, q)) \/ q = to /\ p <> to /\ is_Some (ignores d !! (p, from)).
Proof.
  intros [?|([a b] & Hk & Hkey)]%insert_or_ignore_keys; [auto|]. right. cbn in Hkey.
  destruct (Z.eqb_spec b from), (Z.eqb_spec a to); cbn in Hkey; try done. by simplify_eq.
Qed.

(** Every pair in the merged ignores is of people the old ones named, or of
    the person merged into. *)
Lemma merged_ignore_wf from to d p q x :
  db_wf d -> is_Some (people d !! to) ->
  ignores (merge_ignores_of from to (merge_ignores_by from to d)) !! (p, q) = Some x ->
  p <> q /\ is_Some (people d !! p) /\ is_Some (people d !! q).
Proof.
  intros H Hto.
  assert (forall p q, is_Some (ignores (merge_ignores_by from to d) !! (p, q)) ->
    p <> q /\ is_Some (people d !! p) /\ is_Some (people d !! q)) as Hby.
  { intros p' q' [y [[z Hz]|(-> & Hr & [z Hz])]%merge_ignores_by_keys].
    - by apply (wf_ignore _ H) in Hz.
    - apply (wf_ignore _ H) in Hz as (? & ? & ?). auto. }
  intros [Hk|(-> & Hr & Hk)]%merge_ignores_of_keys; [by apply Hby|].
  apply Hby in Hk as (? & ? & ?). auto.
Qed.

(** LinkIdentity when the old person is left empty: it goes, and its rows go
    or move with it. *)
Lemma wf_link_alone d id i to now :
  let from := Identity_Person i in
  let d1 := set_identities (alter (with_person to now) id (identities d)) d in
  let d2 := merge_ignores_of from to (merge_ignores_by from to (merge_whispers from to d1)) in
  db_wf d -> identities d !! id = Some i -> from <> to -> is_Some (people d !! to) ->
  identities_of d2 from = [] -> names d2 !! from = None ->
  db_wf (people_cascade from d2).
Proof.
  intros from d1 d2 H Hi Hne Hto Hnil Hnames.
  pose proof (merged_ignore_wf from to d) as Hign.
  assert (forall q, q <> from -> is_Some (people d !! q) -> is_Some (delete from (people d) !! q)) as Hkeep.
  { intros q ? ?. by rewrite lookup_delete_ne. }
  assert (forall k j, identities d2 !! k = Some j -> Identity_Person j <> from) as Hgone
    by (by apply identities_of_nil).
  wf_tac H; subst d1 d2; cbn in *.
  - intros k j Hj. pose proof (Hgone _ _ Hj). apply lookup_moved in Hj as (i' & Hk & Hj & Hc).
    destruct (wf_identity _ _ Hk) as (? & ? & ?).
    split; [congruence|]. split; [done|]. apply Hkeep; [done|]. by destruct Hc as [[_ ->]|[_ ->]].
  - intros p sp [_ Hp]%lookup_delete_Some. eauto.
  - intros p [sp [Hpf Hp]%lookup_delete_Some]. eapply (populated_other d); eauto.
  - intros p n Hn. destruct (wf_name _ _ Hn) as (? & ? & ?). split; [|done].
    apply Hkeep; [|done]. intros ->. congruence.
  - intros k r Hr. rewrite alter_is_Some. eauto.
  - intros h c [Hc Hp]%map_lookup_filter_Some. destruct (wf_link_code _ _ Hc). auto.
  - intros k w [Hw Hp]%map_lookup_filter_Some. cbn in Hp.
    rewrite lookup_fmap in Hw. apply fmap_Some in Hw as (w' & Hw & ->).
    destruct (wf_whisper _ _ Hw) as (? & ? & ?). destruct (Z.eqb_spec (Whisper_ToPerson w') from); cbn in *; auto.
  - intros k k' r [_ Hr]%map_lookup_filter_Some. done.
  - intros p q x [Hx [Hp Hq]]%map_lookup_filter_Some. cbn in *.
    destruct (Hign p q x) as (? & ? & ?); auto.
Qed.

(** An assertion whose failure aborts the transaction. *)
Lemma keeps_assert_int {B} b w (k : unit -> Tx B) d :
  (b = true -> keeps db_wf (k tt d)) -> keeps db_wf (bind (assert b (ErrInternal w)) k d).
Proof. intros Hk. destruct b; cbn; [by apply Hk|by split]. Qed.

Lemma keeps_modify {B} f (k : unit -> Tx B) d :
  keeps db_wf (k tt (f d)) -> keeps db_wf (bind (modify f) k d).
Proof. done. Qed.

Lemma pres_LinkIdentity id to now : pres db_wf (tx_LinkIdentity id to now).
Proof.
  intros d H. unfold tx_LinkIdentity, tx_PersonByID.
  apply keeps_bind_reads; [apply reads_personID|done|]. intros from (_ & i & Hi & <-)%personID_ok.
  destruct (Z.eqb_spec (Identity_Person i) to); [done|].
  apply keeps_bind_reads; [by intros ?|done|]. intros p [= Hp]. destruct p as [p|]; [|done].
  apply keeps_bind_reads; [by intros ?|done|]. intros ? [= <-].
  apply keeps_assert; [done|]. intros Hnamed. apply keeps_modify.
  destruct (bool_decide (others d _ _ = [])) eqn:Ho.
  - do 3 apply keeps_modify. unfold delete_person, bind at 1, get.
    apply keeps_assert_int. intros [Hnil Hn]%bool_decide_eq_true. eapply wf_link_alone; eauto.
  - eapply wf_link; eauto. by apply bool_decide_eq_false in Ho.
Qed.

(** ** Link codes *)
Lemma wf_filter_link_codes d P `{Hdec : !forall kc, Decision (P kc)} :
  db_wf d -> db_wf (set_link_codes (filter P (link_codes d)) d).
Proof. intros H. wf_tac H. intros h c [Hc _]%map_lookup_filter_Some. eauto. Qed.
Lemma wf_put_link_code d c h :
  db_wf d -> LinkCode_Hash c = h -> is_Some (people d !! LinkCode_Person c) ->
  db_wf (set_link_codes (<[h := c]> (link_codes d)) d).
Proof. intros H <- Hp. wf_tac H. intros h c' [[<- <-]|[Hne Hc]]%lookup_insert_Some; eauto. Qed.

Lemma pres_PutLinkCode c : pres db_wf (tx_PutLinkCode c).
Proof.
  intros d H. unfold tx_PutLinkCode, check_id. apply keeps_assert; [done|]. intros _.
  apply keeps_assert; [done|]. intros _. apply keeps_modify.
  apply keeps_bind_reads; [by intros ?|by apply wf_filter_link_codes|]. intros ? [= <-].
  apply keeps_assert_int. intros [? ?]%bool_decide_eq_true. apply wf_put_link_code; [by apply wf_filter_link_codes|done..].
Qed.
Lemma pres_RedeemLinkCode h by_ via : pres db_wf (tx_RedeemLinkCode h by_ via).
Proof.
  intros d H. unfold tx_RedeemLinkCode, check_id. apply keeps_assert; [done|]. intros _.
  apply keeps_bind_reads; [by intros ?|done|]. intros ? [= <-].
  destruct (link_codes d !! h) as [c|] eqn:E; [|done]. destruct (LinkCode_RedeemedBy c); [done|].
  apply keeps_assert; [done|]. intros _. destruct (wf_link_code _ H _ _ E). by apply wf_put_link_code.
Qed.
Lemma pres_DeleteLinkCode h : pres db_wf (tx_DeleteLinkCode h).
Proof.
  apply pres_modify. intros d H. wf_tac H. intros h' c [_ Hc]%lookup_delete_Some. eauto.
Qed.
Lemma pres_PruneLinkCodes now : pres db_wf (tx_PruneLinkCodes now).
Proof. apply pres_modify. intros d. by apply wf_filter_link_codes. Qed.

(** ** rooms.go and admin.go *)
Lemma pres_PutRoom r : pres db_wf (tx_PutRoom r).
Proof.
  unfold tx_PutRoom, check_id. apply pres_bind; [case_match; eauto with pres|]. intros _.
  apply pres_bind; [eauto with pres|]. intros _. apply pres_modify. intros d H.
  assert (forall n r', is_Some (rooms d !! n) -> is_Some (<[Room_Name r := r']> (rooms d) !! n)) as Hmono.
  { intros n r' ?. rewrite lookup_insert_is_Some'. auto. }
  wf_tac H; [|eauto..]. intros n r' [[<- <-]|[Hne Hr]]%lookup_insert_Some; [done|eauto].
Qed.
Lemma pres_DeleteRoom n : pres db_wf (tx_DeleteRoom n).
Proof.
  apply pres_modify. intros d H. wf_tac H.
  - intros n' r [_ Hr]%lookup_delete_Some. eauto.
  - intros r id ro x [Hx Hn]%map_lookup_filter_Some. cbn in Hn. rewrite lookup_delete_ne by done. eauto.
  - intros r id x [Hx Hn]%map_lookup_filter_Some. cbn in Hn. rewrite lookup_delete_ne by done. eauto.
Qed.
Lemma pres_SetRole room id ro on by_ now : pres db_wf (tx_SetRole room id ro on by_ now).
Proof.
  intros d H. unfold tx_SetRole, check_id. apply keeps_assert; [done|]. intros _. destruct on.
  - apply keeps_bind_reads; [by intros ?|done|]. intros ? [= <-]. case_match; [done|].
    apply keeps_assert_int. intros ?%bool_decide_eq_true. cbn. wf_tac H.
    intros r i o x [[[= <- <- <-] _]|[_ Hx]]%lookup_insert_Some; eauto.
  - wf_tac H. intros r i o x [_ Hx]%lookup_delete_Some. eauto.
Qed.
Lemma pres_SetInvite room id exp : pres db_wf (tx_SetInvite room id exp).
Proof.
  intros d H. unfold tx_SetInvite, check_id. apply keeps_assert; [done|]. intros _.
  apply keeps_bind_reads; [by intros ?|done|]. intros ? [= <-].
  apply keeps_assert_int. intros ?%bool_decide_eq_true. cbn. wf_tac H.
  intros r i x [[[= <- <-] _]|[_ Hx]]%lookup_insert_Some; eauto.
Qed.
Lemma pres_DeleteInvite room id : pres db_wf (tx_DeleteInvite room id).
Proof. apply pres_modify. intros d H. wf_tac H. intros r i x [_ Hx]%lookup_delete_Some. eauto. Qed.
Lemma pres_PruneInvites now : pres db_wf (tx_PruneInvites now).
Proof. apply pres_modify. intros d H. wf_tac H. intros r i x [Hx _]%map_lookup_filter_Some. eauto. Qed.
Lemma pres_AddBan b : pres db_wf (tx_AddBan b).
Proof.
  apply pres_bind; [apply pres_assert|]. intros _. apply pres_modify. intros d H. wf_tac H.
  intros id c [[<- <-]|[_ Hc]]%lookup_insert_Some; eauto.
Qed.
Lemma pres_RemoveBan id : pres db_wf (tx_RemoveBan id).
Proof. intros d H. cbn. wf_tac H. intros i b [_ Hb]%lookup_delete_Some. eauto. Qed.
Lemma pres_Audit at_ a x y z : pres db_wf (tx_Audit at_ a x y z).
Proof. apply pres_modify. intros d H. by wf_tac H. Qed.
Lemma pres_SetMeta k v : pres db_wf (tx_SetMeta k v).
Proof. apply pres_modify. intros d H. by wf_tac H. Qed.

(** ** messages.go *)
Lemma origin_id_spec d via o k : origin_id d via o = Some k ->
  exists m, messages d !! k = Some m /\ Message_Via m = via /\ Message_OriginID m = Some o.
Proof.
  unfold origin_id. intros Hh%head_Some_elem_of. apply list_elem_of_fmap in Hh as ([k' m] & -> & Hm).
  apply elem_of_map_to_list, map_lookup_filter_Some in Hm as [? [??]]. eauto.
Qed.
Lemma origin_id_none d via o : origin_id d via o = None <->
  forall k m, messages d !! k = Some m -> ~ (Message_Via m = via /\ Message_OriginID m = Some o).
Proof.
  unfold origin_id. rewrite head_None. split.
  - intros He%fmap_nil_inv%map_to_list_empty_iff k m Hm Hs. by apply (map_empty_filter_1 _ _ He k m Hm).
  - intros Hno. rewrite (proj2 (map_to_list_empty_iff _)); [done|]. apply map_empty_filter_2. intros k m Hm. cbn. by eapply Hno.
Qed.

Lemma pres_AddMessage m : pres db_wf (tx_AddMessage m).
Proof.
  intros d H. unfold tx_AddMessage, check_id. apply keeps_assert; [done|]. intros _.
  apply keeps_bind_reads; [by intros ?|done|]. intros ? [= <-].
  destruct (Message_OriginID m ≫= _) as [k|] eqn:E; [done|]. cbn.
  pose proof (next_id_pos (messages d)). wf_tac H.
  - intros k m' [[<- <-]|[_ Hm]]%lookup_insert_Some; eauto.
  - assert (forall l n o, messages d !! l = Some n -> Message_OriginID m = Some o ->
      Message_OriginID n = Some o -> Message_Via m = Message_Via n -> False) as Hno.
    { intros l n o Hn Ho Hno Hv. rewrite Ho in E. cbn in E.
      by apply (proj1 (origin_id_none _ _ _) E l n Hn). }
    intros k l m1 m2 o [[<- <-]|[_ H1]]%lookup_insert_Some [[<- <-]|[_ H2]]%lookup_insert_Some ???;
      cbn in *; [done|exfalso; eauto|exfalso; eauto|eauto].
Qed.
(** Removing messages and deliveries, whatever is left. *)
Lemma wf_drop_messages d ms ds :
  db_wf d -> ms ⊆ messages d -> db_wf (set_messages ms (set_deliveries ds d)).
Proof.
  intros H Hs. wf_tac H.
  - intros k m Hm. eapply wf_message, lookup_weaken; eauto.
  - intros k l m n o Hm Hn. eapply wf_origin; eauto using lookup_weaken.
Qed.
Lemma pres_DeleteMessages ids : pres db_wf (tx_DeleteMessages ids).
Proof.
  induction ids as [|id ids IH]; cbn; [apply pres_ret|].
  apply pres_bind; [apply pres_gets|]. intros n. apply pres_bind.
  - apply pres_modify. intros d H. apply wf_drop_messages; [done|]. apply delete_subseteq.
  - intros _. apply pres_bind; [done|]. intros; apply pres_ret.
Qed.
Lemma pres_PruneMessages c : pres db_wf (tx_PruneMessages c).
Proof. intros d H. cbn. apply wf_drop_messages; [done|]. apply map_filter_subseteq. Qed.
Lemma pres_SetCursor id room via m now : pres db_wf (tx_SetCursor id room via m now).
Proof.
  unfold tx_SetCursor, check_id. do 2 (apply pres_bind; [apply pres_assert|]; intros _).
  apply pres_modify. intros d H. by wf_tac H.
Qed.

(** ** group.go and whispers.go *)
Lemma pres_AddMember id now : pres db_wf (tx_AddMember id now).
Proof.
  intros d H. unfold tx_AddMember, check_id. apply keeps_assert; [done|]. intros _.
  apply keeps_bind_reads; [by intros ?|done|]. intros ? [= <-]. case_match; [done|].
  apply keeps_assert_int. intros ?%bool_decide_eq_true. cbn. wf_tac H.
  intros i r [[<- <-]|[_ Hr]]%lookup_insert_Some; eauto.
Qed.
Lemma pres_RemoveMember id : pres db_wf (tx_RemoveMember id).
Proof.
  intros d H. cbn. wf_tac H.
  - intros i r [_ Hr]%lookup_delete_Some. eauto.
  - intros k i r [Hr _]%map_lookup_filter_Some. eauto.
Qed.
Lemma pres_SetAway id u : pres db_wf (tx_SetAway id u).
Proof.
  apply pres_modify. intros d H. wf_tac H. intros i r Hr.
  assert (is_Some (members d !! i)) as [r' Hr'] by (eapply alter_is_Some; eauto). eauto.
Qed.
Lemma pres_PutDelivery x : pres db_wf (tx_PutDelivery x).
Proof.
  intros d H. unfold tx_PutDelivery, check_id. do 2 (apply keeps_assert; [done|]; intros _).
  destruct (Delivery_Whisper x).
  - apply keeps_bind_reads; [by intros ?|done|]. intros ? [= <-].
    apply keeps_assert_int. intros ?%bool_decide_eq_true. cbn. wf_tac H.
    intros k i r [[[= <- <-] _]|[_ Hr]]%lookup_insert_Some; eauto.
  - by wf_tac H.
Qed.
Lemma pres_FinishDeliveries c : pres db_wf (tx_FinishDeliveries c).
Proof. apply pres_modify. intros d H. wf_tac H. intros k i r [Hr _]%map_lookup_filter_Some. eauto. Qed.

Lemma pres_AddWhisper w : pres db_wf (tx_AddWhisper w).
Proof.
  intros d H. unfold tx_AddWhisper, check_id. apply keeps_assert; [done|]. intros _.
  apply keeps_bind_reads; [by intros ?|done|]. intros ? [= <-].
  apply keeps_assert_int. intros [? ?]%bool_decide_eq_true. cbn.
  pose proof (next_id_pos (whispers d)). wf_tac H.
  - intros k w' [[<- <-]|[_ Hw]]%lookup_insert_Some; eauto.
  - intros k i r Hr%wf_whisper_delivery. rewrite lookup_insert_is_Some'. auto.
Qed.
(** Rewriting whispers' times. *)
Lemma wf_whisper_times d (ws : gmap Z Whisper) :
  db_wf d ->
  (forall k w, ws !! k = Some w -> exists v, whispers d !! k = Some v /\ Whisper_ID v = Whisper_ID w /\ Whisper_ToPerson v = Whisper_ToPerson w) ->
  (forall k, is_Some (whispers d !! k) -> is_Some (ws !! k)) ->
  db_wf (set_whispers ws d).
Proof.
  intros H Hw Hk. wf_tac H.
  - intros k w (v & Hv & <- & <-)%Hw. eauto.
  - intros k i r Hr%wf_whisper_delivery. auto.
Qed.
Lemma pres_MarkWhisperRRC id a : pres db_wf (tx_MarkWhisperRRC id a).
Proof.
  apply pres_modify. intros d H. apply wf_whisper_times; [done| |by intros k ?; apply alter_is_Some].
  intros k w. rewrite lookup_alter. case_decide; [|by eauto].
  intros (v & Hv & ->)%fmap_Some. exists v. subst. split; [done|]. by case_match.
Qed.
Lemma pres_MarkWhispersRead p u a : pres db_wf (tx_MarkWhispersRead p u a).
Proof.
  intros d H. cbn. apply wf_whisper_times; [done| |].
  - intros k w. rewrite lookup_fmap. intros (v & Hv & ->)%fmap_Some. exists v. split; [done|]. by case_match.
  - intros k. by rewrite lookup_fmap, fmap_is_Some.
Qed.
Lemma pres_PruneWhispers c : pres db_wf (tx_PruneWhispers c).
Proof.
  apply pres_modify. intros d H. wf_tac H.
  - intros k w [Hw _]%map_lookup_filter_Some. eauto.
  - intros k i r [_ Hr]%map_lookup_filter_Some. done.
Qed.
Lemma pres_Ignore p q a : pres db_wf (tx_Ignore p q a).
Proof.
  intros d H. unfold tx_Ignore. apply keeps_assert; [done|]. intros Hne.
  apply keeps_bind_reads; [by intros ?|done|]. intros ? [= <-]. case_match; [done|].
  apply keeps_assert_int. intros [? ?]%bool_decide_eq_true. cbn. wf_tac H.
  intros p' q' x [[[= <- <-] _]|[_ Hx]]%lookup_insert_Some; [|eauto].
  destruct (Z.eqb_spec p q); done.
Qed.
Lemma pres_Unignore p q : pres db_wf (tx_Unignore p q).
Proof. intros d H. cbn. wf_tac H. intros p' q' x [_ Hx]%lookup_delete_Some. eauto. Qed.

(** ** The store keeps its promise *)
#[export] Instance db_wf_store : StoreInv anything db_wf.
Proof.
  constructor; intros;
    first [apply pres_TouchIdentity | apply pres_SetLXMFMode | apply pres_SetLXMFMine | apply pres_ClaimName
    | apply pres_ReleaseName | apply pres_SetPrefs | apply pres_SetRank | apply pres_LinkIdentity
    | apply pres_UnlinkIdentity | apply pres_PutLinkCode | apply pres_RedeemLinkCode | apply pres_DeleteLinkCode
    | apply pres_PruneLinkCodes | apply pres_PutRoom | apply pres_DeleteRoom | apply pres_SetRole
    | apply pres_SetInvite | apply pres_DeleteInvite | apply pres_PruneInvites | apply pres_AddBan
    | apply pres_RemoveBan | apply pres_Audit | apply pres_AddMessage | apply pres_DeleteMessages
    | apply pres_PruneMessages | apply pres_SetCursor | apply pres_AddMember | apply pres_RemoveMember
    | apply pres_SetAway | apply pres_PutDelivery | apply pres_FinishDeliveries | apply pres_AddWhisper
    | apply pres_MarkWhisperRRC | apply pres_MarkWhispersRead | apply pres_PruneWhispers | apply pres_Ignore
    | apply pres_Unignore].
Qed.
