(* ===== verification/StoreHistory.v ===== *)
(** What the store never loses: identities it has seen, how far someone has
    read, and the audit log. *)
From S2P Require Import Prelude Text Db StorePeople StoreRooms StoreMessages StoreGroup StoreInv StoreWf.
Local Open Scope Z_scope.

(** [later d0 d]: [d] is a later state of the database [d0]. *)
Record later (d0 d : DB) : Prop := {
  lt_cursor : forall k c0, cursors d0 !! k = Some c0 ->
    exists c, cursors d !! k = Some c /\ Cursor_MessageID c0 <= Cursor_MessageID c;
  lt_identity : forall id i0, identities d0 !! id = Some i0 ->
    exists i, identities d !! id = Some i /\ Identity_FirstSeen i = Identity_FirstSeen i0 /\
      Identity_LastSeen i0 <= Identity_LastSeen i /\
      (is_Some (Identity_PublicKey i0) -> is_Some (Identity_PublicKey i));
  lt_audit : exists l, audit d = audit d0 ++ l
}.

#[export] Instance later_preorder : PreOrder later.
Proof.
  split.
  - intros d. constructor; [by eauto with lia|by eauto 7 with lia|]. exists []. by rewrite app_nil_r.
  - intros d1 d2 d3 H1 H2. constructor.
    + intros k c1 Hc1. destruct (lt_cursor _ _ H1 _ _ Hc1) as (c2 & Hc2 & ?).
      destruct (lt_cursor _ _ H2 _ _ Hc2) as (c3 & Hc3 & ?). eauto with lia.
    + intros id i1 Hi1. destruct (lt_identity _ _ H1 _ _ Hi1) as (i2 & Hi2 & ? & ? & ?).
      destruct (lt_identity _ _ H2 _ _ Hi2) as (i3 & Hi3 & ? & ? & ?).
      exists i3. split_and!; [done|congruence|lia|auto].
    + destruct (lt_audit _ _ H1) as [l1 E1], (lt_audit _ _ H2) as [l2 E2].
      exists (l1 ++ l2). by rewrite E2, E1, app_assoc.
Qed.

(** An update of other tables. *)
Lemma later_same d d' :
  cursors d' = cursors d -> identities d' = identities d -> audit d' = audit d -> later d d'.
Proof.
  intros Hc Hi Ha. constructor; rewrite ?Hc, ?Hi, ?Ha; [by eauto with lia|by eauto 7 with lia|].
  exists []. by rewrite app_nil_r.
Qed.
(** Identities' rows rewritten, none dropped. *)
Lemma later_identities d d' :
  cursors d' = cursors d -> audit d' = audit d ->
  (forall id i0, identities d !! id = Some i0 ->
    exists i, identities d' !! id = Some i /\ Identity_FirstSeen i = Identity_FirstSeen i0 /\
      Identity_LastSeen i0 <= Identity_LastSeen i /\
      (is_Some (Identity_PublicKey i0) -> is_Some (Identity_PublicKey i))) ->
  later d d'.
Proof.
  intros Hc Ha Hi. constructor; [rewrite Hc; eauto with lia|done|]. exists []. by rewrite app_nil_r.
Qed.

(** [steps m]: running [m] only moves forward, whatever its result. *)
Definition forward {A} (m : Tx A) : Prop := forall d, later d (m d).2.

Lemma forward_pres {A} (m : Tx A) d0 : forward m -> pres (later d0) m.
Proof.
  intros Hm d Hd. specialize (Hm d). assert (later d0 (m d).2) as H by (by etrans).
  destruct (m d) as [[a|e] d']; cbn in *; auto.
Qed.
Lemma forward_bind {A B} (m : Tx A) (k : A -> Tx B) : forward m -> (forall a, forward (k a)) -> forward (bind m k).
Proof.
  intros Hm Hk d. unfold bind. specialize (Hm d). destruct (m d) as [[a|e] d']; cbn in *; [|done].
  etrans; [exact Hm|apply Hk].
Qed.
Lemma forward_reads {A} (m : Tx A) : reads m -> forward m.
Proof. intros Hm d. by rewrite Hm. Qed.
Lemma forward_with {A B} (m : Tx A) (k : A -> Tx B) :
  reads m -> (forall a d, m d = (Ok a, d) -> later d (k a d).2) -> forward (bind m k).
Proof.
  intros Hm Hk d. unfold bind. specialize (Hm d). destruct (m d) as [[a|e] d'] eqn:E; cbn in *; subst; [|done].
  by apply Hk.
Qed.
Lemma forward_modify f : (forall d, later d (f d)) -> forward (modify f).
Proof. intros Hf d. apply Hf. Qed.

(** [forward_tac] runs a store operation that writes other tables. *)
Ltac forward_tac :=
  let d := fresh "d" in
  intros d;
  repeat (unfold bind, get, gets, put, modify, assert, fail, ret, check_id, newPerson, put_identity, SetPrefsOfPerson,
            delete_person, move_identity in *; cbn in *;
          first [ by apply later_same
                | progress simplify_eq
                | case_match ]).

Lemma forward_put_identity d i old :
  identities d !! Identity_ID i = Some old -> Identity_FirstSeen i = Identity_FirstSeen old ->
  Identity_LastSeen old <= Identity_LastSeen i ->
  (is_Some (Identity_PublicKey old) -> is_Some (Identity_PublicKey i)) ->
  later d (set_identities (<[Identity_ID i := i]> (identities d)) d).
Proof.
  intros Hold ? ? ?. apply later_identities; [done..|]. cbn. intros id i0 Hi0.
  destruct (decide (id = Identity_ID i)) as [->|].
  - rewrite lookup_insert_eq. exists i. naive_solver.
  - rewrite lookup_insert_ne by done. eauto with lia.
Qed.

Lemma later_move d id to now x :
  later d (set_identities (alter (with_person to now) id (identities d)) (set_people x d)).
Proof.
  apply later_identities; [done..|]. cbn. intros k i0 Hi0. rewrite lookup_alter. case_decide.
  - subst. rewrite Hi0. cbn. exists (with_person to now i0). naive_solver.
  - eauto with lia.
Qed.

Lemma forward_DeleteMessages ids : forward (tx_DeleteMessages ids).
Proof.
  induction ids as [|k ids IH]; cbn; [by intros d|].
  apply forward_bind; [by intros d|]. intros n. apply forward_bind; [forward_tac|]. intros _.
  apply forward_bind; [done|]. by intros m d.
Qed.

Lemma forward_TouchIdentity id pk now : forward (tx_TouchIdentity id pk now).
Proof.
  unfold tx_TouchIdentity, check_id. apply forward_bind; [apply forward_reads; reads_auto|]. intros _.
  apply forward_with; [reads_auto|]. intros ? d [= <-].
  destruct (identities d !! id) as [i|] eqn:E.
  - unfold bind, assert. destruct (public_key_ok _); cbn; [|done].
    apply (forward_put_identity d (mkIdentity id _ _ _ _ _ _ _) i); cbn; [done..|lia|].
    intros [k Hk]. destruct pk; eauto.
  - unfold bind, assert. destruct (public_key_ok pk); cbn; [|by apply later_same].
    apply later_identities; [done..|]. cbn. intros k i0 Hi0. rewrite lookup_insert_ne by congruence. eauto 6 with lia.
Qed.

Lemma forward_SetLXMFMode id mode : forward (tx_SetLXMFMode id mode).
Proof.
  intros d. unfold tx_SetLXMFMode, bind, get. destruct (identities d !! id) eqn:E; cbn; [|done].
  eapply (forward_put_identity d (mkIdentity id _ _ _ _ _ _ _)); cbn; eauto; done.
Qed.
Lemma forward_SetLXMFMine id on : forward (tx_SetLXMFMine id on).
Proof.
  intros d. unfold tx_SetLXMFMine, bind, get. destruct (identities d !! id) eqn:E; cbn; [|done].
  eapply (forward_put_identity d (mkIdentity id _ _ _ _ _ _ _)); cbn; eauto; done.
Qed.

Lemma forward_SetCursor id room via m now : forward (tx_SetCursor id room via m now).
Proof.
  unfold tx_SetCursor, check_id. do 2 (apply forward_bind; [apply forward_reads; reads_auto|]; intros _).
  apply forward_modify. intros d. constructor; cbn; [|by eauto 7 with lia|exists []; by rewrite app_nil_r].
  intros k c0 Hc0. destruct (decide (k = (id, room, via))) as [->|].
  - rewrite lookup_insert_eq, Hc0. eexists. split; [done|]. cbn. lia.
  - rewrite lookup_insert_ne by done. eauto with lia.
Qed.

Lemma forward_Audit now a x y z : forward (tx_Audit now a x y z).
Proof. apply forward_modify. intros d. constructor; cbn; [by eauto with lia|by eauto 7 with lia|by eexists]. Qed.

Lemma forward_move_identity id to now : forward (move_identity id to now).
Proof.
  intros d. rewrite move_identity_eq. cbn.
  replace (set_identities _ d) with (set_identities (alter (with_person to now) id (identities d)) (set_people (people d) d))
    by (by destruct d).
  apply later_move.
Qed.
Lemma forward_SetPrefsOfPerson p pr : forward (SetPrefsOfPerson p pr).
Proof. unfold SetPrefsOfPerson. forward_tac. Qed.
Lemma forward_delete_person p : forward (delete_person p).
Proof. unfold delete_person. forward_tac. Qed.

Lemma forward_UnlinkIdentity id now : forward (tx_UnlinkIdentity id now).
Proof.
  unfold tx_UnlinkIdentity. apply forward_bind; [apply forward_reads; unfold tx_PersonOf; reads_auto|]. intros [p|]; [|by intros d].
  apply forward_with; [reads_auto|]. intros ? d [= <-]. destruct (bool_decide _); [done|].
  revert d. change (forward (fresh <- newPerson now ;; SetPrefsOfPerson fresh (SPerson_Prefs p) ;;;
    move_identity id fresh now ;;; ret fresh)).
  apply forward_bind; [forward_tac|]. intros fresh. apply forward_bind; [apply forward_SetPrefsOfPerson|]. intros _.
  apply forward_bind; [apply forward_move_identity|]. by intros _ d.
Qed.

Lemma forward_LinkIdentity id to now : forward (tx_LinkIdentity id to now).
Proof.
  unfold tx_LinkIdentity. apply forward_bind; [apply forward_reads, reads_personID|]. intros from.
  destruct (from =? to); [by intros d|].
  apply forward_bind; [apply forward_reads; unfold tx_PersonByID; reads_auto|]. intros [p|]; [|by intros d].
  apply forward_with; [reads_auto|]. intros d0 d _. revert d. set (alone := bool_decide _).
  match goal with |- forall d, later d (?m d).2 => change (forward m) end.
  apply forward_bind; [apply forward_reads; reads_auto|]. intros _.
  apply forward_bind; [apply forward_move_identity|]. intros _. destruct alone; [|by intros d].
  do 3 (apply forward_bind; [forward_tac|]; intros _). apply forward_delete_person.
Qed.

Lemma forward_ClaimName id name sk now : forward (tx_ClaimName id name sk now).
Proof.
  unfold tx_ClaimName, check_id. do 2 (apply forward_bind; [apply forward_reads; reads_auto|]; intros _).
  apply forward_bind; [apply forward_reads, reads_personID|]. intros p.
  apply forward_bind; [apply forward_reads, reads_NameBySkeleton|]. intros [h|]; forward_tac.
Qed.
Lemma forward_ReleaseName id : forward (tx_ReleaseName id).
Proof.
  apply forward_bind; [apply forward_reads, reads_NameOf|]. intros [n|]; forward_tac.
Qed.
Lemma forward_SetPrefs id p : forward (tx_SetPrefs id p).
Proof.
  apply forward_bind; [apply forward_reads; reads_auto|]. intros _.
  apply forward_bind; [apply forward_reads, reads_personID|]. intros q. apply forward_SetPrefsOfPerson.
Qed.
Lemma forward_SetRank id r b now : forward (tx_SetRank id r b now).
Proof.
  apply forward_bind; [apply forward_reads, reads_personID|]. intros p. forward_tac.
Qed.

#[export] Instance later_store d0 : StoreInv anything (later d0).
Proof.
  constructor; intros; apply forward_pres;
    first [ apply forward_TouchIdentity | apply forward_SetLXMFMode | apply forward_SetLXMFMine
          | apply forward_ClaimName | apply forward_ReleaseName | apply forward_SetPrefs | apply forward_SetRank
          | apply forward_LinkIdentity | apply forward_UnlinkIdentity | apply forward_SetCursor | apply forward_Audit
          | apply forward_DeleteMessages
          | unfold tx_PutLinkCode, tx_RedeemLinkCode, tx_DeleteLinkCode, tx_PruneLinkCodes, tx_PutRoom, tx_DeleteRoom,
              tx_SetRole, tx_SetInvite, tx_DeleteInvite, tx_PruneInvites, tx_AddBan, tx_RemoveBan, tx_AddMessage,
              tx_PruneMessages, tx_AddMember, tx_RemoveMember, tx_SetAway, tx_PutDelivery, tx_FinishDeliveries,
              tx_AddWhisper, tx_MarkWhisperRRC, tx_MarkWhispersRead, tx_PruneWhispers, tx_Ignore, tx_Unignore;
            forward_tac ].
Qed.
