(* ===== verification/StorePolicy.v ===== *)
(** What the store's rows say is what it was given: an invariant of every ban,
    name, message and whisper in the store holds if the hub only ever asks for
    rows that satisfy it. *)
From S2P Require Import Prelude Text Db StorePeople StoreRooms StoreMessages StoreGroup StoreInv StoreWf.
Local Open Scope Z_scope.

Section policy.
Context (P : Policy).

(** Every row in [d] is one the policy allows. *)
Record allowed (d : DB) : Prop := {
  al_ban : forall id b, bans d !! id = Some b -> may_ban P id;
  al_name : forall p n, names d !! p = Some n -> may_name P (nr_name n) (nr_skeleton n);
  al_message : forall k m, messages d !! k = Some m -> may_post P (Message_Body m);
  al_whisper : forall k w, whispers d !! k = Some w -> may_whisper P (Whisper_Body w)
}.

Lemma allowed_empty : allowed db_empty.
Proof. constructor; cbn; intros *; by rewrite lookup_empty. Qed.

(** [d'] has no ban, name, message or whisper that was not in [d]. *)
Record says_no_more (d d' : DB) : Prop := {
  nm_ban : forall id, is_Some (bans d' !! id) -> is_Some (bans d !! id);
  nm_name : forall p n, names d' !! p = Some n -> names d !! p = Some n;
  nm_message : forall k m, messages d' !! k = Some m -> messages d !! k = Some m;
  nm_whisper : forall k w, whispers d' !! k = Some w ->
    exists w', whispers d !! k = Some w' /\ Whisper_Body w = Whisper_Body w'
}.
Lemma allowed_no_more d d' : says_no_more d d' -> allowed d -> allowed d'.
Proof.
  intros [Hb Hn Hm Hw] [Ab An Am Aw]. constructor; [|by eauto|by eauto|].
  - intros id b Hid. destruct (Hb id) as [b' ?]; [done|]. by eapply Ab.
  - intros k w (w' & Hw' & ->)%Hw. by eapply Aw.
Qed.
Lemma no_more_same d d' :
  bans d' = bans d -> names d' = names d -> messages d' = messages d -> whispers d' = whispers d -> says_no_more d d'.
Proof. intros Hb Hn Hm Hw. constructor; rewrite ?Hb, ?Hn, ?Hm, ?Hw; eauto. Qed.

Lemma pres_no_more {A} (m : Tx A) : (forall d, says_no_more d (m d).2) -> pres allowed m.
Proof.
  intros Hm d Hd. specialize (Hm d). apply allowed_no_more in Hm; [|done].
  destruct (m d) as [[a|e] d']; cbn in *; auto.
Qed.

(** [quiet] runs an operation that writes other tables, or deletes rows. *)
Ltac quiet :=
  let d := fresh "d" in
  apply pres_no_more; intros d;
  repeat (unfold newPerson, put_identity, SetPrefsOfPerson, delete_person, move_identity, people_cascade, check_id,
            bind, get, gets, put, modify, assert, fail, ret in *; cbn in *;
          first [ by apply no_more_same
                | progress simplify_eq
                | case_match ]);
  try (constructor; cbn; eauto;
       intros *; rewrite ?lookup_delete_Some, ?map_lookup_filter_Some; naive_solver).

Lemma quiet_reads {A} (m : Tx A) : reads m -> pres allowed m.
Proof. apply reads_pres. Qed.
Lemma quiet_DeleteMessages ids : pres allowed (tx_DeleteMessages ids).
Proof.
  induction ids as [|k ids IH]; cbn; [apply pres_ret|].
  apply pres_bind; [apply pres_gets|]. intros n. apply pres_bind; [quiet|]. intros _.
  apply pres_bind; [done|]. intros m. apply pres_ret.
Qed.
(** Whispers are handed over, and marked as read, with their text. *)
Lemma no_more_whispers d f :
  (forall w, Whisper_Body (f w) = Whisper_Body w) -> says_no_more d (set_whispers (f <$> whispers d) d).
Proof.
  intros Hf. constructor; cbn; eauto. intros k w. rewrite lookup_fmap. intros (w' & Hw & ->)%fmap_Some. eauto.
Qed.
Lemma no_more_delete_person p d : says_no_more d (delete_person p d).2.
Proof.
  unfold delete_person, bind, get, assert. case_bool_decide; cbn; [|by apply no_more_same].
  constructor; cbn; eauto. intros k w [Hw _]%map_lookup_filter_Some. eauto.
Qed.
Lemma quiet_UnlinkIdentity id now : pres allowed (tx_UnlinkIdentity id now).
Proof.
  unfold tx_UnlinkIdentity. apply pres_bind; [apply pres_gets|]. intros [p|]; [|apply pres_fail].
  apply pres_bind; [apply pres_get|]. intros d. case_match; [apply pres_ret|].
  apply pres_bind; [quiet|]. intros fresh. apply pres_bind; [quiet|]. intros _.
  apply pres_bind; [quiet|]. intros _. apply pres_ret.
Qed.
Lemma quiet_LinkIdentity id to now : pres allowed (tx_LinkIdentity id to now).
Proof.
  unfold tx_LinkIdentity. apply pres_bind; [apply quiet_reads, reads_personID|]. intros from.
  case_match; [apply pres_ret|]. apply pres_bind; [apply pres_gets|]. intros [p|]; [|apply pres_fail].
  apply pres_bind; [apply pres_get|]. intros d. apply pres_bind; [apply pres_assert|]. intros _.
  apply pres_bind; [quiet|]. intros _. case_match; [|apply pres_ret].
  apply pres_bind.
  { apply pres_no_more. intros d'. apply no_more_whispers. intros w. by case_match. }
  intros _. do 2 (apply pres_bind; [quiet|]; intros _). apply pres_no_more. intros d'. apply no_more_delete_person.
Qed.
Lemma quiet_MarkWhisper id at_ : pres allowed (tx_MarkWhisperRRC id at_).
Proof.
  apply pres_no_more. intros d. constructor; cbn; eauto. intros k w. rewrite lookup_alter. case_decide; [subst|eauto].
  intros (w' & Hw & ->)%fmap_Some. exists w'. split; [done|]. by case_match.
Qed.
Lemma quiet_MarkWhispersRead p u at_ : pres allowed (tx_MarkWhispersRead p u at_).
Proof. apply pres_no_more. intros d. apply no_more_whispers. intros w. by case_match. Qed.
Lemma quiet_ReleaseName id : pres allowed (tx_ReleaseName id).
Proof.
  unfold tx_ReleaseName. apply pres_bind; [apply quiet_reads, reads_NameOf|]. intros [n|]; [|apply pres_ret].
  apply pres_bind; [quiet|]. intros _. apply pres_ret.
Qed.
Lemma quiet_SetRank id r b now : pres allowed (tx_SetRank id r b now).
Proof.
  unfold tx_SetRank. apply pres_bind; [apply quiet_reads, reads_personID|]. intros p.
  apply pres_bind; [apply pres_assert|]. intros _. quiet.
Qed.
Lemma quiet_SetPrefs id p : pres allowed (tx_SetPrefs id p).
Proof.
  unfold tx_SetPrefs. apply pres_bind; [apply pres_assert|]. intros _.
  apply pres_bind; [apply quiet_reads, reads_personID|]. intros q. quiet.
Qed.

Lemma quiet_RemoveBan id : pres allowed (tx_RemoveBan id).
Proof.
  apply pres_no_more. intros d. constructor; cbn; eauto. intros k [_ Hk]%lookup_delete_is_Some. done.
Qed.

(** ** The operations the policy is about *)
Lemma allowed_ClaimName id name sk now : may_name P name sk -> pres allowed (tx_ClaimName id name sk now).
Proof.
  intros Hn. unfold tx_ClaimName. do 2 (apply pres_bind; [apply pres_assert|]; intros _).
  apply pres_bind; [apply quiet_reads, reads_personID|]. intros p.
  assert (forall at_, pres allowed (modify (fun d => set_names (<[p := mkNameRow name sk at_]> (names d)) d))) as Hput.
  { intros at_. apply pres_modify. intros d []. constructor; cbn; eauto.
    intros q n [[<- <-]|[_ Hq]]%lookup_insert_Some; eauto. }
  apply pres_bind; [apply quiet_reads, reads_NameBySkeleton|]. intros [h|]; [case_match|]; auto using pres_fail.
Qed.
Lemma allowed_AddBan b : may_ban P (Ban_Identity b) -> pres allowed (tx_AddBan b).
Proof.
  intros Hb. apply pres_bind; [apply pres_assert|]. intros _. apply pres_modify. intros d []. constructor; cbn; eauto.
  intros id x [[<- <-]|[_ Hq]]%lookup_insert_Some; eauto.
Qed.
Lemma allowed_AddMessage m : may_post P (Message_Body m) -> pres allowed (tx_AddMessage m).
Proof.
  intros Hm. unfold tx_AddMessage. apply pres_bind; [apply pres_assert|]. intros _ d [].
  unfold bind, get. case_match; cbn; [by constructor|]. constructor; cbn; eauto.
  intros k x [[<- <-]|[_ Hq]]%lookup_insert_Some; eauto.
Qed.
Lemma allowed_AddWhisper w : may_whisper P (Whisper_Body w) -> pres allowed (tx_AddWhisper w).
Proof.
  intros Hw. unfold tx_AddWhisper. apply pres_bind; [apply pres_assert|]. intros _ d []. unfold bind, get, assert.
  case_bool_decide; cbn; [|done]. constructor; cbn; eauto.
  intros k x [[<- <-]|[_ Hq]]%lookup_insert_Some; eauto.
Qed.

#[export] Instance allowed_store : StoreInv P allowed.
Proof.
  constructor; intros;
    first [ by apply allowed_ClaimName | by apply allowed_AddBan | by apply allowed_AddMessage | by apply allowed_AddWhisper
          | apply quiet_DeleteMessages | apply quiet_UnlinkIdentity | apply quiet_LinkIdentity | apply quiet_MarkWhisper
          | apply quiet_MarkWhispersRead | apply quiet_ReleaseName | apply quiet_SetRank | apply quiet_SetPrefs
          | apply quiet_RemoveBan
          | unfold tx_TouchIdentity, tx_SetLXMFMode, tx_SetLXMFMine, tx_PutLinkCode, tx_RedeemLinkCode, tx_DeleteLinkCode,
              tx_PruneLinkCodes, tx_PutRoom, tx_DeleteRoom, tx_SetRole, tx_SetInvite, tx_DeleteInvite, tx_PruneInvites,
              tx_Audit, tx_PruneMessages, tx_SetCursor, tx_AddMember, tx_RemoveMember, tx_SetAway,
              tx_PutDelivery, tx_FinishDeliveries, tx_PruneWhispers, tx_Ignore, tx_Unignore;
            solve [quiet] ].
Qed.
End policy.
