(* ===== verification/Names.v ===== *)
(** internal/hub/names.go and rrc/wire/names.go: the names people may claim,
    the skeletons that decide whether two names are the same, and room names. *)
From S2P Require Import Prelude Text Db.
Local Open Scope Z_scope.

(** golang.org/x/text/unicode/norm: [norm.NFC.String] and [norm.NFKD.String]. *)
Class Norm := {
  NFC : string -> string;
  NFKD : string -> string
}.
(** What the theorems rely on of it: normalisation leaves ASCII text alone. *)
Definition ascii_only (s : string) : Prop := forallb (fun b => b <? 128) (bytes s) = true.
Class NormLaws (N : Norm) : Prop := {
  NFC_ascii : forall s, ascii_only s -> NFC s = s;
  NFKD_ascii : forall s, ascii_only s -> NFKD s = s
}.

(** ** names.go *)
Definition NameMinRunes : Z := 2.
Definition NameMaxRunes : Z := 24.
Definition NameMaxBytes : Z := 32.

Definition reserved : list string :=
  ["admin"; "administrator"; "bridge"; "everyone"; "guest"; "here"; "hub";
   "moderator"; "nobody"; "notice"; "op"; "operator"; "root"; "rrc"; "scotmesh";
   "server"; "system"; "you"].

Inductive NameError := mkNameError (Reason : string).
Definition ne_Reason (e : NameError) : string := match e with mkNameError r => r end.

Section names.
Context {U : Unicode} {N : Norm}.

Definition isLatinLetter (r : Z) : bool := is_latin r && is_letter r.

Definition eszett : Z := 223.
Definition ascii_letter (r : Z) : bool := ascii_lower_p r || ascii_upper_p r.

(** The loop over a rune's decomposition: the base found so far. *)
Fixpoint plain_base (found : option Z) (l : list Z) : option (option Z) :=
  match l with
  | [] => Some found
  | d :: l' =>
    if is_mn d then plain_base found l'
    else match found with
         | Some _ => None
         | None => plain_base (Some d) l'
         end
  end.
Definition isPlainLatinLetter (r : Z) : bool :=
  if r =? eszett then true else
  match plain_base None (runes (NFKD (encode_rune r))) with
  | Some (Some base) => ascii_letter base
  | _ => false
  end.

(** What one rune of the decomposed name adds to the skeleton. *)
Definition skeleton_rune (r : Z) : string :=
  if is_mn r then "" else
  let r := rune_lower r in
  if (r =? 45) || (r =? 95) || (r =? 46) || (r =? 32) then ""
  else if (r =? 49) || (r =? 105) || (r =? 124) || (r =? 33) then "l"
  else if r =? 48 then "o"
  else if r =? 53 then "s"
  else if r =? eszett then "ss"
  else encode_rune r.
Definition skeleton_folded (name : string) : string := cat (map skeleton_rune (runes (NFKD name))).
Definition Skeleton (name : string) : string :=
  let s := skeleton_folded name in
  let s := replace2 "r" "n" "m" s in
  replace2 "v" "v" "w" s.

Definition name_char (r : Z) : bool :=
  isPlainLatinLetter r || ascii_digit_p r || (r =? 45) || (r =? 95) || (r =? 46).
(** The loop over the runes of the tidied name, [first] on its first. *)
Fixpoint check_name_runes (first : bool) (l : list Z) : option NameError :=
  match l with
  | [] => None
  | r :: l' =>
    if first && negb (isPlainLatinLetter r) then Some (mkNameError "a name has to start with a letter")
    else if negb (name_char r) then
      if is_space r then Some (mkNameError "a name can't contain spaces")
      else Some (mkNameError "a name can use letters, digits, '-', '_' and '.' only")
    else check_name_runes false l'
  end.
Definition CleanName (name : string) : NameError + (string * string) :=
  let n := NFC (trim_space name) in
  let rs := rune_count n in
  if bool_decide (n = "") then inl (mkNameError "a name can't be empty")
  else if rs <? NameMinRunes then inl (mkNameError "a name needs at least 2 characters")
  else if (NameMaxRunes <? rs) || (NameMaxBytes <? len n) then inl (mkNameError "a name can be at most 24 characters")
  else match check_name_runes true (runes n) with
  | Some e => inl e
  | None =>
    let sk := Skeleton n in
    if has_prefix sk "guest" then
      inl (mkNameError (cat ["names starting with "; dquote; "guest"; dquote; " are kept for people without a name"]))
    else if existsb (fun w => bool_decide (sk = Skeleton w)) reserved then
      inl (mkNameError (cat [dquote; n; dquote; " is reserved"]))
    else inr (n, sk)
  end.

Definition GuestName (identity : ident) : string :=
  let h := hex_encode identity in
  "guest-" +:+ (if 4 <? len h then str_take 4 h else h).

(** The loop that cuts a suggestion to length: the last rune goes first. *)
Definition too_long (l : list (Z * string)) : bool :=
  let s := of_segs l in (NameMaxRunes <? Z.of_nat (length l)) || (NameMaxBytes <? len s).
Fixpoint cut_last (rl : list (Z * string)) : list (Z * string) :=
  match rl with
  | [] => []
  | p :: rl' => if too_long (rev rl) then cut_last rl' else rl
  end.
Definition suggest_char (r : Z) : bool :=
  isLatinLetter r || ascii_digit_p r || (r =? 45) || (r =? 95) || (r =? 46).
Definition SuggestName (raw : string) : string :=
  let b := cat (map encode_rune (List.filter suggest_char (runes (NFC (strings_Join "_" (fields raw)))))) in
  let s := drop_while (fun p => negb (isLatinLetter p.1)) (segs b) in
  let s := of_segs (rev (cut_last (rev s))) in
  let s := trim_right s "-_." in
  match CleanName s with
  | inl _ => ""
  | inr (clean, _) => clean
  end.

(** ** rrc/wire/names.go *)
Definition NormalizeNick (nick : string) (maxBytes : Z) : option string :=
  let s := trim_space nick in
  if bool_decide (s = "") || negb (valid_string s) then None
  else if (0 <? maxBytes) && (maxBytes <? len s) then None
  else if existsb (fun b => (b =? 13) || (b =? 10) || (b =? 0)) (bytes s) then None
  else Some s.

Definition room_char (c : Z) : bool :=
  ascii_lower_p c || ascii_digit_p c || (c =? 45) || (c =? 95) || (c =? 46).
(** The room name, or the text of the error. *)
Definition NormalizeRoom (room : string) (maxBytes : Z) : string + string :=
  let r := to_lower (trim_space room) in
  let r := trim_prefix r "#" in
  if bool_decide (r = "") then inl "room name must not be empty"
  else if (0 <? maxBytes) && (maxBytes <? len r) then
    inl (cat ["room name too long: "; itoa (len r); " bytes > "; itoa maxBytes; " bytes"])
  else if negb (forallb room_char (bytes r)) then
    inl "room name may only use letters, digits, '-', '_' and '.'"
  else inr r.
End names.

(** Tables and normalisation of the ASCII range alone, to evaluate examples. *)
Definition ascii_unicode : Unicode := {|
  uni_letter _ := false; uni_latin _ := false; uni_mn _ := false;
  uni_lower r := r; uni_upper r := r; uni_print _ := true
|}.
Definition ascii_norm : Norm := {| NFC s := s; NFKD s := s |}.
Lemma ascii_norm_laws : NormLaws ascii_norm.
Proof. by constructor. Qed.
