(* ===== verification/HubCore.v ===== *)
(** The hub's core: configuration (config.go), events (events.go), in-memory
    state, requests, transactions and subscriptions (hub.go).

    A [Hub] method's closure [fn(tx, out)] is a computation [H A] over [Req]:
    the database as the transaction sees it, the loop goroutine's memory, and
    the outbox.  [update] runs one to the end and commits or rolls back.  The
    clock is read once per request ([now], in nanoseconds since the epoch), and
    [rnd] is what crypto/rand gives the request. *)
From S2P Require Import Prelude Text Db Names.
Local Open Scope Z_scope.

(** ** Durations, in nanoseconds *)
Definition Millisecond : Z := 1000000.
Definition Second : Z := 1000 * Millisecond.
Definition Minute : Z := 60 * Second.
Definition Hour : Z := 60 * Minute.

(** ** config.go *)
Record RoomConfig := mkRoomConfig { rc_Name : string; rc_Topic : string }.
Record Config := mkConfig {
  HubName : string;
  Admins : list ident;
  Rooms : list RoomConfig;
  GroupRoom : string;
  GroupAddress : string;
  Retention : Z;
  ReplayFirstVisit : Z;
  ReplayMax : Z;
  HistoryMax : Z;
  HistoryCooldown : Z;
  PostsPerMinute : Z;
  MaxBodyBytes : Z;
  MaxTopicBytes : Z;
  MaxRoomNameBytes : Z;
  MaxRoomsPerPerson : Z;
  InviteTTL : Z;
  PruneRoomsAfter : Z
}.

Definition Defaults : Config := {|
  HubName := "ScotMesh";
  Admins := [];
  Rooms := [mkRoomConfig "scotmesh" "ScotMesh - Scotland's Reticulum community"];
  GroupRoom := "scotmesh";
  GroupAddress := "";
  Retention := 7 * 24 * Hour;
  ReplayFirstVisit := 10;
  ReplayMax := 50;
  HistoryMax := 100;
  HistoryCooldown := 15 * Second;
  PostsPerMinute := 30;
  MaxBodyBytes := 2000;
  MaxTopicBytes := 300;
  MaxRoomNameBytes := 64;
  MaxRoomsPerPerson := 32;
  InviteTTL := 15 * Minute;
  PruneRoomsAfter := 30 * 24 * Hour
|}.

Definition set_pos (v def : Z) : Z := if v <=? 0 then def else v.

Section validate.
Context {U : Unicode}.
(** The loop over the rooms: the names normalised, whether the group room is
    among them, and whether one was refused. *)
Definition validate_room (max : Z) (group : string) (acc : list RoomConfig * bool * bool) (rc : RoomConfig) :=
  let '(rs, listed, bad) := acc in
  match NormalizeRoom (rc_Name rc) max with
  | inl _ => (rs ++ [rc], listed, true)
  | inr n => (rs ++ [mkRoomConfig n (rc_Topic rc)], listed || bool_decide (n = group), bad)
  end.
(** [None]: the configuration is refused (with the errors joined). *)
Definition validate (c : Config) : option Config :=
  let d := Defaults in
  let groupRoom := if bool_decide (GroupRoom c = "") then GroupRoom d else GroupRoom c in
  let max := set_pos (MaxRoomNameBytes c) (MaxRoomNameBytes d) in
  let roomList := match Rooms c with [] => Rooms d | rs => rs end in
  let badAdmin := existsb (fun a => negb (len a =? IdentityLen)) (Admins c) in
  let group := match NormalizeRoom groupRoom max with inl _ => None | inr g => Some g end in
  let g := default "" group in
  let '(rs, listed, badRoom) := fold_left (validate_room max g) roomList ([], false, false) in
  if badAdmin || negb (bool_decide (is_Some group)) || badRoom || (negb listed && negb (bool_decide (g = ""))) then None
  else Some {|
    HubName := if bool_decide (HubName c = "") then HubName d else HubName c;
    Admins := Admins c;
    Rooms := rs;
    GroupRoom := g;
    GroupAddress := GroupAddress c;
    Retention := set_pos (Retention c) (Retention d);
    ReplayFirstVisit := set_pos (ReplayFirstVisit c) (ReplayFirstVisit d);
    ReplayMax := set_pos (ReplayMax c) (ReplayMax d);
    HistoryMax := set_pos (HistoryMax c) (HistoryMax d);
    HistoryCooldown := set_pos (HistoryCooldown c) (HistoryCooldown d);
    PostsPerMinute := set_pos (PostsPerMinute c) (PostsPerMinute d);
    MaxBodyBytes := set_pos (MaxBodyBytes c) (MaxBodyBytes d);
    MaxTopicBytes := set_pos (MaxTopicBytes c) (MaxTopicBytes d);
    MaxRoomNameBytes := max;
    MaxRoomsPerPerson := set_pos (MaxRoomsPerPerson c) (MaxRoomsPerPerson d);
    InviteTTL := set_pos (InviteTTL c) (InviteTTL d);
    PruneRoomsAfter := set_pos (PruneRoomsAfter c) (PruneRoomsAfter d)
  |}.
End validate.

(** ** What a request runs in *)
Class Env := {
  cfg : Config;
  now : Z;
  rnd : string;
  env_unicode :: Unicode;
  env_norm :: Norm
}.

Definition isDefaultRoom (c : Config) (name : string) : bool :=
  existsb (fun r => bool_decide (rc_Name r = name)) (Rooms c).

(** [time.UnixMilli] of the clock. *)
Definition unix_milli (ns : Z) : Z := ns / Millisecond.
Definition nowMS `{Env} : Z := unix_milli now.

(** ** events.go *)
Inductive Event :=
  | MessageEvent (m : Message) (LXMFTo : list ident)
  | JoinedEvent (room : string) (identity : ident) (name : string) (via : Via)
  | PartedEvent (room : string) (identity : ident) (name : string) (via : Via)
  | NameEvent (identity : ident) (old new : string)
  | RoomNoticeEvent (room text : string)
  | NoticeEvent (identity : ident) (room text : string) (ToLXMF : bool)
  | RemovedEvent (room : string) (identity : ident) (reason : string)
  | BannedEvent (identity : ident) (reason : string)
  | GroupEvent (identity : ident) (name : string) (joined : bool)
  | LXMFResumeEvent (identity : ident) (missed : Z)
  | WhisperEvent (w : Whisper) (To : list ident).

(** ** The loop goroutine's memory *)
Record PEntry := mkPEntry { pe_identity : ident; pe_name : string; pe_rrcLinks : Z }.

(** post.go's token bucket, in units of a token's share of a nanosecond: the
    float64 [tokens] is [b_tokens / Minute], and [b_at] is a clock reading. *)
Record Bucket := mkBucket { b_tokens : Z; b_at : Z }.

Record Stats := mkStats {
  Posts : Z; Duplicates : Z; Refusals : Z; Commands : Z; InternalErrors : Z
}.
Record Mem := mkMem {
  presence : gmap string (gmap ident PEntry);
  rate : gmap ident Bucket;
  historyAt : gmap ident Z;
  linkIssued : gmap Z (list Z);
  linkFailures : gmap ident (list Z);
  stats : Stats
}.
Definition mem_empty : Mem := mkMem ∅ ∅ ∅ ∅ ∅ (mkStats 0 0 0 0 0).
Definition set_presence x m := mkMem x (rate m) (historyAt m) (linkIssued m) (linkFailures m) (stats m).
Definition set_rate x m := mkMem (presence m) x (historyAt m) (linkIssued m) (linkFailures m) (stats m).
Definition set_historyAt x m := mkMem (presence m) (rate m) x (linkIssued m) (linkFailures m) (stats m).
Definition set_linkIssued x m := mkMem (presence m) (rate m) (historyAt m) x (linkFailures m) (stats m).
Definition set_linkFailures x m := mkMem (presence m) (rate m) (historyAt m) (linkIssued m) x (stats m).
Definition set_stats x m := mkMem (presence m) (rate m) (historyAt m) (linkIssued m) (linkFailures m) x.

(** A room's presence, [h.presence[room]], an empty map if there is none. *)
Definition present_in (m : Mem) (room : string) : gmap ident PEntry := default ∅ (presence m !! room).
Definition put_room_presence (room : string) (ps : gmap ident PEntry) (m : Mem) : Mem :=
  set_presence (if bool_decide (ps = ∅) then delete room (presence m) else <[room := ps]> (presence m)) m.

(** In-memory changes that follow the commit: the closures given to [then]. *)
Inductive After :=
  | AJoin (room : string) (id : ident) (name : string)
  | APart (room : string) (id : ident)
  | AForgetPresence (room : string) (id : ident)
  | ARename (id : ident) (name : string)
  | ALinkIssued (person : Z) (times : list Z)
  | ALinkFailures (id : ident) (times : list Z).

Definition renamePresence (id : ident) (name : string) (m : Mem) : Mem :=
  set_presence (alter (fun e => mkPEntry (pe_identity e) name (pe_rrcLinks e)) id <$> presence m) m.

Definition apply_after (a : After) (m : Mem) : Mem :=
  match a with
  | AJoin room id name =>
    let ps := present_in m room in
    let links := match ps !! id with Some e => pe_rrcLinks e | None => 0 end in
    set_presence (<[room := <[id := mkPEntry id name (links + 1)]> ps]> (presence m)) m
  | APart room id =>
    let ps := present_in m room in
    match ps !! id with
    | Some e =>
      let e' := mkPEntry (pe_identity e) (pe_name e) (pe_rrcLinks e - 1) in
      if pe_rrcLinks e' <=? 0 then put_room_presence room (delete id ps) m
      else set_presence (<[room := <[id := e']> ps]> (presence m)) m
    | None => m
    end
  | AForgetPresence room id => put_room_presence room (delete id (present_in m room)) m
  | ARename id name => renamePresence id name m
  | ALinkIssued person times => set_linkIssued (<[person := times]> (linkIssued m)) m
  | ALinkFailures id times => set_linkFailures (<[id := times]> (linkFailures m)) m
  end.
Definition run_after (l : list After) (m : Mem) : Mem := fold_left (fun m a => apply_after a m) l m.

(** ** Requests *)
Record Req := mkReq {
  q_db : DB;
  q_mem : Mem;
  q_events : list Event;
  q_after : list After
}.
Notation H := (ST Req).

(** The store's operations, inside a request. *)
Definition tx {A} (m : Tx A) : H A := fun q =>
  let '(r, d) := m (q_db q) in (r, mkReq d (q_mem q) (q_events q) (q_after q)).
Definition mem {A} (f : Mem -> A) : H A := gets (fun q => f (q_mem q)).
Definition mem_mod (f : Mem -> Mem) : H unit :=
  modify (fun q => mkReq (q_db q) (f (q_mem q)) (q_events q) (q_after q)).
(** [outbox.emit] and [outbox.then]. *)
Definition emit (e : Event) : H unit :=
  modify (fun q => mkReq (q_db q) (q_mem q) (q_events q ++ [e]) (q_after q)).
Definition then_ (a : After) : H unit :=
  modify (fun q => mkReq (q_db q) (q_mem q) (q_events q) (q_after q ++ [a])).
Definition refuse {A} (text : string) : H A := fail (UserError text).

(** ** Subscriptions *)
Record Subscription := mkSubscription {
  sub_name : string;
  sub_buf : Z;
  sub_queue : list Event;
  sub_dropped : Z
}.
(** The select with a default in [publish]. *)
Definition offer (e : Event) (s : Subscription) : Subscription :=
  if Z.of_nat (length (sub_queue s)) <? sub_buf s
  then mkSubscription (sub_name s) (sub_buf s) (sub_queue s ++ [e]) (sub_dropped s)
  else mkSubscription (sub_name s) (sub_buf s) (sub_queue s) (sub_dropped s + 1).
Definition publish (es : list Event) (subs : list Subscription) : list Subscription :=
  fold_left (fun subs e => map (offer e) subs) es subs.
(** The adapter takes the event at the front of its queue. *)
Definition receive (s : Subscription) : option (Event * Subscription) :=
  match sub_queue s with
  | [] => None
  | e :: q => Some (e, mkSubscription (sub_name s) (sub_buf s) q (sub_dropped s))
  end.

(** ** The hub *)
Record Hub := mkHub { h_db : DB; h_mem : Mem; h_subs : list Subscription }.

Definition count (f : Stats -> Stats) (m : Mem) : Mem := set_stats (f (stats m)) m.
Definition add_posts s := mkStats (Posts s + 1) (Duplicates s) (Refusals s) (Commands s) (InternalErrors s).
Definition add_duplicates s := mkStats (Posts s) (Duplicates s + 1) (Refusals s) (Commands s) (InternalErrors s).
Definition add_refusals s := mkStats (Posts s) (Duplicates s) (Refusals s + 1) (Commands s) (InternalErrors s).
Definition add_commands s := mkStats (Posts s) (Duplicates s) (Refusals s) (Commands s + 1) (InternalErrors s).
Definition add_internal s := mkStats (Posts s) (Duplicates s) (Refusals s) (Commands s) (InternalErrors s + 1).
Definition user_error (e : Error) : bool := match e with UserError _ => true | _ => false end.

(** [update]: commit, the memory changes that wait for it and the events; or
    nothing but what the request did to the memory itself. *)
Definition update {A} (fn : H A) (h : Hub) : res A * Hub :=
  match fn (mkReq (h_db h) (h_mem h) [] []) with
  | (Ok a, q) =>
    (Ok a, mkHub (q_db q) (run_after (q_after q) (q_mem q)) (publish (q_events q) (h_subs h)))
  | (Fail e, q) =>
    (Fail e, mkHub (h_db h) (if user_error e then q_mem q else count add_internal (q_mem q)) (h_subs h))
  end.
(** [View] on the loop goroutine: nothing is written. *)
Definition view {A} (fn : H A) (h : Hub) : res A := (fn (mkReq (h_db h) (h_mem h) [] [])).1.

Definition Counters (h : Hub) : list (string * Z) :=
  let s := stats (h_mem h) in
  [("posts", Posts s); ("duplicates", Duplicates s); ("refusals", Refusals s);
   ("commands", Commands s); ("internal_errors", InternalErrors s)] ++
  map (fun s => ("dropped_" +:+ sub_name s, sub_dropped s)) (h_subs h).
Definition Subscribe (name : string) (buf : Z) (h : Hub) : Hub :=
  mkHub (h_db h) (h_mem h) (h_subs h ++ [mkSubscription name buf [] 0]).
