(* ===== verification/Clock.v ===== *)
(** The clock as people read it: [Hub.clock] (rooms.go) and what it uses of
    package time.  Europe/London is Greenwich time with an hour added from the
    last Sunday of March to the last Sunday of October, both at 01:00 UTC: the
    rule of the tz database since 1996, which covers every time the hub keeps. *)
From S2P Require Import Prelude Text HubCore.
Local Open Scope Z_scope.

Record Civil := mkCivil { civ_year : Z; civ_month : Z; civ_day : Z }.

(** Days since 1970-01-01 to a date of the Gregorian calendar, and back. *)
Definition civil_of_days (days : Z) : Civil :=
  let z := days + 719468 in
  let era := z / 146097 in
  let doe := z - era * 146097 in
  let yoe := (doe - doe / 1460 + doe / 36524 - doe / 146096) / 365 in
  let doy := doe - (365 * yoe + yoe / 4 - yoe / 100) in
  let mp := (5 * doy + 2) / 153 in
  let d := doy - (153 * mp + 2) / 5 + 1 in
  let m := if mp <? 10 then mp + 3 else mp - 9 in
  mkCivil (yoe + era * 400 + (if m <=? 2 then 1 else 0)) m d.
Definition days_of_civil (c : Civil) : Z :=
  let y := if civ_month c <=? 2 then civ_year c - 1 else civ_year c in
  let era := y / 400 in
  let yoe := y - era * 400 in
  let mp := if 2 <? civ_month c then civ_month c - 3 else civ_month c + 9 in
  let doy := (153 * mp + 2) / 5 + civ_day c - 1 in
  let doe := yoe * 365 + yoe / 4 - yoe / 100 + doy in
  era * 146097 + doe - 719468.
(** 0 is Sunday. *)
Definition weekday (days : Z) : Z := (days + 4) mod 7.

Definition day_seconds : Z := 86400.
(** 01:00 UTC on the last Sunday of a month of 31 days. *)
Definition last_sunday_1am (year month : Z) : Z :=
  let d := days_of_civil (mkCivil year month 31) in
  (d - weekday d) * day_seconds + 3600.
Definition london_offset (unix : Z) : Z :=
  let y := civ_year (civil_of_days (unix / day_seconds)) in
  if (last_sunday_1am y 3 <=? unix) && (unix <? last_sunday_1am y 10) then 3600 else 0.

Definition day_names : list string := ["Sun"; "Mon"; "Tue"; "Wed"; "Thu"; "Fri"; "Sat"].
Definition month_names : list string :=
  ["Jan"; "Feb"; "Mar"; "Apr"; "May"; "Jun"; "Jul"; "Aug"; "Sep"; "Oct"; "Nov"; "Dec"].
Definition nth_name (l : list string) (i : Z) : string := default "" (l !! Z.to_nat i).
Definition two_digits (z : Z) : string := if z <? 10 then "0" +:+ itoa z else itoa z.

(** The layouts the program uses, on a local time in seconds. *)
Definition fmt_hm (local : Z) : string :=
  let s := local mod day_seconds in
  two_digits (s / 3600) +:+ ":" +:+ two_digits (s / 60 mod 60).
Definition fmt_dow_hm (local : Z) : string :=
  nth_name day_names (weekday (local / day_seconds)) +:+ " " +:+ fmt_hm local.
Definition fmt_day_month (local : Z) : string :=
  let c := civil_of_days (local / day_seconds) in
  itoa (civ_day c) +:+ " " +:+ nth_name month_names (civ_month c - 1).
Definition fmt_day_month_hm (local : Z) : string := fmt_day_month local +:+ " " +:+ fmt_hm local.
Definition fmt_day_month_year (local : Z) : string :=
  fmt_day_month local +:+ " " +:+ itoa (civ_year (civil_of_days (local / day_seconds))).

Definition london_seconds (ms : Z) : Z :=
  let s := ms / 1000 in s + london_offset s.

Definition clock `{Env} (ms : Z) : string :=
  let local := london_seconds ms in
  if 6 * 24 * Hour <? now - ms * Millisecond then fmt_day_month_hm local else fmt_dow_hm local.

Definition plural (n : Z) (word : string) : string :=
  if n =? 1 then "1 " +:+ word else cat [itoa n; " "; word; "s"].
