(* ===== verification/Ranks.v ===== *)
(** internal/hub/ranks.go: ranks, actions and the rank rule, and the
    [Person] of people.go they are decided on. *)
From S2P Require Import Prelude Text Db HubCore.
Local Open Scope Z_scope.

Inductive Rank := RankMember | RankMod | RankAdmin | RankOwner.
#[export] Instance Rank_eq_dec : EqDecision Rank. Proof. solve_decision. Defined.
Definition rank_n (r : Rank) : Z :=
  match r with RankMember => 0 | RankMod => 1 | RankAdmin => 2 | RankOwner => 3 end.
Definition rank_lt (a b : Rank) : bool := rank_n a <? rank_n b.
Definition rank_ge (a b : Rank) : bool := rank_n b <=? rank_n a.
Definition rank_max (a b : Rank) : Rank := if rank_lt a b then b else a.

Definition Rank_String (r : Rank) : string :=
  match r with RankMod => "mod" | RankAdmin => "admin" | RankOwner => "owner" | RankMember => "member" end.
Definition Title (r : Rank) : string :=
  if bool_decide (r = RankMember) then "" else Rank_String r.

Definition rankOf (stored : SRank) : Rank :=
  match stored with SRankMod => RankMod | SRankAdmin => RankAdmin | SRankMember => RankMember end.
Definition stored (r : Rank) : SRank :=
  match r with RankMod => SRankMod | RankAdmin => SRankAdmin | _ => SRankMember end.

(** people.go's [Person]. *)
Record Person := mkPerson {
  p_Identity : ident;
  p_PersonID : Z;
  p_Identities : list ident;
  p_Name : string;
  p_Claimed : bool;
  p_ClaimedAt : Z;
  p_Rank : Rank;
  p_PersonRank : Rank;
  p_RankBy : option ident;
  p_RankAt : Z;
  p_Member : bool;
  p_LXMFMode : LXMFMode;
  p_LXMFMine : bool;
  p_Prefs : Prefs
}.
Definition Linked (p : Person) : bool := 1 <? Z.of_nat (length (p_Identities p)).
Definition Owns (p : Person) (id : ident) : bool :=
  existsb (fun app => bool_decide (app = id)) (p_Identities p) || bool_decide (p_Identity p = id).

Inductive Action :=
  | ActKick | ActBan | ActUnban | ActListBans | ActRename | ActModlog | ActMakeMod | ActMakeAdmin
  | ActDemote | ActDevicesOf | ActUnlinkOther | ActRelease | ActStats | ActDelete.
#[export] Instance Action_eq_dec : EqDecision Action. Proof. solve_decision. Defined.

Definition Action_String (a : Action) : string :=
  match a with
  | ActKick => "kick" | ActBan => "ban" | ActUnban => "unban" | ActListBans => "list bans"
  | ActRename => "rename" | ActModlog => "read the mod log" | ActMakeMod => "make a mod"
  | ActMakeAdmin => "make an admin" | ActDemote => "demote" | ActDevicesOf => "see the apps of"
  | ActUnlinkOther => "unlink an app of" | ActRelease => "release a name"
  | ActStats => "see hub counters" | ActDelete => "remove the messages of"
  end.
Definition minRank (a : Action) : Rank :=
  match a with
  | ActMakeMod | ActMakeAdmin | ActDemote => RankAdmin
  | ActRelease | ActStats => RankOwner
  | ActDevicesOf | ActUnlinkOther | ActDelete => RankMember
  | _ => RankMod
  end.
Definition hasTarget (a : Action) : bool :=
  match a with
  | ActUnban | ActListBans | ActModlog | ActRelease | ActStats => false
  | _ => true
  end.
(** The actions one may take on oneself. *)
Definition on_self (a : Action) : bool :=
  match a with ActDevicesOf | ActUnlinkOther | ActDelete => true | _ => false end.

Definition article (r : Rank) : string :=
  match r with
  | RankAdmin | RankOwner => "an " +:+ Rank_String r
  | RankMod => "a mod"
  | RankMember => "a member"
  end.

Definition owner_text (name : string) : string :=
  name +:+ " is a hub owner; that can only be changed in the hub's config file.".
Definition not_below_text (target : Person) (actor : Rank) : string :=
  cat [p_Name target; " is "; article (p_PersonRank target); ", which is not below you ("; Rank_String actor; ")."].

(** [may]: [None] allows, [Some text] refuses with a UserError. *)
Definition may (actor : Person) (action : Action) (target : option Person) : option string :=
  if rank_lt (p_Rank actor) (minRank action) then
    Some (cat ["Only "; Rank_String (minRank action); "s and up can "; Action_String action; "."])
  else match target with
  | None => None
  | Some target =>
    if negb (hasTarget action) then None
    else if negb (p_PersonID actor =? 0) && (p_PersonID actor =? p_PersonID target) then
      if on_self action then None
      else Some (cat ["You can't "; Action_String action; " yourself."])
    else if on_self action && rank_lt (p_Rank actor) RankMod then
      Some (cat ["Only mods and up can "; Action_String action; " someone else."])
    else if bool_decide (p_PersonRank target = RankOwner) then Some (owner_text (p_Name target))
    else if negb (bool_decide (p_Rank actor = RankOwner)) && rank_ge (p_PersonRank target) (p_Rank actor) then
      Some (not_below_text target (p_Rank actor))
    else None
  end.

Section env.
Context {E : Env}.
Definition isOwner (id : ident) : bool := existsb (fun a => bool_decide (a = id)) (Admins cfg).
Definition identityRank (id : ident) (st : SRank) (personHasOwner : bool) : Rank :=
  if isOwner id then RankOwner
  else if personHasOwner then rank_max RankAdmin (rankOf st)
  else rankOf st.
Definition personRank (ids : list Identity) (st : SRank) : Rank :=
  if existsb (fun i => isOwner (Identity_ID i)) ids then RankOwner else rankOf st.

(** [mayActOnRoomTarget], once the target's person [t] is loaded. *)
Definition room_target_refusal (actor t : Person) : option string :=
  if rank_lt (p_PersonRank t) RankMod then None
  else if negb (p_PersonID actor =? 0) && (p_PersonID actor =? p_PersonID t) then None
  else if bool_decide (p_PersonRank t = RankOwner) then Some (owner_text (p_Name t))
  else if negb (bool_decide (p_Rank actor = RankOwner)) && rank_ge (p_PersonRank t) (p_Rank actor) then
    Some (not_below_text t (p_Rank actor))
  else None.
End env.
