(* ===== verification/People.v ===== *)
(** internal/hub/people.go: who an identity is, claiming and forgetting names,
    the LXMF group and its delivery modes; with the presence helpers of
    internal/hub/rooms.go that it reads. *)
From S2P Require Import Prelude Text Db StorePeople StoreRooms StoreMessages StoreGroup Names HubCore Ranks.
Local Open Scope Z_scope.

Section people.
Context {E : Env}.

(** ** rooms.go: presence *)
Definition rrcPresent_in (m : Mem) (room : string) (id : ident) : bool :=
  match present_in m room !! id with Some e => 0 <? pe_rrcLinks e | None => false end.
Definition rrcPresent (room : string) (id : ident) : H bool := mem (fun m => rrcPresent_in m room id).
Definition rooms_of (m : Mem) (id : ident) : list string :=
  order_by String.leb (List.filter (fun r => rrcPresent_in m r id) (map_to_list (presence m)).*1).
Definition roomsOf (id : ident) : H (list string) := mem (fun m => rooms_of m id).

(** ** people.go *)
Definition unknown_person (id : ident) : Person :=
  let r := identityRank id SRankMember false in
  mkPerson id 0 [id] (GuestName id) false 0 r r None 0 false LXMFOn false DefaultPrefs.

Definition person (id : ident) : H Person :=
  i <- tx (tx_Identity id) ;;
  match i with
  | None => ret (unknown_person id)
  | Some i =>
    sp <- tx (tx_PersonOf id) ;;
    p <- match sp with
         | None => let r := identityRank id SRankMember false in
                   ret (mkPerson id 0 [id] (GuestName id) false 0 r r None 0 false
                          (Identity_LXMFMode i) (Identity_LXMFMine i) DefaultPrefs)
         | Some sp =>
           ids <- tx (tx_PersonIdentities (SPerson_ID sp)) ;;
           let pr := personRank ids (SPerson_Rank sp) in
           ret (mkPerson id (SPerson_ID sp) (map Identity_ID ids) (GuestName id) false 0
                  (identityRank id (SPerson_Rank sp) (bool_decide (pr = RankOwner))) pr
                  (SPerson_RankBy sp) (SPerson_RankAt sp) false
                  (Identity_LXMFMode i) (Identity_LXMFMine i) (SPerson_Prefs sp))
         end ;;
    n <- tx (tx_NameOf id) ;;
    member <- tx (tx_IsMember id) ;;
    let '(name, claimed, at_) :=
      match n with
      | Some n => (Name_Name n, true, Name_ClaimedAt n)
      | None => (p_Name p, p_Claimed p, p_ClaimedAt p)
      end in
    ret (mkPerson id (p_PersonID p) (p_Identities p) name claimed at_ (p_Rank p) (p_PersonRank p)
           (p_RankBy p) (p_RankAt p) member (p_LXMFMode p) (p_LXMFMine p) (p_Prefs p))
  end.

Definition rank_of (id : ident) : H Rank :=
  if isOwner id then ret RankOwner else p <- person id ;; ret (p_Rank p).

(** ranks.go *)
Definition mayActOnRoomTarget (actor : Person) (target : ident) : H unit :=
  t <- person target ;;
  match room_target_refusal actor t with
  | Some text => refuse text
  | None => ret tt
  end.

Definition displayName (id : ident) : H string :=
  n <- tx (tx_NameOf id) ;;
  ret (match n with Some n => Name_Name n | None => GuestName id end).

Definition checkHubBan (id : ident) : H unit :=
  banned <- tx (tx_IsBanned id) ;;
  if banned then refuse "you are banned from this hub" else ret tt.

Definition identify (id : ident) (publicKey : option string) : H Person :=
  checkHubBan id ;;;
  tx (tx_TouchIdentity id publicKey nowMS) ;;;
  person id.

Definition stillCalled (p : Person) : string :=
  if p_Claimed p then cat ["You are still "; p_Name p; "."]
  else cat ["You are shown as "; p_Name p; " until you choose a free name with /nick."].
Definition capitalise (s : string) : string :=
  if bool_decide (s = "") then s else to_upper (str_take 1 s) +:+ str_drop 1 s.

Definition claimName (id : ident) (want : string) : H Person :=
  before <- person id ;;
  match CleanName want with
  | inl ne => refuse (cat [capitalise (ne_Reason ne); ". "; stillCalled before])
  | inr (clean, sk) =>
    if p_Claimed before && bool_decide (p_Name before = clean) then ret before else
    handle (tx (tx_ClaimName id clean sk nowMS)) (fun e =>
      match e with
      | ErrNameTaken => refuse (cat [quote clean; " is taken by someone else. "; stillCalled before])
      | _ => fail e
      end) ;;;
    after <- person id ;;
    (if bool_decide (p_Name after = p_Name before) then ret tt else
     emit (NameEvent id (p_Name before) (p_Name after)) ;;;
     then_ (ARename id (p_Name after))) ;;;
    ret after
  end.

Definition samePerson (a b : ident) : H bool :=
  if bool_decide (a = b) then ret true else
  pa <- tx (tx_PersonOf a) ;;
  match pa with
  | None => ret false
  | Some pa =>
    pb <- tx (tx_PersonOf b) ;;
    ret (match pb with Some pb => SPerson_ID pa =? SPerson_ID pb | None => false end)
  end.

Definition identitiesOf (id : ident) : H (list ident) :=
  p <- tx (tx_PersonOf id) ;;
  match p with
  | None => ret [id]
  | Some p => ids <- tx (tx_PersonIdentities (SPerson_ID p)) ;; ret (map Identity_ID ids)
  end.

Definition personOnRRC (id : ident) (room : string) (except : option ident) : H bool :=
  ids <- identitiesOf id ;;
  mem (fun m => existsb (fun i => negb (bool_decide (Some i = except)) && rrcPresent_in m room i) ids).

Definition lxmfPaused (mode : LXMFMode) (id : ident) : H bool :=
  match mode with
  | LXMFOff => ret true
  | LXMFAuto => personOnRRC id (GroupRoom cfg) None
  | LXMFOn => ret false
  end.

Definition lxmfPauseChanged (id : ident) (was is_now : bool) : H unit :=
  let room := GroupRoom cfg in
  if negb was && is_now then
    last <- tx (tx_LastMessageID room) ;;
    tx (tx_SetCursor id room ViaLXMF last nowMS)
  else if was && negb is_now then
    c <- tx (tx_Cursor id room ViaLXMF) ;;
    match c with
    | None => ret tt
    | Some c =>
      missed <- tx (tx_CountAfter room (Cursor_MessageID c)) ;;
      last <- tx (tx_LastMessageID room) ;;
      tx (tx_SetCursor id room ViaLXMF last nowMS) ;;;
      if 0 <? missed then emit (LXMFResumeEvent id missed) else ret tt
    end
  else ret tt.

Definition autoPauseChanged (id : ident) (paused : bool) : H unit :=
  ids <- identitiesOf id ;;
  foreach ids (fun i =>
    p <- person i ;;
    if p_Member p && bool_decide (p_LXMFMode p = LXMFAuto)
    then lxmfPauseChanged i (negb paused) paused else ret tt).

Definition setLXMFMode (id : ident) (mode : LXMFMode) : H Person :=
  tx (tx_TouchIdentity id None nowMS) ;;;
  before <- person id ;;
  wasPaused <- lxmfPaused (p_LXMFMode before) id ;;
  tx (tx_SetLXMFMode id mode) ;;;
  nowPaused <- lxmfPaused mode id ;;
  (if p_Member before then lxmfPauseChanged id wasPaused nowPaused else ret tt) ;;;
  person id.

Definition setLXMFMine (id : ident) (on : bool) : H Person :=
  tx (tx_TouchIdentity id None nowMS) ;;;
  tx (tx_SetLXMFMine id on) ;;;
  person id.

Definition leaveGroup (id : ident) : H bool :=
  p <- person id ;;
  if negb (p_Member p) then ret false else
  tx (tx_RemoveMember id) ;;;
  emit (GroupEvent id (p_Name p) false) ;;;
  ret true.

(** links.go: /forget takes every other app out of the person. *)
Definition unlinkAll (id : ident) : H unit :=
  ids <- identitiesOf id ;;
  foreach ids (fun other =>
    if bool_decide (other = id) then ret tt else
    before <- displayName other ;;
    tx (tx_UnlinkIdentity other nowMS) ;;;
    let guest := GuestName other in
    emit (NameEvent other before guest) ;;;
    then_ (ARename other guest) ;;;
    emit (NoticeEvent other "" (cat [before; " was forgotten from another app, so this app is "; guest; " now."]) false)).

Definition forget (id : ident) : H Person :=
  before <- person id ;;
  unlinkAll id ;;;
  (if p_Member before then
     tx (tx_RemoveMember id) ;;;
     emit (GroupEvent id (p_Name before) false)
   else ret tt) ;;;
  (if p_Claimed before then
     tx (tx_ReleaseName id) ;;;
     let guest := GuestName id in
     emit (NameEvent id (p_Name before) guest) ;;;
     then_ (ARename id guest) ;;;
     tx (tx_Audit nowMS (Some id) "forget" (p_Name before) "")
   else ret tt) ;;;
  person id.

Definition checkRoomBan (room : string) (id : ident) : H unit :=
  banned <- tx (tx_HasRole room id RoleBan) ;;
  if banned then refuse "banned from room" else ret tt.

Definition joinGroup (id : ident) (name : string) : H (Person * string) :=
  checkHubBan id ;;;
  checkRoomBan (GroupRoom cfg) id ;;;
  tx (tx_TouchIdentity id None nowMS) ;;;
  note <- (if bool_decide (name = "") then ret "" else
           r <- catch_user (claimName id name) ;;
           ret (match r with inl text => text | inr _ => "" end)) ;;
  added <- tx (tx_AddMember id nowMS) ;;
  p <- person id ;;
  if (added : bool) then
    tx (tx_SetLXMFMode id LXMFOn) ;;;
    tx (tx_SetLXMFMine id true) ;;;
    p <- person id ;;
    emit (GroupEvent id (p_Name p) true) ;;;
    ret (p, note)
  else ret (p, note).

Definition markRead (id : ident) (room : string) (via : Via) (messageID : Z) : H unit :=
  tx (tx_TouchIdentity id None nowMS) ;;;
  tx (tx_SetCursor id room via messageID nowMS).

(** ** The methods *)
Definition Identify (id : ident) (publicKey : option string) := update (identify id publicKey).
Definition PersonOf (id : ident) := view (person id).
Definition ClaimName (id : ident) (want : string) :=
  update (tx (tx_TouchIdentity id None nowMS) ;;; claimName id want).
Definition Forget (id : ident) := update (forget id).
Definition LeaveGroup (id : ident) := update (leaveGroup id).
Definition SetLXMFMode (id : ident) (mode : LXMFMode) := update (setLXMFMode id mode).
Definition SetLXMFMine (id : ident) (on : bool) := update (setLXMFMine id on).
Definition JoinGroup (id : ident) (name : string) := update (joinGroup id name).
Definition MarkRead (id : ident) (room : string) (via : Via) (messageID : Z) :=
  update (markRead id room via messageID).
Definition ReadCursor (id : ident) (room : string) (via : Via) := view (tx (tx_Cursor id room via)).
Definition RoomInfo (name : string) := view (tx (tx_Room name)).
End people.
