(* ===== verification/Rooms.v ===== *)
(** internal/hub/rooms.go and the rooms of internal/hub/config.go: joining and
    leaving rooms, catch-up, member lists and room permissions. *)
From S2P Require Import Prelude Text Db StorePeople StoreRooms StoreMessages StoreGroup Names HubCore Clock Ranks.
From S2P Require Import People.
Local Open Scope Z_scope.

Record Member := mkMember {
  Member_Identity : ident;
  Member_Name : string;
  Member_RRC : bool;
  Member_LXMF : bool
}.
Record JoinRequest := mkJoinRequest {
  jr_Identity : ident;
  jr_Room : string;
  jr_Key : string
}.
Record JoinResult := mkJoinResult {
  jr_RoomState : Room;
  jr_FirstLink : bool;
  jr_Members : list Member;
  jr_Replay : list Message;
  jr_ReplayNote : string;
  jr_SeenUpTo : Z
}.

Definition with_last_used (now : Z) (r : Room) : Room :=
  mkRoom (Room_Name r) (Room_Topic r) (Room_Founder r) (Room_Registered r) (Room_Modes r) (Room_Key r)
    (Room_CreatedAt r) now.

Section rooms.
Context {E : Env}.

Definition normRoom (name : string) : H string :=
  match NormalizeRoom name (MaxRoomNameBytes cfg) with
  | inl text => refuse text
  | inr r => ret r
  end.

(** Hub mods and up in every room, the founder and granted ops. *)
Definition isRoomOp (r : Room) (id : ident) : H bool :=
  if bool_decide (Room_Founder r = Some id) then ret true else
  rk <- rank_of id ;;
  if rank_ge rk RankMod then ret true else tx (tx_HasRole (Room_Name r) id RoleOp).

Definition mayReadRoom (r : Room) (id : ident) : H bool :=
  if negb (HasMode r "p") && negb (HasMode r "i") && bool_decide (Room_Key r = "") then ret true else
  here <- rrcPresent (Room_Name r) id ;;
  if (here : bool) then ret true else
  op <- isRoomOp r id ;;
  if (op : bool) then ret true else tx (tx_InviteValid (Room_Name r) id nowMS).

Definition isVoiced (r : Room) (id : ident) : H bool :=
  op <- isRoomOp r id ;;
  if (op : bool) then ret true else tx (tx_HasRole (Room_Name r) id RoleVoice).

(** ** Member lists *)

(** sortMembers: by name, then by identity. *)
Definition member_before (a b : Member) : bool :=
  if bool_decide (Member_Name a = Member_Name b) then String.leb (Member_Identity a) (Member_Identity b)
  else String.leb (Member_Name a) (Member_Name b).
Definition sortMembers (ms : list Member) : list Member := order_by member_before ms.

(** byID, the group members added one by one to those over RRC. *)
Fixpoint add_group (group : list SMember) (byID : gmap ident Member) : H (gmap ident Member) :=
  match group with
  | [] => ret byID
  | gm :: group' =>
    paused <- lxmfPaused (SMember_LXMFMode gm) (SMember_Identity gm) ;;
    if (paused : bool) then add_group group' byID else
    match byID !! SMember_Identity gm with
    | Some m => add_group group'
                  (<[SMember_Identity gm := mkMember (Member_Identity m) (Member_Name m) (Member_RRC m) true]> byID)
    | None =>
      r <- catch (displayName (SMember_Identity gm)) ;;
      let name := match r with Ok n => n | Fail _ => GuestName (SMember_Identity gm) end in
      add_group group' (<[SMember_Identity gm := mkMember (SMember_Identity gm) name false true]> byID)
    end
  end.

(** byPerson: one member for each person. *)
Definition merge_member (first m : Member) : Member :=
  mkMember (if String.ltb (Member_Identity m) (Member_Identity first) then Member_Identity m else Member_Identity first)
    (Member_Name first) (Member_RRC first || Member_RRC m) (Member_LXMF first || Member_LXMF m).
Fixpoint by_person (ms : list Member) (byPerson : gmap Z Member) (out : list Member) : H (list Member) :=
  match ms with
  | [] => ret (out ++ (map_to_list byPerson).*2)
  | m :: ms' =>
    sp <- tx (tx_PersonOf (Member_Identity m)) ;;
    match sp with
    | None => by_person ms' byPerson (out ++ [m])
    | Some sp =>
      by_person ms' (<[SPerson_ID sp := match byPerson !! SPerson_ID sp with
                                        | Some first => merge_member first m
                                        | None => m
                                        end]> byPerson) out
    end
  end.
Definition rrc_member (e : PEntry) : option Member :=
  if 0 <? pe_rrcLinks e then Some (mkMember (pe_identity e) (pe_name e) true false) else None.
Definition members_in (room : string) : H (list Member) :=
  ps <- mem (fun m => present_in m room) ;;
  let byID := omap rrc_member ps in
  byID <- (if bool_decide (room = GroupRoom cfg) then
             group <- tx tx_Members ;; add_group group byID
           else ret byID) ;;
  out <- by_person (map_to_list byID).*2 ∅ [] ;;
  ret (sortMembers out).

Fixpoint mark_rrc (id : ident) (ms : list Member) : option (list Member) :=
  match ms with
  | [] => None
  | m :: ms' =>
    if bool_decide (Member_Identity m = id)
    then Some (mkMember (Member_Identity m) (Member_Name m) true (Member_LXMF m) :: ms')
    else ms'' ← mark_rrc id ms'; Some (m :: ms'')
  end.
Definition membersAfterJoin (room : string) (id : ident) (name : string) : H (list Member) :=
  ms <- members_in room ;;
  ret (match mark_rrc id ms with
       | Some ms' => ms'
       | None => sortMembers (ms ++ [mkMember id name true false])
       end).

(** ** Joining *)

(** The messages to replay to an identity joining a room over RRC. *)
Definition catchUp (id : ident) (room : string) : H (list Message * string) :=
  c <- tx (tx_Cursor id room ViaRRC) ;;
  match c with
  | None =>
    msgs <- tx (tx_LatestMessages room 0 (ReplayFirstVisit cfg)) ;;
    match msgs with
    | [] => ret ([], "")
    | _ => ret (msgs, cat ["— the last "; plural (Z.of_nat (length msgs)) "message"; " in #"; room; " —"])
    end
  | Some c =>
    missed <- tx (tx_CountAfter room (Cursor_MessageID c)) ;;
    if missed =? 0 then ret ([], "") else
    let since := clock (Cursor_UpdatedAt c) in
    if ReplayMax cfg <? missed then
      msgs <- tx (tx_LatestMessages room 0 (ReplayMax cfg)) ;;
      ret (msgs, cat ["— "; itoa missed; " messages since you were here ("; since; "); the latest ";
                      itoa (Z.of_nat (length msgs)); " follow, /history "; itoa (Z.min missed (HistoryMax cfg));
                      " shows more —"])
    else
      msgs <- tx (tx_MessagesAfter room (Cursor_MessageID c) missed) ;;
      ret (msgs, cat ["— "; plural (Z.of_nat (length msgs)) "message"; " since you were here ("; since; ") —"])
  end.

(** The checks on a room that exists: whether the joiner was invited. *)
Definition join_gate (room : string) (r : Room) (id : ident) (key : string) : H bool :=
  op <- isRoomOp r id ;;
  invited <- tx (tx_InviteValid room id nowMS) ;;
  if HasMode r "i" && negb op && negb invited then refuse "invite-only (+i)" else
  if negb (bool_decide (Room_Key r = "")) && negb op && negb invited && negb (bool_decide (key = Room_Key r))
  then refuse "bad key (+k)" else
  ret invited.

(** What an identity's first link into a room adds: the catch-up, the
    cursor, the pause of LXMF copies and the event. *)
Definition first_link (id : ident) (room name : string) : H (list Message * string * Z) :=
  let! (replay, note) := catchUp id room in
  last <- tx (tx_LastMessageID room) ;;
  tx (tx_SetCursor id room ViaRRC last nowMS) ;;;
  (if bool_decide (room = GroupRoom cfg) then
     onAlready <- personOnRRC id room None ;;
     if (onAlready : bool) then ret tt else autoPauseChanged id true
   else ret tt) ;;;
  emit (JoinedEvent room id name ViaRRC) ;;;
  ret (replay, note, last).

Definition join (req : JoinRequest) : H JoinResult :=
  let id := jr_Identity req in
  if bool_decide (jr_Room req = "") then refuse "JOIN requires room name" else
  room <- normRoom (jr_Room req) ;;
  checkHubBan id ;;;
  already <- rrcPresent room id ;;
  rooms <- roomsOf id ;;
  if negb already && (MaxRoomsPerPerson cfg <=? Z.of_nat (length rooms)) then refuse "too many rooms" else
  r <- tx (tx_Room room) ;;
  invited <- (match r with Some r => join_gate room r id (jr_Key req) | None => ret false end) ;;
  checkRoomBan room id ;;;
  tx (tx_TouchIdentity id None nowMS) ;;;
  let r := with_last_used nowMS (match r with
                                 | Some r => r
                                 | None => mkRoom room "" (Some id) false "" "" nowMS 0
                                 end) in
  tx (tx_PutRoom r) ;;;
  (if (invited : bool) then tx (tx_DeleteInvite room id) else ret tt) ;;;
  name <- displayName id ;;
  caught <- (if (already : bool) then ret ([], "", 0) else first_link id room name) ;;
  then_ (AJoin room id name) ;;;
  ms <- membersAfterJoin room id name ;;
  ret (mkJoinResult r (negb already) ms caught.1.1 caught.1.2 caught.2).

(** ** Leaving *)

Definition forgetEmptyRoom (room : string) (leaving : ident) : H unit :=
  others <- mem (fun m => existsb (fun ke => negb (bool_decide (ke.1 = leaving)) && (0 <? pe_rrcLinks ke.2))
                            (map_to_list (present_in m room))) ;;
  if (others : bool) then ret tt else
  r <- tx (tx_Room room) ;;
  match r with
  | None => ret tt
  | Some r =>
    if Room_Registered r || isDefaultRoom cfg room then tx (tx_PutRoom (with_last_used nowMS r))
    else tx (tx_DeleteRoom room)
  end.

(** The last link's departure. *)
Definition last_link (id : ident) (room name : string) : H unit :=
  last <- tx (tx_LastMessageID room) ;;
  tx (tx_SetCursor id room ViaRRC last nowMS) ;;;
  emit (PartedEvent room id name ViaRRC) ;;;
  (if bool_decide (room = GroupRoom cfg) then
     stillOn <- personOnRRC id room (Some id) ;;
     if (stillOn : bool) then ret tt else autoPauseChanged id false
   else ret tt) ;;;
  forgetEmptyRoom room id.
Definition part (id : ident) (room : string) : H unit :=
  e <- mem (fun m => present_in m room !! id) ;;
  match e with
  | None => ret tt
  | Some e =>
    if pe_rrcLinks e =? 0 then ret tt else
    (if pe_rrcLinks e =? 1 then last_link id room (pe_name e) else ret tt) ;;;
    then_ (APart room id)
  end.

Definition part_room (id : ident) (room : string) : H string :=
  if bool_decide (room = "") then refuse "PART requires room name" else
  r <- normRoom room ;;
  part id r ;;;
  ret r.

(** ** Cursors of everyone present, and the configured rooms *)

Definition save_all_cursors : H unit :=
  rooms <- mem (fun m => map_to_list (presence m)) ;;
  foreach rooms (fun rm =>
    last <- tx (tx_LastMessageID rm.1) ;;
    foreach (map_to_list rm.2).*2 (fun e =>
      if 0 <? pe_rrcLinks e then tx (tx_SetCursor (pe_identity e) rm.1 ViaRRC last nowMS) else ret tt)).

(** config.go. *)
Definition ensure_room (rc : RoomConfig) : Tx unit :=
  r <- tx_Room (rc_Name rc) ;;
  match r with
  | Some r =>
    if Room_Registered r then ret tt else
    tx_PutRoom (SetMode (mkRoom (Room_Name r) (rc_Topic rc) None true (Room_Modes r) (Room_Key r)
                           (Room_CreatedAt r) nowMS) "t" true)
  | None =>
    tx_PutRoom (SetMode (mkRoom (rc_Name rc) (rc_Topic rc) None true "" "" nowMS nowMS) "t" true)
  end.
Definition ensure_default_rooms : Tx unit := foreach (Rooms cfg) ensure_room.

(** [h.st.Update]: a transaction that leaves the memory alone. *)
Definition store_update (fn : H unit) (h : Hub) : Hub :=
  match fn (mkReq (h_db h) (h_mem h) [] []) with
  | (Ok _, q) => mkHub (q_db q) (h_mem h) (h_subs h)
  | (Fail _, _) => h
  end.

(** ** The methods *)
Definition Join (req : JoinRequest) := update (join req).
Definition Part (id : ident) (room : string) := update (part_room id room).
Definition Disconnect (id : ident) (rooms : list string) := update (foreach rooms (part id)).
Definition Members (room : string) := view (members_in room).
Definition saveAllCursors : Hub -> Hub := store_update save_all_cursors.
(** [New]: the hub on an open store, with the configured rooms in it. *)
Definition New (db : DB) : option Hub :=
  match ensure_default_rooms db with
  | (Ok _, db') => Some (mkHub db' mem_empty [])
  | (Fail _, _) => None
  end.
End rooms.
