(* ===== verification/Post.v ===== *)
(** internal/hub/post.go: saying something, the rate limit, who gets it by
    LXMF, history, and NOTICE permission. *)
From S2P Require Import Prelude Text Db StorePeople StoreRooms StoreMessages StoreGroup Names HubCore Clock Ranks.
From S2P Require Import People Rooms.
Local Open Scope Z_scope.

Record PostRequest := mkPostRequest {
  pr_Via : Via;
  pr_Identity : ident;
  pr_Room : string;
  pr_Action : bool;
  pr_Body : string;
  pr_OriginID : option string;
  pr_SaidAt : Z;
  pr_Ext : option string
}.
Record PostResult := mkPostResult { po_Message : Message; po_Duplicate : bool }.

Section post.
Context {E : Env}.

(** The token bucket.  [tokens] holds [PostsPerMinute * Minute] when full and
    a post takes [Minute]; a nanosecond refills [PostsPerMinute]. *)
Definition refill (b : Bucket) : Z :=
  let perMin := PostsPerMinute cfg in
  Z.min (perMin * Minute) (b_tokens b + (now - b_at b) * perMin).
Definition take_token (b : option Bucket) : bool * Bucket :=
  let b := default (mkBucket (PostsPerMinute cfg * Minute) now) b in
  let tokens := refill b in
  if tokens <? Minute then (false, mkBucket tokens now)
  else (true, mkBucket (tokens - Minute) now).
Definition allowPost (id : ident) : H bool :=
  b <- mem (fun m => rate m !! id) ;;
  let '(ok, b') := take_token b in
  mem_mod (fun m => set_rate (<[id := b']> (rate m)) m) ;;;
  ret ok.

(** The members who get a message by LXMF. *)
Definition lxmf_gets (author : ident) (via : Via) (m : SMember) : H bool :=
  paused <- lxmfPaused (SMember_LXMFMode m) (SMember_Identity m) ;;
  if (paused : bool) then ret false else
  if bool_decide (SMember_Identity m = author) && bool_decide (via = ViaLXMF) then ret false else
  own <- (if SMember_LXMFMine m then ret false else samePerson (SMember_Identity m) author) ;;
  if (own : bool) then ret false else
  banned <- tx (tx_IsBanned (SMember_Identity m)) ;;
  ret (negb banned).
Fixpoint select_members (f : SMember -> H bool) (l : list SMember) : H (list ident) :=
  match l with
  | [] => ret []
  | m :: l' =>
    b <- f m ;;
    rest <- select_members f l' ;;
    ret (if (b : bool) then SMember_Identity m :: rest else rest)
  end.
Definition lxmfRecipients (author : ident) (via : Via) : H (list ident) :=
  members <- tx tx_Members ;;
  select_members (lxmf_gets author via) members.

(** ** Saying something *)

(** The way in: what each lets someone post to. *)
Definition via_gate (via : Via) (id : ident) (room : string) (r : Room) : H unit :=
  match via with
  | ViaRRC =>
    here <- rrcPresent room id ;;
    if negb here && HasMode r "n" then refuse "no outside messages (+n)" else ret tt
  | ViaLXMF =>
    member <- tx (tx_IsMember id) ;;
    if negb member then refuse "send /join first to take part in the group" else
    if negb (bool_decide (room = GroupRoom cfg)) then refuse (cat ["the group only carries #"; GroupRoom cfg]) else ret tt
  | ViaPage =>
    if negb (bool_decide (room = GroupRoom cfg)) then refuse (cat ["the page only carries #"; GroupRoom cfg]) else ret tt
  | ViaImport => ret tt
  end.
Definition voice_gate (r : Room) (id : ident) : H unit :=
  if HasMode r "m" then
    voiced <- isVoiced r id ;;
    if (voiced : bool) then ret tt else refuse "room is moderated (+m)"
  else ret tt.
Definition rate_gate (id : ident) : H unit :=
  ok <- allowPost id ;;
  if (ok : bool) then ret tt else refuse "rate limited".
Definition body_gate (body : string) : H unit :=
  if bool_decide (trim_space body = "") then refuse "message is empty" else
  if negb (valid_string body) then refuse "message is not valid text" else
  if MaxBodyBytes cfg <? len body then
    refuse (cat ["message too large: "; itoa (len body); " bytes > "; itoa (MaxBodyBytes cfg); " bytes"])
  else ret tt.

(** The cutset of [strings.TrimRight(req.Body, ...)]: space, tab, CR, LF. *)
Definition body_cutset : string := of_bytes [32; 9; 13; 10].
Definition post_body (req : PostRequest) : string := trim_right (pr_Body req) body_cutset.

(** Everything that can refuse a message: the room's name and row. *)
Definition post_gates (req : PostRequest) : H (string * Room) :=
  let id := pr_Identity req in
  room <- normRoom (if bool_decide (pr_Room req = "") then GroupRoom cfg else pr_Room req) ;;
  body_gate (post_body req) ;;;
  checkHubBan id ;;;
  r <- tx (tx_Room room) ;;
  match r with
  | None => refuse "no such room"
  | Some r =>
    via_gate (pr_Via req) id room r ;;;
    checkRoomBan room id ;;;
    voice_gate r id ;;;
    rate_gate id ;;;
    ret (room, r)
  end.

Definition post_message (req : PostRequest) (room name : string) : Message :=
  mkMessage 0 room (if pr_Action req then KindAction else KindMsg) (pr_Identity req) name (post_body req)
    (pr_Via req) (pr_OriginID req) (if pr_SaidAt req <=? 0 then nowMS else pr_SaidAt req) nowMS (pr_Ext req).

(** A copy for each group member who should get it by LXMF. *)
Definition queue_copies (id : ident) (via : Via) (room : string) (msgID : Z) : H (list ident) :=
  if bool_decide (room = GroupRoom cfg) then
    to <- lxmfRecipients id via ;;
    foreach to (fun to => tx (tx_PutDelivery (mkDelivery msgID false to DeliveryQueued 0 0 nowMS nowMS))) ;;;
    ret to
  else ret [].

Definition post (req : PostRequest) : H PostResult :=
  let id := pr_Identity req in
  let! (room, r) := post_gates req in
  tx (tx_TouchIdentity id None nowMS) ;;;
  name <- displayName id ;;
  let m := post_message req room name in
  let! (msgID, dup) := tx (tx_AddMessage m) in
  if (dup : bool) then
    mem_mod (count add_duplicates) ;;;
    (* the row AddMessage has just found *)
    stored <- tx (tx_Message msgID) ;;
    ret (mkPostResult (default m stored) true)
  else
    tx (tx_PutRoom (with_last_used nowMS r)) ;;;
    to <- queue_copies id (pr_Via req) room msgID ;;
    let m := with_message_id msgID m in
    emit (MessageEvent m to) ;;;
    mem_mod (count add_posts) ;;;
    ret (mkPostResult m false).

(** ** NOTICE and history *)

Definition notice_gates (id : ident) (room : string) : H unit :=
  checkHubBan id ;;;
  r <- tx (tx_Room room) ;;
  match r with
  | None => refuse "no such room"
  | Some r => checkRoomBan room id ;;; voice_gate r id
  end.

Definition history (id : ident) (room : string) (n beforeID : Z) : H (list Message) :=
  room <- normRoom (if bool_decide (room = "") then GroupRoom cfg else room) ;;
  last <- mem (fun m => historyAt m !! id) ;;
  (match last with
   | Some last =>
     if now - last <? HistoryCooldown cfg then
       let wait := HistoryCooldown cfg - (now - last) in
       refuse (cat ["please wait "; itoa ((wait + Second - 1) / Second); " seconds before asking for history again"])
     else ret tt
   | None => ret tt
   end) ;;;
  r <- tx (tx_Room room) ;;
  match r with
  | None => refuse "no such room"
  | Some r =>
    checkRoomBan room id ;;;
    ok <- mayReadRoom r id ;;
    if negb ok then refuse (cat ["room "; room; " is private"]) else
    let n := Z.min (if n <=? 0 then 20 else n) (HistoryMax cfg) in
    mem_mod (fun m => set_historyAt (<[id := now]> (historyAt m)) m) ;;;
    tx (tx_LatestMessages room beforeID n)
  end.

(** ** The methods *)
Definition Post (req : PostRequest) (h : Hub) : res PostResult * Hub :=
  match update (post req) h with
  | (Fail e, h') => (Fail e, mkHub (h_db h') (count add_refusals (h_mem h')) (h_subs h'))
  | r => r
  end.
(** The gates run in a View; the rate limit outside it. *)
Definition MayNotice (id : ident) (room : string) (h : Hub) : res unit * Hub :=
  match view (room <- normRoom room ;; notice_gates id room) h with
  | Fail e => (Fail e, h)
  | Ok _ =>
    match rate_gate id (mkReq (h_db h) (h_mem h) [] []) with
    | (r, q) => (r, mkHub (h_db h) (q_mem q) (h_subs h))
    end
  end.
Definition History (id : ident) (room : string) (n beforeID : Z) := update (history id room n beforeID).
Definition Recent (room : string) (n beforeID : Z) := view (tx (tx_LatestMessages room beforeID n)).
End post.
