(* ===== verification/Sha256.v ===== *)
(** Package crypto/sha256 and package encoding/base32, as the program uses
    them: SHA-256 (FIPS 180-4) on byte strings, words as 32-bit [Z]. *)
From S2P Require Import Prelude Text.
Local Open Scope Z_scope.

Definition w32 (x : Z) : Z := Z.land x 4294967295.
Definition add32 (x y : Z) : Z := w32 (x + y).
Definition rotr (n x : Z) : Z := w32 (Z.lor (Z.shiftr x n) (Z.shiftl x (32 - n))).
Definition shr (n x : Z) : Z := Z.shiftr x n.
Definition not32 (x : Z) : Z := Z.lxor x 4294967295.
Definition Ch (x y z : Z) : Z := Z.lxor (Z.land x y) (Z.land (not32 x) z).
Definition Maj (x y z : Z) : Z := Z.lxor (Z.lxor (Z.land x y) (Z.land x z)) (Z.land y z).
Definition Sigma0 (x : Z) : Z := Z.lxor (Z.lxor (rotr 2 x) (rotr 13 x)) (rotr 22 x).
Definition Sigma1 (x : Z) : Z := Z.lxor (Z.lxor (rotr 6 x) (rotr 11 x)) (rotr 25 x).
Definition sigma0 (x : Z) : Z := Z.lxor (Z.lxor (rotr 7 x) (rotr 18 x)) (shr 3 x).
Definition sigma1 (x : Z) : Z := Z.lxor (Z.lxor (rotr 17 x) (rotr 19 x)) (shr 10 x).

(** The constants: the first 32 bits of the fractional parts of the cube roots
    of the first 64 primes, and of the square roots of the first 8. *)
Definition is_prime (n : Z) : bool :=
  (2 <=? n) && forallb (fun d => negb (n mod d =? 0)) (seqZ 2 (Z.sqrt n - 1)).
Definition primes (n : nat) : list Z := take n (List.filter is_prime (seqZ 2 310)).
(** The integer cube root of [x], of at most [n] bits, found bit by bit. *)
Fixpoint cbrt_bits (n : nat) (x r : Z) : Z :=
  match n with
  | O => r
  | S n' =>
    let r' := r + 2 ^ Z.of_nat n' in
    cbrt_bits n' x (if r' * r' * r' <=? x then r' else r)
  end.
Definition K256 : list Z := Eval vm_compute in map (fun p => w32 (cbrt_bits 36 (Z.shiftl p 96) 0)) (primes 64).
Definition H256 : list Z := Eval vm_compute in map (fun p => w32 (Z.sqrt (Z.shiftl p 64))) (primes 8).

(** The message schedule, newest word first. *)
Fixpoint extend (n : nat) (ws : list Z) : list Z :=
  match n with
  | O => ws
  | S n' =>
    let at_ (i : nat) := nth i ws 0 in
    extend n' (add32 (add32 (sigma1 (at_ 1%nat)) (at_ 6%nat)) (add32 (sigma0 (at_ 14%nat)) (at_ 15%nat)) :: ws)
  end.
Definition sha_round (st : list Z) (kw : Z * Z) : list Z :=
  match st with
  | [a; b; c; d; e; f; g; h] =>
    let t1 := add32 (add32 (add32 h (Sigma1 e)) (add32 (Ch e f g) kw.1)) kw.2 in
    let t2 := add32 (Sigma0 a) (Maj a b c) in
    [add32 t1 t2; a; b; c; add32 d t1; e; f; g]
  | _ => st
  end.
Definition sha_block (h : list Z) (ws : list Z) : list Z :=
  let sched := rev (extend 48 (rev ws)) in
  zip_with add32 h (fold_left sha_round (zip K256 sched) h).

Fixpoint be_words (n : nat) (bs : list Z) : list Z :=
  match n, bs with
  | S n', a :: b :: c :: d :: bs' =>
    (a * 16777216 + b * 65536 + c * 256 + d) :: be_words n' bs'
  | _, _ => []
  end.
Definition be_bytes (n : nat) (x : Z) : list Z :=
  map (fun i => Z.land (Z.shiftr x (8 * (Z.of_nat n - 1 - i))) 255) (seqZ 0 (Z.of_nat n)).
Fixpoint sha_blocks (n : nat) (h : list Z) (bs : list Z) : list Z :=
  match n with
  | O => h
  | S n' => sha_blocks n' (sha_block h (be_words 16 (take 64 bs))) (drop 64 bs)
  end.
Definition sha_pad (bs : list Z) : list Z :=
  let n := Z.of_nat (length bs) in
  bs ++ [128] ++ replicate (Z.to_nat ((55 - n) mod 64)) 0 ++ be_bytes 8 (8 * n).
(** [sha256.Sum256]. *)
Definition Sum256 (s : string) : string :=
  let p := sha_pad (bytes s) in
  of_bytes (concat (map (be_bytes 4) (sha_blocks (length p / 64) H256 p))).

(** [base32.StdEncoding.EncodeToString] of five bytes: eight letters. *)
Definition base32_digit (v : Z) : ascii := chr (if v <? 26 then 65 + v else 50 + (v - 26)).
Definition base32_5 (s : string) : string :=
  let v := fold_left (fun acc b => acc * 256 + b) (bytes s) 0 in
  of_bytes (map (fun i => byte (base32_digit (Z.land (Z.shiftr v (5 * (7 - i))) 31))) (seqZ 0 8)).

Example Sum256_abc : hex_encode (Sum256 "abc") =
  "ba7816bf8f01cfea414140de5dae2223b00361a396177a9cb410ff61f20015ad".
Proof. vm_compute. reflexivity. Qed.
Example Sum256_two_blocks : hex_encode (Sum256 "abcdbcdecdefdefgefghfghighijhijkijkljklmklmnlmnomnopnopq") =
  "248d6a61d20638b8e5c026930c3e6039a33ce45964ff2167f6ecedd419db06c1".
Proof. vm_compute. reflexivity. Qed.
Example base32_foobar : base32_5 "fooba" = "MZXW6YTB".
Proof. vm_compute. reflexivity. Qed.
