(* ===== verification/Commands.v ===== *)
(** internal/hub/commands.go: the command table, the monad commands run in,
    /help, and [resolve] of internal/hub/cmd_rooms.go. *)
From S2P Require Import Prelude Text Db StorePeople StoreRooms StoreMessages StoreGroup Names HubCore Clock Ranks.
From S2P Require Import People Rooms Post.
Local Open Scope Z_scope.

Definition OnePacketText : Z := 280.

Record CommandRequest := mkCommandRequest {
  cr_Via : Via;
  cr_Identity : ident;
  cr_Room : string;
  cr_Text : string
}.
Record Reply := mkReply {
  Lines : list string;
  Reply_Error : bool;
  Whole : bool;
  Reply_History : list Message;
  HistoryNote : string;
  PartRoom : string
}.
Definition empty_reply : Reply := mkReply [] false false [] "" "".
Definition Reply_Text (r : Reply) : string := strings_Join newline (Lines r).

(** ** The table *)
Inductive access := anyone | mods | admins | owners.
Definition access_rank (a : access) : Rank :=
  match a with mods => RankMod | admins => RankAdmin | owners => RankOwner | anyone => RankMember end.

(** The functions of the table's [run] and [oldForm] fields. *)
Inductive Handler :=
  | HHelp
  | HJoin
  | HLeave
  | HNick
  | HMe
  | HWho
  | HList
  | HHistory
  | HTopic
  | HWhoami
  | HLXMF
  | HExpand
  | HShare
  | HWhispers
  | HIgnore
  | HUnignore
  | HIgnored
  | HPage
  | HForget
  | HWhisper
  | HReply
  | HProfile
  | HLink
  | HDevices
  | HUnlink
  | HRoom
  | HKick
  | HBan
  | HUnban
  | HBans
  | HRename
  | HDelete
  | HModlog
  | HMod
  | HAdmin
  | HDemote
  | HKline
  | HRelease
  | HStats
  | HLegacyRoom.
Inductive OldForm := OldKick | OldBan.

Record command := mkCommand {
  cmd_name : string;
  cmd_aliases : list string;
  cmd_args : string;
  cmd_short : string;
  cmd_help : string;
  cmd_page : Z;
  cmd_access : access;
  cmd_run : Handler;
  cmd_expand : string;
  cmd_oldForm : option OldForm
}.

Definition helpSections : list string :=
  [""; "chatting"; "you"; "whispers"; "people and rooms"; "moderation"; "ranks"; "running the hub"].

(** cmd_rooms.go. *)
Definition roomHelp : string := cat [
  "room operator commands, for the room you're in unless you name one. ";
  "/room kick [#room] <name>; /room ban|unban [#room] <name>; /room bans [#room]; ";
  "/room invite|uninvite [#room] <name>; /room invites [#room]; /room op|deop|voice|devoice [#room] <name>; ";
  "/room mode [#room] <+m|-m|+i|-i|+k key|-k|+t|-t|+n|-n|+p|-p|+o|-o|+v|-v name>; /room register|unregister [#room]"].

Definition legacy_usage (verb : string) : string :=
  if bool_decide (verb = "invite") then "[room] add|del|list [name|hashprefix|hash]"
  else if bool_decide (verb = "mode") then "[room] <flag> [arg]"
  else if bool_decide (verb = "register") || bool_decide (verb = "unregister") then "[room]"
  else "[room] <name|hashprefix|hash>".
Definition legacyRoomCommands : list command :=
  map (fun verb => mkCommand verb [] (legacy_usage verb) ""
         (cat ["rrcd's form of /room "; verb; ", kept for now: "; roomHelp]) 0 anyone HLegacyRoom "" None)
    ["invite"; "op"; "deop"; "voice"; "devoice"; "mode"; "register"; "unregister"].

Definition commandTable : list command :=
  [ mkCommand "help" [] "[page|command]"
      ""
      "commands a page at a time (/help 2), or one command explained (/help nick)"
      0 anyone HHelp "" None;
    mkCommand "join" [] "[#room|lxmf]"
      "join"
      "join a room, or the LXMF group. Rooms are joined from your RRC app; the group is joined by sending /join from your LXMF app. Over LXMF, /join Name also picks your name."
      1 anyone HJoin "" None;
    mkCommand "leave" [] "[#room|lxmf]"
      "leave"
      "leave the room you're in over RRC, or the LXMF group from LXMF or the page; /leave lxmf leaves the group from anywhere. Your name stays yours (see /forget)."
      1 anyone HLeave "" None;
    mkCommand "nick" [] "<name>"
      "take a name"
      "take a name, the same on RRC, the LXMF group and the page; your old name is freed"
      1 anyone HNick "" None;
    mkCommand "me" [] "<action>"
      "an action"
      "say an action: /me waves shows as * Name waves"
      1 anyone HMe "" None;
    mkCommand "who" ["names"] "[#room]"
      "who's here"
      "who is in a room, on RRC and in the LXMF group"
      1 anyone HWho "" None;
    mkCommand "list" [] ""
      "rooms"
      "the registered public rooms"
      1 anyone HList "" None;
    mkCommand "history" [] "[#room] [n]"
      "older messages"
      "the last n messages in a room (20 if you don't say)"
      1 anyone HHistory "" None;
    mkCommand "topic" [] "[#room] [text]"
      "the topic"
      "show a room's topic, or set it (room operators, in +t rooms). /topic #room text sets a topic that starts with a room's name."
      1 anyone HTopic "" None;
    mkCommand "whoami" [] ""
      "your name and settings"
      "your name, identity, where you're connected and your settings"
      2 anyone HWhoami "" None;
    mkCommand "lxmf" [] "on|off|auto|mine on|off"
      "LXMF delivery"
      "LXMF delivery: on (every message), off (none; you stay in the group), auto (paused while you're in the room over RRC). /lxmf mine on also sends you your own messages from RRC and the page."
      2 anyone HLXMF "" None;
    mkCommand "pause" [] ""
      ""
      "the same as /lxmf off"
      0 anyone HExpand "lxmf off" None;
    mkCommand "resume" [] ""
      ""
      "the same as /lxmf on"
      0 anyone HExpand "lxmf on" None;
    mkCommand "share" [] "on|off"
      "show your LXMF address"
      "show your LXMF address on your profile (on, the default) or hide it (off); it's always shown for mods and up"
      2 anyone HShare "" None;
    mkCommand "whispers" [] "[on|off|lxmf on|off]"
      "whisper settings"
      "whether people can whisper to you (on, the default), and whether whispers come to your LXMF app (on, even while group delivery is off)"
      3 anyone HWhispers "" None;
    mkCommand "ignore" [] "<name>"
      "block their whispers"
      "stop someone's whispers reaching you; they aren't told"
      3 anyone HIgnore "" None;
    mkCommand "unignore" [] "<name>"
      "undo /ignore"
      "let someone whisper to you again"
      3 anyone HUnignore "" None;
    mkCommand "ignored" [] ""
      "who you ignore"
      "the people you're ignoring"
      3 anyone HIgnored "" None;
    mkCommand "page" [] "[lines|flag|refresh …]"
      "chat page view"
      "how the chat page looks for you: /page lines 10|20|30|50|100, /page flag on|off (the banner), /page refresh off|10|30|60 (seconds)"
      2 anyone HPage "" None;
    mkCommand "forget" [] ""
      "free your name, leave all"
      "free your name for anyone and leave the LXMF group. Messages you've sent keep your name."
      2 anyone HForget "" None;
    mkCommand "whisper" ["w"; "msg"; "tell"] "<name> <text>"
      "only they see it"
      "say something only one person sees: on RRC, in their LXMF app and on the chat page, now or when they're next on. Also /w, /msg and /tell."
      3 anyone HWhisper "" None;
    mkCommand "r" [] "<text>"
      "reply to a whisper"
      "whisper back to whoever whispered to you last"
      3 anyone HReply "" None;
    mkCommand "profile" ["whois"] "[name]"
      "someone's profile"
      "a person's profile: their name, whether they're here, and their LXMF address if they share it"
      4 anyone HProfile "" None;
    mkCommand "link" [] "[code [confirm]|approve|deny <app>]"
      "link another app"
      "share your name with another app: /link here gives a code, /link CODE on the other app links it. People with a role approve with /link approve <app>."
      4 anyone HLink "" None;
    mkCommand "devices" [] "[name]"
      "your apps"
      "the apps sharing your name, or (mods and up) someone else's"
      4 anyone HDevices "" None;
    mkCommand "unlink" [] "[app]"
      "unlink an app"
      "take this app, or another of yours (by the start of its identity), out of your name"
      4 anyone HUnlink "" None;
    mkCommand "room" [] "<verb> [#room] …"
      "for room operators"
      roomHelp
      4 anyone HRoom "" None;
    mkCommand "kick" [] "<name> [reason]"
      "put out, name freed"
      "put someone out of every room and the group; their name is freed and their apps unlinked, and they can come back as a guest"
      5 mods HKick "" (Some OldKick);
    mkCommand "ban" [] "<name> [1h|1d|7d|perm] [reason]"
      "ban, name freed"
      "ban every app of someone from the hub, for a while (30m, 1h, 1d, 7d) or for good (perm, the default); their name is freed"
      5 mods HBan "" (Some OldBan);
    mkCommand "unban" [] "<name|hash>"
      "lift a ban"
      "lift a ban, by the name they had or their identity"
      5 mods HUnban "" None;
    mkCommand "bans" [] ""
      "who's banned"
      "current bans, with the reason, who banned them and until when"
      5 mods HBans "" None;
    mkCommand "rename" [] "<name> <new name>"
      "change a name"
      "change someone's name; the usual name rules apply"
      5 mods HRename "" None;
    mkCommand "delete" [] "<name> [n]"
      "remove messages"
      "remove someone's last n messages (1 if you don't say) in the room you're in, from history and the chat page. Anyone can remove their own; mods and up can remove others'. Copies already delivered stay in people's apps."
      2 anyone HDelete "" None;
    mkCommand "modlog" [] "[n]"
      "recent actions"
      "the last n moderation actions, newest first"
      5 mods HModlog "" None;
    mkCommand "mod" [] "<name>"
      "make a mod"
      "make someone a mod: they can kick, ban, rename and remove messages"
      6 admins HMod "" None;
    mkCommand "admin" [] "<name>"
      "make an admin"
      "make someone an admin: a mod who can also make mods and admins"
      6 admins HAdmin "" None;
    mkCommand "demote" [] "<name>"
      "take a role away"
      "take away someone's mod or admin role"
      6 admins HDemote "" None;
    mkCommand "kline" [] "add|del|list [name|hashprefix|hash]"
      ""
      "rrcd's form of /ban, /unban and /bans, kept for now"
      0 mods HKline "" None;
    mkCommand "release" [] "<name>"
      "free a name"
      "free a name someone holds"
      7 owners HRelease "" None;
    mkCommand "stats" [] ""
      "hub counters"
      "hub counters"
      7 owners HStats "" None ]
  ++ legacyRoomCommands.

Definition lookupCommand (name : string) : option command :=
  head (List.filter (fun c => bool_decide (cmd_name c = name) || bool_decide (name ∈ cmd_aliases c)) commandTable).

Section text.
Context {U : Unicode}.
(** [strings.Cut(t[1:], " ")]. *)
Definition IsCommand (text : string) : bool :=
  let t := trim_space text in
  if has_prefix t "/" then true
  else if has_prefix t "!" then
    bool_decide (is_Some (lookupCommand (to_lower (cut_before (str_drop 1 t) " "))))
  else false.

Fixpoint action_of (t : string) (prefixes : list string) : option string :=
  match prefixes with
  | [] => None
  | prefix :: prefixes' =>
    let n := String.length prefix in
    let action := trim_space (str_drop n t) in
    if (n <? String.length t)%nat && equal_fold (str_take n t) prefix && negb (bool_decide (action = ""))
    then Some action
    else action_of t prefixes'
  end.
Definition ActionText (text : string) : option string := action_of (trim_space text) ["/me "; "!me "].
End text.

(** ** Running a command *)

(** What a command changes as it runs: the request, its arguments (commands
    shift them) and the reply. *)
Record CState := mkCState { c_q : Req; c_args : list string; c_reply : Reply }.
Notation C := (ST CState).
(** What it does not change. *)
Class Cmd := { c_req : CommandRequest; c_def : command; c_me : Person }.

Definition hub {A} (m : H A) : C A := fun c =>
  let '(r, q) := m (c_q c) in (r, mkCState q (c_args c) (c_reply c)).
Definition get_args : C (list string) := gets c_args.
Definition set_args (l : list string) : C unit := modify (fun c => mkCState (c_q c) l (c_reply c)).
Definition get_reply : C Reply := gets c_reply.
Definition mod_reply (f : Reply -> Reply) : C unit :=
  modify (fun c => mkCState (c_q c) (c_args c) (f (c_reply c))).

Definition add_lines (ls : list string) (r : Reply) : Reply :=
  mkReply (Lines r ++ ls) (Reply_Error r) (Whole r) (Reply_History r) (HistoryNote r) (PartRoom r).
Definition set_error (r : Reply) : Reply :=
  mkReply (Lines r) true (Whole r) (Reply_History r) (HistoryNote r) (PartRoom r).
Definition say (text : string) : C unit := mod_reply (add_lines [text]).
Definition sayLines (text : string) : C unit := mod_reply (add_lines (split (chr 10) text)).
(** [c.fail], named [failc]: the reply says why and the command stops, but what
    it did before stands. *)
Definition failc (text : string) : C unit := mod_reply (fun r => add_lines [text] (set_error r)).

Section cmd.
Context {E : Env} {c : Cmd}.

Definition usage : C unit :=
  failc (trim_space (cat ["usage: /"; cmd_name c_def; " "; cmd_args c_def])).

Definition here : string :=
  if bool_decide (cr_Via c_req = ViaRRC /\ cr_Room c_req <> "") then cr_Room c_req else GroupRoom cfg.

Record target := mkTarget { t_room : string; t_lxmf : bool; t_given : bool }.
Definition target_here : target := mkTarget here false false.
(** [None]: the command has failed. *)
Definition takeTarget (bareRooms : bool) : C (option target) :=
  args <- get_args ;;
  match args with
  | [] => ret (Some target_here)
  | a :: rest =>
    if equal_fold a "lxmf" then
      set_args rest ;;; ret (Some (mkTarget (GroupRoom cfg) true true))
    else if has_prefix a "#" then
      r <- catch_user (hub (normRoom a)) ;;
      match r with
      | inl text => failc (cat ["bad room: "; text]) ;;; ret None
      | inr r => set_args rest ;;; ret (Some (mkTarget r false true))
      end
    else if bareRooms then
      match NormalizeRoom a (MaxRoomNameBytes cfg) with
      | inl _ => ret (Some target_here)
      | inr r =>
        exists_ <- hub (tx (tx_Room r)) ;;
        match exists_ with
        | Some _ => set_args rest ;;; ret (Some (mkTarget r false true))
        | None => ret (Some target_here)
        end
      end
    else ret (Some target_here)
  end.

(** ** cmd_rooms.go: naming someone *)
Definition isHex (s : string) : bool :=
  forallb (fun b => ascii_digit_p b || ((97 <=? b) && (b <=? 102))) (bytes s).
Definition isListOp (s : string) : bool :=
  let s := to_lower s in
  bool_decide (s = "add") || bool_decide (s = "del") || bool_decide (s = "list").

(** The identities whose hash starts with [prefix], each once, first come
    first. *)
Definition add_match (prefix : string) (acc : list ident) (id : ident) : list ident :=
  if has_prefix (hex_encode id) prefix && negb (bool_decide (id ∈ acc)) then acc ++ [id] else acc.
Definition hex_le (a b : ident) : bool := String.leb (hex_encode a) (hex_encode b).
Definition candidates : H (list ident) :=
  present <- mem (fun m => map pe_identity (concat (map (fun rm => (map_to_list rm.2).*2) (map_to_list (presence m))))) ;;
  group <- tx tx_Members ;;
  bans <- tx tx_Bans ;;
  ret (present ++ map SMember_Identity group ++ map Ban_Identity bans).
Definition resolve_prefix (token prefix : string) : H ident :=
  ids <- candidates ;;
  match fold_left (add_match prefix) ids [] with
  | [] => refuse (cat ["target '"; token; "' not found"])
  | [id] => ret id
  | ms =>
    lines <- collect (order_by hex_le ms) (fun m =>
      name <- catch (displayName m) ;;
      ret (cat ["  - "; str_take 16 (hex_encode m); " ";
                match name with Ok n => n | Fail _ => GuestName m end])) ;;
    refuse (strings_Join newline ([cat ["ambiguous: '"; token; "' matches "; itoa (Z.of_nat (length ms)); " identities:"]]
                          ++ lines ++ ["Use full or longer identity hash to disambiguate."]))
  end.
Definition resolve_short (token : string) : H ident :=
  let prefix := to_lower (trim_prefix token "0x") in
  let prefix := trim_prefix prefix "guest-" in
  if (len prefix <? 4) || negb (isHex prefix)
     || ((len prefix <? 6) && negb (has_prefix (to_lower token) "guest-"))
  then refuse (cat ["target '"; token; "' not found"])
  else resolve_prefix token prefix.
Definition resolve_name (token : string) : H ident :=
  match CleanName token with
  | inl _ => resolve_short token
  | inr (_, sk) =>
    n <- tx (tx_NameBySkeleton sk) ;;
    match n with
    | Some n => ret (Name_Identity n)
    | None => resolve_short token
    end
  end.
Definition resolve (token : string) : H ident :=
  let token := trim_space token in
  match hex_decode (trim_prefix token "0x") with
  | Some b => if len b =? IdentityLen then ret b else resolve_name token
  | None => resolve_name token
  end.
Definition resolveOrFail (token : string) : C (option ident) :=
  r <- catch_user (hub (resolve token)) ;;
  match r with
  | inl text => mod_reply set_error ;;; sayLines text ;;; ret None
  | inr id => ret (Some id)
  end.

(** moderation.go: [None] when the command has failed. *)
Definition targetPerson (token : string) (action : Action) : C (option Person) :=
  id <- resolveOrFail token ;;
  match id with
  | None => ret None
  | Some id =>
    p <- hub (person id) ;;
    match may c_me action (Some p) with
    | Some text => failc text ;;; ret None
    | None => ret (Some p)
    end
  end.
End cmd.

(** ** /help *)

(** [strings.ReplaceAll] for a separator that is not empty: left to right. *)
Fixpoint replace_all_fuel (fuel : nat) (old new s : string) : string :=
  match fuel with
  | O => s
  | S f =>
    match String.index 0 old s with
    | Some n => str_take n s +:+ new +:+ replace_all_fuel f old new (str_drop (n + String.length old) s)
    | None => s
    end
  end.
Definition replace_all (old new s : string) : string := replace_all_fuel (S (String.length s)) old new s.

Definition compactArgs (args : string) : string :=
  fold_left (fun s on => replace_all on.1 on.2 s)
    [("name|hashprefix|hash", "name");
     ("[code [confirm]|approve|deny <app>]", "[code]");
     ("[1h|1d|7d|perm] ", "[time] ");
     ("on|off|auto|mine on|off", "on|off|auto|mine");
     ("[lines|flag|refresh …]", "[lines|flag|refresh]");
     ("[on|off|lxmf on|off]", "[on|off|lxmf]");
     ("add|del|list [name]", "add|del|list")] args.

Record helpPage := mkHelpPage { hp_title : string; hp_lines : list string }.
Definition helpLine (def : command) : string :=
  cat ["/"; cmd_name def; if bool_decide (cmd_args def = "") then "" else " " +:+ compactArgs (cmd_args def);
       " — "; cmd_short def].

Definition details_line : string := "Details: /help <command> · ! works in place of /".
Definition renderHelpPage (pages : list helpPage) (n : Z) : list string :=
  let total := Z.of_nat (length pages) in
  match pages !! Z.to_nat (n - 1) with
  | Some page =>
    [cat ["Help "; itoa n; "/"; itoa total; " · "; hp_title page]] ++ hp_lines page ++
    [if n <? total then "More: /help " +:+ itoa (n + 1) else details_line]
  | None => []
  end.

Definition helpPageBytes (title : string) (lines : list string) (last : bool) : Z :=
  len "Help 10/10 · " + len title
  + fold_left (fun n l => n + 1 + len l) lines 0
  + 1 + (if last then len details_line else len "More: /help 10").

(** The loop over the table for one section: [cur] is the page being filled,
    once there is one; full pages go to [done]. *)
Fixpoint section_pages (title : string) (lines : list string) (cur : option helpPage) (done : list helpPage) : list helpPage :=
  match lines with
  | [] => match cur with Some p => done ++ [p] | None => done end
  | line :: lines' =>
    match cur with
    | Some p =>
      let trial := hp_lines p ++ [line] in
      if helpPageBytes (hp_title p) trial false <=? OnePacketText
      then section_pages title lines' (Some (mkHelpPage (hp_title p) trial)) done
      else section_pages title lines' (Some (mkHelpPage title [line])) (done ++ [p])
    | None => section_pages title lines' (Some (mkHelpPage title [line])) done
    end
  end.
Definition section_lines (rank : Rank) (section : Z) : list string :=
  map helpLine (List.filter (fun def => (cmd_page def =? section) && negb (rank_lt rank (access_rank (cmd_access def)))) commandTable).
(** The last page ends with the longer line: its last command moves to a new
    page while it does not fit. *)
Fixpoint fit_last (fuel : nat) (pages : list helpPage) : list helpPage :=
  match fuel with
  | O => pages
  | S f =>
    match last pages with
    | None => pages
    | Some p =>
      if (Z.of_nat (length (hp_lines p)) <? 2) || (helpPageBytes (hp_title p) (hp_lines p) true <=? OnePacketText)
      then pages
      else
        let moved := default "" (last (hp_lines p)) in
        fit_last f (removelast pages ++ [mkHelpPage (hp_title p) (removelast (hp_lines p)); mkHelpPage (hp_title p) [moved]])
    end
  end.
Definition help_pages (rank : Rank) : list helpPage :=
  let pages := concat (map (fun section =>
      section_pages (default "" (helpSections !! Z.to_nat section)) (section_lines rank section) None [])
    (seqZ 1 (Z.of_nat (length helpSections) - 1))) in
  fit_last (length commandTable) pages.

Section help.
Context {E : Env} {c : Cmd}.
Definition helpOne (name : string) : C unit :=
  let name := to_lower (trim_left name "/!") in
  match lookupCommand name with
  | None => failc (cat ["There's no /"; name; ". Send /help for the commands."])
  | Some def =>
    say (cat ["/"; cmd_name def; if bool_decide (cmd_args def = "") then "" else " " +:+ cmd_args def; " — "; cmd_help def])
  end.
Definition help_page (n : Z) : C unit :=
  let pages := help_pages (p_Rank c_me) in
  let total := Z.of_nat (length pages) in
  if (n <? 1) || (total <? n) then
    failc (cat ["There are "; itoa total; " help pages: /help 1 to /help "; itoa total; "."])
  else mod_reply (add_lines (renderHelpPage pages n)).
Definition cmdHelp : C unit :=
  args <- get_args ;;
  match args with
  | [] => help_page 1
  | [a] => match atoi a with Some n => help_page n | None => helpOne a end
  | _ => usage
  end.
End help.
