(* ===== verification/CmdPeople.v ===== *)
(** internal/hub/cmd_people.go: the commands about yourself. *)
From S2P Require Import Prelude Text Db StorePeople StoreRooms StoreMessages StoreGroup Names HubCore Clock Ranks.
From S2P Require Import People Rooms Post Commands.
Local Open Scope Z_scope.

Definition ParseLXMFMode `{Unicode} (s : string) : option LXMFMode :=
  let s := to_lower (trim_space s) in
  if bool_decide (s = "on") then Some LXMFOn
  else if bool_decide (s = "off") then Some LXMFOff
  else if bool_decide (s = "auto") then Some LXMFAuto
  else None.
Definition isOnOff (s : string) : bool := equal_fold s "on" || equal_fold s "off".
Definition on_off (b : bool) : string := if b then "on" else "off".

Section cmd_people.
Context {E : Env} {c : Cmd}.

Definition groupAddress : string :=
  if negb (bool_decide (GroupAddress cfg = "")) then GroupAddress cfg
  else cat ["the "; HubName cfg; " group"].
Definition lxmfJoinHowTo : C unit :=
  say (cat ["To get the chat by LXMF, send /join to "; groupAddress;
    " from your LXMF app (Sideband, MeshChatX, Columba). Joining needs your LXMF address, which the hub only learns from a message."]).

(** Over LXMF: join the group, optionally picking a name. *)
Definition join_lxmf (name : string) : C unit :=
  r <- catch_user (hub (joinGroup (cr_Identity c_req) name)) ;;
  match r with
  | inl text => failc text
  | inr (p, note) =>
    let was := p_Member c_me in
    (if was then say (cat ["You're already in the group, as "; p_Name p; "."])
     else
       say (cat ["Welcome to "; HubName cfg; ", "; p_Name p; ". Everyone in #"; GroupRoom cfg;
                 " on RRC and on the chat page sees what you send here."]) ;;;
       say "You'll get every message, your own from RRC and the page included. /lxmf auto pauses it while you're on RRC; /lxmf mine off stops your own.") ;;;
    (if negb (bool_decide (note = "")) then say note
     else if negb (p_Claimed p) then say "Pick a name with /nick YourName so people know who you are."
     else ret tt) ;;;
    (if negb was then say "/help lists the commands." else ret tt)
  end.

Definition cmdJoin : C unit :=
  t <- takeTarget true ;;
  match t with
  | None => ret tt
  | Some t =>
    args <- get_args ;;
    let group := GroupRoom cfg in
    match cr_Via c_req with
    | ViaRRC =>
      if t_lxmf t then lxmfJoinHowTo else
      let room := match args with
                  | [a] => if t_given t then t_room t else a
                  | _ => t_room t
                  end in
      say (cat ["Join rooms from your RRC app: in MeshChatX, type "; trim_prefix room "#";
                " in the room name box under the hub; in NomadNet, send /join "; trim_prefix room "#"; "."])
    | ViaPage =>
      if t_lxmf t || negb (t_given t) then lxmfJoinHowTo
      else if bool_decide (t_room t = group) then
        say (cat ["You're reading #"; group; " here already; post with Say."])
      else say (cat ["The chat page carries #"; group; " only. Other rooms are joined over RRC."])
    | _ =>
      if t_given t && negb (t_lxmf t) && negb (bool_decide (t_room t = group)) then
        failc (cat ["The LXMF group carries #"; group; " only. Other rooms are joined over RRC."])
      else match args with
      | [] => join_lxmf ""
      | [name] => join_lxmf name
      | _ => failc "A name can't contain spaces."
      end
    end
  end.

Definition set_part_room (room : string) : C unit :=
  mod_reply (fun r => mkReply (Lines r) (Reply_Error r) (Whole r) (Reply_History r) (HistoryNote r) room).
Definition cmdLeave : C unit :=
  t <- takeTarget false ;;
  match t with
  | None => ret tt
  | Some t =>
    args <- get_args ;;
    let group := GroupRoom cfg in
    if negb (bool_decide (args = [])) then usage else
    if bool_decide (cr_Via c_req = ViaRRC) && negb (t_lxmf t) then
      present <- hub (rrcPresent (t_room t) (cr_Identity c_req)) ;;
      if negb present then failc (cat ["You're not in #"; t_room t; "."]) else
      set_part_room (t_room t) ;;;
      say (cat ["You've left #"; t_room t; "."])
    else if t_given t && negb (t_lxmf t) && negb (bool_decide (t_room t = group)) then
      failc (cat ["The LXMF group carries #"; group; " only. Leave other rooms from your RRC app."])
    else
      left_ <- hub (leaveGroup (cr_Identity c_req)) ;;
      if negb left_ then failc "You're not in the LXMF group." else
      say (cat ["You've left the LXMF group; nothing more comes to you by LXMF. Your name stays yours (/forget frees it). To come back, send /join to ";
                groupAddress; " from your LXMF app."])
  end.

Definition cmdForget : C unit :=
  args <- get_args ;;
  if negb (bool_decide (args = [])) then usage else
  if negb (p_Claimed c_me) && negb (p_Member c_me) then
    say "You have no name and aren't in the group, so there's nothing to forget."
  else
    after <- hub (forget (cr_Identity c_req)) ;;
    let parts :=
      (if p_Claimed c_me then [cat [p_Name c_me; " is free again and you are shown as "; p_Name after]] else []) ++
      (if p_Member c_me then ["you have left the LXMF group"] else []) in
    say (cat ["Done: "; strings_Join ", and " parts; "."]).

Definition cmdNick : C unit :=
  args <- get_args ;;
  match args with
  | [] => usage
  | [want] =>
    r <- catch_user (hub (claimName (cr_Identity c_req) want)) ;;
    match r with
    | inl text => failc text
    | inr after =>
      if p_Claimed c_me && negb (bool_decide (p_Name c_me = p_Name after)) then
        say (cat ["You are now "; p_Name after; ". "; p_Name c_me; " is free for anyone."])
      else say (cat ["You are now "; p_Name after; ". The name is yours on RRC, the LXMF group and the page until you /forget it."])
    end
  | _ => failc "A name can't contain spaces."
  end.

Definition cmdMe : C unit :=
  args <- get_args ;;
  match args with
  | [] => usage
  | _ =>
    r <- catch_user (hub (post (mkPostRequest (cr_Via c_req) (cr_Identity c_req) here true (strings_Join " " args) None 0 None))) ;;
    match r with
    | inl text => failc (cat ["Not sent: "; text])
    | inr _ => ret tt
    end
  end.

Definition describeMode (p : Person) : C string :=
  match p_LXMFMode p with
  | LXMFOff => ret "off"
  | LXMFAuto =>
    on <- hub (personOnRRC (p_Identity p) (GroupRoom cfg) None) ;;
    ret (if (on : bool) then "auto, paused while you're on RRC" else "auto, on")
  | LXMFOn => ret "on"
  end.

Definition rrc_in (rooms : list string) : string := "RRC in #" +:+ strings_Join ", #" rooms.
Definition cmdWhoami : C unit :=
  let name := if p_Claimed c_me
              then cat [p_Name c_me; " (yours since "; fmt_day_month_year (london_seconds (p_ClaimedAt c_me)); ")"]
              else p_Name c_me +:+ " (no name claimed yet: /nick YourName)" in
  say (cat ["You are "; name; "."]) ;;;
  say (cat ["Identity "; hex_encode (p_Identity c_me); "."]) ;;;
  rooms <- hub (roomsOf (p_Identity c_me)) ;;
  let where_ := (if bool_decide (rooms = []) then [] else [rrc_in rooms]) ++
                (if p_Member c_me then ["the LXMF group"] else []) in
  (if bool_decide (where_ = []) then say "You're not in any room or the group right now."
   else say (cat ["Here via "; strings_Join " and " where_; "."])) ;;;
  (if p_Member c_me then
     mode <- describeMode c_me ;;
     say (cat ["LXMF delivery: "; mode; "; your own messages: "; on_off (p_LXMFMine c_me); "."])
   else ret tt) ;;;
  (if Linked c_me then
     say (cat [p_Name c_me; " shares your name with ";
               plural (Z.of_nat (length (p_Identities c_me)) - 1) "other app"; " (/devices)."])
   else ret tt) ;;;
  (if rank_lt RankMember (p_Rank c_me) then say (cat ["You are "; article (p_Rank c_me); " of this hub."]) else ret tt).

Definition notMemberYet (member : bool) : C unit :=
  if member then ret tt else
  say "Saved, but you're not in the LXMF group. Joining it turns delivery on, your own messages included; change it again after you /join if you like.".

Definition lxmf_mine (on : bool) : C unit :=
  hub (tx (tx_SetLXMFMine (cr_Identity c_req) on)) ;;;
  (if on then
     say "Your own messages from RRC and the chat page will now come to you by LXMF too, so your LXMF conversation shows everything you say. (Ones you send from your LXMF app aren't repeated; it already shows them.)"
   else say "Your own messages from RRC and the chat page won't be sent to you by LXMF any more.") ;;;
  notMemberYet (p_Member c_me).
Definition lxmf_mode (mode : LXMFMode) : C unit :=
  after <- hub (setLXMFMode (cr_Identity c_req) mode) ;;
  (match mode with
   | LXMFOff => say "LXMF delivery is off. You stay in the group; /lxmf on starts it again."
   | LXMFAuto =>
     d <- describeMode after ;;
     say (cat ["LXMF delivery is "; d; ": it pauses while you're in #"; GroupRoom cfg; " over RRC."])
   | LXMFOn => say "LXMF delivery is on."
   end) ;;;
  notMemberYet (p_Member after).
Definition cmdLXMF : C unit :=
  args <- get_args ;;
  match args with
  | [] =>
    d <- describeMode c_me ;;
    say (cat ["LXMF delivery is "; d; ", and your own messages from RRC and the page: "; on_off (p_LXMFMine c_me);
              ". Change it with /lxmf on, /lxmf off, /lxmf auto, or /lxmf mine on|off."])
  | [a] =>
    match ParseLXMFMode a with
    | Some mode => lxmf_mode mode
    | None => usage
    end
  | [a; b] =>
    if equal_fold a "mine" then
      (if isOnOff b then lxmf_mine (equal_fold b "on") else usage)
    else usage
  | _ => usage
  end.
End cmd_people.
