(* ===== verification/CmdRooms.v ===== *)
(** internal/hub/cmd_rooms.go: rooms, their members, topics, and the room
    operators' commands. *)
From S2P Require Import Prelude Text Db StorePeople StoreRooms StoreMessages StoreGroup Names HubCore Clock Ranks.
From S2P Require Import People Rooms Post Commands.
Local Open Scope Z_scope.

Section moderation.
Context {E : Env}.
(** moderation.go: every RRC link of an identity goes from a room. *)
Definition forgetPresence (room : string) (id : ident) : H unit :=
  e <- mem (fun m => present_in m room !! id) ;;
  match e with
  | None => ret tt
  | Some e =>
    emit (PartedEvent room id (pe_name e) ViaRRC) ;;;
    then_ (AForgetPresence room id)
  end.
End moderation.

Section cmd_rooms.
Context {E : Env} {c : Cmd}.

(** ** /who, /list, /history, /topic *)
Definition who_line (m : Member) : string :=
  cat [Member_Name m; " ("; str_take 12 (hex_encode (Member_Identity m)); ")"].
Definition who_members (room : string) : C unit :=
  ms <- hub (members_in room) ;;
  if bool_decide (ms = []) then say (cat ["members in "; room; ": (none)"]) else
  say (cat ["members in "; room; ": "; strings_Join ", " (map who_line ms)]) ;;;
  let rrc := map Member_Name (List.filter Member_RRC ms) in
  let lxmf := map Member_Name (List.filter Member_LXMF ms) in
  say (strings_Join " · "
    ((if bool_decide (rrc = []) then [] else ["on RRC: " +:+ strings_Join ", " rrc]) ++
     (if bool_decide (lxmf = []) then [] else ["in the LXMF group: " +:+ strings_Join ", " lxmf]))).
Definition cmdWho : C unit :=
  t <- takeTarget true ;;
  match t with
  | None => ret tt
  | Some t =>
    args <- get_args ;;
    if negb (bool_decide (args = [])) then usage else
    let room := t_room t in
    r <- hub (tx (tx_Room room)) ;;
    match r with
    | Some r =>
      ok <- hub (mayReadRoom r (cr_Identity c_req)) ;;
      if negb ok then failc (cat ["room "; room; " is private"]) else who_members room
    | None => who_members room
    end
  end.

Definition list_line (r : Room) : string :=
  if bool_decide (Room_Topic r = "") then "  " +:+ Room_Name r
  else cat ["  "; Room_Name r; " - "; Room_Topic r].
Definition cmdList : C unit :=
  args <- get_args ;;
  if negb (bool_decide (args = [])) then usage else
  rooms <- hub (tx tx_Rooms) ;;
  let lines := map list_line (List.filter (fun r => Room_Registered r && negb (HasMode r "p")) rooms) in
  if bool_decide (lines = []) then say "No public rooms registered" else
  mod_reply (fun r => mkReply (Lines r) (Reply_Error r) true (Reply_History r) (HistoryNote r) (PartRoom r)) ;;;
  sayLines (cat ["Registered public rooms:"; newline; strings_Join newline lines]).

Definition show_history (room : string) (n : Z) : C unit :=
  r <- catch_user (hub (history (cr_Identity c_req) room n 0)) ;;
  match r with
  | inl text => failc text
  | inr [] => say (cat ["No messages in #"; room; " yet."])
  | inr msgs =>
    mod_reply (fun r => mkReply (Lines r) (Reply_Error r) (Whole r) msgs
      (cat ["— the last "; plural (Z.of_nat (length msgs)) "message"; " in #"; room; " —"]) (PartRoom r))
  end.
Definition cmdHistory : C unit :=
  t <- takeTarget true ;;
  match t with
  | None => ret tt
  | Some t =>
    args <- get_args ;;
    match args with
    | [] => show_history (t_room t) 20
    | [a] =>
      match atoi a with
      | Some v => if v <=? 0 then usage else show_history (t_room t) v
      | None => usage
      end
    | _ => usage
    end
  end.

Definition with_topic (topic : string) (r : Room) : Room :=
  mkRoom (Room_Name r) topic (Room_Founder r) (Room_Registered r) (Room_Modes r) (Room_Key r) (Room_CreatedAt r) (Room_LastUsed r).
Definition set_topic (room : string) (r : Room) (topic : string) : C unit :=
  if MaxTopicBytes cfg <? len topic then
    failc (cat ["topic too long: "; itoa (len topic); " bytes > "; itoa (MaxTopicBytes cfg); " bytes"])
  else
    hub (tx (tx_PutRoom (with_topic topic r))) ;;;
    let text := cat ["topic for "; room; " is now: "; topic] in
    hub (emit (RoomNoticeEvent room text)) ;;;
    say text.
Definition cmdTopic : C unit :=
  t <- takeTarget true ;;
  match t with
  | None => ret tt
  | Some t =>
    let room := t_room t in
    r <- hub (tx (tx_Room room)) ;;
    args <- get_args ;;
    match args, r with
    | [], _ =>
      let topic := match r with Some r => Room_Topic r | None => "" end in
      say (cat ["topic for "; room; ": "; if bool_decide (topic = "") then "(none)" else topic])
    | _, None => failc "no such room"
    | _, Some r =>
      hub (checkRoomBan room (cr_Identity c_req)) ;;;
      op <- (if HasMode r "t" then hub (isRoomOp r (cr_Identity c_req)) else ret true) ;;
      if negb op then failc "not authorized (+t)" else set_topic room r (strings_Join " " args)
    end
  end.

(** ** The room operators' commands *)
Definition room_usage_of (verb : string) : option string :=
  if bool_decide (verb ∈ ["kick"; "ban"; "unban"; "invite"; "uninvite"; "op"; "deop"; "voice"; "devoice"])
  then Some "<name|hashprefix|hash>"
  else if bool_decide (verb ∈ ["bans"; "invites"; "register"; "unregister"]) then Some ""
  else if bool_decide (verb = "mode") then Some "<flag> [arg]"
  else None.
Definition roomUsageFail (verb : string) : C unit :=
  let a := default "" (room_usage_of verb) in
  failc (cat ["usage: /room "; verb; " [#room]"; if bool_decide (a = "") then "" else " " +:+ a]).

(** The room exists and the sender is its operator, or the command has failed. *)
Definition opRoom (room : string) : C (option Room) :=
  r <- hub (tx (tx_Room room)) ;;
  match r with
  | None => failc "no such room" ;;; ret None
  | Some r =>
    op <- hub (isRoomOp r (cr_Identity c_req)) ;;
    if negb op then failc "not authorized" ;;; ret None else ret (Some r)
  end.

(** The command's one argument, resolved, or the command has failed. *)
Definition with_one_arg (verb : string) (k : string -> C unit) : C unit :=
  args <- get_args ;;
  match args with
  | [a] => k a
  | _ => roomUsageFail verb
  end.
Definition with_op (room : string) (k : Room -> C unit) : C unit :=
  r <- opRoom room ;;
  match r with None => ret tt | Some r => k r end.
Definition with_target (token : string) (k : ident -> C unit) : C unit :=
  id <- resolveOrFail token ;;
  match id with None => ret tt | Some id => k id end.

Definition roomKick (verb room : string) : C unit :=
  with_one_arg verb (fun a => with_op room (fun r => with_target a (fun target =>
    hub (mayActOnRoomTarget c_me target) ;;;
    name <- hub (displayName target) ;;
    inRoom <- hub (rrcPresent (Room_Name r) target) ;;
    member <- (if bool_decide (Room_Name r = GroupRoom cfg) then
                 member <- hub (tx (tx_RemoveMember target)) ;;
                 (if (member : bool) then hub (emit (GroupEvent target name false)) else ret tt) ;;;
                 ret member
               else ret false) ;;
    if negb inRoom && negb member then failc "target not in room" else
    (if (inRoom : bool) then
       hub (emit (RemovedEvent (Room_Name r) target ("kicked from " +:+ Room_Name r))) ;;;
       hub (forgetPresence (Room_Name r) target)
     else ret tt) ;;;
    hub (tx (tx_Audit nowMS (Some (cr_Identity c_req)) "kick" name (Room_Name r))) ;;;
    say (cat ["kicked "; a; " from "; Room_Name r])))).

Definition list_bans (room : string) : C unit :=
  bans <- hub (tx (tx_RoleHolders room RoleBan)) ;;
  if bool_decide (bans = []) then say (cat ["no bans in "; room]) else
  parts <- collect bans (fun b =>
    name <- catch (hub (displayName b)) ;;
    ret (cat [match name with Ok n => n | Fail _ => GuestName b end; " ("; hex_encode b; ")"])) ;;
  say (cat ["bans in "; room; ": "; strings_Join ", " parts]).
Definition add_room_ban (room : string) (target : ident) (name : string) : H unit :=
  tx (tx_TouchIdentity target None nowMS) ;;;
  tx (tx_SetRole room target RoleBan true (Some (cr_Identity c_req)) nowMS) ;;;
  inRoom <- rrcPresent room target ;;
  (if (inRoom : bool) then
     emit (RemovedEvent room target ("banned from " +:+ room)) ;;;
     forgetPresence room target
   else ret tt) ;;;
  (if bool_decide (room = GroupRoom cfg) then
     removed <- tx (tx_RemoveMember target) ;;
     if (removed : bool) then emit (GroupEvent target name false) else ret tt
   else ret tt) ;;;
  tx (tx_Audit nowMS (Some (cr_Identity c_req)) "ban" name room).
Definition roomBan (verb room : string) : C unit :=
  r <- hub (tx (tx_Room room)) ;;
  match r with
  | None => failc "no such room"
  | Some r =>
    if bool_decide (verb = "bans") then
      args <- get_args ;;
      if negb (bool_decide (args = [])) then roomUsageFail verb else list_bans room
    else with_one_arg verb (fun a =>
      isOp <- hub (isRoomOp r (cr_Identity c_req)) ;;
      if negb isOp then failc "not authorized" else
      with_target a (fun target =>
        name <- hub (displayName target) ;;
        if bool_decide (verb = "unban") then
          hub (tx (tx_SetRole room target RoleBan false None nowMS)) ;;;
          hub (tx (tx_Audit nowMS (Some (cr_Identity c_req)) "unban" name room)) ;;;
          say (cat ["ban removed in "; room])
        else
          hub (mayActOnRoomTarget c_me target) ;;;
          hub (add_room_ban room target name) ;;;
          say (cat ["ban added in "; room])))
  end.

Definition list_invites (r : Room) : C unit :=
  inv <- hub (tx (tx_Invites (Room_Name r) nowMS)) ;;
  if bool_decide (map Invite_Identity inv = []) then say (cat ["invites in "; Room_Name r; ": (none)"]) else
  say (cat ["invites in "; Room_Name r; ": ";
            strings_Join ", " (map (fun i => cat [hex_encode (Invite_Identity i); " expires_in=";
                                    itoa (Z.quot (Invite_ExpiresAt i - nowMS) 1000); "s"]) inv)]).
Definition invite (r : Room) (a : string) (target : ident) : C unit :=
  hub (tx (tx_TouchIdentity target None nowMS)) ;;;
  let text := cat ["You have been invited to join "; Room_Name r; ".";
                   if bool_decide (Room_Key r = "") then "" else " This invite allows joining without the key (+k)."] in
  hub (emit (NoticeEvent target (Room_Name r) text false)) ;;;
  if HasMode r "i" || negb (bool_decide (Room_Key r = "")) then
    hub (tx (tx_SetInvite (Room_Name r) target (nowMS + InviteTTL cfg / Millisecond))) ;;;
    say (cat ["invite added in "; Room_Name r; " (expires in "; itoa (InviteTTL cfg / Second); "s)"])
  else say (cat ["invite sent to "; a; " for "; Room_Name r]).
Definition roomInvite (verb room : string) : C unit :=
  args <- get_args ;;
  match bool_decide (verb = "invites"), args with
  | true, [] => with_op room list_invites
  | false, [a] => with_op room (fun r => with_target a (fun target =>
      if bool_decide (verb = "uninvite") then
        hub (tx (tx_DeleteInvite (Room_Name r) target)) ;;;
        say (cat ["invite removed in "; Room_Name r])
      else invite r a target))
  | _, _ => roomUsageFail verb
  end.

Definition setRole (r : Room) (verb : string) (target : ident) : C unit :=
  let role := if bool_decide (verb ∈ ["voice"; "devoice"]) then RoleVoice else RoleOp in
  let on := negb (bool_decide (verb ∈ ["deop"; "devoice"])) in
  let msg := if bool_decide (verb = "deop") then "op removed in "
             else if bool_decide (verb = "voice") then "voice granted in "
             else if bool_decide (verb = "devoice") then "voice removed in "
             else "op granted in " in
  let deop := bool_decide (verb = "deop") in
  if deop && bool_decide (Room_Founder r = Some target) && negb (bool_decide (p_Rank c_me = RankOwner))
  then failc "cannot deop founder" else
  (if deop then hub (mayActOnRoomTarget c_me target) else ret tt) ;;;
  hub (tx (tx_TouchIdentity target None nowMS)) ;;;
  hub (tx (tx_SetRole (Room_Name r) target role on (Some (cr_Identity c_req)) nowMS)) ;;;
  say (msg +:+ Room_Name r).
Definition roomRole (verb room : string) : C unit :=
  with_one_arg verb (fun a => with_op room (fun r => with_target a (setRole r verb))).

Definition mode_letter_on (r : Room) (m : ascii) : bool :=
  if bool_decide (m = "k"%char) then negb (bool_decide (Room_Key r = ""))
  else if bool_decide (m = "r"%char) then Room_Registered r
  else HasMode r m.
Definition modeString (r : Room) : string :=
  let s := cat (map (fun m => if mode_letter_on r m then String m "" else "")
                 ["i"; "k"; "m"; "n"; "p"; "r"; "t"]%char) in
  if bool_decide (s = "") then "(none)" else "+" +:+ s.
Definition with_key (key : string) (r : Room) : Room :=
  mkRoom (Room_Name r) (Room_Topic r) (Room_Founder r) (Room_Registered r) (Room_Modes r) key (Room_CreatedAt r) (Room_LastUsed r).
Definition put_mode (r : Room) : C unit :=
  hub (tx (tx_PutRoom r)) ;;;
  let text := cat ["mode for "; Room_Name r; " is now: "; modeString r] in
  hub (emit (RoomNoticeEvent (Room_Name r) text)) ;;;
  say text.
Definition mode_role_verb (flag : string) : string :=
  if bool_decide (flag = "+o") then "op" else if bool_decide (flag = "-o") then "deop"
  else if bool_decide (flag = "+v") then "voice" else "devoice".
Definition mode_role (r : Room) (flag : string) (rest : list string) : C unit :=
  match rest with
  | [a] => with_target a (fun target =>
      before <- get_reply ;;
      setRole r (mode_role_verb flag) target ;;;
      now_ <- get_reply ;;
      if Reply_Error now_ then ret tt else
      mod_reply (fun rp => mkReply (take (length (Lines before)) (Lines rp)) (Reply_Error rp) (Whole rp)
                             (Reply_History rp) (HistoryNote rp) (PartRoom rp)) ;;;
      let text := cat ["mode for "; Room_Name r; " is now: "; flag; " "; str_take 12 (hex_encode target)] in
      hub (emit (RoomNoticeEvent (Room_Name r) text)) ;;;
      say text)
  | _ => failc "usage: /room mode [#room] (+o|-o|+v|-v) <name|hashprefix|hash>"
  end.
(** The flags that are a letter of the room's modes: the letter and whether
    it is set. *)
Definition letter_flag (flag : string) : option (ascii * bool) :=
  match flag with
  | String s (String m EmptyString) =>
    if bool_decide (m ∈ ["m"; "i"; "t"; "n"; "p"]%char) then
      if bool_decide (s = "+"%char) then Some (m, true)
      else if bool_decide (s = "-"%char) then Some (m, false)
      else None
    else None
  | _ => None
  end.
Definition roomMode (room : string) : C unit :=
  args <- get_args ;;
  match args with
  | [] => failc "usage: /room mode [#room] (+m|-m|+i|-i|+k <key>|-k|+t|-t|+n|-n|+p|-p|+o|-o|+v|-v <name>)"
  | a :: rest => with_op room (fun r =>
      let flag := to_lower a in
      match letter_flag flag with
      | Some (m, on) => put_mode (SetMode r m on)
      | None =>
        if bool_decide (flag = "+k") then
          match rest with
          | [] => failc "usage: /room mode [#room] +k <key>"
          | _ => put_mode (with_key (strings_Join " " rest) r)
          end
        else if bool_decide (flag = "-k") then put_mode (with_key "" r)
        else if bool_decide (flag ∈ ["+r"; "-r"]) then failc "use /room register or /room unregister to change +r"
        else if bool_decide (flag ∈ ["+o"; "-o"; "+v"; "-v"]) then mode_role r flag rest
        else failc "supported modes: +m -m +i -i +k -k +t -t +n -n +p -p +r -r +o -o +v -v"
      end)
  end.

Definition with_registered (b : bool) (r : Room) : Room :=
  mkRoom (Room_Name r) (Room_Topic r) (Room_Founder r) b (Room_Modes r) (Room_Key r) (Room_CreatedAt r) (Room_LastUsed r).
Definition register_room (room : string) (r : Room) : C unit :=
  hub (tx (tx_SetRole room (cr_Identity c_req) RoleOp true (Room_Founder r) nowMS)) ;;;
  hub (tx (tx_PutRoom (SetMode (SetMode (with_registered true r) "n" true) "t" true))) ;;;
  say (cat ["registered room "; room]).
Definition unregister_room (room : string) (r : Room) : C unit :=
  if isDefaultRoom cfg room then failc (cat ["room "; room; " is one of the hub's own rooms and stays registered"])
  else if negb (Room_Registered r) then failc (cat ["room "; room; " is not registered"])
  else
    hub (tx (tx_PutRoom (with_registered false r))) ;;;
    say (cat ["unregistered room "; room]).
Definition roomRegister (verb room : string) : C unit :=
  args <- get_args ;;
  if negb (bool_decide (args = [])) then roomUsageFail verb else
  present <- hub (rrcPresent room (cr_Identity c_req)) ;;
  if negb (bool_decide (cr_Room c_req = room)) || negb present then
    failc (cat ["must be present in the room to "; verb; " it"])
  else
    r <- hub (tx (tx_Room room)) ;;
    match r with
    | None => ret tt
    | Some r =>
      if negb (bool_decide (Room_Founder r = Some (cr_Identity c_req))) then
        failc (cat ["only the room founder can "; verb])
      else if bool_decide (verb = "register") then register_room room r
      else unregister_room room r
    end.

Definition roomVerb (verb room : string) : C unit :=
  if bool_decide (verb = "kick") then roomKick verb room
  else if bool_decide (verb ∈ ["ban"; "unban"; "bans"]) then roomBan verb room
  else if bool_decide (verb ∈ ["invite"; "uninvite"; "invites"]) then roomInvite verb room
  else if bool_decide (verb ∈ ["op"; "deop"; "voice"; "devoice"]) then roomRole verb room
  else if bool_decide (verb = "mode") then roomMode room
  else roomRegister verb room.

Definition cmdRoom : C unit :=
  args <- get_args ;;
  match args with
  | [] => usage
  | a :: rest =>
    let verb := to_lower a in
    set_args rest ;;;
    match room_usage_of verb with
    | None => failc (cat ["There's no /room "; verb; ". The verbs are kick, ban, unban, bans, invite, uninvite, invites, op, deop, voice, devoice, mode, register and unregister."])
    | Some _ =>
      t <- takeTarget false ;;
      match t with
      | None => ret tt
      | Some t => if t_lxmf t then roomUsageFail verb else roomVerb verb (t_room t)
      end
    end
  end.

(** ** rrcd's forms *)

(** Where the room and the verb of rrcd's form are: the room (empty for
    here), the verb of the /room form and its arguments, or [None] for the
    usage. *)
Definition list_verb (verb op : string) : option string :=
  if bool_decide (verb = "ban") then
    if bool_decide (op = "add") then Some "ban" else if bool_decide (op = "del") then Some "unban"
    else if bool_decide (op = "list") then Some "bans" else None
  else
    if bool_decide (op = "add") then Some "invite" else if bool_decide (op = "del") then Some "uninvite"
    else if bool_decide (op = "list") then Some "invites" else None.
Definition legacy_form (verb : string) (args : list string) : option (string * string * list string) :=
  if bool_decide (verb ∈ ["kick"; "op"; "deop"; "voice"; "devoice"]) then
    match args with
    | [room; a] => Some (room, verb, [a])
    | _ => Some ("", verb, args)
    end
  else if bool_decide (verb ∈ ["ban"; "invite"]) then
    let '(room, args) := match args with
                         | a :: rest => if isListOp a then ("", args) else (a, rest)
                         | [] => ("", [])
                         end in
    match args with
    | [] => None
    | op :: rest => v ← list_verb verb (to_lower op); Some (room, v, rest)
    end
  else if bool_decide (verb = "mode") then
    match args with
    | a :: rest => if has_prefix a "+" || has_prefix a "-" then Some ("", verb, args) else Some (a, verb, rest)
    | [] => Some ("", verb, [])
    end
  else match args with
  | [room] => Some (room, verb, [])
  | _ => Some ("", verb, args)
  end.
Definition legacyRoom (verb : string) : C unit :=
  args <- get_args ;;
  match legacy_form verb args with
  | None => failc (cat ["usage: /"; verb; " "; cmd_args c_def])
  | Some (room, verb, args) =>
    r <- (if bool_decide (room = "") then ret (inr here) else catch_user (hub (normRoom room))) ;;
    match r with
    | inl text => failc (cat ["bad room: "; text])
    | inr room =>
      set_args args ;;;
      roomVerb verb room ;;;
      reply <- get_reply ;;
      if Reply_Error reply then ret tt else
      say (cat ["(next time: /room "; verb; " #"; room; trim_right (" " +:+ strings_Join " " args) " "; ")"])
    end
  end.
End cmd_rooms.
