(* ===== verification/Moderation.v ===== *)
(** internal/hub/moderation.go: hub-wide kicks, bans, renames, ranks, the mod
    log and removing messages. *)
From S2P Require Import Prelude Text Db StorePeople StoreRooms StoreMessages StoreGroup Names HubCore Clock Ranks.
From S2P Require Import People Rooms Post Commands CmdRooms.
Local Open Scope Z_scope.

Section moderation.
Context {E : Env}.

(** One app of the person, out of the group and of every room. *)
Definition remove_app (name why : string) (banned : bool) (id : ident) : H unit :=
  wasMember <- tx (tx_RemoveMember id) ;;
  (if (wasMember : bool) then emit (GroupEvent id name false) else ret tt) ;;;
  rooms <- roomsOf id ;;
  foreach rooms (fun room =>
    (if banned then ret tt else emit (RemovedEvent room id why)) ;;;
    forgetPresence room id) ;;;
  emit (NoticeEvent id "" why wasMember) ;;;
  if banned then emit (BannedEvent id why) else ret tt.

Definition removeEverywhere (target : Person) (why : string) (banned : bool) : H unit :=
  foreach (p_Identities target) (remove_app (p_Name target) why banned) ;;;
  unlinkAll (p_Identity target) ;;;
  (if p_Claimed target then
     tx (tx_ReleaseName (p_Identity target)) ;;;
     let guest := GuestName (p_Identity target) in
     emit (NameEvent (p_Identity target) (p_Name target) guest) ;;;
     then_ (ARename (p_Identity target) guest)
   else ret tt) ;;;
  match p_PersonRank target with
  | RankMod | RankAdmin => tx (tx_SetRank (p_Identity target) SRankMember None nowMS)
  | _ => ret tt
  end.

(** liftExpiredBans: the names already in the log are not logged again. *)
Definition ban_title (b : Ban) : string :=
  if bool_decide (Ban_Name b = "") then str_take 8 (hex_encode (Ban_Identity b)) else Ban_Name b.
Fixpoint lift_bans (now : Z) (lifted : list string) (bs : list Ban) : Tx unit :=
  match bs with
  | [] => ret tt
  | b :: bs' =>
    tx_RemoveBan (Ban_Identity b) ;;;
    let name := ban_title b in
    if bool_decide (name ∈ lifted) then lift_bans now lifted bs' else
    tx_Audit now None "unban" name "the ban ran out" ;;;
    lift_bans now (name :: lifted) bs'
  end.
Definition liftExpiredBans (now : Z) : Tx unit :=
  expired <- tx_ExpiredBans now ;;
  lift_bans now [] expired.

(** deleteMessages: the lines of its reply. *)
Definition deleteMessages (actor target : Person) (msgs : list Message) : H (list string) :=
  cancelled <- tx (tx_DeleteMessages (map Message_ID msgs)) ;;
  match msgs, last msgs with
  | m :: _, Some newest =>
    let room := Message_Room m in
    let n := Z.of_nat (length msgs) in
    let what := if 1 <? n then itoa n +:+ " messages" else "message" in
    emit (RoomNoticeEvent room
      (if p_PersonID actor =? p_PersonID target
       then cat [p_Name target; " removed their last "; what; "."]
       else cat [p_Name target; "'s last "; what; " removed by "; p_Name actor; "."])) ;;;
    let excerpt := if 60 <? len (Message_Body newest)
                   then to_valid_utf8 (str_take 60 (Message_Body newest)) +:+ "…" else Message_Body newest in
    tx (tx_Audit nowMS (Some (p_Identity actor)) "delete" (p_Name target)
          (cat [what; " in #"; room; ": "; quote excerpt])) ;;;
    ret ([cat ["Removed "; p_Name target; "'s last "; what; " in #"; room;
               " from history and the chat page. Copies already delivered stay in people's apps."]] ++
         (if 0 <? cancelled then [plural cancelled "copy" +:+ " by LXMF not sent yet won't be."] else []))
  | _, _ => ret []
  end.

Definition delete_message_by (actor : ident) (messageID : Z) : H Reply :=
  checkHubBan actor ;;;
  me <- person actor ;;
  m <- tx (tx_Message messageID) ;;
  match m with
  | None => refuse "That message is already gone."
  | Some m =>
    target <- person (Message_Author m) ;;
    match may me ActDelete (Some target) with
    | Some text => refuse text
    | None =>
      lines <- deleteMessages me target [m] ;;
      ret (add_lines lines empty_reply)
    end
  end.
(** A refusal becomes the reply. *)
Definition reply_of (r : res Reply) : res Reply :=
  match r with
  | Fail (UserError text) => Ok (mkReply [text] true false [] "" "")
  | r => r
  end.
Definition DeleteMessage (actor : ident) (messageID : Z) (h : Hub) : res Reply * Hub :=
  let '(r, h') := update (delete_message_by actor messageID) h in (reply_of r, h').
End moderation.

Section commands.
Context {E : Env} {c : Cmd}.

Definition with_person (token : string) (action : Action) (k : Person -> C unit) : C unit :=
  t <- targetPerson token action ;;
  match t with None => ret tt | Some t => k t end.
Definition audit_me (action target detail : string) : C unit :=
  hub (tx (tx_Audit nowMS (Some (cr_Identity c_req)) action target detail)).
Definition with_reason (why reason : string) : string :=
  if bool_decide (reason = "") then why else cat [why; ": "; reason].

Definition cmdKick : C unit :=
  args <- get_args ;;
  match args with
  | [] => usage
  | tok :: rest => with_person tok ActKick (fun target =>
      let reason := strings_Join " " rest in
      let why := with_reason (cat ["You were kicked from "; HubName cfg; " by "; p_Name c_me]) reason in
      hub (removeEverywhere target (why +:+ ". Your name is free again; you can come back as a guest.") false) ;;;
      audit_me "kick" (p_Name target) reason ;;;
      say (cat ["Kicked "; p_Name target; ". Their name is free."]))
  end.

Definition isLegacyRoomKick : C bool :=
  args <- get_args ;;
  match args with
  | [a; b] =>
    if has_prefix a "#" then ret true else
    match NormalizeRoom a (MaxRoomNameBytes cfg) with
    | inl _ => ret false
    | inr room =>
      r <- catch (hub (tx (tx_Room room))) ;;
      match r with
      | Ok (Some _) =>
        id <- catch (hub (resolve b)) ;;
        ret (is_ok id)
      | _ => ret false
      end
    end
  | _ => ret false
  end.

(** [banLength]: one to four digits and a unit. *)
Definition all_digits (s : string) : bool := forallb ascii_digit_p (bytes s).
Definition ban_unit (s : string) : option Z :=
  if bool_decide (s = "m") then Some Minute else if bool_decide (s = "h") then Some Hour
  else if bool_decide (s = "d") then Some (24 * Hour) else None.
Definition parseBanLength (s : string) : option Z :=
  if equal_fold s "perm" then Some 0 else
  let s := to_lower s in
  let n := (String.length s - 1)%nat in
  let digits := str_take n s in
  if (1 <=? len digits) && (len digits <=? 4) && all_digits digits then
    match atoi digits, ban_unit (str_drop n s) with
    | Some v, Some unit_ => if v =? 0 then None else Some (v * unit_)
    | _, _ => None
    end
  else None.

Definition isLegacyRoomBan (args : list string) : bool :=
  match args with
  | [] => false
  | [a] => isListOp a
  | a :: b :: _ => isListOp a || isListOp b
  end.

Definition ban_person (target : Person) (length_ : Z) (reason : string) : C unit :=
  let expires := if 0 <? length_ then nowMS + length_ / Millisecond else 0 in
  let until := if 0 <? length_ then "until " +:+ clock expires else "for good" in
  let why := with_reason (cat ["You were banned from "; HubName cfg; " by "; p_Name c_me; ", "; until]) reason +:+ "." in
  hub (foreach (p_Identities target) (fun id =>
    tx (tx_AddBan (mkBan id (p_Name target) reason (Some (cr_Identity c_req)) nowMS expires)))) ;;;
  hub (removeEverywhere target why true) ;;;
  audit_me "ban" (p_Name target) (with_reason until reason) ;;;
  say (cat ["Banned "; p_Name target; " ("; plural (Z.of_nat (length (p_Identities target))) "app"; "), "; until;
            ". Their name is free."]).
Definition cmdBan : C unit :=
  args <- get_args ;;
  match args with
  | [] => usage
  | tok :: rest => with_person tok ActBan (fun target =>
      match rest with
      | r0 :: rest' =>
        match parseBanLength r0 with
        | Some d => ban_person target d (strings_Join " " rest')
        | None => ban_person target 0 (strings_Join " " rest)
        end
      | [] => ban_person target 0 ""
      end)
  end.

(** The bans a name or an identity picks. *)
Definition bans_named (token : string) (bs : list Ban) : list Ban :=
  match CleanName token with
  | inl _ => []
  | inr (_, sk) =>
    List.filter (fun b => match CleanName (Ban_Name b) with
                          | inl _ => false
                          | inr (_, bsk) => negb (bool_decide (Ban_Name b = "")) && bool_decide (bsk = sk)
                          end) bs
  end.
Definition unban_all (token : string) (lift : list Ban) : C unit :=
  match lift with
  | [] => failc (cat [token; " isn't banned."])
  | b :: _ =>
    foreach lift (fun b => hub (tx (tx_RemoveBan (Ban_Identity b))) ;;; ret tt) ;;;
    let name := ban_title b in
    audit_me "unban" name "" ;;;
    say (cat ["Unbanned "; name; " ("; plural (Z.of_nat (length lift)) "app"; ")."])
  end.
Definition cmdUnban : C unit :=
  args <- get_args ;;
  match args with
  | [token] =>
    match may c_me ActUnban None with
    | Some text => failc text
    | None =>
      bs <- hub (tx tx_Bans) ;;
      match bans_named token bs with
      | [] => with_target token (fun id =>
          unban_all token (List.filter (fun b => bool_decide (Ban_Identity b = id)) bs))
      | lift => unban_all token lift
      end
    end
  | _ => usage
  end.

(** One line per ban, however many apps it covers. *)
Definition ban_key (b : Ban) : string :=
  if bool_decide (Ban_Name b = "") then hex_encode (Ban_Identity b)
  else cat [Ban_Name b; "|"; itoa (Ban_BannedAt b); "|"; hex_encode (default "" (Ban_BannedBy b))].
Fixpoint add_group_ban (b : Ban) (gs : list (Ban * Z)) : list (Ban * Z) :=
  match gs with
  | [] => [(b, 1)]
  | g :: gs' => if bool_decide (ban_key g.1 = ban_key b) then (g.1, g.2 + 1) :: gs' else g :: add_group_ban b gs'
  end.
Definition ban_line (g : Ban * Z) : H string :=
  let b := g.1 in
  by_ <- (match Ban_BannedBy b with Some id => displayName id | None => ret "the hub" end) ;;
  ret (cat ["  "; ban_title b; " ("; plural g.2 "app"; ")";
            if bool_decide (Ban_Reason b = "") then "" else " — " +:+ Ban_Reason b;
            " — by "; by_; ", "; clock (Ban_BannedAt b);
            if Ban_ExpiresAt b =? 0 then "" else ", until " +:+ clock (Ban_ExpiresAt b)]).
Definition cmdBans : C unit :=
  args <- get_args ;;
  if negb (bool_decide (args = [])) then usage else
  match may c_me ActListBans None with
  | Some text => failc text
  | None =>
    bs <- hub (tx tx_Bans) ;;
    match bs with
    | [] => say "Nobody is banned."
    | _ =>
      let groups := fold_left (fun gs b => add_group_ban b gs) bs [] in
      say (cat ["Banned ("; itoa (Z.of_nat (length groups)); "):"]) ;;;
      foreach groups (fun g => line <- hub (ban_line g) ;; say line)
    end
  end.

Definition cmdKline : C unit :=
  args <- get_args ;;
  match args with
  | a :: rest =>
    if negb (isListOp a) then failc "usage: /kline add|del|list [name|hashprefix|hash]" else
    let op := to_lower a in
    set_args rest ;;;
    (if bool_decide (op = "add") then cmdBan else if bool_decide (op = "del") then cmdUnban else cmdBans) ;;;
    reply <- get_reply ;;
    if Reply_Error reply then ret tt else
    let form := if bool_decide (op = "add") then "ban" else if bool_decide (op = "del") then "unban" else "bans" in
    say (cat ["(next time: /"; form; trim_right (" " +:+ strings_Join " " rest) " "; ")"])
  | [] => failc "usage: /kline add|del|list [name|hashprefix|hash]"
  end.

Definition cmdRename : C unit :=
  args <- get_args ;;
  match args with
  | [tok; want] => with_person tok ActRename (fun target =>
      r <- catch_user (hub (claimName (p_Identity target) want)) ;;
      match r with
      | inl text => failc (cut_before text ". " +:+ ".")
      | inr after =>
        hub (foreach (p_Identities target) (fun id =>
          emit (NoticeEvent id "" (cat [p_Name c_me; " renamed you from "; p_Name target; " to "; p_Name after; "."]) false))) ;;;
        audit_me "rename" (p_Name target) (p_Name after) ;;;
        say (cat ["Renamed "; p_Name target; " to "; p_Name after; "."])
      end)
  | _ => usage
  end.

Definition cmdMakeRank (rank : Rank) (action : Action) : C unit :=
  args <- get_args ;;
  match args with
  | [tok] => with_person tok action (fun target =>
      if bool_decide (p_PersonRank target = rank) then
        failc (cat [p_Name target; " is already "; article rank; "."])
      else
        hub (tx (tx_SetRank (p_Identity target) (stored rank) (Some (cr_Identity c_req)) nowMS)) ;;;
        hub (foreach (p_Identities target) (fun id =>
          emit (NoticeEvent id "" (cat [p_Name c_me; " made you "; article rank; " of "; HubName cfg;
                                        ". /help shows what you can do now."]) false))) ;;;
        audit_me (Rank_String rank) (p_Name target) "" ;;;
        say (cat [p_Name target; " is "; article rank; " now."]))
  | _ => usage
  end.
Definition cmdMod : C unit := cmdMakeRank RankMod ActMakeMod.
Definition cmdAdmin : C unit := cmdMakeRank RankAdmin ActMakeAdmin.
Definition cmdDemote : C unit :=
  args <- get_args ;;
  match args with
  | [tok] => with_person tok ActDemote (fun target =>
      if bool_decide (p_PersonRank target = RankMember) then
        failc (cat [p_Name target; " has no role to take away."])
      else
        hub (tx (tx_SetRank (p_Identity target) SRankMember None nowMS)) ;;;
        hub (foreach (p_Identities target) (fun id =>
          emit (NoticeEvent id "" (cat [p_Name c_me; " took away your "; Rank_String (p_PersonRank target); " role."]) false))) ;;;
        audit_me "demote" (p_Name target) (Rank_String (p_PersonRank target)) ;;;
        say (cat [p_Name target; " is a member again."]))
  | _ => usage
  end.

Definition audit_line (e : AuditEntry) : H string :=
  by_ <- (match Audit_Actor e with Some id => displayName id | None => ret "the hub" end) ;;
  ret (cat ["  "; clock (Audit_At e); " · "; by_; " · "; Audit_Action e;
            if bool_decide (Audit_Target e = "") then "" else " " +:+ Audit_Target e;
            if bool_decide (Audit_Detail e = "") then "" else " — " +:+ Audit_Detail e]).
Definition show_modlog (n : Z) : C unit :=
  entries <- hub (tx (tx_AuditLog n)) ;;
  match entries with
  | [] => say "The mod log is empty."
  | _ =>
    say (cat ["The last "; plural (Z.of_nat (length entries)) "action"; ", newest first:"]) ;;;
    foreach entries (fun e => line <- hub (audit_line e) ;; say line)
  end.
Definition cmdModlog : C unit :=
  args <- get_args ;;
  match args with
  | _ :: _ :: _ => usage
  | _ =>
    match may c_me ActModlog None with
    | Some text => failc text
    | None =>
      match args with
      | [] => show_modlog 10
      | a :: _ =>
        match atoi a with
        | Some v => if v <=? 0 then usage else show_modlog (Z.min v 50)
        | None => usage
        end
      end
    end
  end.

Definition delete_last (tok : string) (n : Z) : C unit :=
  with_person tok ActDelete (fun target =>
    msgs <- hub (tx (tx_LatestMessagesByPerson (p_PersonID target) here n)) ;;
    match msgs with
    | [] => failc (cat [p_Name target; " has no messages in #"; here; " to remove."])
    | _ =>
      lines <- hub (deleteMessages c_me target msgs) ;;
      mod_reply (add_lines lines)
    end).
Definition cmdDelete : C unit :=
  args <- get_args ;;
  match args with
  | [tok] => delete_last tok 1
  | [tok; n] =>
    match atoi n with
    | Some v => if (v <? 1) || (20 <? v) then failc "usage: /delete <name> [n], with n from 1 to 20"
                else delete_last tok v
    | None => failc "usage: /delete <name> [n], with n from 1 to 20"
    end
  | _ => usage
  end.
End commands.
