(* ===== verification/Links.v ===== *)
(** internal/hub/links.go: linking apps to one name, with the rules for ranks. *)
From S2P Require Import Prelude Text Db StorePeople StoreRooms StoreMessages StoreGroup Names HubCore Clock Sha256.
From S2P Require Import Ranks People Rooms Post Commands CmdPeople.
Local Open Scope Z_scope.

Definition linkCodeTTL : Z := 10 * Minute.
Definition linkCodesPerHour : Z := 3.
Definition linkGuessesAllowed : Z := 5.
Definition linkLockout : Z := 10 * Minute.
Definition maxAppsPerPerson : Z := 5.

Definition takeRecent (times : list Z) (now window : Z) : list Z :=
  List.filter (fun t => now - t <? window) times.

(** The way in, as [%s] shows it. *)
Definition via_string (v : Via) : string :=
  match v with ViaRRC => "rrc" | ViaLXMF => "lxmf" | ViaPage => "page" | ViaImport => "import" end.
Definition short4 (id : ident) : string := str_take 4 (hex_encode id).
Definition short8 (id : ident) : string := str_take 8 (hex_encode id).

Section codes.
Context {U : Unicode}.
Definition newLinkCode (random : string) : string :=
  let s := base32_5 random in str_take 4 s +:+ "-" +:+ str_drop 4 s.
(** The byte replacements of [strings.NewReplacer]. *)
Definition link_char (b : Z) : list Z :=
  if (b =? 45) || (b =? 32) then [] else if b =? 48 then [79] else if b =? 49 then [73]
  else if b =? 56 then [66] else [b].
Definition normaliseLinkCode (s : string) : string := to_upper (of_bytes (concat (map link_char (bytes s)))).
Definition linkCodeHash (code : string) : string := Sum256 ("scotmesh-chat/link/" +:+ normaliseLinkCode code).
End codes.

Section links.
Context {E : Env}.

(** [link]: id becomes one of target's apps. *)
Definition link (id : ident) (target : Person) (via : Via) : H unit :=
  before <- person id ;;
  (if bool_decide (length (p_Identities before) = 1%nat) && p_Claimed before
   then tx (tx_ReleaseName id) ;;; ret tt else ret tt) ;;;
  tx (tx_LinkIdentity id (p_PersonID target) nowMS) ;;;
  after <- person id ;;
  (if bool_decide (p_Name after = p_Name before) then ret tt else
   emit (NameEvent id (p_Name before) (p_Name after)) ;;;
   then_ (ARename id (p_Name after))) ;;;
  foreach (p_Identities target) (fun other =>
    emit (NoticeEvent other "" (cat ["A new app was linked to your name: "; short4 id; " (via "; via_string via;
                                     "). Not you? Send /unlink "; short4 id; "."]) false)) ;;;
  if rank_ge (p_PersonRank target) RankMod
  then tx (tx_Audit nowMS (Some id) "link" (p_Name target) (hex_encode id)) else ret tt.

Definition personByID (person_id : Z) (known : ident) : H Person :=
  ids <- tx (tx_PersonIdentities person_id) ;;
  if existsb (fun i => bool_decide (Identity_ID i = known)) ids then person known
  else match ids with
  | [] => fail (ErrNotFound "person")
  | i :: _ => person (Identity_ID i)
  end.

Record App := mkApp {
  App_Identity : ident; App_LastSeen : Z; App_RRC : bool; App_LXMF : bool;
  App_Via : option Via; App_ExpiresAt : Z
}.
Record LinkedApps := mkLinkedApps { Apps : list App; Pending : list App }.
Definition linked_apps (id : ident) : H LinkedApps :=
  p <- tx (tx_PersonOf id) ;;
  match p with
  | None => ret (mkLinkedApps [mkApp id 0 false false None 0] [])
  | Some p =>
    ids <- tx (tx_PersonIdentities (SPerson_ID p)) ;;
    apps <- collect ids (fun i =>
      member <- tx (tx_IsMember (Identity_ID i)) ;;
      rooms <- roomsOf (Identity_ID i) ;;
      ret (mkApp (Identity_ID i) (Identity_LastSeen i) (negb (bool_decide (rooms = []))) member None 0)) ;;
    pending <- tx (tx_PendingLinks (SPerson_ID p) nowMS) ;;
    ret (mkLinkedApps apps (map (fun lc => mkApp (default "" (LinkCode_RedeemedBy lc)) 0 false false
                                    (LinkCode_RedeemedVia lc) (LinkCode_ExpiresAt lc)) pending))
  end.
Definition LinkedAppsOf (id : ident) := view (linked_apps id).
End links.

Section commands.
Context {E : Env} {c : Cmd}.
Let me_id : ident := cr_Identity c_req.

Definition linkIssue : C unit :=
  if maxAppsPerPerson <=? Z.of_nat (length (p_Identities c_me)) then
    failc (cat [p_Name c_me; " already has "; itoa maxAppsPerPerson; " apps, the most one name can have. /unlink one first."])
  else
    times <- hub (mem (fun m => default [] (linkIssued m !! p_PersonID c_me))) ;;
    let issued := takeRecent times now Hour in
    if linkCodesPerHour <=? Z.of_nat (length issued) then
      hub (mem_mod (fun m => set_linkIssued (<[p_PersonID c_me := issued]> (linkIssued m)) m)) ;;;
      failc (cat ["That's "; itoa linkCodesPerHour; " codes this hour; try again later."])
    else
      let code := newLinkCode rnd in
      let expires := unix_milli (now + linkCodeTTL) in
      hub (tx (tx_PutLinkCode (mkLinkCode (linkCodeHash code) (p_PersonID c_me) me_id nowMS expires None None))) ;;;
      hub (then_ (ALinkIssued (p_PersonID c_me) (issued ++ [now]))) ;;;
      say (cat ["On your other app, send /link "; code; " (or !link "; code;
                ") to the group, in the room, or on the chat page. It works once, until "; clock expires; "."]) ;;;
      if rank_ge (p_PersonRank c_me) RankMod then
        say (cat ["As you're "; article (p_PersonRank c_me);
                  ", you'll be asked to approve the new app from one of your apps before it's linked."])
      else ret tt.

Definition link_failures : C (list Z) :=
  times <- hub (mem (fun m => default [] (linkFailures m !! me_id))) ;;
  ret (takeRecent times now linkLockout).
Definition badCode : C unit :=
  fails <- link_failures ;;
  hub (then_ (ALinkFailures me_id (fails ++ [now]))) ;;;
  failc "That code doesn't work. Codes last 10 minutes and work once; ask for a new one with /link on your other app.".

(** Why a code that works can't be redeemed by this app. *)
Definition redeem_refusal (target : Person) (code : string) (confirmed : bool) : option string :=
  if isOwner me_id then
    Some "This is a hub owner's own identity, which can't join anyone else. Send /link here instead, and redeem the code on the other app."
  else if rank_lt (p_PersonRank target) (p_PersonRank c_me) then
    Some (cat ["This app is "; article (p_PersonRank c_me); " and "; p_Name target;
               " isn't. Ask for the code on this app and redeem it on the other."])
  else if maxAppsPerPerson <=? Z.of_nat (length (p_Identities target)) then
    Some (cat [p_Name target; " already has "; itoa maxAppsPerPerson; " apps, the most one name can have."])
  else if p_Claimed c_me && bool_decide (length (p_Identities c_me) = 1%nat) && negb confirmed then
    Some (cat ["This app is "; p_Name c_me; ". Linking frees "; p_Name c_me; " and makes this app "; p_Name target;
               ". To go ahead, send /link "; code; " confirm."])
  else None.
(** Someone with a role is asked to approve the app first. *)
Definition ask_approval (target : Person) (lc : LinkCode) : C unit :=
  hub (tx (tx_RedeemLinkCode (LinkCode_Hash lc) me_id (cr_Via c_req))) ;;;
  hub (foreach (p_Identities target) (fun id =>
    emit (NoticeEvent id "" (cat ["Approve linking "; p_Name c_me; " ("; short4 me_id; ", via "; via_string (cr_Via c_req);
      ") to "; p_Name target; ", with your "; Rank_String (p_PersonRank target); " role? Send /link approve ";
      short4 me_id; " or /link deny "; short4 me_id; ". It expires at "; clock (LinkCode_ExpiresAt lc); "."]) false))) ;;;
  say (cat ["Waiting for approval from one of "; p_Name target; "'s apps, as "; p_Name target; " is ";
            article (p_PersonRank target); ". It expires at "; clock (LinkCode_ExpiresAt lc); "."]).
Definition redeem (lc : LinkCode) (code : string) (confirmed : bool) : C unit :=
  if LinkCode_Person lc =? p_PersonID c_me then failc (cat ["This app is already part of "; p_Name c_me; "."]) else
  target <- hub (personByID (LinkCode_Person lc) (LinkCode_IssuedBy lc)) ;;
  match redeem_refusal target code confirmed with
  | Some text => failc text
  | None =>
    if rank_ge (p_PersonRank target) RankMod then ask_approval target lc
    else
      hub (link me_id target (cr_Via c_req)) ;;;
      hub (tx (tx_DeleteLinkCode (LinkCode_Hash lc))) ;;;
      say (cat ["This app is now "; p_Name target; ". /devices lists your apps; /unlink takes this one out again."])
  end.
Definition linkRedeem (code : string) (confirmed : bool) : C unit :=
  fails <- link_failures ;;
  if linkGuessesAllowed <=? Z.of_nat (length fails) then
    hub (mem_mod (fun m => set_linkFailures (<[me_id := fails]> (linkFailures m)) m)) ;;;
    failc "Too many codes that didn't work; try again in 10 minutes."
  else
    lc <- hub (tx (tx_LinkCodeByHash (linkCodeHash code))) ;;
    match lc with
    | None => badCode
    | Some lc =>
      if (LinkCode_ExpiresAt lc <=? nowMS) || bool_decide (is_Some (LinkCode_RedeemedBy lc)) then badCode else
      banned <- hub (tx (tx_IsBanned (LinkCode_IssuedBy lc))) ;;
      if (banned : bool) then badCode else redeem lc code confirmed
    end.

Definition deny_link (redeemer : ident) (name : string) : C unit :=
  hub (emit (NoticeEvent redeemer "" (cat [p_Name c_me; "'s app didn't approve linking this app."]) false)) ;;;
  hub (tx (tx_Audit nowMS (Some me_id) "link-deny" (p_Name c_me) (hex_encode redeemer))) ;;;
  say (cat ["Denied: "; name; " ("; short8 redeemer; ") is not linked."]).
Definition approve_link (redeemer : ident) (name : string) (via : Via) : C unit :=
  banned <- hub (tx (tx_IsBanned redeemer)) ;;
  if (banned : bool) then failc (name +:+ " is banned and can't be linked.") else
  hub (link redeemer c_me via) ;;;
  hub (emit (NoticeEvent redeemer "" (cat ["Approved: this app is now "; p_Name c_me; "."]) false)) ;;;
  say (cat ["Approved: "; name; " ("; short8 redeemer; ") is now one of "; p_Name c_me; "'s apps."]).
Definition link_prefix (who : string) : string := to_lower (trim_prefix who "guest-").
Definition linkDecide (approve : bool) (who : string) : C unit :=
  pending <- hub (tx (tx_PendingLinks (p_PersonID c_me) nowMS)) ;;
  let prefix := link_prefix who in
  let matches lc := (4 <=? len prefix) && has_prefix (hex_encode (default "" (LinkCode_RedeemedBy lc))) prefix in
  match List.filter matches pending with
  | [] => failc (cat ["Nothing is waiting for approval as "; who; "."])
  | [lc] =>
    let redeemer := default "" (LinkCode_RedeemedBy lc) in
    hub (tx (tx_DeleteLinkCode (LinkCode_Hash lc))) ;;;
    name <- hub (displayName redeemer) ;;
    if approve then approve_link redeemer name (default ViaRRC (LinkCode_RedeemedVia lc))
    else deny_link redeemer name
  | _ => failc (who +:+ " matches more than one app waiting; use more of its identity.")
  end.

Definition cmdLink : C unit :=
  args <- get_args ;;
  match args with
  | [] => linkIssue
  | [code] => linkRedeem code false
  | [a; b] =>
    if equal_fold a "approve" || equal_fold a "deny" then linkDecide (equal_fold a "approve") b
    else if equal_fold b "confirm" then linkRedeem a true
    else usage
  | _ => usage
  end.

Definition device_line (i : Identity) : H string :=
  rooms <- roomsOf (Identity_ID i) ;;
  member <- tx (tx_IsMember (Identity_ID i)) ;;
  let notes :=
    (if bool_decide (Identity_ID i = me_id) then ["this app"] else []) ++
    (if bool_decide (rooms = []) then [] else [rrc_in rooms]) ++
    (if (member : bool) then ["LXMF group"] else []) ++
    (if 0 <? Identity_LastSeen i then ["seen " +:+ clock (Identity_LastSeen i)] else []) in
  ret (cat ["  "; short8 (Identity_ID i); " — "; strings_Join " · " notes]).
Definition list_devices (p : Person) : C unit :=
  stored_ <- hub (tx (tx_PersonIdentities (p_PersonID p))) ;;
  let ids := match stored_ with
             | [] => [mkIdentity (p_Identity p) None 0 0 LXMFOn false 0 0]
             | ids => ids
             end in
  say (cat [p_Name p; " has "; plural (Z.of_nat (length ids)) "app"; ":"]) ;;;
  foreach ids (fun i => line <- hub (device_line i) ;; say line) ;;;
  match last ids with
  | Some i =>
    if (1 <? Z.of_nat (length ids)) then say (cat ["/unlink "; short4 (Identity_ID i); " takes one out."])
    else if p_PersonID p =? p_PersonID c_me then say "/link gives a code to link another app."
    else ret tt
  | None => ret tt
  end.
Definition cmdDevices : C unit :=
  args <- get_args ;;
  match args with
  | [] => list_devices c_me
  | [a] =>
    p <- targetPerson a ActDevicesOf ;;
    match p with None => ret tt | Some p => list_devices p end
  | _ => usage
  end.

(** The app /unlink names: one of the sender's by the start of its identity
    (the last that matches), or someone else's. *)
Definition own_app (token : string) : option ident :=
  let prefix := link_prefix token in
  last (List.filter (fun id => (4 <=? len prefix) && has_prefix (hex_encode id) prefix) (p_Identities c_me)).
Definition unlink_target (target : ident) : C unit :=
  p <- hub (person target) ;;
  match may c_me ActUnlinkOther (Some p) with
  | Some text => failc text
  | None =>
    if negb (Linked p) then failc (cat [p_Name p; " ("; short8 target; ") isn't linked to another app."]) else
    if isOwner target && negb (bool_decide (target = me_id)) then
      failc "That's a hub owner's own identity; only it can unlink itself."
    else
      hub (tx (tx_UnlinkIdentity target nowMS)) ;;;
      after <- hub (person target) ;;
      (if bool_decide (p_Name after = p_Name p) then ret tt else
       hub (emit (NameEvent target (p_Name p) (p_Name after))) ;;;
       hub (then_ (ARename target (p_Name after)))) ;;;
      hub (foreach (p_Identities p) (fun other =>
        if bool_decide (other = target) || bool_decide (other = me_id) then ret tt else
        emit (NoticeEvent other "" (cat ["App "; short4 target; " was unlinked from "; p_Name p; "."]) false))) ;;;
      (if bool_decide (target = me_id) then ret tt else
       hub (emit (NoticeEvent target "" (cat ["This app was unlinked from "; p_Name p; " and is "; p_Name after; " now."]) false))) ;;;
      (if rank_ge (p_PersonRank p) RankMod || negb (p_PersonID c_me =? p_PersonID p)
       then hub (tx (tx_Audit nowMS (Some me_id) "unlink" (p_Name p) (hex_encode target))) else ret tt) ;;;
      if bool_decide (target = me_id) then
        say (cat ["This app is no longer part of "; p_Name p; "; you're "; p_Name after; " here now."])
      else say (cat ["Unlinked "; short8 target; " from "; p_Name p; "."])
  end.
Definition cmdUnlink : C unit :=
  args <- get_args ;;
  match args with
  | [] => unlink_target me_id
  | [a] =>
    match own_app a with
    | Some id => unlink_target id
    | None =>
      id <- resolveOrFail a ;;
      match id with None => ret tt | Some id => unlink_target id end
    end
  | _ => usage
  end.
End commands.
