(* ===== verification/Whispers.v ===== *)
(** internal/hub/whispers.go: whispers, who ignores whom, and the inbox. *)
From S2P Require Import Prelude Text Db StorePeople StoreRooms StoreMessages StoreGroup Names HubCore Clock Ranks.
From S2P Require Import People Rooms Post Commands CmdPeople CmdRooms.
Local Open Scope Z_scope.

Definition WhisperRetention : Z := 7 * 24 * Hour.
Definition WhisperText (w : Whisper) : string := cat [Whisper_FromName w; " whispers: "; Whisper_Body w].

Record Ignored := mkIgnored { Ignored_Name : string; Ignored_Identity : ident }.
Record WhisperInbox := mkWhisperInbox {
  wi_Whispers : list Whisper; wi_Unread : Z; wi_Ignored : list Ignored
}.

Section whispers.
Context {E : Env}.

Definition any_banned (apps : list ident) : H bool := exists_m apps (fun app => tx (tx_IsBanned app)).

(** The checks of MayNotifyDirect, then the rate limit outside the View. *)
Definition notify_gates (from to : ident) : H unit :=
  toP <- person to ;;
  let notFound := refuse "destination not connected" in
  if p_PersonID toP =? 0 then notFound else
  banned <- any_banned (p_Identities toP) ;;
  if (banned : bool) then notFound else
  fromP <- person from ;;
  ignoring <- tx (tx_IsIgnoring (p_PersonID toP) (p_PersonID fromP)) ;;
  if (ignoring : bool) then notFound else
  if negb (Whispers (p_Prefs toP)) then notFound else ret tt.
Definition MayNotifyDirect (from to : ident) (h : Hub) : res unit * Hub :=
  match view (notify_gates from to) h with
  | Fail e => (Fail e, h)
  | Ok _ =>
    match rate_gate from (mkReq (h_db h) (h_mem h) [] []) with
    | (r, q) => (r, mkHub (h_db h) (q_mem q) (h_subs h))
    end
  end.

Definition personName (person_id : Z) : H string :=
  ids <- tx (tx_PersonIdentities person_id) ;;
  match ids with
  | [] => ret ("person " +:+ itoa person_id)
  | i :: _ => displayName (Identity_ID i)
  end.

Definition unsent_rrc (id : ident) : H (list Whisper) :=
  p <- tx (tx_PersonOf id) ;;
  match p with
  | None => ret []
  | Some p => tx (tx_UnsentRRCWhispers (SPerson_ID p))
  end.
Definition whisper_inbox (id : ident) (n : Z) : H WhisperInbox :=
  p <- tx (tx_PersonOf id) ;;
  match p with
  | None => ret (mkWhisperInbox [] 0 [])
  | Some p =>
    unread <- tx (tx_UnreadWhispers (SPerson_ID p)) ;;
    pids <- tx (tx_Ignored (SPerson_ID p)) ;;
    ignored <- collect pids (fun pid =>
      ids <- tx (tx_PersonIdentities pid) ;;
      match ids with
      | [] => ret []
      | i :: _ => name <- displayName (Identity_ID i) ;; ret [mkIgnored name (Identity_ID i)]
      end) ;;
    ws <- tx (tx_WhispersTo (SPerson_ID p) n) ;;
    (match last ws with
     | None => ret tt
     | Some w => tx (tx_MarkWhispersRead (SPerson_ID p) (Whisper_ID w) nowMS) ;;; ret tt
     end) ;;;
    ret (mkWhisperInbox ws unread (concat ignored))
  end.

Definition UnsentRRCWhispers (id : ident) := view (unsent_rrc id).
Definition WhisperSentRRC (whisperID : Z) := update (tx (tx_MarkWhisperRRC whisperID nowMS)).
Definition WhispersOf (id : ident) (n : Z) := update (whisper_inbox id n).
End whispers.

Section commands.
Context {E : Env} {c : Cmd}.

(** The copies queued for the recipient's apps in the group. *)
Fixpoint queue_whisper (wid : Z) (apps : list ident) : H bool :=
  match apps with
  | [] => ret false
  | app :: apps' =>
    member <- tx (tx_IsMember app) ;;
    (if (member : bool) then tx (tx_PutDelivery (mkDelivery wid true app DeliveryQueued 0 0 nowMS nowMS)) else ret tt) ;;;
    rest <- queue_whisper wid apps' ;;
    ret (member || rest)
  end.
Definition new_whisper (to : Person) (body : string) : Whisper :=
  mkWhisper 0 (cr_Identity c_req) (p_Name c_me) (p_PersonID to) (p_Name to) body (cr_Via c_req) nowMS 0 0.
Definition with_whisper_id (id : Z) (w : Whisper) : Whisper :=
  mkWhisper id (Whisper_From w) (Whisper_FromName w) (Whisper_ToPerson w) (Whisper_ToName w) (Whisper_Body w)
    (Whisper_Via w) (Whisper_SaidAt w) (Whisper_RRCAt w) (Whisper_ReadAt w).
Definition send_whisper (to : Person) (body : string) : C unit :=
  let w := new_whisper to body in
  wid <- hub (tx (tx_AddWhisper w)) ;;
  onRRC <- hub (mem (fun m => existsb (fun app => negb (bool_decide (rooms_of m app = []))) (p_Identities to))) ;;
  queued <- (if WhispersLXMF (p_Prefs to) then hub (queue_whisper wid (p_Identities to)) else ret false) ;;
  let where_ := (if (onRRC : bool) then ["on RRC now"] else []) ++ (if (queued : bool) then ["by LXMF"] else []) in
  hub (emit (WhisperEvent (with_whisper_id wid w) (p_Identities to))) ;;;
  if bool_decide (where_ = []) then say (cat ["Whispered to "; p_Name to; ". They'll see it when they're next on."])
  else say (cat ["Whispered to "; p_Name to; " ("; strings_Join "; " where_; ")."]).
Definition whisper_to_person (token body : string) (to : Person) : C unit :=
  let notFound := failc (cat ["target '"; token; "' not found"]) in
  if negb (p_PersonID to =? 0) && (p_PersonID to =? p_PersonID c_me) then failc "You can't whisper to yourself." else
  if p_PersonID to =? 0 then notFound else
  banned <- hub (any_banned (p_Identities to)) ;;
  if (banned : bool) then notFound else
  ignoring <- hub (tx (tx_IsIgnoring (p_PersonID to) (p_PersonID c_me))) ;;
  if (ignoring : bool) then notFound else
  if negb (Whispers (p_Prefs to)) then failc (p_Name to +:+ " isn't taking whispers.") else
  allowed <- hub (allowPost (cr_Identity c_req)) ;;
  if negb allowed then failc "Not whispered: rate limited" else send_whisper to body.
Definition whisperTo (token body : string) : C unit :=
  let body := trim_space body in
  if negb (valid_string body) then failc "Not whispered: the message is not valid text." else
  if MaxBodyBytes cfg <? len body then
    failc (cat ["Not whispered: message too large: "; itoa (len body); " bytes > "; itoa (MaxBodyBytes cfg); " bytes"])
  else
    r <- catch_user (hub (resolve token)) ;;
    match r with
    | inl text => failc text
    | inr id => to <- hub (person id) ;; whisper_to_person token body to
    end.

Definition cmdWhisper : C unit :=
  args <- get_args ;;
  match args with
  | tok :: (_ :: _) => whisperTo tok (strings_Join " " (tl args))
  | _ => usage
  end.
Definition cmdReply : C unit :=
  args <- get_args ;;
  match args with
  | [] => usage
  | _ =>
    w <- hub (tx (tx_LastWhisperTo (p_PersonID c_me))) ;;
    match w with
    | None => failc "Nobody has whispered to you lately, so there's nobody to reply to."
    | Some w => whisperTo (hex_encode (Whisper_From w)) (strings_Join " " args)
    end
  end.

Definition with_whispers (b : bool) (p : Prefs) : Prefs :=
  mkPrefs (ShareLXMF p) b (WhispersLXMF p) (PageLines p) (PageFlag p) (PageRefresh p).
Definition with_whispers_lxmf (b : bool) (p : Prefs) : Prefs :=
  mkPrefs (ShareLXMF p) (Whispers p) b (PageLines p) (PageFlag p) (PageRefresh p).
Definition cmdWhispers : C unit :=
  args <- get_args ;;
  let prefs := p_Prefs c_me in
  match args with
  | [] =>
    unread <- hub (tx (tx_UnreadWhispers (p_PersonID c_me))) ;;
    say (cat ["Whispers: "; on_off (Whispers prefs); "; to your LXMF app: "; on_off (WhispersLXMF prefs); ". ";
              plural unread "whisper"; " unread on the chat page. Change it with /whispers on|off or /whispers lxmf on|off."])
  | [a] =>
    if negb (isOnOff a) then usage else
    let on := equal_fold a "on" in
    hub (tx (tx_SetPrefs (cr_Identity c_req) (with_whispers on prefs))) ;;;
    say (if on then "Whispers are on: people can whisper to you." else "Whispers are off: nobody can whisper to you.")
  | [a; b] =>
    if negb (equal_fold a "lxmf" && isOnOff b) then usage else
    let on := equal_fold b "on" in
    hub (tx (tx_SetPrefs (cr_Identity c_req) (with_whispers_lxmf on prefs))) ;;;
    say (if on then "Whispers will come to your LXMF app too, even while group delivery is off."
         else "Whispers won't come to your LXMF app; you'll see them on RRC and the chat page.")
  | _ => usage
  end.

Definition cmdIgnore : C unit :=
  args <- get_args ;;
  match args with
  | [a] => with_target a (fun id =>
      them <- hub (person id) ;;
      if (p_PersonID them =? p_PersonID c_me) || (p_PersonID them =? 0) then failc "You can't ignore yourself." else
      hub (tx (tx_Ignore (p_PersonID c_me) (p_PersonID them) nowMS)) ;;;
      say (cat ["Ignoring "; p_Name them; ": their whispers won't reach you, and they aren't told. /unignore ";
                p_Name them; " undoes it."]))
  | _ => usage
  end.
Definition cmdUnignore : C unit :=
  args <- get_args ;;
  match args with
  | [a] => with_target a (fun id =>
      them <- hub (person id) ;;
      removed <- hub (tx (tx_Unignore (p_PersonID c_me) (p_PersonID them))) ;;
      if negb removed then failc (cat ["You weren't ignoring "; p_Name them; "."])
      else say (cat ["No longer ignoring "; p_Name them; "."]))
  | _ => usage
  end.
Definition cmdIgnored : C unit :=
  args <- get_args ;;
  if negb (bool_decide (args = [])) then usage else
  people_ <- hub (tx (tx_Ignored (p_PersonID c_me))) ;;
  match people_ with
  | [] => say "You aren't ignoring anyone."
  | _ =>
    names_ <- collect people_ (fun pid => hub (personName pid)) ;;
    say (cat ["Ignoring: "; strings_Join ", " names_; "."])
  end.
End commands.
