(* ===== verification/Profile.v ===== *)
(** internal/hub/profile.go: profiles, sharing, and preferences. *)
From S2P Require Import Prelude Text Db StorePeople StoreRooms StoreMessages StoreGroup Names HubCore Clock Sha256.
From S2P Require Import Ranks People Rooms Post Commands CmdPeople.
Local Open Scope Z_scope.

(** third_party/reticulum-go/rns: an identity's destination hash for a name;
    the identities the hub gives it are 16 bytes long. *)
Definition NameHash (fullName : string) : string := str_take 10 (Sum256 fullName).
Definition DestinationHash (nameHash identityHash : string) : string := str_take 16 (Sum256 (nameHash +:+ identityHash)).
Definition LXMFAddress (identity : ident) : string := DestinationHash (NameHash "lxmf.delivery") identity.

Record Profile := mkProfile {
  pf_Person : Person;
  pf_Here : list string;
  pf_LastSeen : Z;
  pf_Shared : bool;
  pf_ForcedShare : bool;
  pf_Addresses : list string;
  pf_Derived : bool;
  pf_Recent : list Message
}.

(** [prefs.Validate], the texts of its errors. *)
Definition Prefs_error (p : Prefs) : option string :=
  if negb (existsb (Z.eqb (PageLines p)) PageLineChoices) then
    Some (cat ["page lines "; itoa (PageLines p); ": must be one of [10 20 30 50 100]"])
  else if negb (existsb (Z.eqb (PageRefresh p)) PageRefreshChoices) then
    Some (cat ["page refresh "; itoa (PageRefresh p); ": must be one of [0 10 30 60]"])
  else None.

Section profile.
Context {E : Env}.

(** What one app adds: its rooms, when it was last seen, and whether it is
    in the group. *)
Definition app_facts (app : ident) : H (list string * Z * bool) :=
  rooms <- roomsOf app ;;
  i <- tx (tx_Identity app) ;;
  isMember <- tx (tx_IsMember app) ;;
  ret (rooms, match i with Some i => Identity_LastSeen i | None => 0 end, isMember).
Definition profile (id : ident) (recent : Z) : H Profile :=
  person_ <- person id ;;
  let forced := rank_ge (p_PersonRank person_) RankMod in
  facts <- collect (p_Identities person_) (fun app => f <- app_facts app ;; ret (app, f)) ;;
  let rooms := order_by String.leb (remove_dups (concat (map (fun f => f.2.1.1) facts))) in
  let lastSeen := fold_left (fun acc f => if acc <? f.2.1.2 then f.2.1.2 else acc) facts 0 in
  let addresses := map (fun f => LXMFAddress f.1) (List.filter (fun f => f.2.2) facts) in
  let here := (if bool_decide (rooms = []) then [] else [rrc_in rooms]) ++
              (if bool_decide (addresses = []) then [] else ["the LXMF group"]) in
  let derived := bool_decide (addresses = []) in
  msgs <- (if (0 <? recent) && negb (p_PersonID person_ =? 0)
           then tx (tx_LatestMessagesByPerson (p_PersonID person_) (GroupRoom cfg) recent) else ret []) ;;
  ret (mkProfile person_ here lastSeen (ShareLXMF (p_Prefs person_) || forced) forced
         (if derived then [LXMFAddress (default "" (head (p_Identities person_)))] else addresses) derived msgs).

Definition set_prefs (id : ident) (change : Prefs -> Prefs) : H Person :=
  tx (tx_TouchIdentity id None nowMS) ;;;
  before <- person id ;;
  let prefs := change (p_Prefs before) in
  match Prefs_error prefs with
  | Some text => refuse text
  | None => tx (tx_SetPrefs id prefs) ;;; person id
  end.

Definition all_actions : list Action :=
  [ActKick; ActBan; ActUnban; ActListBans; ActRename; ActModlog; ActMakeMod; ActMakeAdmin;
   ActDemote; ActDevicesOf; ActUnlinkOther; ActRelease; ActStats; ActDelete].
Definition permissions (viewer target : ident) : H (list (Action * bool)) :=
  me <- person viewer ;;
  them <- person target ;;
  ret (map (fun a => (a, bool_decide (may me a (Some them) = None))) all_actions).

Definition ProfileOf (id : ident) := view (profile id 5).
Definition SetPrefs (id : ident) (change : Prefs -> Prefs) := update (set_prefs id change).
Definition Permissions (viewer target : ident) := view (permissions viewer target).
End profile.

Section commands.
Context {E : Env} {c : Cmd}.

Definition show_profile (id : ident) : C unit :=
  p <- hub (profile id 0) ;;
  let who := pf_Person p in
  let t := Title (p_PersonRank who) in
  say (if bool_decide (t = "") then p_Name who else cat [p_Name who; " · "; t]) ;;;
  (if p_Claimed who then
     say (cat ["Name held since "; fmt_day_month_year (london_seconds (p_ClaimedAt who)); "."])
   else say "No name claimed; shown by the start of their identity.") ;;;
  (if negb (bool_decide (pf_Here p = [])) then say (cat ["Here now: "; strings_Join " and " (pf_Here p); "."])
   else if 0 <? pf_LastSeen p then say (cat ["Last seen "; clock (pf_LastSeen p); "."])
   else ret tt) ;;;
  if pf_Shared p then
    let addrs := strings_Join ", " (map hex_encode (pf_Addresses p)) in
    say ((if pf_Derived p then "LXMF, if they use it with this identity: " else "LXMF: ") +:+ addrs)
  else say "Their LXMF address isn't shared.".
Definition cmdProfile : C unit :=
  args <- get_args ;;
  match args with
  | [] => show_profile (cr_Identity c_req)
  | [a] =>
    id <- resolveOrFail a ;;
    match id with None => ret tt | Some id => show_profile id end
  | _ => usage
  end.

Definition with_share (b : bool) (p : Prefs) : Prefs :=
  mkPrefs b (Whispers p) (WhispersLXMF p) (PageLines p) (PageFlag p) (PageRefresh p).
Definition cmdShare : C unit :=
  args <- get_args ;;
  let staff := rank_ge (p_PersonRank c_me) RankMod in
  match args with
  | [] =>
    say (if staff then "Your LXMF address is shown on your profile: it always is for mods and up, so people can reach you."
         else if ShareLXMF (p_Prefs c_me) then "Your LXMF address is shown on your profile, so people can message you. /share off hides it."
         else "Your LXMF address isn't shown on your profile. /share on shows it.")
  | [a] =>
    if negb (isOnOff a) then usage else
    let on := equal_fold a "on" in
    hub (tx (tx_SetPrefs (cr_Identity c_req) (with_share on (p_Prefs c_me)))) ;;;
    say (if on then "Your LXMF address is shown on your profile now, so people can message you."
         else "Your LXMF address is hidden from your profile now.") ;;;
    if negb on && staff then
      say (cat ["Saved, but as "; article (p_PersonRank c_me); " your address is shown anyway, so people can reach you."])
    else ret tt
  | _ => usage
  end.

Definition with_lines (n : Z) (p : Prefs) : Prefs :=
  mkPrefs (ShareLXMF p) (Whispers p) (WhispersLXMF p) n (PageFlag p) (PageRefresh p).
Definition with_flag (b : bool) (p : Prefs) : Prefs :=
  mkPrefs (ShareLXMF p) (Whispers p) (WhispersLXMF p) (PageLines p) b (PageRefresh p).
Definition with_refresh (n : Z) (p : Prefs) : Prefs :=
  mkPrefs (ShareLXMF p) (Whispers p) (WhispersLXMF p) (PageLines p) (PageFlag p) n.
Definition refreshText (seconds : Z) : string :=
  if seconds =? 0 then "only when you reload" else cat ["every "; itoa seconds; " seconds"].
Definition save_page (prefs : Prefs) : C unit :=
  hub (tx (tx_SetPrefs (cr_Identity c_req) prefs)) ;;;
  say (cat ["Saved: the chat page now shows "; itoa (PageLines prefs); " messages, the flag "; on_off (PageFlag prefs);
            ", and refreshes "; refreshText (PageRefresh prefs); "."]).
Definition cmdPage : C unit :=
  args <- get_args ;;
  let prefs := p_Prefs c_me in
  match args with
  | [] =>
    say (cat ["Chat page: "; itoa (PageLines prefs); " messages, flag "; if PageFlag prefs then "shown" else "hidden";
              ", refresh "; if 0 <? PageRefresh prefs then cat ["every "; itoa (PageRefresh prefs); "s"] else "off";
              ". Change it with /page lines 10|20|30|50|100, /page flag on|off or /page refresh off|10|30|60."])
  | [what; value] =>
    let value := to_lower value in
    let what := to_lower what in
    if bool_decide (what = "lines") then
      match atoi value with
      | Some n => if existsb (Z.eqb n) PageLineChoices then save_page (with_lines n prefs)
                  else failc "The chat page can show 10, 20, 30, 50 or 100 messages."
      | None => failc "The chat page can show 10, 20, 30, 50 or 100 messages."
      end
    else if bool_decide (what = "flag") then
      if negb (isOnOff value) then usage else save_page (with_flag (bool_decide (value = "on")) prefs)
    else if bool_decide (what = "refresh") then
      let bad := failc "The chat page can refresh every 10, 30 or 60 seconds, or not at all (off)." in
      if bool_decide (value = "off") || bool_decide (value = "0") then save_page (with_refresh 0 prefs) else
      match atoi (trim_suffix value "s") with
      | Some n => if (n =? 0) || negb (existsb (Z.eqb n) PageRefreshChoices) then bad
                  else save_page (with_refresh n prefs)
      | None => bad
      end
    else usage
  | _ => usage
  end.
End commands.
