(* ===== verification/Dispatch.v ===== *)
(** internal/hub/cmd_owners.go, and the dispatch of internal/hub/commands.go. *)
From S2P Require Import Prelude Text Db StorePeople StoreRooms StoreMessages StoreGroup Names HubCore Clock Ranks.
From S2P Require Import People Rooms Post Commands CmdPeople CmdRooms Moderation Links Whispers Profile.
Local Open Scope Z_scope.

Section owners.
Context {E : Env} {c : Cmd}.

Definition cmdRelease : C unit :=
  args <- get_args ;;
  match args with
  | [a] =>
    match CleanName a with
    | inl _ => failc (a +:+ " isn't a name anyone could hold")
    | inr (_, sk) =>
      n <- hub (tx (tx_NameBySkeleton sk)) ;;
      match n with
      | None => failc ("nobody holds " +:+ a)
      | Some n =>
        let id := Name_Identity n in
        hub (tx (tx_ReleaseName id)) ;;;
        let guest := GuestName id in
        hub (emit (NameEvent id (Name_Name n) guest)) ;;;
        hub (then_ (ARename id guest)) ;;;
        hub (emit (NoticeEvent id "" (cat ["A hub operator has released the name "; Name_Name n; ". You are shown as "; guest;
                                           " until you choose another with /nick."]) false)) ;;;
        hub (tx (tx_Audit nowMS (Some (cr_Identity c_req)) "release" (Name_Name n) (hex_encode id))) ;;;
        say (cat ["released "; Name_Name n; " (held by "; hex_encode id; ")"])
      end
    end
  | _ => usage
  end.

(** [subs]: the subscribers' names, queue lengths and drops. *)
Definition cmdStats (subs : list Subscription) : C unit :=
  s <- hub (mem stats) ;;
  ps <- hub (mem presence) ;;
  group <- hub (tx tx_Members) ;;
  let present := fold_left (fun n rm => n + Z.of_nat (size rm.2)) (map_to_list ps) 0 in
  say (cat ["posts="; itoa (Posts s); " duplicates="; itoa (Duplicates s); " refusals="; itoa (Refusals s);
            " commands="; itoa (Commands s); " internal_errors="; itoa (InternalErrors s)]) ;;;
  say (cat ["rooms_with_people="; itoa (Z.of_nat (size ps)); " rrc_presences="; itoa present;
            " group_members="; itoa (Z.of_nat (length group))]) ;;;
  foreach subs (fun sub =>
    say (cat ["subscriber "; sub_name sub; ": queued="; itoa (Z.of_nat (length (sub_queue sub)));
              " dropped="; itoa (sub_dropped sub)])).
End owners.

Section dispatch.
Context {E : Env}.

(** The table's [run] functions. *)
Definition run_handler (subs : list Subscription) (c : Cmd) : C unit :=
  match cmd_run c_def with
  | HHelp => cmdHelp | HJoin => cmdJoin | HLeave => cmdLeave | HNick => cmdNick | HMe => cmdMe
  | HWho => cmdWho | HList => cmdList | HHistory => cmdHistory | HTopic => cmdTopic
  | HWhoami => cmdWhoami | HLXMF => cmdLXMF | HExpand => usage | HShare => cmdShare
  | HWhispers => cmdWhispers | HIgnore => cmdIgnore | HUnignore => cmdUnignore | HIgnored => cmdIgnored
  | HPage => cmdPage | HForget => cmdForget | HWhisper => cmdWhisper | HReply => cmdReply
  | HProfile => cmdProfile | HLink => cmdLink | HDevices => cmdDevices | HUnlink => cmdUnlink
  | HRoom => cmdRoom | HKick => cmdKick | HBan => cmdBan | HUnban => cmdUnban | HBans => cmdBans
  | HRename => cmdRename | HDelete => cmdDelete | HModlog => cmdModlog | HMod => cmdMod
  | HAdmin => cmdAdmin | HDemote => cmdDemote | HKline => cmdKline | HRelease => cmdRelease
  | HStats => cmdStats subs | HLegacyRoom => legacyRoom (cmd_name c_def)
  end.
(** The table's [oldForm] functions. *)
Definition old_form (c : Cmd) : C bool :=
  match cmd_oldForm c_def with
  | Some OldKick => isLegacyRoomKick
  | Some OldBan => args <- get_args ;; ret (isLegacyRoomBan args)
  | None => ret false
  end.
Definition run_command (subs : list Subscription) (c : Cmd) : C unit :=
  old <- old_form c ;;
  if (old : bool) then legacyRoom (cmd_name c_def) else
  if rank_lt (p_Rank c_me) (access_rank (cmd_access c_def)) then failc "not authorized"
  else run_handler subs c.

(** The words of a command line; none if it is not one. *)
Definition command_fields (text : string) : list string :=
  let text := trim_space text in
  if has_prefix text "/" || has_prefix text "!" then fields (str_drop 1 text) else [].
(** /pause is "lxmf off": the definition and the words to run. *)
Definition expand_command (def : command) (fs : list string) : option (command * list string) :=
  if bool_decide (cmd_expand def = "") then Some (def, fs) else
  let fs := fields (cmd_expand def) ++ tl fs in
  def ← lookupCommand (default "" (head fs)); Some (def, fs).

Definition error_reply (text : string) : Reply := mkReply [text] true false [] "" "".
(** A command, from an empty reply to the one it leaves. *)
Definition in_cmd (m : C unit) (args : list string) : H Reply := fun q =>
  match m (mkCState q args empty_reply) with
  | (Ok _, s) => (Ok (c_reply s), c_q s)
  | (Fail e, s) => (Fail e, c_q s)
  end.
Definition run_as (subs : list Subscription) (req : CommandRequest) (def : command) (fs : list string) : H Reply :=
  checkHubBan (cr_Identity req) ;;;
  tx (tx_TouchIdentity (cr_Identity req) None nowMS) ;;;
  me <- person (cr_Identity req) ;;
  in_cmd (run_command subs {| c_req := req; c_def := def; c_me := me |}) (tl fs).
Definition command_ (subs : list Subscription) (req : CommandRequest) : H Reply :=
  match command_fields (cr_Text req) with
  | [] => ret (error_reply "Send /help for the commands.")
  | f0 :: fs =>
    match lookupCommand (to_lower f0) with
    | None => ret (error_reply (cat ["There's no /"; to_lower f0; ". Send /help for the commands."]))
    | Some def =>
      match expand_command def (f0 :: fs) with
      | None => ret (error_reply "Send /help for the commands.")
      | Some (def, fs) => run_as subs req def fs
      end
    end
  end.

Definition Command (req : CommandRequest) (h : Hub) : res Reply * Hub :=
  let h := mkHub (h_db h) (count add_commands (h_mem h)) (h_subs h) in
  let '(r, h') := update (command_ (h_subs h) req) h in (reply_of r, h').
End dispatch.
