(* ===== verification/Maintain.v ===== *)
(** internal/hub/deliveries.go and internal/hub/maintain.go: LXMF deliveries as
    the adapter sees them, and the minute's maintenance. *)
From S2P Require Import Prelude Text Db StorePeople StoreRooms StoreMessages StoreGroup Names HubCore Clock Ranks.
From S2P Require Import People Rooms Post Commands CmdRooms Moderation Links Whispers.
Local Open Scope Z_scope.

(** ** deliveries.go *)
Inductive DeliveryOutcome := Delivered | RetryAt | GaveUp.

Record PendingDelivery := mkPendingDelivery {
  pd_Delivery : Delivery;
  pd_Message : option Message;
  pd_Whisper : option Whisper;
  pd_AwayUntil : Z
}.
Definition LXMFLine (m : Message) : string :=
  match Message_Kind m with
  | KindAction => cat ["* "; Message_AuthorName m; " "; Message_Body m]
  | KindMsg => cat [Message_AuthorName m; ": "; Message_Body m]
  end.
Definition PendingDelivery_Text (d : PendingDelivery) : string :=
  match pd_Whisper d, pd_Message d with
  | Some w, _ => WhisperText w
  | None, Some m => LXMFLine m
  | None, None => ""
  end.
Definition PendingDelivery_SaidAt (d : PendingDelivery) : Z :=
  match pd_Whisper d, pd_Message d with
  | Some w, _ => Whisper_SaidAt w
  | None, Some m => Message_HubAt m
  | None, None => 0
  end.

Section deliveries.
Context {E : Env}.

(** A delivery with what it carries; nothing if that is gone. *)
Definition pending_of (away : ident -> Z) (d : Delivery) : Tx (list PendingDelivery) :=
  if Delivery_Whisper d then
    w <- tx_Whisper (Delivery_MessageID d) ;;
    ret (match w with
         | Some w => [mkPendingDelivery d None (Some w) (away (Delivery_Identity d))]
         | None => []
         end)
  else
    m <- tx_Message (Delivery_MessageID d) ;;
    ret (match m with
         | Some m => [mkPendingDelivery d (Some m) None (away (Delivery_Identity d))]
         | None => []
         end).
Definition away_of (ms : list SMember) (id : ident) : Z :=
  fold_left (fun acc m => if bool_decide (SMember_Identity m = id) then SMember_AwayUntil m else acc) ms 0.
Definition due_deliveries (n : Z) : Tx (list PendingDelivery) :=
  due <- tx_DueDeliveries nowMS n ;;
  members <- tx_Members ;;
  pds <- collect due (pending_of (away_of members)) ;;
  ret (concat pds).
Definition DueDeliveries (n : Z) := view (tx (due_deliveries n)).

(** [awayUntil], [None] for the zero time; times in nanoseconds. *)
Definition outcome_row (d : Delivery) (o : DeliveryOutcome) (propagated : bool) (retryAt : Z) : Delivery :=
  let '(st, next) := match o with
    | Delivered => (if propagated then DeliveryPropagated else DeliveryProven, Delivery_NextAt d)
    | RetryAt => (DeliveryQueued, unix_milli retryAt)
    | GaveUp => (DeliveryFailed, Delivery_NextAt d)
    end in
  mkDelivery (Delivery_MessageID d) (Delivery_Whisper d) (Delivery_Identity d) st (Delivery_Attempts d)
    (Delivery_PartsDone d) next nowMS.
Definition record_delivery (d : Delivery) (o : DeliveryOutcome) (propagated : bool) (retryAt : Z)
    (awayUntil : option Z) : Tx unit :=
  tx_PutDelivery (outcome_row d o propagated retryAt) ;;;
  match awayUntil, o with
  | Some t, _ => tx_SetAway (Delivery_Identity d) (unix_milli t)
  | None, Delivered => if propagated then ret tt else tx_SetAway (Delivery_Identity d) 0
  | None, _ => ret tt
  end.
Definition RecordDelivery (d : Delivery) (o : DeliveryOutcome) (propagated : bool) (retryAt : Z)
    (awayUntil : option Z) := update (tx (record_delivery d o propagated retryAt awayUntil)).

(** ** maintain.go *)
Definition prune_room (m : Mem) (r : Room) : Tx unit :=
  if isDefaultRoom cfg (Room_Name r) || negb (bool_decide (present_in m (Room_Name r) = ∅))
     || (unix_milli (now - PruneRoomsAfter cfg) <=? Room_LastUsed r)
  then ret tt
  else
    tx_DeleteRoom (Room_Name r) ;;;
    tx_Audit nowMS None "prune-room" (Room_Name r) "unused".
Definition pruneRooms (m : Mem) : Tx unit :=
  rooms <- tx_Rooms ;;
  foreach rooms (prune_room m).

Definition maintain_store (m : Mem) : Tx unit :=
  tx_PruneMessages (unix_milli (now - Retention cfg)) ;;;
  tx_PruneInvites nowMS ;;;
  tx_FinishDeliveries (unix_milli (now - 24 * Hour)) ;;;
  tx_PruneLinkCodes nowMS ;;;
  liftExpiredBans nowMS ;;;
  tx_PruneWhispers (unix_milli (now - WhisperRetention)) ;;;
  pruneRooms m.

(** What the hub remembers of people who have stopped asking. *)
Definition maintain_memory (m : Mem) : Mem :=
  mkMem (presence m)
    (filter (fun kb => now - b_at kb.2 <= Minute) (rate m))
    (filter (fun ka => now - ka.2 <= HistoryCooldown cfg) (historyAt m))
    (filter (fun kt => takeRecent kt.2 now Hour <> []) (linkIssued m))
    (filter (fun kt => takeRecent kt.2 now linkLockout <> []) (linkFailures m))
    (stats m).
(** [maintain] with a context that is over: no transaction of it begins. *)
Definition maintain_over (h : Hub) : Hub := mkHub (h_db h) (maintain_memory (h_mem h)) (h_subs h).
Definition maintain (h : Hub) : Hub :=
  maintain_over (store_update (m <- mem id ;; tx (maintain_store m)) (saveAllCursors h)).
End deliveries.
