(* ===== verification/HubWf.v ===== *)
(** Every request of the hub keeps the database and the loop's memory well
    formed. *)
From S2P Require Import Prelude Text Db StorePeople StoreRooms StoreMessages StoreGroup StoreInv StoreWf Names.
From S2P Require Import HubCore Clock Ranks People Rooms Post Commands CmdPeople CmdRooms Moderation Links.
From S2P Require Import Whispers Profile Dispatch Maintain.
Local Open Scope Z_scope.

(** ** Well-formed memory

    Presence is keyed by the entry's own identity, an entry has a link, and a
    room nobody is in has no entry at all. *)
Record mem_wf (m : Mem) : Prop := {
  mw_entry : forall room ps id e, presence m !! room = Some ps -> ps !! id = Some e ->
    pe_identity e = id /\ 0 < pe_rrcLinks e;
  mw_room : forall room ps, presence m !! room = Some ps -> ps <> ∅
}.

Definition entries_wf (ps : gmap ident PEntry) : Prop :=
  forall id e, ps !! id = Some e -> pe_identity e = id /\ 0 < pe_rrcLinks e.

Lemma mem_wf_present m room : mem_wf m -> entries_wf (present_in m room).
Proof.
  intros H id e. unfold present_in. destruct (presence m !! room) as [ps|] eqn:E; simpl.
  - by eapply mw_entry.
  - by rewrite lookup_empty.
Qed.

Lemma mem_wf_presence m p :
  (forall room ps, p !! room = Some ps -> entries_wf ps /\ ps <> ∅) -> mem_wf (set_presence p m).
Proof.
  intros H. constructor; cbn.
  - intros room ps id e Hp He. by apply (H room ps).
  - intros room ps Hp. by apply (H room ps).
Qed.

Lemma mem_wf_old m room ps : mem_wf m -> presence m !! room = Some ps -> entries_wf ps /\ ps <> ∅.
Proof. intros H Hp. split; [intros id e; by eapply mw_entry | by eapply mw_room]. Qed.

Lemma mem_wf_put_room m room ps : mem_wf m -> entries_wf ps -> mem_wf (put_room_presence room ps m).
Proof.
  intros H Hps. apply mem_wf_presence. intros r qs. case_bool_decide.
  - intros [_ Hq]%lookup_delete_Some. by eapply mem_wf_old.
  - intros [[<- <-]|[_ Hq]]%lookup_insert_Some; [done|by eapply mem_wf_old].
Qed.

Lemma entries_wf_insert ps id e :
  entries_wf ps -> pe_identity e = id -> 0 < pe_rrcLinks e -> entries_wf (<[id := e]> ps).
Proof. intros H He Hl i x [[<- <-]|[_ Hx]]%lookup_insert_Some; auto. Qed.
Lemma entries_wf_delete ps id : entries_wf ps -> entries_wf (delete id ps).
Proof. intros H i x [_ Hx]%lookup_delete_Some. auto. Qed.

Lemma mem_wf_after a m : mem_wf m -> mem_wf (apply_after a m).
Proof.
  intros H. destruct a as [room id name|room id|room id|id name|p ts|id ts]; cbn.
  - pose proof (mem_wf_present _ room H) as Hps. apply mem_wf_presence.
    intros r qs [[<- <-]|[_ Hq]]%lookup_insert_Some; [|by eapply mem_wf_old].
    split; [|apply insert_non_empty].
    apply entries_wf_insert; [done..|]. cbn. destruct (present_in m room !! id) as [e|] eqn:E; [|lia].
    apply Hps in E as [_ ?]. lia.
  - pose proof (mem_wf_present _ room H) as Hps. destruct (present_in m room !! id) as [e|] eqn:E; [|done].
    destruct (Z.leb_spec (pe_rrcLinks e - 1) 0).
    + apply mem_wf_put_room; [done|]. by apply entries_wf_delete.
    + apply Hps in E as Hwf. destruct Hwf as [Hid _]. apply mem_wf_presence.
      intros r qs [[<- <-]|[_ Hq]]%lookup_insert_Some; [|by eapply mem_wf_old].
      split; [|apply insert_non_empty]. apply entries_wf_insert; cbn; [done..|lia].
  - apply mem_wf_put_room; [done|]. apply entries_wf_delete. by apply mem_wf_present.
  - apply mem_wf_presence. intros r qs. rewrite lookup_fmap. intros (ps & Hp & ->)%fmap_Some.
    destruct (mem_wf_old _ _ _ H Hp) as [Hw Hne]. split.
    + intros i e. rewrite lookup_alter. case_decide; [subst|by apply Hw].
      intros (x & Hx & ->)%fmap_Some. by apply (Hw _ x).
    + intros He. apply Hne, map_empty. intros i.
      apply (f_equal (fun m => m !! i)) in He. rewrite lookup_alter, lookup_empty in He.
      case_decide as Hc; [|done]. apply fmap_None in He. by subst.
  - destruct H. by constructor.
  - destruct H. by constructor.
Qed.

Lemma mem_wf_run_after l m : mem_wf m -> mem_wf (run_after l m).
Proof.
  unfold run_after. revert m. induction l as [|a l IH]; intros m H; [done|]. cbn. by apply IH, mem_wf_after.
Qed.

(** ** Requests *)
Definition req_inv (I : DB -> Prop) (q : Req) : Prop := I (q_db q) /\ mem_wf (q_mem q).
Definition cmd_inv (I : DB -> Prop) (s : CState) : Prop := req_inv I (c_q s).
#[export] Instance req_weakening I : Weakening (req_inv I) :=
  {| weak q := mem_wf (q_mem q); weakens _ := @proj2 _ _ |}.
#[export] Instance cmd_weakening I : Weakening (cmd_inv I) :=
  {| weak s := mem_wf (q_mem (c_q s)); weakens _ := @proj2 _ _ |}.

(** ** What the hub asks the store to write *)
Section asks.
Context {E : Env}.
Definition sayable (body : string) : Prop := valid_string body = true /\ len body <= MaxBodyBytes cfg.
Definition postable (body : string) : Prop := trim_space body <> "" /\ sayable body.
End asks.
(** A policy that lets through all the hub writes: bans of people no owner is
    among, names [CleanName] has passed, and text within the limits. *)
Class Grants (P : Policy) (E : Env) : Prop := {
  grant_ban id : isOwner id = false -> may_ban P id;
  grant_name want n sk : CleanName want = inr (n, sk) -> may_name P n sk;
  grant_post b : postable b -> may_post P b;
  grant_whisper b : sayable b -> may_whisper P b
}.
#[export] Instance grants_anything E : Grants anything E.
Proof. by constructor. Qed.

Section lift.
Context {P : Policy} {DI : DB -> Prop} {SI : StoreInv P DI}.

Lemma pres_tx {A} (m : Tx A) : pres DI m -> pres (req_inv DI) (tx m).
Proof.
  intros Hm q [Hd Hq]. specialize (Hm _ Hd). unfold tx. destruct (m (q_db q)) as [[a|e] d]; cbn in *.
  - done.
  - destruct Hm as [Hm _]. split; [intros He; split; auto | done].
Qed.
Lemma pres_emit e : pres (req_inv DI) (emit e).
Proof. by apply pres_modify. Qed.
Lemma pres_then a : pres (req_inv DI) (then_ a).
Proof. by apply pres_modify. Qed.
Lemma pres_mem {A} (f : Mem -> A) : pres (req_inv DI) (mem f).
Proof. apply pres_gets. Qed.
Lemma pres_mem_mod f : (forall m, mem_wf m -> mem_wf (f m)) -> pres (req_inv DI) (mem_mod f).
Proof. intros Hf. apply pres_modify. intros q [Hd Hm]. split; cbn; auto. Qed.
Lemma pres_hub {A} (m : H A) : pres (req_inv DI) m -> pres (cmd_inv DI) (hub m).
Proof.
  intros Hm s Hs. specialize (Hm _ Hs). unfold hub. by destruct (m (c_q s)) as [[a|e] q].
Qed.
Lemma pres_refuse {A} text : pres (req_inv DI) (refuse (A:=A) text).
Proof. apply pres_fail. Qed.
Lemma pres_in_cmd `{E : Env} m args : pres (cmd_inv DI) m -> pres (req_inv DI) (in_cmd m args).
Proof.
  intros Hm q Hq. specialize (Hm (mkCState q args empty_reply) Hq). unfold in_cmd.
  by destruct (m _) as [[a|e] s].
Qed.

Lemma pres_set_args l : pres (cmd_inv DI) (set_args l).
Proof. by apply pres_modify. Qed.
Lemma pres_mod_reply f : pres (cmd_inv DI) (mod_reply f).
Proof. by apply pres_modify. Qed.
Lemma pres_get_args : pres (cmd_inv DI) get_args.
Proof. apply pres_gets. Qed.
Lemma pres_get_reply : pres (cmd_inv DI) get_reply.
Proof. apply pres_gets. Qed.
Lemma pres_say t : pres (cmd_inv DI) (say t).
Proof. apply pres_mod_reply. Qed.
Lemma pres_sayLines t : pres (cmd_inv DI) (sayLines t).
Proof. apply pres_mod_reply. Qed.
Lemma pres_failc t : pres (cmd_inv DI) (failc t).
Proof. apply pres_mod_reply. Qed.
End lift.

Lemma reads_tx {A} (m : Tx A) : reads m -> reads (tx m).
Proof. intros Hm q. unfold tx. specialize (Hm (q_db q)). destruct (m (q_db q)). cbn in *. subst. by destruct q. Qed.
Lemma reads_mem {A} (f : Mem -> A) : reads (mem f).
Proof. apply reads_gets. Qed.
Lemma reads_hub {A} (m : H A) : reads m -> reads (hub m).
Proof. intros Hm s. unfold hub. specialize (Hm (c_q s)). destruct (m (c_q s)). cbn in *. subst. by destruct s. Qed.
Lemma reads_refuse {A} t : reads (refuse (A:=A) t).
Proof. by intros q. Qed.

#[export] Hint Resolve reads_NameOf reads_NameBySkeleton reads_mem reads_refuse : reads.
#[export] Hint Resolve pres_emit pres_then pres_mem pres_refuse pres_set_args pres_mod_reply pres_get_args
  pres_get_reply pres_say pres_sayLines pres_failc : pres.
(** The store's queries are [gets]; its operations are in [pres]. *)
#[export] Hint Extern 2 (pres _ (tx _)) =>
  apply pres_tx; first [solve [eauto 2 with pres nocore] | apply pres_gets] : pres.
#[export] Hint Extern 2 (pres _ (hub _)) => apply pres_hub; solve [eauto 3 with pres nocore] : pres.
#[export] Hint Extern 2 (reads (tx _)) =>
  apply reads_tx; first [solve [eauto 2 with reads nocore] | apply reads_gets] : reads.
#[export] Hint Extern 2 (reads (hub _)) => apply reads_hub; solve [eauto 3 with reads nocore] : reads.

Section people.
Context {P : Policy} {DI : DB -> Prop} {SI : StoreInv P DI} {E : Env} {G : Grants P E}.
Lemma reads_person id : reads (person id).
Proof. unfold person. reads_auto. Qed.
Hint Resolve reads_person : reads.
Lemma reads_rank_of id : reads (rank_of id).
Proof. unfold rank_of. reads_auto. Qed.
Lemma reads_displayName id : reads (displayName id).
Proof. unfold displayName. reads_auto. Qed.
Lemma reads_identitiesOf id : reads (identitiesOf id).
Proof. unfold identitiesOf. reads_auto. Qed.
Hint Resolve reads_identitiesOf : reads.
Lemma reads_personOnRRC id room x : reads (personOnRRC id room x).
Proof. unfold personOnRRC. reads_auto. Qed.
Hint Resolve reads_personOnRRC : reads.
Lemma reads_lxmfPaused mode id : reads (lxmfPaused mode id).
Proof. unfold lxmfPaused. reads_auto. Qed.
Lemma reads_samePerson a b : reads (samePerson a b).
Proof. unfold samePerson. reads_auto. Qed.
Lemma reads_checkHubBan id : reads (checkHubBan id).
Proof. unfold checkHubBan. reads_auto. Qed.
Lemma reads_checkRoomBan room id : reads (checkRoomBan room id).
Proof. unfold checkRoomBan. reads_auto. Qed.
Lemma reads_mayActOnRoomTarget a t : reads (mayActOnRoomTarget a t).
Proof. unfold mayActOnRoomTarget. reads_auto. Qed.
Lemma reads_rrcPresent room id : reads (rrcPresent room id).
Proof. apply reads_mem. Qed.
Lemma reads_roomsOf id : reads (roomsOf id).
Proof. apply reads_mem. Qed.
End people.
#[export] Hint Resolve reads_person reads_rank_of reads_displayName reads_identitiesOf reads_personOnRRC
  reads_lxmfPaused reads_samePerson reads_checkHubBan reads_checkRoomBan reads_mayActOnRoomTarget
  reads_rrcPresent reads_roomsOf : reads.
(** A query of the hub keeps everything. *)
#[export] Hint Extern 3 (pres _ _) => apply reads_pres; solve [eauto 2 with reads nocore] : pres.

Section people_pres.
Context {P : Policy} {DI : DB -> Prop} {SI : StoreInv P DI} {E : Env} {G : Grants P E}.
Lemma pres_identify id pk : pres (req_inv DI) (identify id pk).
Proof. unfold identify. pres_auto. Qed.
Lemma pres_claimName id want : pres (req_inv DI) (claimName id want).
Proof.
  unfold claimName. pres_step; [pres_step|]. intros. destruct (CleanName want) as [ne|[clean sk]] eqn:Hclean; [pres_step|].
  case_match; [pres_step|]. pres_step; [|pres_auto].
  apply pres_handle; [apply pres_tx, inv_ClaimName; by eapply grant_name|..].
  - intros []; pres_auto.
  - by intros [] s He.
Qed.
Hint Resolve pres_claimName : pres.
Lemma pres_lxmfPauseChanged id w n : pres (req_inv DI) (lxmfPauseChanged id w n).
Proof. unfold lxmfPauseChanged. pres_auto. Qed.
Hint Resolve pres_lxmfPauseChanged : pres.
Lemma pres_autoPauseChanged id p : pres (req_inv DI) (autoPauseChanged id p).
Proof. unfold autoPauseChanged. pres_auto. Qed.
Lemma pres_setLXMFMode id m : pres (req_inv DI) (setLXMFMode id m).
Proof. unfold setLXMFMode. pres_auto. Qed.
Lemma pres_setLXMFMine id b : pres (req_inv DI) (setLXMFMine id b).
Proof. unfold setLXMFMine. pres_auto. Qed.
Lemma pres_leaveGroup id : pres (req_inv DI) (leaveGroup id).
Proof. unfold leaveGroup. pres_auto. Qed.
Lemma pres_unlinkAll id : pres (req_inv DI) (unlinkAll id).
Proof. unfold unlinkAll. pres_auto. Qed.
Hint Resolve pres_unlinkAll : pres.
Lemma pres_forget id : pres (req_inv DI) (forget id).
Proof. unfold forget. pres_auto. Qed.
Lemma pres_joinGroup id name : pres (req_inv DI) (joinGroup id name).
Proof. unfold joinGroup. pres_auto. Qed.
Lemma pres_markRead id room via m : pres (req_inv DI) (markRead id room via m).
Proof. unfold markRead. pres_auto. Qed.
End people_pres.
#[export] Hint Resolve pres_identify pres_claimName pres_lxmfPauseChanged pres_autoPauseChanged pres_setLXMFMode
  pres_setLXMFMine pres_leaveGroup pres_unlinkAll pres_forget pres_joinGroup pres_markRead : pres.

(** ** rooms.go *)
Section rooms.
Context {P : Policy} {DI : DB -> Prop} {SI : StoreInv P DI} {E : Env} {G : Grants P E}.
Lemma reads_normRoom n : reads (normRoom n).
Proof. unfold normRoom. reads_auto. Qed.
Lemma reads_isRoomOp r id : reads (isRoomOp r id).
Proof. unfold isRoomOp. reads_auto. Qed.
Hint Resolve reads_normRoom reads_isRoomOp : reads.
Lemma reads_mayReadRoom r id : reads (mayReadRoom r id).
Proof. unfold mayReadRoom. reads_auto. Qed.
Lemma reads_isVoiced r id : reads (isVoiced r id).
Proof. unfold isVoiced. reads_auto. Qed.
Lemma reads_add_group g m : reads (add_group g m).
Proof. revert m. induction g as [|x g IH]; intros m; cbn; reads_auto. Qed.
Lemma reads_by_person ms bp out : reads (by_person ms bp out).
Proof. revert bp out. induction ms as [|x ms IH]; intros bp out; cbn; reads_auto. Qed.
Hint Resolve reads_add_group reads_by_person : reads.
Lemma reads_members_in room : reads (members_in room).
Proof. unfold members_in. reads_auto. Qed.
Hint Resolve reads_members_in : reads.
Lemma reads_membersAfterJoin room id name : reads (membersAfterJoin room id name).
Proof. unfold membersAfterJoin. reads_auto. Qed.
Lemma reads_catchUp id room : reads (catchUp id room).
Proof. unfold catchUp. reads_auto. Qed.
Lemma reads_join_gate room r id key : reads (join_gate room r id key).
Proof. unfold join_gate. reads_auto. Qed.
End rooms.
#[export] Hint Resolve reads_normRoom reads_isRoomOp reads_mayReadRoom reads_isVoiced reads_members_in
  reads_membersAfterJoin reads_catchUp reads_join_gate : reads.

Section rooms_pres.
Context {P : Policy} {DI : DB -> Prop} {SI : StoreInv P DI} {E : Env} {G : Grants P E}.
Lemma pres_first_link id room name : pres (req_inv DI) (first_link id room name).
Proof. unfold first_link. pres_auto. Qed.
Hint Resolve pres_first_link : pres.
Lemma pres_join req : pres (req_inv DI) (join req).
Proof. unfold join. pres_auto. Qed.
Lemma pres_forgetEmptyRoom room id : pres (req_inv DI) (forgetEmptyRoom room id).
Proof. unfold forgetEmptyRoom. pres_auto. Qed.
Hint Resolve pres_forgetEmptyRoom : pres.
Lemma pres_last_link id room name : pres (req_inv DI) (last_link id room name).
Proof. unfold last_link. pres_auto. Qed.
Hint Resolve pres_last_link : pres.
Lemma pres_part id room : pres (req_inv DI) (part id room).
Proof. unfold part. pres_auto. Qed.
Hint Resolve pres_part : pres.
Lemma pres_part_room id room : pres (req_inv DI) (part_room id room).
Proof. unfold part_room. pres_auto. Qed.
Lemma pres_save_all_cursors : pres (req_inv DI) save_all_cursors.
Proof. unfold save_all_cursors. pres_auto. Qed.
Lemma pres_ensure_default_rooms : pres DI ensure_default_rooms.
Proof.
  apply pres_foreach. intros rc. unfold ensure_room. apply pres_bind; [apply pres_gets|]. pres_auto.
Qed.
End rooms_pres.
#[export] Hint Resolve pres_join pres_part pres_part_room pres_save_all_cursors : pres.

(** ** post.go *)
Section post.
Context {P : Policy} {DI : DB -> Prop} {SI : StoreInv P DI} {E : Env} {G : Grants P E}.
Lemma reads_select_members f l : (forall m, reads (f m)) -> reads (select_members f l).
Proof. intros Hf. induction l as [|m l IH]; cbn; reads_auto. Qed.
Lemma reads_lxmf_gets a via m : reads (lxmf_gets a via m).
Proof. unfold lxmf_gets. reads_auto. Qed.
Lemma reads_lxmfRecipients a via : reads (lxmfRecipients a via).
Proof.
  unfold lxmfRecipients. apply reads_bind; [reads_auto|]. intros ms. apply reads_select_members.
  intros m. apply reads_lxmf_gets.
Qed.
Lemma reads_via_gate via id room r : reads (via_gate via id room r).
Proof. unfold via_gate. reads_auto. Qed.
Lemma reads_voice_gate r id : reads (voice_gate r id).
Proof. unfold voice_gate. reads_auto. Qed.
Lemma reads_body_gate b : reads (body_gate b).
Proof. unfold body_gate. reads_auto. Qed.
End post.
#[export] Hint Resolve reads_lxmfRecipients reads_via_gate reads_voice_gate reads_body_gate : reads.

Lemma mem_wf_set_rate m x : mem_wf m -> mem_wf (set_rate x m).
Proof. intros []. by constructor. Qed.
Lemma mem_wf_set_historyAt m x : mem_wf m -> mem_wf (set_historyAt x m).
Proof. intros []. by constructor. Qed.
Lemma mem_wf_set_linkIssued m x : mem_wf m -> mem_wf (set_linkIssued x m).
Proof. intros []. by constructor. Qed.
Lemma mem_wf_set_linkFailures m x : mem_wf m -> mem_wf (set_linkFailures x m).
Proof. intros []. by constructor. Qed.
Lemma mem_wf_count m f : mem_wf m -> mem_wf (count f m).
Proof. intros []. by constructor. Qed.
#[export] Hint Extern 2 (pres _ (mem_mod _)) =>
  apply pres_mem_mod; intros; first [apply mem_wf_count | apply mem_wf_set_rate | apply mem_wf_set_historyAt
    | apply mem_wf_set_linkIssued | apply mem_wf_set_linkFailures]; assumption : pres.

Section post_pres.
Context {P : Policy} {DI : DB -> Prop} {SI : StoreInv P DI} {E : Env} {G : Grants P E}.
Lemma pres_allowPost id : pres (req_inv DI) (allowPost id).
Proof. unfold allowPost. pres_auto. Qed.
Hint Resolve pres_allowPost : pres.
Lemma pres_rate_gate id : pres (req_inv DI) (rate_gate id).
Proof. unfold rate_gate. pres_auto. Qed.
Hint Resolve pres_rate_gate : pres.
Lemma pres_post_gates req : pres (req_inv DI) (post_gates req).
Proof. unfold post_gates. pres_auto. Qed.
Hint Resolve pres_post_gates : pres.
Lemma pres_queue_copies id via room k : pres (req_inv DI) (queue_copies id via room k).
Proof. unfold queue_copies. pres_auto. Qed.
Hint Resolve pres_queue_copies : pres.
Lemma body_gate_ok body q u q' : body_gate body q = (Ok u, q') -> postable body.
Proof.
  unfold body_gate, postable, sayable. case_bool_decide; [done|]. destruct (valid_string body); [|done]. cbn.
  destruct (Z.ltb_spec (MaxBodyBytes cfg) (len body)); [done|]. auto.
Qed.
Lemma post_gates_body req q rr q' : post_gates req q = (Ok rr, q') -> postable (post_body req).
Proof.
  unfold post_gates. intros Hr. apply bind_ok in Hr as (room & q1 & _ & Hr). apply bind_ok in Hr as (u & q2 & Hb & _).
  by eapply body_gate_ok.
Qed.
Lemma pres_post req : pres (req_inv DI) (post req).
Proof.
  unfold post. apply (pres_bind_post _ (fun _ => postable (post_body req))); [pres_step|apply post_gates_body|].
  intros [room r] Hb. do 2 (apply pres_bind; [pres_step|intros ?]).
  apply pres_bind; [|intros [k []]; pres_auto]. apply pres_tx, inv_AddMessage. by apply grant_post.
Qed.
Lemma pres_history id room n b : pres (req_inv DI) (history id room n b).
Proof. unfold history. pres_auto. Qed.
End post_pres.
#[export] Hint Resolve pres_allowPost pres_rate_gate pres_post pres_history : pres.

(** ** Commands *)
Section commands.
Context {P : Policy} {DI : DB -> Prop} {SI : StoreInv P DI} {E : Env} {G : Grants P E}.
Lemma reads_candidates : reads candidates.
Proof. unfold candidates. reads_auto. Qed.
Hint Resolve reads_candidates : reads.
Lemma reads_resolve_prefix t p : reads (resolve_prefix t p).
Proof. unfold resolve_prefix. reads_auto. Qed.
Hint Resolve reads_resolve_prefix : reads.
Lemma reads_resolve_short t : reads (resolve_short t).
Proof. unfold resolve_short. reads_auto. Qed.
Hint Resolve reads_resolve_short : reads.
Lemma reads_resolve_name t : reads (resolve_name t).
Proof. unfold resolve_name. reads_auto. Qed.
Hint Resolve reads_resolve_name : reads.
Lemma reads_resolve t : reads (resolve t).
Proof. unfold resolve. reads_auto. Qed.
End commands.
#[export] Hint Resolve reads_resolve : reads.

Section commands_pres.
Context {P : Policy} {DI : DB -> Prop} {SI : StoreInv P DI} {E : Env} {G : Grants P E} {c : Cmd}.
Lemma pres_usage : pres (cmd_inv DI) usage.
Proof. apply pres_failc. Qed.
Hint Resolve pres_usage : pres.
Lemma pres_takeTarget b : pres (cmd_inv DI) (takeTarget b).
Proof. unfold takeTarget. pres_auto. Qed.
Lemma pres_resolveOrFail t : pres (cmd_inv DI) (resolveOrFail t).
Proof. unfold resolveOrFail. pres_auto. Qed.
Hint Resolve pres_resolveOrFail : pres.
Lemma pres_targetPerson t a : pres (cmd_inv DI) (targetPerson t a).
Proof. unfold targetPerson. pres_auto. Qed.
Lemma pres_cmdHelp : pres (cmd_inv DI) cmdHelp.
Proof. unfold cmdHelp, help_page, helpOne. pres_auto. Qed.
End commands_pres.
#[export] Hint Resolve pres_usage pres_takeTarget pres_resolveOrFail pres_targetPerson pres_cmdHelp : pres.

(** ** cmd_people.go *)
Section cmd_people.
Context {P : Policy} {DI : DB -> Prop} {SI : StoreInv P DI} {E : Env} {G : Grants P E} {c : Cmd}.
Lemma pres_lxmfJoinHowTo : pres (cmd_inv DI) lxmfJoinHowTo.
Proof. apply pres_say. Qed.
Hint Resolve pres_lxmfJoinHowTo : pres.
Lemma pres_join_lxmf name : pres (cmd_inv DI) (join_lxmf name).
Proof. unfold join_lxmf. pres_auto. Qed.
Hint Resolve pres_join_lxmf : pres.
Lemma pres_cmdJoin : pres (cmd_inv DI) cmdJoin.
Proof. unfold cmdJoin. pres_auto. Qed.
Lemma pres_cmdLeave : pres (cmd_inv DI) cmdLeave.
Proof. unfold cmdLeave, set_part_room. pres_auto. Qed.
Lemma pres_cmdForget : pres (cmd_inv DI) cmdForget.
Proof. unfold cmdForget. pres_auto. Qed.
Lemma pres_cmdNick : pres (cmd_inv DI) cmdNick.
Proof. unfold cmdNick. pres_auto. Qed.
Lemma pres_cmdMe : pres (cmd_inv DI) cmdMe.
Proof. unfold cmdMe. pres_auto. Qed.
Lemma pres_describeMode p : pres (cmd_inv DI) (describeMode p).
Proof. unfold describeMode. pres_auto. Qed.
Hint Resolve pres_describeMode : pres.
Lemma pres_cmdWhoami : pres (cmd_inv DI) cmdWhoami.
Proof. unfold cmdWhoami. pres_auto. Qed.
Lemma pres_cmdLXMF : pres (cmd_inv DI) cmdLXMF.
Proof. unfold cmdLXMF, lxmf_mode, lxmf_mine, notMemberYet. pres_auto. Qed.
End cmd_people.
#[export] Hint Resolve pres_cmdJoin pres_cmdLeave pres_cmdForget pres_cmdNick pres_cmdMe pres_cmdWhoami pres_cmdLXMF : pres.

(** ** cmd_rooms.go *)
Section cmd_rooms.
Context {P : Policy} {DI : DB -> Prop} {SI : StoreInv P DI} {E : Env} {G : Grants P E} {c : Cmd}.
Lemma pres_forgetPresence room id : pres (req_inv DI) (forgetPresence room id).
Proof. unfold forgetPresence. pres_auto. Qed.
Hint Resolve pres_forgetPresence : pres.
Lemma pres_who_members room : pres (cmd_inv DI) (who_members room).
Proof. unfold who_members. pres_auto. Qed.
Hint Resolve pres_who_members : pres.
Lemma pres_cmdWho : pres (cmd_inv DI) cmdWho.
Proof. unfold cmdWho. pres_auto. Qed.
Lemma pres_cmdList : pres (cmd_inv DI) cmdList.
Proof. unfold cmdList. pres_auto. Qed.
Lemma pres_show_history room n : pres (cmd_inv DI) (show_history room n).
Proof. unfold show_history. pres_auto. Qed.
Hint Resolve pres_show_history : pres.
Lemma pres_cmdHistory : pres (cmd_inv DI) cmdHistory.
Proof. unfold cmdHistory. pres_auto. Qed.
Lemma pres_set_topic room r t : pres (cmd_inv DI) (set_topic room r t).
Proof. unfold set_topic. pres_auto. Qed.
Hint Resolve pres_set_topic : pres.
Lemma pres_cmdTopic : pres (cmd_inv DI) cmdTopic.
Proof. unfold cmdTopic. pres_auto. Qed.
Lemma pres_roomUsageFail v : pres (cmd_inv DI) (roomUsageFail v).
Proof. apply pres_failc. Qed.
Hint Resolve pres_roomUsageFail : pres.
Lemma pres_with_one_arg v k : (forall a, pres (cmd_inv DI) (k a)) -> pres (cmd_inv DI) (with_one_arg v k).
Proof. intros Hk. unfold with_one_arg. pres_auto. Qed.
Lemma pres_with_op room k : (forall r, pres (cmd_inv DI) (k r)) -> pres (cmd_inv DI) (with_op room k).
Proof. intros Hk. unfold with_op, opRoom. pres_auto. Qed.
Lemma pres_with_target t k : (forall id, pres (cmd_inv DI) (k id)) -> pres (cmd_inv DI) (with_target t k).
Proof. intros Hk. unfold with_target. pres_auto. Qed.
Ltac args_step := first [apply pres_with_one_arg | apply pres_with_op | apply pres_with_target]; intros.
Lemma pres_roomKick v room : pres (cmd_inv DI) (roomKick v room).
Proof. unfold roomKick. repeat args_step. pres_auto. Qed.
Lemma pres_add_room_ban room t name : pres (req_inv DI) (add_room_ban room t name).
Proof. unfold add_room_ban. pres_auto. Qed.
Hint Resolve pres_add_room_ban : pres.
Lemma pres_list_bans room : pres (cmd_inv DI) (list_bans room).
Proof. unfold list_bans. pres_auto. Qed.
Hint Resolve pres_list_bans : pres.
Lemma pres_roomBan v room : pres (cmd_inv DI) (roomBan v room).
Proof. unfold roomBan. repeat first [args_step | pres_step]. Qed.
Lemma pres_list_invites r : pres (cmd_inv DI) (list_invites r).
Proof. unfold list_invites. pres_auto. Qed.
Hint Resolve pres_list_invites : pres.
Lemma pres_invite r a t : pres (cmd_inv DI) (invite r a t).
Proof. unfold invite. pres_auto. Qed.
Hint Resolve pres_invite : pres.
Lemma pres_roomInvite v room : pres (cmd_inv DI) (roomInvite v room).
Proof. unfold roomInvite. repeat first [args_step | pres_step]. Qed.
Lemma pres_setRole r v t : pres (cmd_inv DI) (setRole r v t).
Proof. unfold setRole. pres_auto. Qed.
Hint Resolve pres_setRole : pres.
Lemma pres_roomRole v room : pres (cmd_inv DI) (roomRole v room).
Proof. unfold roomRole. repeat first [args_step | pres_step]. Qed.
Lemma pres_put_mode r : pres (cmd_inv DI) (put_mode r).
Proof. unfold put_mode. pres_auto. Qed.
Hint Resolve pres_put_mode : pres.
Lemma pres_mode_role r f rest : pres (cmd_inv DI) (mode_role r f rest).
Proof. unfold mode_role. repeat first [args_step | pres_step]. Qed.
Hint Resolve pres_mode_role : pres.
Lemma pres_roomMode room : pres (cmd_inv DI) (roomMode room).
Proof. unfold roomMode. repeat first [args_step | pres_step]. Qed.
Lemma pres_roomRegister v room : pres (cmd_inv DI) (roomRegister v room).
Proof. unfold roomRegister, register_room, unregister_room. pres_auto. Qed.
Hint Resolve pres_roomKick pres_roomBan pres_roomInvite pres_roomRole pres_roomMode pres_roomRegister : pres.
Lemma pres_roomVerb v room : pres (cmd_inv DI) (roomVerb v room).
Proof. unfold roomVerb. pres_auto. Qed.
Hint Resolve pres_roomVerb : pres.
Lemma pres_cmdRoom : pres (cmd_inv DI) cmdRoom.
Proof. unfold cmdRoom. pres_auto. Qed.
Lemma pres_legacyRoom v : pres (cmd_inv DI) (legacyRoom v).
Proof. unfold legacyRoom. pres_auto. Qed.
End cmd_rooms.
#[export] Hint Resolve pres_forgetPresence pres_cmdWho pres_cmdList pres_cmdHistory pres_cmdTopic pres_cmdRoom
  pres_legacyRoom : pres.

(** ** moderation.go *)
Lemma pres_lift_bans {P DI} `{!StoreInv P DI} now l bs : pres DI (lift_bans now l bs).
Proof. revert l. induction bs as [|b bs IH]; intros l; cbn; pres_auto. Qed.
Lemma pres_liftExpiredBans {P DI} `{!StoreInv P DI} now : pres DI (liftExpiredBans now).
Proof. apply pres_bind; [apply pres_gets|]. intros. by apply pres_lift_bans. Qed.

Section moderation.
Context {P : Policy} {DI : DB -> Prop} {SI : StoreInv P DI} {E : Env} {G : Grants P E}.
Lemma pres_remove_app name why b id : pres (req_inv DI) (remove_app name why b id).
Proof. unfold remove_app. pres_auto. Qed.
Hint Resolve pres_remove_app : pres.
Lemma pres_removeEverywhere t why b : pres (req_inv DI) (removeEverywhere t why b).
Proof. unfold removeEverywhere. pres_auto. Qed.
Lemma pres_deleteMessages a t ms : pres (req_inv DI) (deleteMessages a t ms).
Proof. unfold deleteMessages. pres_auto. Qed.
Hint Resolve pres_deleteMessages : pres.
Lemma pres_delete_message_by a k : pres (req_inv DI) (delete_message_by a k).
Proof. unfold delete_message_by. pres_auto. Qed.
End moderation.
#[export] Hint Resolve pres_removeEverywhere pres_deleteMessages pres_delete_message_by : pres.

(** [person] says [RankOwner] of everyone one of whose apps is an owner's. *)
Definition rank_seen `{E : Env} (p : Person) : Prop :=
  p_PersonRank p <> RankOwner -> forall id, id ∈ p_Identities p -> isOwner id = false.

Section ranks_seen.
Context {E : Env}.
Lemma personRank_owner ids st :
  personRank ids st <> RankOwner -> forall i, i ∈ ids -> isOwner (Identity_ID i) = false.
Proof.
  unfold personRank. destruct (existsb _ ids) eqn:Ex; [done|]. intros _ i Hi.
  apply not_true_iff_false. intros Ho. apply not_true_iff_false in Ex. apply Ex, existsb_exists.
  exists i. by rewrite <- list_elem_of_In.
Qed.
Lemma identityRank_owner id st b : identityRank id st b <> RankOwner -> isOwner id = false.
Proof. unfold identityRank. by destruct (isOwner id). Qed.
Lemma person_rank_seen id q p q' : person id q = (Ok p, q') -> rank_seen p.
Proof.
  unfold person. intros Hp. apply bind_ok in Hp as (i & q1 & _ & Hp). destruct i as [i|].
  2:{ injection Hp as <- _. unfold rank_seen. cbn. intros Hr x ->%list_elem_of_singleton. by eapply identityRank_owner. }
  apply bind_ok in Hp as (sp & q2 & _ & Hp). apply bind_ok in Hp as (p0 & q3 & Hp0 & Hp).
  assert (rank_seen p0) as H0.
  { destruct sp as [sp|].
    - apply bind_ok in Hp0 as (ids & q4 & _ & Hp0). injection Hp0 as <- _. unfold rank_seen. cbn.
      intros Hr x (y & -> & Hy)%list_elem_of_fmap. by eapply personRank_owner.
    - injection Hp0 as <- _. unfold rank_seen. cbn. intros Hr x ->%list_elem_of_singleton. by eapply identityRank_owner. }
  apply bind_ok in Hp as (n & q5 & _ & Hp). apply bind_ok in Hp as (m & q6 & _ & Hp).
  by destruct n as [n|]; injection Hp as <- _.
Qed.
Lemma targetPerson_ok `{c : Cmd} t a s p s' :
  targetPerson t a s = (Ok (Some p), s') -> may c_me a (Some p) = None /\ rank_seen p.
Proof.
  unfold targetPerson. intros Ht. apply bind_ok in Ht as ([id|] & s1 & _ & Ht); [|done].
  apply bind_ok in Ht as (p1 & s2 & Hp & Ht). destruct (may c_me a (Some p1)) eqn:Hm.
  - apply bind_ok in Ht as (? & ? & _ & [=]).
  - injection Ht as -> _. split; [done|]. unfold hub in Hp. destruct (person id (c_q s1)) as [[p2|e] q] eqn:Ep; [|done].
    injection Hp as -> _. by eapply person_rank_seen.
Qed.
Lemma may_ban_not_owner actor t : may actor ActBan (Some t) = None -> p_PersonRank t <> RankOwner.
Proof.
  unfold may. cbn. case_match; [done|]. case_match; [done|]. by case_bool_decide.
Qed.
End ranks_seen.

Section moderation_commands.
Context {P : Policy} {DI : DB -> Prop} {SI : StoreInv P DI} {E : Env} {G : Grants P E} {c : Cmd}.
Lemma pres_with_person_ok t a k :
  (forall p, may c_me a (Some p) = None -> rank_seen p -> pres (cmd_inv DI) (k p)) -> pres (cmd_inv DI) (with_person t a k).
Proof.
  intros Hk. unfold with_person.
  apply (pres_bind_post _ (fun o => forall p, o = Some p -> may c_me a (Some p) = None /\ rank_seen p)); [pres_step| |].
  - intros s o s' Ho p ->. by eapply targetPerson_ok.
  - intros [p|] Hp; [|pres_step]. by apply Hk; apply Hp.
Qed.
Lemma pres_with_person t a k : (forall p, pres (cmd_inv DI) (k p)) -> pres (cmd_inv DI) (with_person t a k).
Proof. intros Hk. by apply pres_with_person_ok. Qed.
Lemma pres_audit_me a t d : pres (cmd_inv DI) (audit_me a t d).
Proof. unfold audit_me. pres_auto. Qed.
Hint Resolve pres_audit_me : pres.
Ltac person_step := first [apply pres_with_person | apply pres_with_target]; intros.
Ltac cmd_auto := repeat first [person_step | pres_step].
Lemma pres_cmdKick : pres (cmd_inv DI) cmdKick.
Proof. unfold cmdKick. cmd_auto. Qed.
Lemma pres_isLegacyRoomKick : pres (cmd_inv DI) isLegacyRoomKick.
Proof. unfold isLegacyRoomKick. cmd_auto. Qed.
Lemma pres_ban_person t l r : may c_me ActBan (Some t) = None -> rank_seen t -> pres (cmd_inv DI) (ban_person t l r).
Proof.
  intros Hmay Hr. unfold ban_person. pres_step; [|cmd_auto]. apply pres_hub, pres_foreach_in. intros id Hid.
  apply pres_tx, inv_AddBan, grant_ban. cbn. apply Hr; [|done]. by eapply may_ban_not_owner.
Qed.
Lemma pres_cmdBan : pres (cmd_inv DI) cmdBan.
Proof.
  unfold cmdBan. apply pres_bind; [pres_step|]. intros [|tok rest]; [pres_step|]. apply pres_with_person_ok. intros p Hm Hr.
  repeat case_match; by apply pres_ban_person.
Qed.
Lemma pres_unban_all t l : pres (cmd_inv DI) (unban_all t l).
Proof. unfold unban_all. cmd_auto. Qed.
Hint Resolve pres_unban_all : pres.
Lemma pres_cmdUnban : pres (cmd_inv DI) cmdUnban.
Proof. unfold cmdUnban. cmd_auto. Qed.
Lemma reads_ban_line g : reads (ban_line g).
Proof. unfold ban_line. reads_auto. Qed.
Hint Resolve reads_ban_line : reads.
Lemma pres_cmdBans : pres (cmd_inv DI) cmdBans.
Proof. unfold cmdBans. cmd_auto. Qed.
Hint Resolve pres_cmdBan pres_cmdUnban pres_cmdBans : pres.
Lemma pres_cmdKline : pres (cmd_inv DI) cmdKline.
Proof. unfold cmdKline. cmd_auto. Qed.
Lemma pres_notices {A} (l : list A) f g : (forall a, g a = emit (f a)) -> pres (cmd_inv DI) (hub (foreach l g)).
Proof. intros Hg. apply pres_hub, pres_foreach. intros a. rewrite Hg. apply pres_emit. Qed.
Ltac notices := eapply pres_notices; intros; reflexivity.
Lemma pres_cmdRename : pres (cmd_inv DI) cmdRename.
Proof. unfold cmdRename. repeat first [notices | person_step | pres_step]. Qed.
Lemma pres_cmdMakeRank r a : pres (cmd_inv DI) (cmdMakeRank r a).
Proof. unfold cmdMakeRank. repeat first [notices | person_step | pres_step]. Qed.
Lemma pres_cmdDemote : pres (cmd_inv DI) cmdDemote.
Proof. unfold cmdDemote. repeat first [notices | person_step | pres_step]. Qed.
Lemma reads_audit_line e : reads (audit_line e).
Proof. unfold audit_line. reads_auto. Qed.
Hint Resolve reads_audit_line : reads.
Lemma pres_cmdModlog : pres (cmd_inv DI) cmdModlog.
Proof. unfold cmdModlog, show_modlog. cmd_auto. Qed.
Lemma pres_cmdDelete : pres (cmd_inv DI) cmdDelete.
Proof. unfold cmdDelete, delete_last. cmd_auto. Qed.
End moderation_commands.
#[export] Hint Resolve pres_audit_me pres_cmdKick pres_isLegacyRoomKick pres_cmdBan pres_cmdUnban pres_cmdBans
  pres_cmdKline pres_cmdRename pres_cmdMakeRank pres_cmdDemote pres_cmdModlog pres_cmdDelete : pres.

(** ** links.go *)
Section links.
Context {P : Policy} {DI : DB -> Prop} {SI : StoreInv P DI} {E : Env} {G : Grants P E}.
Lemma pres_link id t via : pres (req_inv DI) (link id t via).
Proof. unfold link. pres_auto. Qed.
Lemma reads_personByID p k : reads (personByID p k).
Proof. unfold personByID. reads_auto. Qed.
Lemma reads_linked_apps id : reads (linked_apps id).
Proof. unfold linked_apps. reads_auto. Qed.
End links.
#[export] Hint Resolve pres_link : pres.
#[export] Hint Resolve reads_personByID reads_linked_apps : reads.

Section links_commands.
Context {P : Policy} {DI : DB -> Prop} {SI : StoreInv P DI} {E : Env} {G : Grants P E} {c : Cmd}.
Ltac notices := eapply pres_notices; intros; reflexivity.
Lemma pres_linkIssue : pres (cmd_inv DI) linkIssue.
Proof. unfold linkIssue. pres_auto. Qed.
Lemma pres_link_failures : pres (cmd_inv DI) link_failures.
Proof. unfold link_failures. pres_auto. Qed.
Hint Resolve pres_link_failures : pres.
Lemma pres_badCode : pres (cmd_inv DI) badCode.
Proof. unfold badCode. pres_auto. Qed.
Hint Resolve pres_badCode : pres.
Lemma pres_redeem lc code b : pres (cmd_inv DI) (redeem lc code b).
Proof. unfold redeem, ask_approval. repeat first [notices | pres_step]. Qed.
Hint Resolve pres_redeem : pres.
Lemma pres_linkRedeem code b : pres (cmd_inv DI) (linkRedeem code b).
Proof. unfold linkRedeem. pres_auto. Qed.
Lemma pres_linkDecide a w : pres (cmd_inv DI) (linkDecide a w).
Proof. unfold linkDecide, approve_link, deny_link. pres_auto. Qed.
Hint Resolve pres_linkIssue pres_linkRedeem pres_linkDecide : pres.
Lemma pres_cmdLink : pres (cmd_inv DI) cmdLink.
Proof. unfold cmdLink. pres_auto. Qed.
Lemma reads_device_line i : reads (device_line i).
Proof. unfold device_line. reads_auto. Qed.
Hint Resolve reads_device_line : reads.
Lemma pres_list_devices p : pres (cmd_inv DI) (list_devices p).
Proof. unfold list_devices. pres_auto. Qed.
Hint Resolve pres_list_devices : pres.
Lemma pres_cmdDevices : pres (cmd_inv DI) cmdDevices.
Proof. unfold cmdDevices. pres_auto. Qed.
Lemma pres_unlink_target t : pres (cmd_inv DI) (unlink_target t).
Proof.
  unfold unlink_target. pres_step; [pres_step|]. intros. repeat first [pres_step | apply pres_hub].
Qed.
Hint Resolve pres_unlink_target : pres.
Lemma pres_cmdUnlink : pres (cmd_inv DI) cmdUnlink.
Proof. unfold cmdUnlink. pres_auto. Qed.
End links_commands.
#[export] Hint Resolve pres_cmdLink pres_cmdDevices pres_cmdUnlink : pres.

(** ** whispers.go *)
Section whispers.
Context {P : Policy} {DI : DB -> Prop} {SI : StoreInv P DI} {E : Env} {G : Grants P E}.
Lemma reads_any_banned l : reads (any_banned l).
Proof. unfold any_banned. reads_auto. Qed.
Lemma reads_personName p : reads (personName p).
Proof. unfold personName. reads_auto. Qed.
Lemma pres_whisper_inbox id n : pres (req_inv DI) (whisper_inbox id n).
Proof. unfold whisper_inbox. pres_auto. Qed.
End whispers.
#[export] Hint Resolve reads_any_banned reads_personName : reads.
#[export] Hint Resolve pres_whisper_inbox : pres.

Section whispers_commands.
Context {P : Policy} {DI : DB -> Prop} {SI : StoreInv P DI} {E : Env} {G : Grants P E} {c : Cmd}.
Lemma pres_queue_whisper w l : pres (req_inv DI) (queue_whisper w l).
Proof. induction l as [|a l IH]; cbn; pres_auto. Qed.
Hint Resolve pres_queue_whisper : pres.
Lemma pres_send_whisper to b : sayable b -> pres (cmd_inv DI) (send_whisper to b).
Proof.
  intros Hb. unfold send_whisper. pres_step; [|pres_auto]. apply pres_hub, pres_tx, inv_AddWhisper. by apply grant_whisper.
Qed.
Lemma pres_whisperTo t b : pres (cmd_inv DI) (whisperTo t b).
Proof.
  unfold whisperTo, whisper_to_person. destruct (valid_string (trim_space b)) eqn:Hv; [|pres_auto]. cbn.
  destruct (Z.ltb_spec (MaxBodyBytes cfg) (len (trim_space b))); [pres_auto|].
  assert (forall to, pres (cmd_inv DI) (send_whisper to (trim_space b))) by (intros to; by apply pres_send_whisper).
  pres_auto.
Qed.
Hint Resolve pres_whisperTo : pres.
Lemma pres_cmdWhisper : pres (cmd_inv DI) cmdWhisper.
Proof. unfold cmdWhisper. pres_auto. Qed.
Lemma pres_cmdReply : pres (cmd_inv DI) cmdReply.
Proof. unfold cmdReply. pres_auto. Qed.
Lemma pres_cmdWhispers : pres (cmd_inv DI) cmdWhispers.
Proof. unfold cmdWhispers. pres_auto. Qed.
Lemma pres_cmdIgnore : pres (cmd_inv DI) cmdIgnore.
Proof. unfold cmdIgnore. repeat first [apply pres_with_target; intros | pres_step]. Qed.
Lemma pres_cmdUnignore : pres (cmd_inv DI) cmdUnignore.
Proof. unfold cmdUnignore. repeat first [apply pres_with_target; intros | pres_step]. Qed.
Lemma pres_cmdIgnored : pres (cmd_inv DI) cmdIgnored.
Proof. unfold cmdIgnored. pres_auto. Qed.
End whispers_commands.
#[export] Hint Resolve pres_cmdWhisper pres_cmdReply pres_cmdWhispers pres_cmdIgnore pres_cmdUnignore pres_cmdIgnored : pres.

(** ** profile.go *)
Section profile.
Context {P : Policy} {DI : DB -> Prop} {SI : StoreInv P DI} {E : Env} {G : Grants P E}.
Lemma reads_app_facts a : reads (app_facts a).
Proof. unfold app_facts. reads_auto. Qed.
Hint Resolve reads_app_facts : reads.
Lemma reads_profile id n : reads (profile id n).
Proof. unfold profile. reads_auto. Qed.
Lemma pres_set_prefs id f : pres (req_inv DI) (set_prefs id f).
Proof. unfold set_prefs. pres_auto. Qed.
End profile.
#[export] Hint Resolve reads_profile : reads.
#[export] Hint Resolve pres_set_prefs : pres.

Section profile_commands.
Context {P : Policy} {DI : DB -> Prop} {SI : StoreInv P DI} {E : Env} {G : Grants P E} {c : Cmd}.
Lemma pres_show_profile id : pres (cmd_inv DI) (show_profile id).
Proof. unfold show_profile. pres_auto. Qed.
Hint Resolve pres_show_profile : pres.
Lemma pres_cmdProfile : pres (cmd_inv DI) cmdProfile.
Proof. unfold cmdProfile. pres_auto. Qed.
Lemma pres_cmdShare : pres (cmd_inv DI) cmdShare.
Proof. unfold cmdShare. pres_auto. Qed.
Lemma pres_save_page p : pres (cmd_inv DI) (save_page p).
Proof. unfold save_page. pres_auto. Qed.
Hint Resolve pres_save_page : pres.
Lemma pres_cmdPage : pres (cmd_inv DI) cmdPage.
Proof. unfold cmdPage. pres_auto. Qed.
Lemma pres_cmdRelease : pres (cmd_inv DI) cmdRelease.
Proof. unfold cmdRelease. pres_auto. Qed.
Lemma pres_cmdStats subs : pres (cmd_inv DI) (cmdStats subs).
Proof. unfold cmdStats. pres_auto. Qed.
End profile_commands.
#[export] Hint Resolve pres_cmdProfile pres_cmdShare pres_cmdPage pres_cmdRelease pres_cmdStats : pres.

(** ** Dispatch *)
Section dispatch.
Context {P : Policy} {DI : DB -> Prop} {SI : StoreInv P DI} {E : Env} {G : Grants P E}.
Lemma pres_run_handler subs c : pres (cmd_inv DI) (run_handler subs c).
Proof.
  unfold run_handler, cmdMod, cmdAdmin. destruct (cmd_run c_def);
  [ apply pres_cmdHelp | apply pres_cmdJoin | apply pres_cmdLeave | apply pres_cmdNick
  | apply pres_cmdMe | apply pres_cmdWho | apply pres_cmdList | apply pres_cmdHistory
  | apply pres_cmdTopic | apply pres_cmdWhoami | apply pres_cmdLXMF | apply pres_usage
  | apply pres_cmdShare | apply pres_cmdWhispers | apply pres_cmdIgnore | apply pres_cmdUnignore
  | apply pres_cmdIgnored | apply pres_cmdPage | apply pres_cmdForget | apply pres_cmdWhisper
  | apply pres_cmdReply | apply pres_cmdProfile | apply pres_cmdLink | apply pres_cmdDevices
  | apply pres_cmdUnlink | apply pres_cmdRoom | apply pres_cmdKick | apply pres_cmdBan
  | apply pres_cmdUnban | apply pres_cmdBans | apply pres_cmdRename | apply pres_cmdDelete
  | apply pres_cmdModlog | apply pres_cmdMakeRank | apply pres_cmdMakeRank | apply pres_cmdDemote
  | apply pres_cmdKline | apply pres_cmdRelease | apply pres_cmdStats | apply pres_legacyRoom ].
Qed.
Lemma pres_run_command subs c : pres (cmd_inv DI) (run_command subs c).
Proof.
  unfold run_command, old_form. apply pres_bind; [pres_auto|]. intros old.
  destruct old; [eauto with pres|]. case_match; [eauto with pres|]. apply pres_run_handler.
Qed.
Lemma pres_command_ subs req : pres (req_inv DI) (command_ subs req).
Proof.
  unfold command_, run_as. repeat first [apply pres_in_cmd, pres_run_command | pres_step].
Qed.
End dispatch.
#[export] Hint Resolve pres_command_ : pres.

(** ** deliveries.go and maintain.go *)
Section maintain.
Context {P : Policy} {DI : DB -> Prop} {SI : StoreInv P DI} {E : Env} {G : Grants P E}.
Lemma pres_record_delivery d o p r a : pres DI (record_delivery d o p r a).
Proof. unfold record_delivery. pres_auto. Qed.
Lemma pres_prune_room m r : pres DI (prune_room m r).
Proof. unfold prune_room. pres_auto. Qed.
Lemma pres_maintain_store m : pres DI (maintain_store m).
Proof.
  unfold maintain_store, pruneRooms.
  repeat first [apply pres_liftExpiredBans | apply pres_prune_room | apply pres_gets | pres_step].
Qed.
Lemma mem_wf_maintain m : mem_wf m -> mem_wf (maintain_memory m).
Proof. intros []. by constructor. Qed.
End maintain.
#[export] Hint Resolve pres_record_delivery pres_maintain_store : pres.
