(* ===== verification/System.v ===== *)
(** The hub as a state machine: [Run]'s loop executes one request at a time,
    interleaved with the minute's maintenance, the saving of the cursors when it
    stops and adapters taking events from their queues ([HubLoop] has the loop
    itself and those that wait for it).  A step may read any clock and draw any random bytes. *)
From S2P Require Import Prelude Text Db StorePeople StoreRooms StoreMessages StoreGroup StoreInv StoreWf.
From S2P Require Import StoreHistory StorePolicy Names HubCore Clock Ranks People Rooms Post Commands CmdPeople CmdRooms.
From S2P Require Import Moderation Links Whispers Profile Dispatch Maintain HubWf.
Local Open Scope Z_scope.

(** ** The hub's methods that write *)
Inductive Call :=
  | CallIdentify (id : ident) (publicKey : option string)
  | CallClaimName (id : ident) (want : string)
  | CallForget (id : ident)
  | CallLeaveGroup (id : ident)
  | CallSetLXMFMode (id : ident) (mode : LXMFMode)
  | CallSetLXMFMine (id : ident) (on : bool)
  | CallJoinGroup (id : ident) (name : string)
  | CallMarkRead (id : ident) (room : string) (via : Via) (messageID : Z)
  | CallJoin (req : JoinRequest)
  | CallPart (id : ident) (room : string)
  | CallDisconnect (id : ident) (rooms : list string)
  | CallPost (req : PostRequest)
  | CallMayNotice (id : ident) (room : string)
  | CallHistory (id : ident) (room : string) (n beforeID : Z)
  | CallCommand (req : CommandRequest)
  | CallDeleteMessage (actor : ident) (messageID : Z)
  | CallMayNotifyDirect (from to : ident)
  | CallWhisperSentRRC (whisperID : Z)
  | CallWhispers (id : ident) (n : Z)
  | CallSetPrefs (id : ident) (change : Prefs -> Prefs)
  | CallRecordDelivery (d : Delivery) (o : DeliveryOutcome) (propagated : bool) (retryAt : Z) (awayUntil : option Z).

Section perform.
Context {E : Env}.
Definition perform (c : Call) (h : Hub) : Hub :=
  match c with
  | CallIdentify id pk => (Identify id pk h).2
  | CallClaimName id want => (ClaimName id want h).2
  | CallForget id => (Forget id h).2
  | CallLeaveGroup id => (LeaveGroup id h).2
  | CallSetLXMFMode id mode => (SetLXMFMode id mode h).2
  | CallSetLXMFMine id on => (SetLXMFMine id on h).2
  | CallJoinGroup id name => (JoinGroup id name h).2
  | CallMarkRead id room via m => (MarkRead id room via m h).2
  | CallJoin req => (Join req h).2
  | CallPart id room => (Part id room h).2
  | CallDisconnect id rooms => (Disconnect id rooms h).2
  | CallPost req => (Post req h).2
  | CallMayNotice id room => (MayNotice id room h).2
  | CallHistory id room n b => (History id room n b h).2
  | CallCommand req => (Command req h).2
  | CallDeleteMessage a m => (DeleteMessage a m h).2
  | CallMayNotifyDirect f t => (MayNotifyDirect f t h).2
  | CallWhisperSentRRC w => (WhisperSentRRC w h).2
  | CallWhispers id n => (WhispersOf id n h).2
  | CallSetPrefs id change => (SetPrefs id change h).2
  | CallRecordDelivery d o p r a => (RecordDelivery d o p r a h).2
  end.
End perform.

(** Adapter [i] takes an event from its queue. *)
Definition receive_at (i : nat) (h : Hub) : option (Event * Hub) :=
  s ← h_subs h !! i;
  es ← receive s;
  Some (es.1, mkHub (h_db h) (h_mem h) (<[i := es.2]> (h_subs h))).

(** The environment at another moment: the same configuration and tables, some
    other clock reading and random bytes. *)
Definition at_time (W : Env) (t : Z) (r : string) : Env :=
  {| cfg := cfg; now := t; rnd := r; env_unicode := env_unicode; env_norm := env_norm |}.

#[export] Instance grants_at_time P W t r : Grants P W -> Grants P (at_time W t r).
Proof. intros []. by constructor. Qed.

Section steps.
Context {W : Env}.

Inductive step : Hub -> Hub -> Prop :=
  | step_call (t : Z) (r : string) (call : Call) (h : Hub) : step h (perform (E := at_time W t r) call h)
  | step_maintain (t : Z) (r : string) (h : Hub) : step h (maintain (E := at_time W t r) h)
  | step_maintain_over (t : Z) (r : string) (h : Hub) : step h (maintain_over (E := at_time W t r) h)
  | step_save (t : Z) (r : string) (h : Hub) : step h (saveAllCursors (E := at_time W t r) h)
  | step_receive (i : nat) (e : Event) (h h' : Hub) : receive_at i h = Some (e, h') -> step h h'.

(** A hub [New] has opened on an empty store, with its adapters subscribed. *)
Definition started (h : Hub) : Prop :=
  exists (t : Z) (r : string) (subs : list (string * Z)),
    Forall (fun s => 0 <= s.2) subs /\
    New (E := at_time W t r) db_empty = Some (mkHub (h_db h) (h_mem h) []) /\
    h_subs h = map (fun s => mkSubscription s.1 s.2 [] 0) subs.
Definition reachable (h : Hub) : Prop := exists h0, started h0 /\ rtc step h0 h.
End steps.

(** ** Well-formed hubs *)
Definition sub_wf (s : Subscription) : Prop := Z.of_nat (length (sub_queue s)) <= sub_buf s /\ 0 <= sub_dropped s.
(** [I] of the database, and the memory and the queues well formed. *)
Record hub_inv (I : DB -> Prop) (h : Hub) : Prop := {
  hw_db : I (h_db h);
  hw_mem : mem_wf (h_mem h);
  hw_subs : Forall sub_wf (h_subs h)
}.
Definition hub_wf : Hub -> Prop := hub_inv db_wf.

Lemma sub_wf_offer e s : sub_wf s -> sub_wf (offer e s).
Proof.
  intros [Hq Hd]. unfold offer, sub_wf. destruct (Z.ltb_spec (Z.of_nat (length (sub_queue s))) (sub_buf s)); cbn.
  - rewrite length_app. cbn. lia.
  - lia.
Qed.
Lemma subs_wf_publish es subs : Forall sub_wf subs -> Forall sub_wf (publish es subs).
Proof.
  unfold publish. revert subs. induction es as [|e es IH]; intros subs Hs; cbn; [done|].
  apply IH. apply Forall_map. eapply Forall_impl; [exact Hs|]. intros s. apply sub_wf_offer.
Qed.

Section inv.
Context {P : Policy} {I : DB -> Prop} {SI : StoreInv P I}.

(** A transaction commits a well-formed database, or rolls back to one. *)
Lemma hub_inv_update {A} (m : H A) h : pres (req_inv I) m -> hub_inv I h -> hub_inv I (update m h).2.
Proof.
  intros Hm [Hd Hw Hs]. unfold update.
  pose proof (Hm (mkReq (h_db h) (h_mem h) [] []) (conj Hd Hw)) as Hk.
  destruct (m _) as [[a|e] q]; cbn in *.
  - destruct Hk as [Hd' Hw']. constructor; cbn; [done|by apply mem_wf_run_after|by apply subs_wf_publish].
  - destruct Hk as [_ Hw']. constructor; cbn; [done| |done]. destruct (user_error e); [done|by apply mem_wf_count].
Qed.
Lemma hub_inv_store_update (m : H unit) h : pres (req_inv I) m -> hub_inv I h -> hub_inv I (store_update m h).
Proof.
  intros Hm [Hd Hw Hs]. unfold store_update.
  pose proof (Hm (mkReq (h_db h) (h_mem h) [] []) (conj Hd Hw)) as Hk.
  destruct (m _) as [[a|e] q]; cbn in *; constructor; cbn; auto. by destruct Hk.
Qed.
(** Only the memory changes. *)
Lemma hub_inv_mem h m : mem_wf m -> hub_inv I h -> hub_inv I (mkHub (h_db h) m (h_subs h)).
Proof. intros Hm [Hd Hw Hs]. by constructor. Qed.

Section perform.
Context {E : Env} {G : Grants P E}.
Lemma hub_inv_gated (r : res unit) id h : hub_inv I h ->
  hub_inv I (match r with
          | Fail e => (Fail e, h)
          | Ok _ => match rate_gate id (mkReq (h_db h) (h_mem h) [] []) with
                    | (r, q) => (r, mkHub (h_db h) (q_mem q) (h_subs h))
                    end
          end).2.
Proof.
  intros Hh. destruct r; [|done]. destruct Hh as [Hd Hw Hs].
  pose proof (pres_rate_gate id (mkReq (h_db h) (h_mem h) [] []) (conj Hd Hw)) as Hk.
  destruct (rate_gate _ _) as [[x|e] q]; cbn in *; constructor; cbn; auto; apply Hk.
Qed.

Lemma hub_inv_perform c h : hub_inv I h -> hub_inv I (perform c h).
Proof.
  intros Hh. destruct c; cbn [perform];
    try (apply hub_inv_update; [|exact Hh]; solve [eauto 2 with pres nocore | pres_auto]).
  - (* Post *)
    unfold Post. pose proof (hub_inv_update (post req) h (pres_post req) Hh) as Hp.
    destruct (update (post req) h) as [[r|e] h']; cbn in *; [done|].
    apply (hub_inv_mem h'); [|done]. by apply mem_wf_count, (hw_mem I).
  - apply hub_inv_gated, Hh.
  - (* Command *)
    unfold Command. set (h1 := mkHub _ _ _).
    assert (hub_inv I h1) as H1 by (apply hub_inv_mem; [by apply mem_wf_count, (hw_mem I)|done]).
    pose proof (hub_inv_update _ h1 (pres_command_ (h_subs h1) req) H1) as Hp.
    by destruct (update _ h1).
  - unfold DeleteMessage. pose proof (hub_inv_update _ h (pres_delete_message_by actor messageID) Hh) as Hp.
    by destruct (update _ h).
  - apply hub_inv_gated, Hh.
Qed.

Lemma hub_inv_save h : hub_inv I h -> hub_inv I (saveAllCursors h).
Proof. intros Hh. apply hub_inv_store_update; [|done]. apply pres_save_all_cursors. Qed.
Lemma hub_inv_maintain_over h : hub_inv I h -> hub_inv I (maintain_over h).
Proof. intros Hh. apply hub_inv_mem; [|done]. by apply mem_wf_maintain, (hw_mem I). Qed.
Lemma hub_inv_maintain h : hub_inv I h -> hub_inv I (maintain h).
Proof. intros Hh. apply hub_inv_maintain_over, hub_inv_store_update; [pres_auto|by apply hub_inv_save]. Qed.
End perform.

Lemma hub_inv_receive i e h h' : receive_at i h = Some (e, h') -> hub_inv I h -> hub_inv I h'.
Proof.
  unfold receive_at, receive. intros Hr [Hd Hw Hs].
  apply bind_Some in Hr as (s & Hi & Hr). destruct (sub_queue s) as [|e' q] eqn:Eq; [done|].
  cbn in Hr. injection Hr as <- <-. constructor; cbn; [done..|].
  apply Forall_insert; [done|]. pose proof (Forall_lookup_1 _ _ _ _ Hs Hi) as [Hq Hdr].
  rewrite Eq in Hq. split; cbn in *; lia.
Qed.

Lemma hub_inv_step {W : Env} {G : Grants P W} h h' : step h h' -> hub_inv I h -> hub_inv I h'.
Proof.
  intros [t r call h0|t r h0|t r h0|t r h0|i e h0 h1 Hr] Hh.
  - by apply hub_inv_perform.
  - by apply hub_inv_maintain.
  - by apply hub_inv_maintain_over.
  - by apply hub_inv_save.
  - by eapply hub_inv_receive.
Qed.
Lemma hub_inv_steps {W : Env} {G : Grants P W} h h' : rtc step h h' -> hub_inv I h -> hub_inv I h'.
Proof. induction 1 as [|h1 h2 h3 H12 _ IH]; [done|]. intros Hh. by eapply IH, hub_inv_step. Qed.
Lemma hub_inv_started {W : Env} h : I db_empty -> started h -> hub_inv I h.
Proof.
  intros H0 (t & r & subs & Hbuf & Hnew & Hs). unfold New in Hnew.
  pose proof (pres_ensure_default_rooms (E:=at_time W t r) (DI:=I) db_empty H0) as Hk.
  destruct (ensure_default_rooms db_empty) as [[[]|e] d]; [|done].
  destruct h as [hd hm hs]; cbn in *. injection Hnew as <- <-. constructor; cbn; [done|by constructor|]. rewrite Hs.
  apply Forall_map. eapply Forall_impl; [exact Hbuf|]. intros s Hle. split; cbn in *; lia.
Qed.
(** What an empty database satisfies and every operation keeps. *)
Lemma hub_inv_reachable {W : Env} {G : Grants P W} h : I db_empty -> reachable h -> hub_inv I h.
Proof. intros H0 (h0 & Hs & Hst). eapply hub_inv_steps, hub_inv_started; eauto. Qed.
End inv.

(** What the hub asks for, exactly. *)
Definition hub_policy {W : Env} : Policy := {|
  may_ban id := isOwner id = false;
  may_name name sk := exists want, CleanName want = inr (name, sk);
  may_post := postable;
  may_whisper := sayable
|}.
#[export] Instance grants_hub {W : Env} : Grants hub_policy W.
Proof. constructor; cbn; eauto. Qed.
Lemma reachable_allowed {W : Env} h : reachable h -> allowed hub_policy (h_db h).
Proof. intros Hh. apply (hub_inv_reachable (I := allowed hub_policy) h (allowed_empty _) Hh). Qed.

Section theorems.
Context {W : Env}.


(** C9. However the hub runs on, what it has learnt it keeps: an identity it
    has seen stays known, first seen when it was, never less recently seen and
    with its public key; nobody's place in a room moves back; and the audit log
    only grows. *)
Theorem history_kept h h' : hub_wf h -> rtc step h h' -> later (h_db h) (h_db h').
Proof.
  intros [_ Hm Hs] Hst. apply (hub_inv_steps (I := later (h_db h)) h h' Hst). by constructor.
Qed.

(** C2. Nobody the configuration names as an owner is ever banned, whoever
    sends what command under whatever name, link or rank. *)
Theorem owners_never_banned h id : reachable h -> id ∈ Admins cfg -> bans (h_db h) !! id = None.
Proof.
  intros Hh Hid. destruct (bans (h_db h) !! id) as [b|] eqn:Hb; [|done].
  pose proof (al_ban _ _ (reachable_allowed h Hh) _ _ Hb) as Ho. cbn in Ho.
  apply not_true_iff_false in Ho. exfalso. apply Ho. unfold isOwner. apply existsb_exists. exists id.
  rewrite <- list_elem_of_In. by rewrite bool_decide_eq_true.
Qed.

(** C7. Every name anyone holds is one [CleanName] has passed, with the
    skeleton it gave; and no two people hold names with the same skeleton. *)
Theorem names_clean_and_distinct h p q n m :
  reachable h -> names (h_db h) !! p = Some n -> names (h_db h) !! q = Some m ->
  (exists want, CleanName want = inr (nr_name n, nr_skeleton n)) /\
  (p <> q -> nr_skeleton n <> nr_skeleton m).
Proof.
  intros Hh Hn Hm. split; [by apply (al_name _ _ (reachable_allowed h Hh) _ _ Hn)|].
  intros Hpq Hs. apply Hpq. eapply wf_skeleton; eauto. by apply (hub_inv_reachable (I := db_wf) h db_wf_empty Hh).
Qed.

End theorems.
