(* ===== verification/HubLoop.v ===== *)
(** internal/hub/hub.go: [do] and [Run], the goroutines that ask and the loop that
    serves them, turn by turn.

    A request goes from its caller over a channel of bounded length to the loop; the
    caller waits for it to be done, for the loop to have stopped or, until it is
    sent, for its own context.  What the hub does for a request is any work
    ([Work]); [System] makes the hub's calls such work. *)
From S2P Require Import Prelude Text Db Names HubCore Clock Ranks People Rooms Post Commands CmdPeople Moderation Links Whispers.
From S2P Require Import Profile Dispatch Maintain HubWf System.
Local Open Scope Z_scope.

(** ** The loop *)
(** A time and random bytes; [None] is a request whose context was over when the loop
    came to it, so that its transaction does not begin. *)
Definition How : Type := option (Z * string).
Class Work (S J R : Type) := {
  wk_exec : How -> J -> S -> R * S;                  (* the closure, on the loop *)
  wk_maintain : bool -> Z -> string -> S -> S;       (* the minute's tick; whether Run's context is over *)
  wk_save : Z -> string -> S -> S;                   (* what Run does last *)
  wk_receive : nat -> S -> option S                  (* an adapter takes an event *)
}.
(** What [do] returns: nil, once the closure has written its result, or an error. *)
Inductive Answer (R : Type) := Done (x : R) | ErrClosed | CtxErr.
Arguments Done {R} x. Arguments ErrClosed {R}. Arguments CtxErr {R}.
(** A call of [do]: its closure; whether its context is over; whether the closure is in
    the channel or has been; [finished], with how it ran; what was returned. *)
Record Ask (J R : Type) := mkAsk {
  ak_job : J; ak_over : bool; ak_sent : bool; ak_finished : option (How * R); ak_answer : option (Answer R)
}.
Arguments mkAsk {J R}. Arguments ak_job {J R}. Arguments ak_over {J R}. Arguments ak_sent {J R}.
Arguments ak_finished {J R}. Arguments ak_answer {J R}.
(** Where [Run] is: not begun; in its loop; out of it, the cursors saved; the
    subscriptions closed; [done] closed. *)
Inductive Phase := Created | Serving | Saved | Unsubscribed | Stopped.
#[export] Instance Phase_eq_dec : EqDecision Phase. Proof. solve_decision. Defined.

(** What can be seen happening. *)
Inductive Obs (J R : Type) :=
  | OCall (i : nat) (j : J)
  | OSend (i : nat) (j : J)
  | ORun (i : nat) (j : J) (how : How) (x : R)
  | OReturn (i : nat) (a : Answer R)
  | OMaintain (over : bool) (t : Z) (r : string)
  | OSave (t : Z) (r : string)
  | OReceive (k : nat).
Arguments OCall {J R}. Arguments OSend {J R}. Arguments ORun {J R}. Arguments OReturn {J R}.
Arguments OMaintain {J R}. Arguments OSave {J R}. Arguments OReceive {J R}.
Record Loop (S J R : Type) := mkLoop {
  lp_state : S;
  lp_reqs : list (nat * J);        (* the channel [reqs] *)
  lp_asks : list (Ask J R);        (* every call of [do], by its number *)
  lp_phase : Phase;
  lp_over : bool;                  (* Run's context is over *)
  lp_trace : list (Obs J R)
}.
Arguments mkLoop {S J R}. Arguments lp_state {S J R}. Arguments lp_reqs {S J R}. Arguments lp_asks {S J R}.
Arguments lp_phase {S J R}. Arguments lp_over {S J R}. Arguments lp_trace {S J R}.
Definition reqsMax : nat := 256.

(** A turn of some goroutine. *)
Inductive Turn (J : Type) :=
  | TCall (j : J)                     (* somebody calls [do] *)
  | TExpire (i : nat)                 (* a caller's context is over *)
  | TSend (i : nat)                   (* h.reqs <- job *)
  | TRefused (i : nat)                (* <-h.done, of the first select *)
  | TGiveUp (i : nat)                 (* <-ctx.Done() *)
  | TReturn (i : nat)                 (* the second select *)
  | TStart (t : Z) (r : string)       (* Run's first maintain *)
  | TServe (t : Z) (r : string)       (* fn := <-h.reqs *)
  | TTick (t : Z) (r : string)        (* <-tick.C *)
  | TCancel                           (* Run's context ends *)
  | TStop (t : Z) (r : string)        (* <-ctx.Done() of Run's *)
  | TUnsubscribe                      (* close(s.ch), all *)
  | TFinish                           (* close(h.done) *)
  | TReceive (k : nat).               (* an adapter's *)
Arguments TCall {J}. Arguments TExpire {J}. Arguments TSend {J}. Arguments TRefused {J}. Arguments TGiveUp {J}.
Arguments TReturn {J}. Arguments TStart {J}. Arguments TServe {J}. Arguments TTick {J}. Arguments TCancel {J}.
Arguments TStop {J}. Arguments TUnsubscribe {J}. Arguments TFinish {J}. Arguments TReceive {J}.

Section loop.
Context {S J R : Type} {K : Work S J R}.
Notation loop := (Loop S J R).
Notation obs := (Obs J R).

(** The second select: [finished], whichever case is taken; or [done] and not
    [finished]; or it waits. *)
Definition second_select (finished : option (How * R)) (p : Phase) : option (Answer R) :=
  match finished with
  | Some (_, x) => Some (Done x)
  | None => if bool_decide (p = Stopped) then Some ErrClosed else None
  end.
(** The call that is still at its first select, and the one that is at its second. *)
Definition offering (l : loop) (i : nat) : option (Ask J R) :=
  a ← lp_asks l !! i; if ak_sent a || bool_decide (is_Some (ak_answer a)) then None else Some a.
Definition waiting (l : loop) (i : nat) : option (Ask J R) :=
  a ← lp_asks l !! i; if ak_sent a && negb (bool_decide (is_Some (ak_answer a))) then Some a else None.
Definition answer_with (i : nat) (a : Ask J R) (an : Answer R) (l : loop) : loop :=
  mkLoop (lp_state l) (lp_reqs l) (<[i := mkAsk (ak_job a) (ak_over a) (ak_sent a) (ak_finished a) (Some an)]> (lp_asks l))
    (lp_phase l) (lp_over l) (lp_trace l ++ [OReturn i an]).
Definition in_phase (p : Phase) (l : loop) (l' : loop) : option loop :=
  if bool_decide (lp_phase l = p) then Some l' else None.

Definition turn (tn : Turn J) (l : loop) : option loop :=
  let 'mkLoop s reqs asks p over tr := l in
  match tn with
  | TCall j => Some (mkLoop s reqs (asks ++ [mkAsk j false false None None]) p over (tr ++ [OCall (length asks) j]))
  | TExpire i =>
    a ← asks !! i;
    Some (mkLoop s reqs (<[i := mkAsk (ak_job a) true (ak_sent a) (ak_finished a) (ak_answer a)]> asks) p over tr)
  | TSend i =>
    a ← offering l i;
    if (length reqs <? reqsMax)%nat
    then Some (mkLoop s (reqs ++ [(i, ak_job a)]) (<[i := mkAsk (ak_job a) (ak_over a) true None None]> asks) p over (tr ++ [OSend i (ak_job a)]))
    else None
  | TRefused i => a ← offering l i; if bool_decide (p = Stopped) then Some (answer_with i a ErrClosed l) else None
  | TGiveUp i => a ← offering l i; if ak_over a then Some (answer_with i a CtxErr l) else None
  | TReturn i => a ← waiting l i; an ← second_select (ak_finished a) p; Some (answer_with i a an l)
  | TStart t r => in_phase Created l (mkLoop (wk_maintain over t r s) reqs asks Serving over (tr ++ [OMaintain over t r]))
  | TServe t r =>
    match p, reqs with
    | Serving, (i, j) :: reqs =>
      a ← asks !! i;
      let how := if ak_over a then None else Some (t, r) in
      let '(x, s') := wk_exec how j s in
      Some (mkLoop s' reqs (<[i := mkAsk (ak_job a) (ak_over a) (ak_sent a) (Some (how, x)) (ak_answer a)]> asks) p over (tr ++ [ORun i j how x]))
    | _, _ => None
    end
  | TTick t r => in_phase Serving l (mkLoop (wk_maintain over t r s) reqs asks p over (tr ++ [OMaintain over t r]))
  | TCancel => Some (mkLoop s reqs asks p true tr)
  | TStop t r => if over then in_phase Serving l (mkLoop (wk_save t r s) reqs asks Saved over (tr ++ [OSave t r])) else None
  | TUnsubscribe => in_phase Saved l (mkLoop s reqs asks Unsubscribed over tr)
  | TFinish => in_phase Unsubscribed l (mkLoop s reqs asks Stopped over tr)
  | TReceive k => s' ← wk_receive k s; Some (mkLoop s' reqs asks p over (tr ++ [OReceive k]))
  end.
Fixpoint turns (tns : list (Turn J)) (l : loop) : option loop :=
  match tns with [] => Some l | tn :: tns => l' ← turn tn l; turns tns l' end.
(** A hub on which [Run] has not been called. *)
Definition opened (s : S) : loop := mkLoop s [] [] Created false [].
Definition runs_to (s : S) (l : loop) : Prop := exists tns, turns tns (opened s) = Some l.

(** ** What a trace says *)
(** Replaying it one request at a time: what each does to the state, and that it gave
    what it is said to have given. *)
Definition does (o : obs) (s s' : S) : Prop :=
  match o with
  | ORun i j how x => wk_exec how j s = (x, s')
  | OMaintain over t r => s' = wk_maintain over t r s
  | OSave t r => s' = wk_save t r s
  | OReceive k => wk_receive k s = Some s'
  | OCall _ _ | OSend _ _ | OReturn _ _ => s' = s
  end.
Fixpoint replays (tr : list obs) (s s' : S) : Prop :=
  match tr with [] => s' = s | o :: tr => exists s1, does o s s1 /\ replays tr s1 s' end.
(** What it says of one call, the requests sent and the requests served, in order. *)
Definition of_call (o : obs) : option nat :=
  match o with OCall i _ | OSend i _ | ORun i _ _ _ | OReturn i _ => Some i | _ => None end.
Definition own (i : nat) (tr : list obs) : list obs := List.filter (fun o => bool_decide (of_call o = Some i)) tr.
Definition sent (tr : list obs) : list (nat * J) := omap (fun o => match o with OSend i j => Some (i, j) | _ => None end) tr.
Definition served (tr : list obs) : list (nat * J) := omap (fun o => match o with ORun i j _ _ => Some (i, j) | _ => None end) tr.
(** The life of a call, as far as it has come. *)
Definition life (i : nat) (a : Ask J R) : list obs :=
  OCall i (ak_job a) :: (if ak_sent a then [OSend i (ak_job a)] else []) ++
  (match ak_finished a with Some (how, x) => [ORun i (ak_job a) how x] | None => [] end) ++
  (match ak_answer a with Some an => [OReturn i an] | None => [] end).
End loop.

(** ** Invariant *)
Section inv.
Context {S J R : Type} {K : Work S J R}.
Notation loop := (Loop S J R).
Notation obs := (Obs J R).
Notation ask := (Ask J R).
Implicit Types (a : ask) (asks : list ask) (tr : list obs) (reqs : list (nat * J)).

Definition ask_ok (p : Phase) (reqs : list (nat * J)) (i : nat) (a : ask) : Prop :=
  (is_Some (ak_finished a) -> ak_sent a = true) /\
  match ak_answer a with
  | None => ak_sent a = true -> ak_finished a = None -> (i, ak_job a) ∈ reqs
  | Some (Done x) => exists how, ak_finished a = Some (how, x)
  | Some ErrClosed => ak_finished a = None /\ p = Stopped
  | Some CtxErr => ak_sent a = false
  end.
Definition lives (asks : list ask) (tr : list obs) : Prop := forall k, own k tr = default [] (life k <$> asks !! k).
Definition queued (asks : list ask) (i : nat) (j : J) : Prop :=
  exists a, asks !! i = Some a /\ ak_job a = j /\ ak_sent a = true /\ ak_finished a = None.
Record loop_inv (s0 : S) (l : loop) : Prop := {
  li_replays : replays (lp_trace l) s0 (lp_state l);
  li_fifo : sent (lp_trace l) = served (lp_trace l) ++ lp_reqs l;
  li_lives : lives (lp_asks l) (lp_trace l);
  li_asks : forall i a, lp_asks l !! i = Some a -> ask_ok (lp_phase l) (lp_reqs l) i a;
  li_queued : forall i j, (i, j) ∈ lp_reqs l -> queued (lp_asks l) i j;
  li_once : NoDup (lp_reqs l).*1;
  li_bound : (length (lp_reqs l) <= reqsMax)%nat
}.

Lemma replays_snoc tr o s0 s s' : replays tr s0 s -> does o s s' -> replays (tr ++ [o]) s0 s'.
Proof.
  revert s0. induction tr as [|o1 tr IH]; intros s0; cbn.
  - intros -> Hd. by exists s'.
  - intros (s1 & H1 & H2) Hd. exists s1. eauto.
Qed.
Lemma own_snoc k tr o : own k (tr ++ [o]) = own k tr ++ (if bool_decide (of_call o = Some k) then [o] else []).
Proof. unfold own. rewrite List.filter_app. cbn. by case_match. Qed.
Lemma lives_other asks tr o : lives asks tr -> of_call o = None -> lives asks (tr ++ [o]).
Proof. intros Hl Ho k. by rewrite own_snoc, Ho, app_nil_r. Qed.
Lemma lives_put asks tr i a a' o : lives asks tr -> asks !! i = Some a -> of_call o = Some i ->
  life i a' = life i a ++ [o] -> lives (<[i := a']> asks) (tr ++ [o]).
Proof.
  intros Hl Ha Ho Hlife k. rewrite own_snoc, Hl, Ho. destruct (decide (i = k)) as [<-|Hk].
  - rewrite bool_decide_eq_true_2, Ha, list_lookup_insert_eq by (done || by eapply lookup_lt_Some). done.
  - rewrite bool_decide_eq_false_2 by congruence. by rewrite list_lookup_insert_ne, app_nil_r.
Qed.
(** A call changed: the others are as they were. *)
Lemma asks_put (Q Q' : nat -> ask -> Prop) asks i a' : (forall k a, asks !! k = Some a -> Q k a) -> Q' i a' ->
  (forall k a, k <> i -> Q k a -> Q' k a) -> forall k a, <[i := a']> asks !! k = Some a -> Q' k a.
Proof.
  intros HQ Hi Ho k a Hk. destruct (decide (k = i)) as [->|Hne].
  - rewrite list_lookup_insert_Some in Hk. destruct Hk as [(_ & <- & _)|[? _]]; done.
  - rewrite list_lookup_insert_ne in Hk by done. eauto.
Qed.
Lemma queued_ne asks i a' k j : k <> i -> queued asks k j -> queued (<[i := a']> asks) k j.
Proof. intros Hne (a & Ha & H). exists a. by rewrite list_lookup_insert_ne. Qed.
Lemma offering_Some (l : loop) i a : offering l i = Some a -> lp_asks l !! i = Some a /\ ak_sent a = false /\ ak_answer a = None.
Proof.
  unfold offering. destruct (lp_asks l !! i) as [b|]; [|done]. cbn. destruct (ak_sent b) eqn:Es; [done|]. cbn.
  case_bool_decide as Hn; [done|]. intros [= ->]. split_and!; [done..|]. by apply eq_None_not_Some.
Qed.
Lemma waiting_Some (l : loop) i a : waiting l i = Some a -> lp_asks l !! i = Some a /\ ak_sent a = true /\ ak_answer a = None.
Proof.
  unfold waiting. destruct (lp_asks l !! i) as [b|]; [|done]. cbn. destruct (ak_sent b) eqn:Es; [|done]. cbn.
  case_bool_decide as Hn; [done|]. intros [= ->]. split_and!; [done..|]. by apply eq_None_not_Some.
Qed.
Lemma ask_ok_phase p p' reqs i a : (p = Stopped -> p' = Stopped) -> ask_ok p reqs i a -> ask_ok p' reqs i a.
Proof. intros Hp [H1 H2]. split; [done|]. destruct (ak_answer a) as [[]|]; naive_solver. Qed.

Lemma loop_inv_opened s : loop_inv s (opened s).
Proof. constructor; cbn; try done; [by intros i j ?%not_elem_of_nil|constructor|unfold reqsMax; lia]. Qed.

(** A turn of the loop or of an adapter, which changes no call. *)
Lemma loop_inv_other s0 (l : loop) s' p' over o : loop_inv s0 l -> does o (lp_state l) s' -> of_call o = None ->
  (lp_phase l = Stopped -> p' = Stopped) -> loop_inv s0 (mkLoop s' (lp_reqs l) (lp_asks l) p' over (lp_trace l ++ [o])).
Proof.
  intros [] Hd Ho Hp. constructor; cbn; try done.
  - by eapply replays_snoc.
  - unfold sent, served in *. rewrite !omap_app, li_fifo0. destruct o; try done; cbn; by rewrite !app_nil_r.
  - by apply lives_other.
  - intros i a Ha. eapply ask_ok_phase; eauto.
Qed.
Lemma loop_inv_quiet s0 (l : loop) p' over : loop_inv s0 l -> (lp_phase l = Stopped -> p' = Stopped) ->
  loop_inv s0 (mkLoop (lp_state l) (lp_reqs l) (lp_asks l) p' over (lp_trace l)).
Proof. intros [] Hp. constructor; cbn; try done. intros i a Ha. eapply ask_ok_phase; eauto. Qed.
(** A call that gets its answer. *)
Lemma loop_inv_answer s0 (l : loop) i a an : loop_inv s0 l -> lp_asks l !! i = Some a -> ak_answer a = None ->
  ask_ok (lp_phase l) (lp_reqs l) i (mkAsk (ak_job a) (ak_over a) (ak_sent a) (ak_finished a) (Some an)) ->
  loop_inv s0 (answer_with i a an l).
Proof.
  intros [] Ha Hn Hok. constructor; cbn; try done.
  - by eapply replays_snoc.
  - unfold sent, served in *. rewrite !omap_app, li_fifo0. cbn. by rewrite !app_nil_r.
  - eapply lives_put; [done..|]. unfold life. cbn. rewrite Hn. by destruct (ak_sent a), (ak_finished a) as [[]|].
  - by eapply asks_put.
  - intros k j Hk. destruct (li_queued0 k j Hk) as (b & Hb & H1 & H2 & H3). destruct (decide (k = i)) as [->|Hne].
    + rewrite Ha in Hb. injection Hb as <-. eexists. rewrite list_lookup_insert_eq by (by eapply lookup_lt_Some). by split_and!.
    + exists b. by rewrite list_lookup_insert_ne.
Qed.
End inv.

(** ** Every turn keeps it *)
Section turns.
Context {S J R : Type} {K : Work S J R}.
Notation loop := (Loop S J R).
Notation obs := (Obs J R).

Lemma loop_inv_call s0 (l : loop) j : loop_inv s0 l ->
  loop_inv s0 (mkLoop (lp_state l) (lp_reqs l) (lp_asks l ++ [mkAsk j false false None None]) (lp_phase l) (lp_over l)
    (lp_trace l ++ [OCall (length (lp_asks l)) j])).
Proof.
  intros []. constructor; cbn; try done.
  - by eapply replays_snoc.
  - unfold sent, served in *. rewrite !omap_app, li_fifo0. cbn. by rewrite !app_nil_r.
  - intros k. rewrite own_snoc, li_lives0. cbn. case_bool_decide as Hk.
    + injection Hk as <-. by rewrite lookup_ge_None_2, list_lookup_middle by done.
    + rewrite app_nil_r. destruct (decide (k < length (lp_asks l))%nat); [by rewrite lookup_app_l|].
      by rewrite !lookup_ge_None_2 by (rewrite ?length_app; cbn; (lia || (assert (k <> length (lp_asks l)) by congruence; lia))).
  - intros i a [Ha|[_ Ha]]%lookup_app_Some; [by apply li_asks0|]. apply list_lookup_singleton_Some in Ha as [_ <-]. split; cbn; [by intros [? ?]|done].
  - intros i k Hk. destruct (li_queued0 i k Hk) as (a & Ha & H). exists a. by rewrite lookup_app_l by (by eapply lookup_lt_Some).
Qed.
Lemma loop_inv_expire s0 (l : loop) i a : loop_inv s0 l -> lp_asks l !! i = Some a ->
  loop_inv s0 (mkLoop (lp_state l) (lp_reqs l) (<[i := mkAsk (ak_job a) true (ak_sent a) (ak_finished a) (ak_answer a)]> (lp_asks l))
    (lp_phase l) (lp_over l) (lp_trace l)).
Proof.
  intros [] Ha. constructor; cbn; try done.
  - intros k. rewrite li_lives0. destruct (decide (i = k)) as [<-|Hne]; [|by rewrite list_lookup_insert_ne].
    by rewrite Ha, list_lookup_insert_eq by (by eapply lookup_lt_Some).
  - eapply asks_put; [done| |done]. by apply (li_asks0 i a).
  - intros k j Hk. destruct (li_queued0 k j Hk) as (b & Hb & H1 & H2 & H3). destruct (decide (k = i)) as [->|Hne].
    + rewrite Ha in Hb. injection Hb as <-. eexists. rewrite list_lookup_insert_eq by (by eapply lookup_lt_Some). by split_and!.
    + exists b. by rewrite list_lookup_insert_ne.
Qed.
Lemma loop_inv_send s0 (l : loop) i a : loop_inv s0 l -> lp_asks l !! i = Some a -> ak_sent a = false -> ak_answer a = None ->
  (length (lp_reqs l) < reqsMax)%nat ->
  loop_inv s0 (mkLoop (lp_state l) (lp_reqs l ++ [(i, ak_job a)]) (<[i := mkAsk (ak_job a) (ak_over a) true None None]> (lp_asks l))
    (lp_phase l) (lp_over l) (lp_trace l ++ [OSend i (ak_job a)])).
Proof.
  intros [] Ha Hs Hn Hlen. assert (ak_finished a = None) as Hf.
  { destruct (li_asks0 i a Ha) as [H _]. apply eq_None_not_Some. intros H1%H. congruence. }
  assert (forall j, (i, j) ∉ lp_reqs l) as Hnot.
  { intros j Hj. destruct (li_queued0 i j Hj) as (b & Hb & _ & H2 & _). congruence. }
  constructor; cbn; try done.
  - by eapply replays_snoc.
  - unfold sent, served in *. rewrite !omap_app, li_fifo0. cbn. by rewrite app_nil_r, app_assoc.
  - eapply lives_put; [done..|]. unfold life. cbn. by rewrite Hs, Hf, Hn.
  - eapply asks_put; [done| |].
    + split; [done|]. cbn. intros _ _. set_solver.
    + intros k b _ [H1 H2]. split; [done|]. destruct (ak_answer b) as [[]|]; set_solver.
  - intros k j [Hk|Hk]%elem_of_app.
    + apply queued_ne; [|by apply li_queued0]. intros ->. by eapply Hnot.
    + apply list_elem_of_singleton in Hk. injection Hk as -> ->. eexists. rewrite list_lookup_insert_eq by (by eapply lookup_lt_Some). by split_and!.
  - rewrite fmap_app. cbn. apply NoDup_app. split_and!; [done| |by repeat constructor; set_solver].
    intros k Hk ->%list_elem_of_singleton. apply list_elem_of_fmap in Hk as ([? j] & -> & Hk). by eapply Hnot.
  - rewrite length_app. cbn. lia.
Qed.
Lemma loop_inv_serve s0 (l : loop) i j reqs a how x s' : loop_inv s0 l -> lp_reqs l = (i, j) :: reqs -> lp_asks l !! i = Some a ->
  lp_phase l = Serving -> wk_exec how j (lp_state l) = (x, s') ->
  loop_inv s0 (mkLoop s' reqs (<[i := mkAsk (ak_job a) (ak_over a) (ak_sent a) (Some (how, x)) (ak_answer a)]> (lp_asks l))
    (lp_phase l) (lp_over l) (lp_trace l ++ [ORun i j how x])).
Proof.
  intros [] Hreqs Ha Hp Hex. rewrite Hreqs in *.
  destruct (li_queued0 i j ltac:(left)) as (b & Hb & Hj & Hs & Hf). rewrite Ha in Hb. injection Hb as <-.
  apply NoDup_cons in li_once0 as [Hnot Hnd].
  assert (ak_answer a = None) as Hn.
  { destruct (li_asks0 i a Ha) as [_ H]. destruct (ak_answer a) as [[]|]; [|destruct H; congruence|congruence|done]. destruct H as (? & H). congruence. }
  constructor; cbn; try done.
  - by eapply replays_snoc.
  - unfold sent, served in *. rewrite !omap_app, li_fifo0. cbn. by rewrite app_nil_r, <- app_assoc.
  - eapply lives_put; [done..|]. unfold life. cbn. by rewrite Hs, Hf, Hn, Hj.
  - eapply asks_put; [done| |].
    + split; [done|]. cbn. by rewrite Hn.
    + intros k b Hk [H1 H2]. split; [done|]. destruct (ak_answer b) as [[]|]; try done. intros Hsb Hfb. specialize (H2 Hsb Hfb).
      apply elem_of_cons in H2 as [H2|]; [congruence|done].
  - intros k j' Hk. apply queued_ne; [|by apply li_queued0; right]. intros ->. apply Hnot. apply list_elem_of_fmap. by exists (i, j').
  - cbn in li_bound0. lia.
Qed.

Lemma loop_inv_turn s0 tn (l l' : loop) : turn tn l = Some l' -> loop_inv s0 l -> loop_inv s0 l'.
Proof.
  intros Ht Hl. destruct l as [s reqs asks p over tr]. destruct tn; cbn [turn] in Ht; unfold in_phase in Ht; cbn [lp_phase] in Ht.
  - injection Ht as <-. by apply (loop_inv_call s0 (mkLoop s reqs asks p over tr)).
  - apply bind_Some in Ht as (a & Ha & [= <-]). by apply (loop_inv_expire s0 (mkLoop s reqs asks p over tr)).
  - apply bind_Some in Ht as (a & (Ha & Hs & Hn)%offering_Some & Ht). destruct (Nat.ltb_spec (length reqs) reqsMax); [|done]. injection Ht as <-.
    by apply (loop_inv_send s0 (mkLoop s reqs asks p over tr)).
  - apply bind_Some in Ht as (a & (Ha & Hs & Hn)%offering_Some & Ht). case_bool_decide as Hp; [|done]. injection Ht as <-.
    eapply loop_inv_answer; [done..|]. destruct (li_asks _ _ Hl _ _ Ha) as [H _]. split; [done|]. cbn. split; [|done].
    apply eq_None_not_Some. intros H1%H. congruence.
  - apply bind_Some in Ht as (a & (Ha & Hs & Hn)%offering_Some & Ht). destruct (ak_over a); [|done]. injection Ht as <-.
    eapply loop_inv_answer; [done..|]. destruct (li_asks _ _ Hl _ _ Ha) as [H _]. by split.
  - apply bind_Some in Ht as (a & (Ha & Hs & Hn)%waiting_Some & Ht). apply bind_Some in Ht as (an & Han & [= <-]).
    eapply loop_inv_answer; [done..|]. destruct (li_asks _ _ Hl _ _ Ha) as [H _]. split; [done|]. cbn. unfold second_select in Han.
    destruct (ak_finished a) as [[how x]|]; [injection Han as <-; eauto|]. case_bool_decide; [|done]. by injection Han as <-.
  - case_bool_decide as Hp; [|done]. injection Ht as <-. subst p. by eapply (loop_inv_other s0 (mkLoop s reqs asks Created over tr)).
  - destruct p, reqs as [|[i j] reqs]; try done. apply bind_Some in Ht as (a & Ha & Ht). destruct (wk_exec _ j s) as [x s'] eqn:E. injection Ht as <-.
    by eapply (loop_inv_serve s0 (mkLoop s ((i, j) :: reqs) asks Serving over tr)).
  - case_bool_decide as Hp; [|done]. injection Ht as <-. by eapply (loop_inv_other s0 (mkLoop s reqs asks p over tr)).
  - injection Ht as <-. by apply (loop_inv_quiet s0 (mkLoop s reqs asks p over tr)).
  - destruct over; [|done]. case_bool_decide as Hp; [|done]. injection Ht as <-. subst p. by eapply (loop_inv_other s0 (mkLoop s reqs asks Serving true tr)).
  - case_bool_decide as Hp; [|done]. injection Ht as <-. subst p. by eapply (loop_inv_quiet s0 (mkLoop s reqs asks Saved over tr)).
  - case_bool_decide as Hp; [|done]. injection Ht as <-. by eapply (loop_inv_quiet s0 (mkLoop s reqs asks p over tr)).
  - apply bind_Some in Ht as (s' & Hs & [= <-]). by eapply (loop_inv_other s0 (mkLoop s reqs asks p over tr)).
Qed.
Lemma loop_inv_turns s0 tns (l l' : loop) : turns tns l = Some l' -> loop_inv s0 l -> loop_inv s0 l'.
Proof.
  revert l. induction tns as [|tn tns IH]; intros l; cbn; [by intros [= ->]|]. intros (l1 & H1 & H2)%bind_Some Hl. eapply IH; [exact H2|]. by eapply loop_inv_turn.
Qed.
Lemma turns_app tns1 tns2 (l : loop) : turns (tns1 ++ tns2) l = turns tns1 l ≫= turns tns2.
Proof. revert l. induction tns1 as [|tn tns1 IH]; intros l; [done|]. cbn. destruct (turn tn l); cbn; [apply IH|done]. Qed.
Lemma runs_to_inv s0 (l : loop) : runs_to s0 l -> loop_inv s0 l.
Proof. intros (tns & Ht). eapply loop_inv_turns; [exact Ht|apply loop_inv_opened]. Qed.
End turns.

(** ** No call waits for ever *)
Section ends.
Context {S J R : Type} {K : Work S J R}.
Notation loop := (Loop S J R).
(** Turns that get something done, as opposed to those of the world: calls, clocks,
    contexts and events. *)
Definition works (tn : Turn J) : bool :=
  match tn with
  | TSend _ | TRefused _ | TGiveUp _ | TReturn _ | TStart _ _ | TServe _ _ | TStop _ _ | TUnsubscribe | TFinish => true
  | TCall _ | TExpire _ | TTick _ _ | TCancel | TReceive _ => false
  end.
Definition calls (tn : Turn J) : bool := match tn with TCall _ => true | _ => false end.
Definition answered (a : Ask J R) : bool := bool_decide (is_Some (ak_answer a)).
(** The turns a call has before it, and [Run]. *)
Definition weight (a : Ask J R) : nat := if answered a then 0 else if ak_sent a then 1 else 3.
Definition phase_left (p : Phase) : nat := match p with Created => 4 | Serving => 3 | Saved => 2 | Unsubscribed => 1 | Stopped => 0 end.
Definition turns_left (l : loop) : nat := sum_list_with weight (lp_asks l) + length (lp_reqs l) + phase_left (lp_phase l).

Lemma sum_put asks i a a' : asks !! i = Some a ->
  (sum_list_with weight (<[i := a']> asks) + weight a = sum_list_with weight asks + weight a')%nat.
Proof.
  revert i. induction asks as [|b asks IH]; intros [|i] Ha; [done..| |].
  - injection Ha as ->. cbn. lia.
  - change (<[Datatypes.S i := a']> (b :: asks)) with (b :: <[i := a']> asks). cbn [sum_list_with]. specialize (IH i Ha). lia.
Qed.
Lemma answered_left (l : loop) i a an : lp_asks l !! i = Some a -> ak_answer a = None -> (turns_left (answer_with i a an l) + 1 <= turns_left l)%nat.
Proof.
  intros Ha Hn. unfold turns_left, answer_with. cbn. pose proof (sum_put _ _ _ (mkAsk (ak_job a) (ak_over a) (ak_sent a) (ak_finished a) (Some an)) Ha) as H.
  assert (1 <= weight a)%nat by (unfold weight, answered; rewrite Hn; cbn; case_match; lia). cbn in *. lia.
Qed.
Lemma turn_left tn (l l' : loop) : turn tn l = Some l' ->
  (turns_left l' + (if works tn then 1 else 0) <= turns_left l + (if calls tn then 3 else 0))%nat.
Proof.
  intros Ht. destruct l as [s reqs asks p over tr].
  destruct tn; cbn [turn works calls] in *; unfold in_phase in Ht; cbn [lp_phase] in Ht.
  - injection Ht as <-. unfold turns_left. cbn. rewrite sum_list_with_app. cbn. lia.
  - apply bind_Some in Ht as (a & Ha & [= <-]). unfold turns_left. cbn. pose proof (sum_put _ _ _ (mkAsk (ak_job a) true (ak_sent a) (ak_finished a) (ak_answer a)) Ha).
    unfold weight, answered in *. cbn in *. lia.
  - apply bind_Some in Ht as (a & (Ha & Hs & Hn)%offering_Some & Ht). case_match; [|done]. injection Ht as <-. unfold turns_left. cbn in *.
    pose proof (sum_put _ _ _ (mkAsk (ak_job a) (ak_over a) true None None) Ha). rewrite length_app. cbn. unfold weight, answered in *. cbn in *.
    rewrite Hs, Hn in H0. cbn in *. lia.
  - apply bind_Some in Ht as (a & (Ha & Hs & Hn)%offering_Some & Ht). case_match; [|done]. injection Ht as <-. pose proof (answered_left _ _ _ ErrClosed Ha Hn). lia.
  - apply bind_Some in Ht as (a & (Ha & Hs & Hn)%offering_Some & Ht). case_match; [|done]. injection Ht as <-. pose proof (answered_left _ _ _ CtxErr Ha Hn). lia.
  - apply bind_Some in Ht as (a & (Ha & Hs & Hn)%waiting_Some & Ht). apply bind_Some in Ht as (an & Han & [= <-]). pose proof (answered_left _ _ _ an Ha Hn). lia.
  - case_bool_decide as Hp; [|done]. injection Ht as <-. subst p. unfold turns_left. cbn. lia.
  - destruct p, reqs as [|[i j] reqs]; try done. apply bind_Some in Ht as (a & Ha & Ht). destruct (wk_exec _ j s) as [x s'] eqn:E. injection Ht as <-.
    unfold turns_left. cbn. pose proof (sum_put _ _ _ (mkAsk (ak_job a) (ak_over a) (ak_sent a) (Some (if ak_over a then None else Some (t, r), x)) (ak_answer a)) Ha).
    unfold weight, answered in *. cbn in *. lia.
  - case_bool_decide as Hp; [|done]. injection Ht as <-. unfold turns_left. cbn. lia.
  - injection Ht as <-. unfold turns_left. cbn. lia.
  - destruct over; [|done]. case_bool_decide as Hp; [|done]. injection Ht as <-. subst p. unfold turns_left. cbn. lia.
  - case_bool_decide as Hp; [|done]. injection Ht as <-. subst p. unfold turns_left. cbn. lia.
  - case_bool_decide as Hp; [|done]. injection Ht as <-. subst p. unfold turns_left. cbn. lia.
  - apply bind_Some in Ht as (s' & Hs & [= <-]). unfold turns_left. cbn. lia.
Qed.
Lemma turns_left_le tns (l l' : loop) : turns tns l = Some l' ->
  (turns_left l' + length (List.filter works tns) <= turns_left l + 3 * length (List.filter calls tns))%nat.
Proof.
  revert l. induction tns as [|tn tns IH]; intros l; cbn -[Nat.mul]; [intros [= ->]; lia|]. intros (l1 & H1%turn_left & H2%IH)%bind_Some.
  destruct (works tn), (calls tn); cbn [length]; lia.
Qed.
Lemma turns_left_bound (l : loop) : (length (lp_reqs l) <= reqsMax)%nat ->
  (turns_left l <= 3 * length (List.filter (fun a => negb (answered a)) (lp_asks l)) + reqsMax + 4)%nat.
Proof.
  intros Hb. unfold turns_left. assert (sum_list_with weight (lp_asks l) <= 3 * length (List.filter (fun a => negb (answered a)) (lp_asks l)))%nat.
  { induction (lp_asks l) as [|a asks IH]; cbn -[Nat.mul]; [lia|]. unfold weight at 1. destruct (answered a); cbn -[Nat.mul]; [lia|]. case_match; lia. }
  assert (phase_left (lp_phase l) <= 4)%nat by (destruct (lp_phase l); cbn; lia). lia.
Qed.

(** Nothing is left to do but what the world may start. *)
Definition quiescent (l : loop) : Prop := forall tn, works tn = true -> turn tn l = None.
Lemma quiescent_answered s0 (l : loop) i a : runs_to s0 l -> lp_phase l <> Created -> quiescent l -> lp_asks l !! i = Some a -> is_Some (ak_answer a).
Proof.
  intros Hl%runs_to_inv Hp Hq Ha. destruct (ak_answer a) as [an|] eqn:Hn; [eauto|exfalso]. destruct (li_asks _ _ Hl i a Ha) as [Hf Hok]. rewrite Hn in Hok.
  pose proof (Hq (TSend i) eq_refl) as Q1. pose proof (Hq (TRefused i) eq_refl) as Q2. pose proof (Hq (TReturn i) eq_refl) as Q3.
  pose proof (Hq (TServe 0 "") eq_refl) as Q4. pose proof (Hq TUnsubscribe eq_refl) as Q5. pose proof (Hq TFinish eq_refl) as Q6.
  destruct l as [s reqs asks p over tr]. cbn in *. unfold in_phase, offering, waiting, mbind, option_bind in *.
  cbn in *. rewrite Ha in *. cbn in *. rewrite Hn in *. cbn in *. rewrite ?andb_true_r, ?orb_false_r in *.
  assert (p = Serving \/ p = Stopped) as [->| ->]
    by (destruct p; [done|by left|by rewrite bool_decide_eq_true_2 in Q5|by rewrite bool_decide_eq_true_2 in Q6|by right]); cbn in *.
  - destruct reqs as [|[k j] reqs].
    + destruct (ak_sent a); [|done].
      destruct (ak_finished a) as [[how x]|]; [done|].
      by apply (not_elem_of_nil (i, ak_job a)), Hok.
    + destruct (li_queued _ _ Hl k j ltac:(left)) as (b & Hb & _). cbn in Hb. rewrite Hb in Q4. cbn in Q4. by destruct (wk_exec _ j s).
  - destruct (ak_sent a); [|by rewrite bool_decide_eq_true_2 in Q2].
    unfold second_select in Q3.
    destruct (ak_finished a) as [[how x]|]; [done|by rewrite bool_decide_eq_true_2 in Q3].
Qed.
Lemma quiescent_stopped s0 (l : loop) : runs_to s0 l -> lp_phase l <> Created -> quiescent l -> lp_over l = true -> lp_phase l = Stopped.
Proof.
  intros Hl Hp Hq Ho. pose proof (Hq (TStop 0 "") eq_refl) as Q1. pose proof (Hq TUnsubscribe eq_refl) as Q2. pose proof (Hq TFinish eq_refl) as Q3.
  destruct l as [s reqs asks p over tr]. cbn in *. subst over. unfold in_phase in *. cbn in *.
  destruct p; [done|by rewrite bool_decide_eq_true_2 in Q1|by rewrite bool_decide_eq_true_2 in Q2|by rewrite bool_decide_eq_true_2 in Q3|done].
Qed.

(** C5. Nobody waits for the hub for ever, and it stops when it is told to.  From any
    state, the turns that get something done are no more than three for each call
    that has no answer or is still to come, one for each place in the channel and
    four: whatever else happens between them, they come to an end.  When none is
    left, and [Run] has begun, every call has its answer; and if Run's context is
    over, [Run] has returned. *)
Theorem loop_ends s0 (l l' : loop) tns : runs_to s0 l -> turns tns l = Some l' ->
  (length (List.filter works tns) <=
     3 * (length (List.filter (fun a => negb (answered a)) (lp_asks l)) + length (List.filter calls tns)) + reqsMax + 4)%nat /\
  (lp_phase l' <> Created -> quiescent l' ->
     (forall i a, lp_asks l' !! i = Some a -> is_Some (ak_answer a)) /\ (lp_over l' = true -> lp_phase l' = Stopped)).
Proof.
  intros Hl Ht. split.
  - pose proof (turns_left_le _ _ _ Ht). pose proof (turns_left_bound l (li_bound _ _ (runs_to_inv _ _ Hl))). lia.
  - destruct Hl as (tns0 & H0). assert (runs_to s0 l') as Hl'.
    { exists (tns0 ++ tns). by rewrite turns_app, H0. }
    intros Hp Hq. split; [intros i a; by eapply quiescent_answered|by eapply quiescent_stopped].
Qed.
End ends.

(** ** What a caller is told is what happened *)
Section exact.
Context {S J R : Type} {K : Work S J R}.
Notation loop := (Loop S J R).
Lemma elem_of_own i o (tr : list (Obs J R)) : o ∈ own i tr <-> o ∈ tr /\ of_call o = Some i.
Proof. unfold own. rewrite !list_elem_of_In, filter_In, bool_decide_eq_true. done. Qed.

(** C4. What [do] returns is what happened.  If it returns nil, its request was served
    once, after it was sent and before the return, and the result the caller reads
    is that of this run.  If it returns an error, the request has not been served and
    will not be: it never went into the channel, or the loop had stopped before it
    came to it. *)
Theorem do_exact s0 (l : loop) i an : runs_to s0 l -> OReturn i an ∈ lp_trace l -> exists j,
  match an with
  | Done x => exists how, own i (lp_trace l) = [OCall i j; OSend i j; ORun i j how x; OReturn i an]
  | ErrClosed => lp_phase l = Stopped /\
      (own i (lp_trace l) = [OCall i j; OReturn i an] \/ own i (lp_trace l) = [OCall i j; OSend i j; OReturn i an])
  | CtxErr => own i (lp_trace l) = [OCall i j; OReturn i an]
  end.
Proof.
  intros Hl%runs_to_inv Hr. assert (OReturn i an ∈ own i (lp_trace l)) as Ho by by apply elem_of_own.
  rewrite (li_lives _ _ Hl) in Ho |- *. destruct (lp_asks l !! i) as [a|] eqn:Ha; cbn in Ho; [|by apply not_elem_of_nil in Ho].
  destruct (li_asks _ _ Hl i a Ha) as [Hf Hok]. exists (ak_job a). cbn [default from_option fmap option_fmap option_map]. unfold life in *.
  assert (ak_answer a = Some an) as Han.
  { destruct (ak_sent a), (ak_finished a) as [[]|], (ak_answer a); set_solver. }
  rewrite Han in *. destruct an as [x| |].
  - destruct Hok as [how E]. exists how. rewrite E in *. by rewrite Hf by eauto.
  - destruct Hok as [E Hp]. rewrite E. split; [done|]. destruct (ak_sent a); [by right|by left].
  - rewrite Hok. destruct (ak_finished a); [|done]. rewrite Hok in Hf. by discriminate Hf; eauto.
Qed.
End exact.

(** ** The hub *)
Section hub.
Context {W : Env}.

(** What a method returns: its error, if any. *)
Definition err_of {A} (r : res A * Hub) : option Error := match r.1 with Ok _ => None | Fail e => Some e end.
Definition refusal {E : Env} (c : Call) (h : Hub) : option Error :=
  match c with
  | CallIdentify id pk => err_of (Identify id pk h)
  | CallClaimName id want => err_of (ClaimName id want h)
  | CallForget id => err_of (Forget id h)
  | CallLeaveGroup id => err_of (LeaveGroup id h)
  | CallSetLXMFMode id mode => err_of (SetLXMFMode id mode h)
  | CallSetLXMFMine id on => err_of (SetLXMFMine id on h)
  | CallJoinGroup id name => err_of (JoinGroup id name h)
  | CallMarkRead id room via m => err_of (MarkRead id room via m h)
  | CallJoin req => err_of (Join req h)
  | CallPart id room => err_of (Part id room h)
  | CallDisconnect id rooms => err_of (Disconnect id rooms h)
  | CallPost req => err_of (Post req h)
  | CallMayNotice id room => err_of (MayNotice id room h)
  | CallHistory id room n b => err_of (History id room n b h)
  | CallCommand req => err_of (Command req h)
  | CallDeleteMessage a m => err_of (DeleteMessage a m h)
  | CallMayNotifyDirect f t => err_of (MayNotifyDirect f t h)
  | CallWhisperSentRRC w => err_of (WhisperSentRRC w h)
  | CallWhispers id n => err_of (WhispersOf id n h)
  | CallSetPrefs id change => err_of (SetPrefs id change h)
  | CallRecordDelivery d o p r a => err_of (RecordDelivery d o p r a h)
  end.
(** A context that is over keeps the store's transaction from beginning. *)
Definition context_canceled : Error := ErrInternal "begin: context canceled".
#[export] Instance hub_work : Work Hub Call (option Error) := {|
  wk_exec how c h :=
    match how with
    | Some (t, r) => (refusal (E := at_time W t r) c h, perform (E := at_time W t r) c h)
    | None => (Some context_canceled, h)
    end;
  wk_maintain over t r := if over then maintain_over (E := at_time W t r) else maintain (E := at_time W t r);
  wk_save t r := saveAllCursors (E := at_time W t r);
  wk_receive k h := snd <$> receive_at k h
|}.

Lemma does_step (o : Obs Call (option Error)) h h' : does o h h' -> rtc (step (W := W)) h h'.
Proof.
  destruct o as [| |i c [[t r]|] x|i a|over t r|t r|k]; cbn; [by intros ->|by intros ->| |by intros [= _ ->]|by intros ->|..].
  - intros [= _ <-]. apply rtc_once, (step_call t r c).
  - intros ->. destruct over; [apply rtc_once, (step_maintain_over t r)|apply rtc_once, (step_maintain t r)].
  - intros ->. apply rtc_once, (step_save t r).
  - destruct (receive_at k h) as [[e h1]|] eqn:E; [|done]. intros [= <-]. by eapply rtc_once, step_receive.
Qed.
Lemma replays_steps (tr : list (Obs Call (option Error))) h h' : replays tr h h' -> rtc (step (W := W)) h h'.
Proof.
  revert h. induction tr as [|o tr IH]; intros h; cbn; [by intros ->|]. intros (h1 & H1 & H2). etrans; [by eapply does_step|by apply IH].
Qed.

(** C3. The hub is linearizable.  However its callers, its loop, its clock and its
    adapters take their turns, the hub is as the requests served, one at a time and
    in the order they were sent, have left it, each with the result that its run
    gives there; and so it is a hub that [System]'s steps reach.  What has been sent
    and not served is in the channel. *)
Theorem hub_linearizable h0 (l : Loop Hub Call (option Error)) : runs_to h0 l ->
  rtc step h0 (lp_state l) /\ replays (lp_trace l) h0 (lp_state l) /\
  sent (lp_trace l) = served (lp_trace l) ++ lp_reqs l.
Proof. intros [Hr Hf _ _ _ _ _]%runs_to_inv. split; [by eapply replays_steps|done]. Qed.
End hub.
