(* ===== verification/Frame.v ===== *)
(** Running requests forwards: what a successful operation has done, and what
    it has left alone.  The specifications of the hub's requests (PostSpec.v,
    RoomSpec.v, ...) are proved by opening a request with these lemmas. *)
From S2P Require Import Prelude Text Db StorePeople StoreRooms StoreMessages StoreGroup StoreInv StoreWf Names HubCore.
From S2P Require Import Clock Ranks People Rooms Post Commands CmdPeople CmdRooms Moderation Links Whispers Profile Dispatch.
From S2P Require Import Maintain HubWf.
Local Open Scope Z_scope.

(** A request with another database. *)
Definition with_db (d : DB) (q : Req) : Req := mkReq d (q_mem q) (q_events q) (q_after q).
Definition with_event (e : Event) (q : Req) : Req := mkReq (q_db q) (q_mem q) (q_events q ++ [e]) (q_after q).
Definition with_mem (m : Mem) (q : Req) : Req := mkReq (q_db q) m (q_events q) (q_after q).

(** The request a hub's method runs in. *)
Definition start (h : Hub) : Req := mkReq (h_db h) (h_mem h) [] [].
Lemma update_ok {A} (m : H A) h a h' : update m h = (Ok a, h') ->
  exists q, m (start h) = (Ok a, q) /\
    h' = mkHub (q_db q) (run_after (q_after q) (q_mem q)) (publish (q_events q) (h_subs h)).
Proof.
  unfold update, start. destruct (m _) as [[b|e] q]; [|done]. intros [= -> <-]. by exists q.
Qed.

Lemma tx_ok {A} (m : Tx A) q a q' :
  tx m q = (Ok a, q') <-> exists d, m (q_db q) = (Ok a, d) /\ q' = with_db d q.
Proof.
  unfold tx, with_db. destruct (m (q_db q)) as [r d]; split.
  - intros [= -> <-]. eauto.
  - by intros (d' & [= -> ->] & ->).
Qed.
Lemma tx_fail {A} (m : Tx A) q e q' : tx m q = (Fail e, q') -> exists d, m (q_db q) = (Fail e, d).
Proof. unfold tx. destruct (m (q_db q)) as [r d]. intros [= -> _]. by exists d. Qed.
(** A query inside a request. *)
Lemma tx_gets_ok {A} (f : DB -> A) q a q' : tx (gets f) q = (Ok a, q') -> a = f (q_db q) /\ q' = q.
Proof. intros (d & [= <- <-] & ->)%tx_ok. by destruct q. Qed.
Lemma mem_ok {A} (f : Mem -> A) q a q' : mem f q = (Ok a, q') -> a = f (q_mem q) /\ q' = q.
Proof. by intros [= <- <-]. Qed.

Lemma tx_gets_run {A} (f : DB -> A) q : tx (gets f) q = (Ok (f (q_db q)), q).
Proof. by destruct q. Qed.

(** [if b then refuse ... else m] that succeeds. *)
Lemma refuse_or {A} (b : bool) text (m : H A) q a q' :
  (if b then refuse text else m) q = (Ok a, q') -> b = false /\ m q = (Ok a, q').
Proof. by destruct b. Qed.
Lemma or_refuse {A} (b : bool) text (m : H A) q a q' :
  (if b then m else refuse text) q = (Ok a, q') -> b = true /\ m q = (Ok a, q').
Proof. by destruct b. Qed.

(** ** The store *)
Lemma touch_ok id pk t d u d' :
  tx_TouchIdentity id pk t d = (Ok u, d') ->
  checkID id = true /\ exists rows ps, d' = set_identities rows (set_people ps d).
Proof.
  unfold tx_TouchIdentity, check_id, assert, bind, get, newPerson, put_identity, modify, put, ret, fail.
  destruct (checkID id); [|done]. cbn. destruct (identities d !! id); destruct (public_key_ok _); [|done| |done];
    intros [= <- <-]; (split; [done|]).
  - exists (<[id := mkIdentity id (match pk with Some k => Some k | None => Identity_PublicKey i end) (Identity_FirstSeen i)
      (Z.max (Identity_LastSeen i) t) (Identity_LXMFMode i) (Identity_LXMFMine i) (Identity_Person i)
      (Identity_PersonSince i)]> (identities d)), (people d). by destruct d.
  - by eexists _, _.
Qed.
Lemma put_room_ok r d u d' :
  tx_PutRoom r d = (Ok u, d') ->
  exists created, d' = set_rooms (<[Room_Name r := mkRoom (Room_Name r) (Room_Topic r) (Room_Founder r)
    (Room_Registered r) (Room_Modes r) (Room_Key r) created (Room_LastUsed r)]> (rooms d)) d.
Proof.
  unfold tx_PutRoom, check_id, assert, bind, modify, ret, fail.
  destruct (Room_Founder r) as [f|]; [destruct (checkID f); [|done]|]; (destruct (mode_letters_ok _); [|done]);
    intros [= <- <-]; eauto.
Qed.
Lemma add_message_ok m d k dup d' :
  tx_AddMessage m d = (Ok (k, dup), d') ->
  if dup then d' = d /\ exists o, Message_OriginID m = Some o /\ origin_id d (Message_Via m) o = Some k
  else k = next_id (messages d) /\ d' = set_messages (<[k := with_message_id k m]> (messages d)) d /\
       forall o, Message_OriginID m = Some o -> origin_id d (Message_Via m) o = None.
Proof.
  unfold tx_AddMessage, check_id, assert, bind, get, put, ret, fail. destruct (checkID _); [|done].
  destruct (Message_OriginID m) as [o|] eqn:Ho; cbn.
  - destruct (origin_id _ _ o) as [k'|] eqn:Eo; intros [= <- <- <-]; [by eauto|]. by split_and!; [..|intros ? [= <-]].
  - by intros [= <- <- <-].
Qed.
Lemma put_delivery_ok k id st at_ d u d' :
  tx_PutDelivery (mkDelivery k false id st 0 0 at_ at_) d = (Ok u, d') ->
  d' = set_deliveries (<[(k, id) := mkDeliveryRow st 0 0 at_ at_]> (deliveries d)) d.
Proof. unfold tx_PutDelivery, check_id, assert, bind, modify. cbn. destruct (checkID id); [|done]. by intros [= <- <-]. Qed.
Lemma set_cursor_ok id room via k t d u d' :
  tx_SetCursor id room via k t d = (Ok u, d') ->
  d' = set_cursors (<[(id, room, via) := mkCursor (match cursors d !! (id, room, via) with
                                                   | Some c => Z.max (Cursor_MessageID c) k
                                                   | None => k end) t]> (cursors d)) d.
Proof.
  unfold tx_SetCursor, check_id, assert, bind, modify. destruct (checkID id); [|done].
  destruct (negb _); [|done]. by intros [= <- <-].
Qed.

Lemma set_cursor_fail id room via k t d e d' : tx_SetCursor id room via k t d = (Fail e, d') -> ~ recoverable e.
Proof.
  unfold tx_SetCursor, check_id, assert, bind, modify. destruct (checkID id); [|by intros [= <- _] []].
  destruct (negb _); [done|]. by intros [= <- _] [].
Qed.

(** ** Gates *)
Section gates.
Context {E : Env}.
Lemma normRoom_ok name q room q' :
  normRoom name q = (Ok room, q') -> q' = q /\ NormalizeRoom name (MaxRoomNameBytes cfg) = inr room.
Proof. unfold normRoom. destruct (NormalizeRoom _ _); [done|]. by intros [= -> <-]. Qed.
Lemma checkHubBan_ok id q u q' : checkHubBan id q = (Ok u, q') -> q' = q /\ bans (q_db q) !! id = None.
Proof.
  unfold checkHubBan. intros (b & q1 & [-> ->]%tx_gets_ok & Hr)%bind_ok. case_bool_decide as Hb; [done|].
  injection Hr as _ <-. by apply eq_None_not_Some in Hb.
Qed.
Lemma checkRoomBan_ok room id q u q' :
  checkRoomBan room id q = (Ok u, q') -> q' = q /\ room_roles (q_db q) !! (room, id, RoleBan) = None.
Proof.
  unfold checkRoomBan. intros (b & q1 & [-> ->]%tx_gets_ok & Hr)%bind_ok. case_bool_decide as Hb; [done|].
  injection Hr as _ <-. by apply eq_None_not_Some in Hb.
Qed.
Lemma checkHubBan_run id q : bans (q_db q) !! id = None -> checkHubBan id q = (Ok tt, q).
Proof. intros Hb. unfold checkHubBan. erewrite bind_run by apply tx_gets_run. by rewrite Hb. Qed.
Lemma checkRoomBan_run room id q : room_roles (q_db q) !! (room, id, RoleBan) = None -> checkRoomBan room id q = (Ok tt, q).
Proof. intros Hb. unfold checkRoomBan. erewrite bind_run by apply tx_gets_run. by rewrite Hb. Qed.
(** The rate limit only moves the sender's bucket. *)
Lemma allowPost_ok id q b q' :
  allowPost id q = (Ok b, q') -> exists bk,
    take_token (rate (q_mem q) !! id) = (b, bk) /\ q' = with_mem (set_rate (<[id := bk]> (rate (q_mem q))) (q_mem q)) q.
Proof.
  unfold allowPost. intros (o & q1 & [-> ->]%mem_ok & Hr)%bind_ok. destruct (take_token _) as [ok bk].
  injection Hr as -> <-. eauto.
Qed.
Lemma rate_gate_ok id q u q' :
  rate_gate id q = (Ok u, q') -> exists bk,
    take_token (rate (q_mem q) !! id) = (true, bk) /\ q' = with_mem (set_rate (<[id := bk]> (rate (q_mem q))) (q_mem q)) q.
Proof.
  unfold rate_gate. intros (b & q1 & Ha & Hr)%bind_ok. apply allowPost_ok in Ha as (bk & Ht & ->).
  destruct b; [|done]. injection Hr as _ <-. eauto.
Qed.
End gates.

(** ** Touching an identity *)
Definition same_settings (i j : Identity) : Prop :=
  Identity_LXMFMode i = Identity_LXMFMode j /\ Identity_LXMFMine i = Identity_LXMFMine j /\
  Identity_Person i = Identity_Person j.
Lemma touch_rows id pk t d u d' :
  tx_TouchIdentity id pk t d = (Ok u, d') ->
  (forall x i, identities d !! x = Some i -> exists j, identities d' !! x = Some j /\ same_settings i j) /\
  (forall x j, identities d' !! x = Some j -> identities d !! x = None -> x = id /\ Identity_Person j = next_id (people d)).
Proof.
  unfold tx_TouchIdentity, check_id, assert, bind, get, newPerson, put_identity, modify, put, ret, fail.
  destruct (checkID id); [|done]. cbn.
  destruct (identities d !! id) as [i|] eqn:Hi; destruct (public_key_ok _); [|done| |done]; intros [= <- <-]; cbn; split.
  - intros x y Hx. rewrite lookup_insert. case_decide as Hc; [subst|]; eexists; (split; [done|]); simplify_eq; done.
  - intros x j. rewrite lookup_insert. case_decide; [subst; intros _; congruence|congruence].
  - intros x y Hx. rewrite lookup_insert_ne by congruence. eexists. done.
  - intros x j. rewrite lookup_insert. case_decide; [subst|congruence]. by intros [= <-].
Qed.

(** ** Requests that only write the database *)
Definition db_only {A} (m : H A) : Prop := forall q, exists d, (m q).2 = with_db d q.
Lemma db_only_reads {A} (m : H A) : reads m -> db_only m.
Proof. intros Hm q. exists (q_db q). rewrite Hm. by destruct q. Qed.
Lemma db_only_tx {A} (m : Tx A) : db_only (tx m).
Proof. intros q. unfold tx. destruct (m (q_db q)) as [r d]. by exists d. Qed.
Lemma db_only_bind {A B} (m : H A) (k : A -> H B) : db_only m -> (forall a, db_only (k a)) -> db_only (bind m k).
Proof.
  intros Hm Hk q. unfold bind. destruct (Hm q) as [d Hd]. destruct (m q) as [[a|e] q1]; cbn in Hd; subst q1.
  - destruct (Hk a (with_db d q)) as [d' ->]. by exists d'.
  - by exists d.
Qed.
Lemma db_only_foreach {A} (l : list A) (f : A -> H unit) : (forall a, db_only (f a)) -> db_only (foreach l f).
Proof.
  intros Hf. induction l as [|a l IH]; cbn; [by apply db_only_reads, reads_ret|]. by apply db_only_bind.
Qed.
Lemma db_only_ok {A} (m : H A) q a q' : db_only m -> m q = (Ok a, q') -> exists d, q' = with_db d q.
Proof. intros Hm Hr. destruct (Hm q) as [d Hd]. exists d. by rewrite Hr in Hd. Qed.

Ltac db_only_auto := intros; repeat (first
  [ apply db_only_tx
  | apply db_only_reads; solve [eauto 2 with reads nocore]
  | apply db_only_bind; [|intros ?]
  | apply db_only_foreach; intros ?
  | match goal with
    | |- db_only (match ?x with _ => _ end) => destruct x
    | |- db_only (let '_ := ?x in _) => destruct x
    end ]; cbn).
