(* ===== verification/PostSpec.v ===== *)
(** internal/hub/post.go: what a post does, who gets a copy, and how fast
    anyone can post. *)
From S2P Require Import Prelude Text Db StorePeople StoreRooms StoreMessages StoreGroup StoreInv StoreWf Names HubCore.
From S2P Require Import Clock Ranks People Rooms Post HubWf Frame.
Local Open Scope Z_scope.

(** ** People, as sets of identities *)

(** [a] and [b] are apps of one person. *)
Definition same_person (d : DB) (a b : ident) : Prop :=
  a = b \/ exists i j, identities d !! a = Some i /\ identities d !! b = Some j /\ Identity_Person i = Identity_Person j.

Lemma same_person_known d a b i : identities d !! a = Some i -> a <> b ->
  same_person d a b <-> exists j, identities d !! b = Some j /\ Identity_Person j = Identity_Person i.
Proof.
  intros Hi Hab. split.
  - intros [->|(i' & j & Hi' & Hj & He)]; [done|]. exists j. split; [done|congruence].
  - intros (j & Hj & He). right. exists i, j. by rewrite He.
Qed.
Lemma same_person_unknown d a b : identities d !! a = None -> same_person d a b <-> a = b.
Proof. intros Hn. split; [|by left]. intros [->|(i & j & Hi & _)]; [done|congruence]. Qed.

Section people_runs.
Context {E : Env}.

Lemma PersonOf_run id q : db_wf (q_db q) ->
  tx (tx_PersonOf id) q =
    (Ok (i ← identities (q_db q) !! id; people (q_db q) !! Identity_Person i), q).
Proof. intros _. by destruct q. Qed.
Lemma PersonOf_id d id sp : db_wf d -> (i ← identities d !! id; people d !! Identity_Person i) = Some sp ->
  exists i, identities d !! id = Some i /\ Identity_Person i = SPerson_ID sp.
Proof.
  intros Hwf Hsp. destruct (identities d !! id) as [i|] eqn:Hi; [|done]. cbn in Hsp. exists i. split; [done|].
  symmetry. apply (wf_person _ Hwf _ _ Hsp).
Qed.
Lemma PersonOf_none d id : db_wf d -> (i ← identities d !! id; people d !! Identity_Person i) = None -> identities d !! id = None.
Proof.
  intros Hwf Hn. destruct (identities d !! id) as [i|] eqn:Hi; [|done]. cbn in Hn.
  destruct (wf_identity _ Hwf _ _ Hi) as (_ & _ & [sp Hsp]). congruence.
Qed.

Lemma samePerson_run a b q : db_wf (q_db q) ->
  exists s, samePerson a b q = (Ok s, q) /\ (s = true <-> same_person (q_db q) a b).
Proof.
  intros Hwf. unfold samePerson. case_bool_decide as Hab; [exists true; split; [done|]; split; [by left|done]|].
  unfold bind. rewrite PersonOf_run by done.
  destruct (i ← identities (q_db q) !! a; _) as [pa|] eqn:Ha.
  - rewrite PersonOf_run by done. apply PersonOf_id in Ha as (i & Hi & Hpi); [|done].
    eexists. split; [done|]. rewrite same_person_known by done.
    destruct (j ← identities (q_db q) !! b; _) as [pb|] eqn:Hb.
    + apply PersonOf_id in Hb as (j & Hj & Hpj); [|done]. rewrite Z.eqb_eq, <- Hpi, <- Hpj. split; [by eauto|].
      intros (j' & Hj' & He). congruence.
    + apply PersonOf_none in Hb; [|done]. split; [done|]. intros (j & Hj & _). congruence.
  - apply PersonOf_none in Ha; [|done]. eexists. split; [done|]. by rewrite same_person_unknown.
Qed.

Lemma identitiesOf_run id q : db_wf (q_db q) ->
  exists ids, identitiesOf id q = (Ok ids, q) /\ forall x, x ∈ ids <-> same_person (q_db q) id x.
Proof.
  intros Hwf. unfold identitiesOf, bind. rewrite PersonOf_run by done.
  destruct (i ← identities (q_db q) !! id; _) as [p|] eqn:Hp.
  - apply PersonOf_id in Hp as (i & Hi & Hpi); [|done]. exists (map Identity_ID (identities_of (q_db q) (SPerson_ID p))).
    split; [by destruct q|]. intros x. rewrite list_elem_of_fmap. unfold same_person. split.
    + intros (j & -> & [[y Hj] Hpj]%elem_of_identities_of). destruct (wf_identity _ Hwf _ _ Hj) as [Hid _].
      right. exists i, j. split_and!; [done|by rewrite Hid|congruence].
    + intros [<-|(i' & j & Hi' & Hj & Hpp)].
      * exists i. split; [by destruct (wf_identity _ Hwf _ _ Hi)|]. apply elem_of_identities_of. eauto.
      * simplify_eq. exists j. split; [by destruct (wf_identity _ Hwf _ _ Hj)|]. apply elem_of_identities_of. eauto with congruence.
  - apply PersonOf_none in Hp; [|done]. exists [id]. split; [done|]. intros x.
    rewrite list_elem_of_singleton, same_person_unknown by done. done.
Qed.

(** Some app of [id]'s person is in the room over RRC. *)
Definition on_rrc (q : Req) (id : ident) (room : string) : Prop :=
  exists x, same_person (q_db q) id x /\ rrcPresent_in (q_mem q) room x = true.
Lemma personOnRRC_run id room q : db_wf (q_db q) ->
  exists b, personOnRRC id room None q = (Ok b, q) /\ (b = true <-> on_rrc q id room).
Proof.
  intros Hwf. unfold personOnRRC, bind. destruct (identitiesOf_run id q Hwf) as (ids & -> & Hids).
  eexists. split; [done|]. rewrite existsb_exists. unfold on_rrc.
  split; intros (x & Hx & Hp); exists x.
  - apply andb_true_iff in Hp as [_ Hp]. by rewrite <- list_elem_of_In, Hids in Hx.
  - rewrite <- list_elem_of_In, Hids. split; [done|]. by case_bool_decide.
Qed.

(** LXMF copies are paused: off, or automatic with an app on RRC. *)
Definition paused (q : Req) (mode : LXMFMode) (id : ident) : Prop :=
  match mode with LXMFOff => True | LXMFAuto => on_rrc q id (GroupRoom cfg) | LXMFOn => False end.
Lemma lxmfPaused_run mode id q : db_wf (q_db q) ->
  exists b, lxmfPaused mode id q = (Ok b, q) /\ (b = true <-> paused q mode id).
Proof.
  intros Hwf. destruct mode; cbn.
  - by exists false.
  - by exists true.
  - apply personOnRRC_run, Hwf.
Qed.
End people_runs.

(** ** Who gets a copy by LXMF *)
Section copies.
Context {E : Env}.

(** As README.md and ADR 0003 put it: members whose copies are not paused, but
    not back to the app that posted by LXMF, nor to its person's other apps
    unless they ask for their own messages, nor to anyone banned. *)
Record gets_copy (q : Req) (author : ident) (via : Via) (x : ident) : Prop := {
  gc_member : is_Some (members (q_db q) !! x);
  gc_mode : exists i, identities (q_db q) !! x = Some i /\ ~ paused q (Identity_LXMFMode i) x /\
    (Identity_LXMFMine i = true \/ ~ same_person (q_db q) x author);
  gc_not_back : ~ (x = author /\ via = ViaLXMF);
  gc_not_banned : bans (q_db q) !! x = None
}.

Lemma elem_of_members_of d m : m ∈ members_of d <->
  exists r i, members d !! SMember_Identity m = Some r /\ identities d !! SMember_Identity m = Some i /\
    m = mkSMember (SMember_Identity m) (mr_joined_at r) (mr_away_until r) (Identity_LXMFMode i) (Identity_LXMFMine i).
Proof.
  unfold members_of. rewrite elem_of_order_by, list_elem_of_omap. split.
  - intros ([x r] & Hx & Hm). apply elem_of_map_to_list in Hx. unfold member_of in Hm. cbn in Hm.
    destruct (identities d !! x) as [i|] eqn:Hi; [|done]. injection Hm as <-. cbn. eauto.
  - intros (r & i & Hr & Hi & Hm). exists (SMember_Identity m, r). split; [by apply elem_of_map_to_list|].
    unfold member_of. cbn. rewrite Hi. cbn. by rewrite <- Hm.
Qed.
Lemma members_of_NoDup d : NoDup (map SMember_Identity (members_of d)).
Proof.
  unfold members_of. rewrite (fmap_Permutation SMember_Identity _ _ (order_by_perm _ _)).
  pose proof (NoDup_fst_map_to_list (members d)) as Hnd. revert Hnd. generalize (map_to_list (members d)) as l.
  induction l as [|[x r] l IH]; cbn; [by constructor|]. intros [Hx Hl]%NoDup_cons.
  unfold member_of at 1. cbn. destruct (identities d !! x) as [i|]; cbn; [|by apply IH].
  constructor; [|by apply IH]. intros (m & Hm & Hin)%list_elem_of_fmap. cbn in Hm. apply Hx.
  apply list_elem_of_omap in Hin as ([y s] & Hy & Hm'). unfold member_of in Hm'. cbn in Hm'.
  destruct (identities d !! y); [|done]. injection Hm' as <-. cbn in Hm. subst. by apply (list_elem_of_fmap_2 fst) in Hy.
Qed.

Lemma lxmf_gets_run author via m q : db_wf (q_db q) -> m ∈ members_of (q_db q) ->
  exists b, lxmf_gets author via m q = (Ok b, q) /\ (b = true <-> gets_copy q author via (SMember_Identity m)).
Proof.
  intros Hwf (r & i & Hr & Hi & Hm)%elem_of_members_of. unfold lxmf_gets, bind.
  rewrite Hm. cbn. generalize dependent (SMember_Identity m). intros x Hr Hi _. clear m.
  destruct (lxmfPaused_run (Identity_LXMFMode i) x q Hwf) as (p & -> & Hp).
  destruct p.
  { exists false. split; [done|]. split; [done|]. intros [_ (i' & Hi' & Hnp & _) _ _]. simplify_eq. exfalso. by apply Hnp, Hp. }
  assert (~ paused q (Identity_LXMFMode i) x) as Hnp by (rewrite <- Hp; done).
  destruct (bool_decide (x = author) && bool_decide (via = ViaLXMF)) eqn:Hback.
  { apply andb_true_iff in Hback as [?%bool_decide_eq_true ?%bool_decide_eq_true].
    exists false. split; [done|]. split; [done|]. intros [_ _ [] _]. done. }
  assert (~ (x = author /\ via = ViaLXMF)) as Hnb.
  { intros [-> ->]. by rewrite !bool_decide_eq_true_2 in Hback. }
  assert (exists own, (if Identity_LXMFMine i then ret false else samePerson x author) q = (Ok own, q) /\
    (own = false <-> (Identity_LXMFMine i = true \/ ~ same_person (q_db q) x author))) as (own & Ho & Hown).
  { destruct (Identity_LXMFMine i) eqn:Em; [exists false; split; [done|tauto]|].
    destruct (samePerson_run x author q Hwf) as (s & Hs & Hspec). exists s. split; [done|].
    rewrite <- Hspec. destruct s; split; [done| |by right|done]. intros [?|[]]; done. }
  rewrite Ho. destruct own.
  { exists false. split; [done|]. split; [done|]. intros [_ (i' & Hi' & _ & Hmine) _ _]. simplify_eq.
    by apply Hown in Hmine. }
  exists (negb (bool_decide (is_Some (bans (q_db q) !! x)))). split; [by destruct q|].
  rewrite negb_true_iff, bool_decide_eq_false, <- eq_None_not_Some. split; [|by intros []].
  intros Hb. constructor; [by eauto| |done..]. exists i. split_and!; [done..|]. by apply Hown.
Qed.

Lemma select_members_run (f : SMember -> H bool) (R : ident -> Prop) l q :
  (forall m, m ∈ l -> exists b, f m q = (Ok b, q) /\ (b = true <-> R (SMember_Identity m))) ->
  NoDup (map SMember_Identity l) ->
  exists to, select_members f l q = (Ok to, q) /\ NoDup to /\
    forall x, x ∈ to <-> x ∈ map SMember_Identity l /\ R x.
Proof.
  induction l as [|m l IH]; intros Hf Hnd; cbn.
  { exists []. split_and!; [done|constructor|]. intros x. rewrite elem_of_nil. tauto. }
  apply NoDup_cons in Hnd as [Hm Hnd]. destruct IH as (to & Hto & Hndto & Hx); [by intros; apply Hf; right|done|].
  destruct (Hf m) as (b & Hb & HR); [by left|]. unfold bind. rewrite Hb, Hto. cbn. eexists. split; [done|].
  destruct b; split.
  - constructor; [|done]. rewrite Hx. tauto.
  - intros x. rewrite !elem_of_cons, Hx. set_solver.
  - done.
  - intros x. rewrite elem_of_cons, Hx. split; [tauto|]. intros [[->|] ?]; [by exfalso; apply HR in H|done].
Qed.

Lemma lxmfRecipients_run author via q : db_wf (q_db q) ->
  exists to, lxmfRecipients author via q = (Ok to, q) /\ NoDup to /\ forall x, x ∈ to <-> gets_copy q author via x.
Proof.
  intros Hwf. unfold lxmfRecipients, bind. change (tx tx_Members q) with (Ok (members_of (q_db q)), mkReq (q_db q) (q_mem q) (q_events q) (q_after q)).
  replace (mkReq _ _ _ _) with q by (by destruct q).
  destruct (select_members_run (lxmf_gets author via) (gets_copy q author via) (members_of (q_db q)) q)
    as (to & Hto & Hnd & Hx); [by intros; apply lxmf_gets_run|apply members_of_NoDup|].
  exists to. split_and!; [done..|]. intros x. rewrite Hx. split; [tauto|]. intros Hg. split; [|done].
  destruct (gc_member _ _ _ _ Hg) as [r Hr], (gc_mode _ _ _ _ Hg) as (i & Hi & _).
  apply list_elem_of_fmap. exists (mkSMember x (mr_joined_at r) (mr_away_until r) (Identity_LXMFMode i) (Identity_LXMFMine i)).
  split; [done|]. apply elem_of_members_of. eauto.
Qed.
End copies.

(** ** Everything a message has to pass *)
Section gates.
Context {E : Env}.

Record post_allowed (q : Req) (req : PostRequest) (room : string) (row : Room) : Prop := {
  pa_room : NormalizeRoom (if bool_decide (pr_Room req = "") then GroupRoom cfg else pr_Room req) (MaxRoomNameBytes cfg)
              = inr room;
  pa_body : postable (post_body req);
  pa_ban : bans (q_db q) !! pr_Identity req = None;
  pa_row : rooms (q_db q) !! room = Some row;
  pa_via : match pr_Via req with
           | ViaRRC => rrcPresent_in (q_mem q) room (pr_Identity req) = true \/ HasMode row "n" = false
           | ViaLXMF => is_Some (members (q_db q) !! pr_Identity req) /\ room = GroupRoom cfg
           | ViaPage => room = GroupRoom cfg
           | ViaImport => True
           end;
  pa_room_ban : room_roles (q_db q) !! (room, pr_Identity req, RoleBan) = None;
  pa_voice : HasMode row "m" = true -> isVoiced row (pr_Identity req) q = (Ok true, q);
  pa_rate : (take_token (rate (q_mem q) !! pr_Identity req)).1 = true
}.
Definition charged (id : ident) (q : Req) : Req :=
  with_mem (set_rate (<[id := (take_token (rate (q_mem q) !! id)).2]> (rate (q_mem q))) (q_mem q)) q.

Lemma via_gate_ok via id room r q u q' :
  via_gate via id room r q = (Ok u, q') -> q' = q /\
  match via with
  | ViaRRC => rrcPresent_in (q_mem q) room id = true \/ HasMode r "n" = false
  | ViaLXMF => is_Some (members (q_db q) !! id) /\ room = GroupRoom cfg
  | ViaPage => room = GroupRoom cfg
  | ViaImport => True
  end.
Proof.
  destruct via; unfold via_gate.
  - intros (b & q1 & [-> ->]%mem_ok & [Hb Hr]%refuse_or)%bind_ok. injection Hr as _ <-. split; [done|].
    destruct (rrcPresent_in _ _ _); [by left|by right].
  - intros (b & q1 & [-> ->]%tx_gets_ok & [Hm [Hg Hr]%refuse_or]%refuse_or)%bind_ok. injection Hr as _ <-.
    apply negb_false_iff, bool_decide_eq_true in Hm, Hg. done.
  - intros [Hg Hr]%refuse_or. injection Hr as _ <-. by apply negb_false_iff, bool_decide_eq_true in Hg.
  - by intros [= _ <-].
Qed.
Lemma voice_gate_ok r id q u q' :
  voice_gate r id q = (Ok u, q') -> q' = q /\ (HasMode r "m" = true -> isVoiced r id q = (Ok true, q)).
Proof.
  unfold voice_gate. destruct (HasMode r "m"); [|by intros [= _ <-]].
  intros (b & q1 & Hv & Hr)%bind_ok. assert (q1 = q) as -> by (eapply reads_ok; [apply reads_isVoiced|done]).
  destruct b; [|done]. injection Hr as _ <-. done.
Qed.

Lemma post_gates_ok req q room row q' :
  post_gates req q = (Ok (room, row), q') -> post_allowed q req room row /\ q' = charged (pr_Identity req) q.
Proof.
  unfold post_gates. intros (n & q1 & [-> Hn]%normRoom_ok & Hr)%bind_ok.
  apply bind_ok in Hr as (u1 & q2 & Hb & Hr). assert (q2 = q) as -> by (eapply reads_ok; [apply reads_body_gate|done]).
  apply body_gate_ok in Hb. apply bind_ok in Hr as (u2 & q3 & [-> Hban]%checkHubBan_ok & Hr).
  apply bind_ok in Hr as (o & q4 & [-> ->]%tx_gets_ok & Hr). destruct (rooms (q_db q) !! n) as [r|] eqn:Hrow; [|done].
  apply bind_ok in Hr as (u3 & q5 & [-> Hvia]%via_gate_ok & Hr).
  apply bind_ok in Hr as (u4 & q6 & [-> Hrb]%checkRoomBan_ok & Hr).
  apply bind_ok in Hr as (u5 & q7 & [-> Hvoice]%voice_gate_ok & Hr).
  apply bind_ok in Hr as (u6 & q8 & (bk & Ht & ->)%rate_gate_ok & Hr). injection Hr as -> -> <-.
  split; [|by unfold charged; rewrite Ht]. constructor; try done. by rewrite Ht.
Qed.
Lemma via_gate_run via id room r q :
  match via with
  | ViaRRC => rrcPresent_in (q_mem q) room id = true \/ HasMode r "n" = false
  | ViaLXMF => is_Some (members (q_db q) !! id) /\ room = GroupRoom cfg
  | ViaPage => room = GroupRoom cfg
  | ViaImport => True
  end -> via_gate via id room r q = (Ok tt, q).
Proof.
  unfold via_gate. destruct via; [| | |done].
  - intros Hh. erewrite bind_run by done. destruct Hh as [->| ->]; [done|by rewrite andb_false_r].
  - intros [Hm ->]. erewrite bind_run by apply tx_gets_run. by rewrite !bool_decide_eq_true_2.
  - intros ->. by rewrite bool_decide_eq_true_2.
Qed.
Lemma voice_gate_run r id q :
  (HasMode r "m" = true -> isVoiced r id q = (Ok true, q)) -> voice_gate r id q = (Ok tt, q).
Proof. unfold voice_gate. destruct (HasMode r "m"); [|done]. intros Hv. by erewrite bind_run by (by apply Hv). Qed.
Lemma body_gate_run body q : postable body -> body_gate body q = (Ok tt, q).
Proof.
  intros [Hb [Hv Hl]]. unfold body_gate. rewrite bool_decide_eq_false_2, Hv by done. cbn.
  by destruct (Z.ltb_spec (MaxBodyBytes cfg) (len body)); [lia|].
Qed.
Lemma rate_gate_run id q : (take_token (rate (q_mem q) !! id)).1 = true -> rate_gate id q = (Ok tt, charged id q).
Proof.
  intros Ht. unfold rate_gate, charged. destruct (take_token _) as [b bk] eqn:Hb. cbn in Ht. subst b.
  assert (allowPost id q = (Ok true, with_mem (set_rate (<[id := bk]> (rate (q_mem q))) (q_mem q)) q)) as Ha.
  { unfold allowPost. erewrite bind_run by done. by rewrite Hb. }
  by erewrite bind_run by exact Ha.
Qed.
(** The gates let through exactly the posts that are allowed. *)
Lemma post_gates_run req q room row :
  post_allowed q req room row -> post_gates req q = (Ok (room, row), charged (pr_Identity req) q).
Proof.
  intros [Hroom Hbody Hban Hrow Hvia Hrb Hvoice Hrate].
  unfold post_gates. erewrite bind_run; [|unfold normRoom; by rewrite Hroom].
  erewrite bind_run; [|by apply body_gate_run]. erewrite bind_run; [|by apply checkHubBan_run].
  erewrite bind_run; [|apply tx_gets_run]. rewrite Hrow. erewrite bind_run; [|by apply via_gate_run].
  erewrite bind_run; [|by apply checkRoomBan_run]. erewrite bind_run; [|by apply voice_gate_run].
  erewrite bind_run; [done|by apply rate_gate_run].
Qed.
End gates.

(** ** What a post does *)
Section post.
Context {E : Env}.

Lemma put_copies_ok to k q u q' :
  foreach to (fun x => tx (tx_PutDelivery (mkDelivery k false x DeliveryQueued 0 0 nowMS nowMS))) q = (Ok u, q') ->
  exists ds, q' = with_db (set_deliveries ds (q_db q)) q /\
    (forall x, x ∈ to -> ds !! (k, x) = Some (mkDeliveryRow DeliveryQueued 0 0 nowMS nowMS)) /\
    (forall l x, l <> k \/ x ∉ to -> ds !! (l, x) = deliveries (q_db q) !! (l, x)).
Proof.
  revert q. induction to as [|y to IH]; intros q; cbn.
  - intros [= _ <-]. exists (deliveries (q_db q)). split_and!; [by destruct q as [[]]|by intros x ?%elem_of_nil|done].
  - intros (u1 & q1 & (d & Hd%put_delivery_ok & ->)%tx_ok & Hr)%bind_ok. apply IH in Hr as (ds & -> & Hin & Hout).
    exists ds. subst d. cbn in Hout. split_and!; [done| |].
    + intros x Hx. destruct (decide (x ∈ to)) as [?|Hn]; [by apply Hin|].
      apply elem_of_cons in Hx as [->|?]; [|done]. rewrite Hout by auto. by rewrite lookup_insert_eq.
    + intros l x Hx. rewrite Hout by set_solver. rewrite lookup_insert_ne; [done|]. set_solver.
Qed.
Lemma queue_copies_ok id via room k q to q' : db_wf (q_db q) ->
  queue_copies id via room k q = (Ok to, q') ->
  exists ds, q' = with_db (set_deliveries ds (q_db q)) q /\ NoDup to /\
    (forall x, x ∈ to <-> room = GroupRoom cfg /\ gets_copy q id via x) /\
    (forall x, x ∈ to -> ds !! (k, x) = Some (mkDeliveryRow DeliveryQueued 0 0 nowMS nowMS)) /\
    (forall l x, l <> k \/ x ∉ to -> ds !! (l, x) = deliveries (q_db q) !! (l, x)).
Proof.
  intros Hwf. unfold queue_copies. case_bool_decide as Hg.
  - destruct (lxmfRecipients_run id via q Hwf) as (to' & Hto & Hnd & Hx). erewrite bind_run by exact Hto.
    intros (u & q1 & Hp & Hr)%bind_ok. injection Hr as -> <-. apply put_copies_ok in Hp as (ds & -> & ? & ?).
    exists ds. split_and!; try done. intros x. rewrite Hx. tauto.
  - intros [= <- <-]. exists (deliveries (q_db q)). split_and!; [by destruct q as [[]]|constructor| |by intros x ?%elem_of_nil|done].
    intros x. rewrite elem_of_nil. tauto.
Qed.

(** Touching the sender changes nobody's copies. *)
Lemma same_person_touch d id t u d' x y i : db_wf d -> tx_TouchIdentity id None t d = (Ok u, d') ->
  identities d !! x = Some i -> same_person d' x y <-> same_person d x y.
Proof.
  intros Hwf [Hold Hnew]%touch_rows Hi. destruct (Hold _ _ Hi) as (i' & Hi' & _ & _ & Hp).
  destruct (decide (x = y)) as [->|Hne]; [split; by left|]. rewrite !same_person_known by done. split.
  - intros (j & Hj & He). destruct (identities d !! y) as [j0|] eqn:Hj0.
    + destruct (Hold _ _ Hj0) as (j' & Hj' & _ & _ & Hp'). exists j0. split; [done|congruence].
    + destruct (Hnew _ _ Hj Hj0) as [_ Hfresh]. destruct (wf_identity _ Hwf _ _ Hi) as (_ & _ & [sp Hsp]).
      apply next_id_gt in Hsp. lia.
  - intros (j & Hj & He). destruct (Hold _ _ Hj) as (j' & Hj' & _ & _ & Hp'). exists j'. split; [done|congruence].
Qed.
Lemma gets_copy_touch id t u d' q q2 author via x : db_wf (q_db q) ->
  tx_TouchIdentity id None t (q_db q) = (Ok u, d') ->
  identities (q_db q2) = identities d' -> members (q_db q2) = members d' -> bans (q_db q2) = bans d' ->
  presence (q_mem q2) = presence (q_mem q) ->
  gets_copy q2 author via x <-> gets_copy q author via x.
Proof.
  intros Hwf Ht Hi2 Hm2 Hb2 Hp2. pose proof (touch_ok _ _ _ _ _ _ Ht) as (_ & rows & ps & Hd').
  assert (members (q_db q2) = members (q_db q)) as Hm by (rewrite Hm2; by subst d').
  assert (bans (q_db q2) = bans (q_db q)) as Hb by (rewrite Hb2; by subst d').
  enough (is_Some (members (q_db q) !! x) -> gets_copy q2 author via x <-> gets_copy q author via x) as Hx.
  { split; intros Hg; apply Hx; try done; [rewrite <- Hm|]; by destruct Hg. }
  intros [r Hr]. destruct (wf_member _ Hwf _ _ Hr) as [i Hi].
  pose proof (touch_rows _ _ _ _ _ _ Ht) as [Hold _]. destruct (Hold _ _ Hi) as (j & Hj & Hmode & Hmine & _).
  assert (forall y, same_person (q_db q2) x y <-> same_person (q_db q) x y) as Hsame.
  { intros y. rewrite <- (same_person_touch _ _ _ _ _ x y i Hwf Ht Hi). unfold same_person. by rewrite Hi2. }
  assert (paused q2 (Identity_LXMFMode j) x <-> paused q (Identity_LXMFMode i) x) as Hpause.
  { rewrite <- Hmode. destruct (Identity_LXMFMode i); cbn; [done..|]. unfold on_rrc, rrcPresent_in, present_in. rewrite Hp2.
    by setoid_rewrite Hsame. }
  split; intros [Hg1 (k & Hk & Hg2 & Hg3) Hg4 Hg5]; constructor;
    rewrite ?Hm, ?Hb in *; try done; simplify_eq.
  - rewrite Hi2, Hj in Hk. simplify_eq. exists i. rewrite <- Hpause, Hmine, <- Hsame. done.
  - exists j. rewrite Hi2, Hpause, <- Hmine, Hsame. done.
Qed.

Definition post_row (row : Room) (created : Z) : Room :=
  mkRoom (Room_Name row) (Room_Topic row) (Room_Founder row) (Room_Registered row) (Room_Modes row) (Room_Key row) created nowMS.
(** Opening [post]: the gates, the identity touched, and then a message that
    was there already or a new one. *)
Lemma post_ok req q r q' : db_wf (q_db q) -> post req q = (Ok r, q') ->
  exists room row d1 name, let id := pr_Identity req in let m := post_message req room name in
    post_allowed q req room row /\ tx_TouchIdentity id None nowMS (q_db q) = (Ok tt, d1) /\
    ( (exists o k, pr_OriginID req = Some o /\ origin_id d1 (pr_Via req) o = Some k /\
         r = mkPostResult (default m (messages d1 !! k)) true /\ q_db q' = d1 /\ q_events q' = q_events q) \/
      (exists created to ds, let k := next_id (messages d1) in
         (forall o, pr_OriginID req = Some o -> origin_id d1 (pr_Via req) o = None) /\
         r = mkPostResult (with_message_id k m) false /\
         q_db q' = set_deliveries ds (set_rooms (<[Room_Name row := post_row row created]> (rooms d1))
           (set_messages (<[k := with_message_id k m]> (messages d1)) d1)) /\
         q_events q' = q_events q ++ [MessageEvent (with_message_id k m) to] /\
         NoDup to /\ (forall x, x ∈ to <-> room = GroupRoom cfg /\ gets_copy q id (pr_Via req) x) /\
         (forall x, x ∈ to -> ds !! (k, x) = Some (mkDeliveryRow DeliveryQueued 0 0 nowMS nowMS)) /\
         (forall l x, l <> k \/ x ∉ to -> ds !! (l, x) = deliveries d1 !! (l, x)))).
Proof.
  intros Hwf. unfold post. intros ([room row] & q1 & [Hall ->]%post_gates_ok & Hr)%bind_ok. cbn in Hr.
  apply bind_ok in Hr as ([] & q2 & (d1 & Ht & ->)%tx_ok & Hr). cbn in Ht.
  apply bind_ok in Hr as (name & q3 & Hn & Hr).
  assert (q3 = with_db d1 (charged (pr_Identity req) q)) as -> by (eapply reads_ok; [apply reads_displayName|done]).
  exists room, row, d1, name. cbn. split; [done|]. split; [done|].
  apply bind_ok in Hr as ([k dup] & q4 & (d2 & Hadd & ->)%tx_ok & Hr). cbn in Hr, Hadd.
  assert (db_wf d1) as Hwf1 by (eapply pres_ok; [apply pres_TouchIdentity| |done]; done).
  assert (db_wf d2) as Hwf2 by (eapply pres_ok; [apply pres_AddMessage| |done]; done).
  apply add_message_ok in Hadd. destruct dup.
  - left. destruct Hadd as (-> & o & Ho & Hk). apply bind_ok in Hr as (u & q5 & Hc & Hr). injection Hc as <- <-.
    apply bind_ok in Hr as (s & q6 & [-> ->]%tx_gets_ok & Hr). injection Hr as <- <-. by exists o, k.
  - right. destruct Hadd as (-> & Hd2 & Ho).
    apply bind_ok in Hr as (u & q5 & (d3 & Hput & ->)%tx_ok & Hr). cbn in Hput.
    assert (db_wf d3) as Hwf3 by (eapply pres_ok; [apply pres_PutRoom| |done]; done).
    apply put_room_ok in Hput as (created & ->). subst d2.
    apply bind_ok in Hr as (to & q6 & (ds & -> & Hnd & Hto & Hin & Hout)%queue_copies_ok & Hr); [|done].
    apply bind_ok in Hr as (u1 & q7 & He & Hr). injection He as <- <-.
    apply bind_ok in Hr as (u2 & q8 & Hc & Hr). injection Hc as <- <-. injection Hr as <- <-.
    exists created, to, ds. split_and!; try done. intros x. rewrite Hto.
    by rewrite (gets_copy_touch _ _ _ _ q _ _ _ x Hwf Ht).
Qed.
End post.

Section post_theorems.
Context {E : Env}.

Lemma Post_ok req h r h' : Post req h = (Ok r, h') ->
  exists q, post req (start h) = (Ok r, q) /\
    h' = mkHub (q_db q) (run_after (q_after q) (q_mem q)) (publish (q_events q) (h_subs h)).
Proof. unfold Post. destruct (update _ _) as [[a|e] h1] eqn:Hu; [|done]. intros [= -> <-]. by apply update_ok. Qed.
Lemma origin_id_touch d id t u d' via o : tx_TouchIdentity id None t d = (Ok u, d') -> origin_id d' via o = origin_id d via o.
Proof. intros (_ & rows & ps & ->)%touch_ok. done. Qed.

(** C12. A post gets past the gates exactly when it is allowed: the room exists,
    the text is valid and not blank, the sender is banned neither from the hub
    nor from the room, may post by the way in they use, has a voice if the room
    is moderated, and has a token left; and passing them costs the token and
    nothing else. *)
Theorem post_gates_exact req q room row q' :
  post_gates req q = (Ok (room, row), q') <-> post_allowed q req room row /\ q' = charged (pr_Identity req) q.
Proof. split; [apply post_gates_ok|]. intros [Ha ->]. by apply post_gates_run. Qed.

(** C13. A post that is accepted as new is one message more, with the next id
    and with what was sent; it is offered once to every subscriber; and a copy
    is queued for exactly those members of the group who are to get one. *)
Theorem post_new req h r h' : db_wf (h_db h) -> Post req h = (Ok r, h') -> po_Duplicate r = false ->
  exists room row name to, let m := po_Message r in
    post_allowed (start h) req room row /\
    m = with_message_id (next_id (messages (h_db h))) (post_message req room name) /\
    messages (h_db h') = <[Message_ID m := m]> (messages (h_db h)) /\
    h_subs h' = map (offer (MessageEvent m to)) (h_subs h) /\ NoDup to /\
    (forall x, x ∈ to <-> room = GroupRoom cfg /\ gets_copy (start h) (pr_Identity req) (pr_Via req) x) /\
    (forall x, x ∈ to -> deliveries (h_db h') !! (Message_ID m, x) = Some (mkDeliveryRow DeliveryQueued 0 0 nowMS nowMS)) /\
    (forall l x, l <> Message_ID m \/ x ∉ to -> deliveries (h_db h') !! (l, x) = deliveries (h_db h) !! (l, x)).
Proof.
  intros Hwf (q & Hp & ->)%Post_ok Hdup.
  apply post_ok in Hp as (room & row & d1 & name & Hall & Ht & Hp); [|done]. cbn in Hp.
  apply touch_ok in Ht as (_ & rows & ps & Hd1). destruct Hp as [(o & k & _ & _ & -> & _)|Hp]; [done|].
  destruct Hp as (created & to & ds & _ & -> & Hdb & Hev & Hnd & Hto & Hin & Hout).
  exists room, row, name, to. cbn in *. rewrite Hdb, Hev. subst d1. cbn in *. by split_and!.
Qed.

(** A message that comes again by the same way with the same origin id, as
    an app's retry does, is answered with the message that was stored the first
    time; nothing more is stored, queued or published. *)
Theorem post_retry req h o k m r h' :
  db_wf (h_db h) -> messages (h_db h) !! k = Some m -> Message_Via m = pr_Via req -> Message_OriginID m = Some o ->
  pr_OriginID req = Some o -> Post req h = (Ok r, h') ->
  r = mkPostResult m true /\ messages (h_db h') = messages (h_db h) /\
  deliveries (h_db h') = deliveries (h_db h) /\ h_subs h' = h_subs h.
Proof.
  intros Hwf Hk Hvia Horig Hreq (q & Hp & ->)%Post_ok.
  apply post_ok in Hp as (room & row & d1 & name & _ & Ht & Hp); [|done]. cbn in Hp.
  assert (exists l, origin_id (h_db h) (pr_Via req) o = Some l) as [l Hl].
  { destruct (origin_id _ _ _) eqn:Ho; [eauto|]. exfalso. by eapply origin_id_none. }
  assert (l = k) as ->.
  { apply origin_id_spec in Hl as (m' & Hm' & Hv' & Ho'). eapply wf_origin; eauto. congruence. }
  pose proof (touch_ok _ _ _ _ _ _ Ht) as (_ & rows & ps & Hd1).
  destruct Hp as [(o' & k' & Ho' & Hk' & -> & Hdb & Hev)|(created & to & ds & Hnone & _)].
  - rewrite (origin_id_touch _ _ _ _ _ _ _ Ht) in Hk'.
    assert (o' = o) as -> by congruence. cbn in Hk'; assert (k' = k) as -> by congruence. rewrite Hdb, Hev, Hd1. cbn. by rewrite Hk.
  - specialize (Hnone o Hreq). rewrite (origin_id_touch _ _ _ _ _ _ _ Ht) in Hnone. cbn in Hnone. congruence.
Qed.
End post_theorems.
