(* ===== verification/RoomSpec.v ===== *)
(** internal/hub/rooms.go: what someone who comes back is shown, who is let in,
    and what joining and leaving do to presence; and the line a join draws. *)
From S2P Require Import Prelude Text Db StorePeople StoreRooms StoreMessages StoreGroup StoreInv StoreWf Names HubCore Clock Ranks People Rooms Post.
From S2P Require Import HubWf System Frame PostSpec.
Local Open Scope Z_scope.

(** ** The log of a room *)
Definition room_log (d : DB) (room : string) : list Message := messages_where d (in_room room).
Definition since (k : Z) (l : list Message) : list Message := List.filter (fun m => k <? Message_ID m) l.

Lemma elem_of_messages_where d p m : db_wf d -> m ∈ messages_where d p <-> messages d !! Message_ID m = Some m /\ p m = true.
Proof.
  intros Hwf. unfold messages_where. rewrite elem_of_order_by, elem_of_bfilter, elem_of_values. split.
  - intros [[k Hk] Hp]. split; [|done]. destruct (wf_message _ Hwf _ _ Hk) as [-> _]. done.
  - intros [Hk Hp]. eauto.
Qed.
Definition id_before (a b : Message) : Prop := Message_ID a < Message_ID b.
Lemma messages_where_sorted d p : db_wf d -> StronglySorted id_before (messages_where d p).
Proof.
  intros Hwf.
  assert (StronglySorted (fun x y => message_le x y = true) (messages_where d p)) as Hs.
  { apply order_by_sorted; unfold message_le; intros; [destruct (Z.leb_spec (Message_ID x) (Message_ID y)); lia|lia]. }
  assert (NoDup (messages_where d p)) as Hnd.
  { unfold messages_where. rewrite order_by_perm. apply NoDup_ListNoDup, List.NoDup_filter, NoDup_ListNoDup.
    apply NoDup_fmap_2_strong; [|apply NoDup_map_to_list].
    intros [k m] [k' m'] Hk Hk' Heq. cbn in Heq. subst m'. apply elem_of_map_to_list in Hk, Hk'.
    apply (wf_message _ Hwf) in Hk as [Hk _], Hk' as [Hk' _]. congruence. }
  assert (forall m, m ∈ messages_where d p -> messages d !! Message_ID m = Some m) as Hin
    by (intros m Hm; by apply elem_of_messages_where in Hm as [? _]).
  revert Hs Hnd Hin. generalize (messages_where d p) as l.
  induction 1 as [|m l _ IH Hall]; intros Hnd Hin; constructor; apply NoDup_cons in Hnd as [Hm Hnd].
  - apply IH; [done|]. intros x Hx. apply Hin. by right.
  - rewrite Forall_forall in *. intros x Hx. specialize (Hall x Hx). unfold message_le, id_before in *.
    apply Z.leb_le in Hall. enough (Message_ID m <> Message_ID x) by lia. intros He.
    assert (Some m = Some x) as [= ->]; [|done].
    rewrite <- (Hin m), <- (Hin x), He by (by left || by right). done.
Qed.
Lemma sorted_NoDup l : StronglySorted id_before l -> NoDup l.
Proof.
  induction 1 as [|m l _ IH Hall]; constructor; [|done]. intros Hm. rewrite Forall_forall in Hall.
  specialize (Hall m Hm). unfold id_before in Hall. lia.
Qed.
(** Two sorted lists with the same messages are the same. *)
Lemma sorted_eq l l' : StronglySorted id_before l -> StronglySorted id_before l' -> (forall m, m ∈ l <-> m ∈ l') -> l = l'.
Proof.
  intros Hs Hs' Heq. apply (StronglySorted_unique_strong id_before); [|done..|].
  - intros x y _ _. unfold id_before. lia.
  - apply NoDup_Permutation; [by apply sorted_NoDup..|done].
Qed.
Lemma since_sorted k l : StronglySorted id_before l -> StronglySorted id_before (since k l).
Proof.
  induction 1 as [|m l _ IH Hall]; cbn; [constructor|]. case_match; [|done]. constructor; [done|].
  rewrite Forall_forall in *. intros x [Hx _]%elem_of_bfilter. by apply Hall.
Qed.
(** What came after a message is the end of the log. *)
Lemma since_suffix k l : StronglySorted id_before l -> exists pre, l = pre ++ since k l.
Proof.
  induction 1 as [|m l Hs IH Hall]; [by exists []|]. cbn. destruct (Z.ltb_spec k (Message_ID m)) as [Hk|Hk].
  - exists []. cbn. f_equal. symmetry. apply sorted_eq; [by apply since_sorted|done|]. intros x.
    unfold since. rewrite elem_of_bfilter. split; [tauto|]. intros Hx. split; [done|].
    rewrite Forall_forall in Hall. specialize (Hall x Hx). unfold id_before in Hall. lia.
  - destruct IH as [pre Hpre]. exists (m :: pre). cbn. by f_equal.
Qed.
Lemma latest_app n l l' : 0 <= n <= Z.of_nat (length l') -> latest n (l ++ l') = latest n l'.
Proof.
  intros Hn. unfold latest, limit. destruct (Z.ltb_spec n 0); [lia|]. rewrite rev_app_distr, take_app_le; [done|].
  rewrite length_rev. lia.
Qed.
Lemma messages_after_since d room k : db_wf d ->
  messages_where d (fun m => in_room room m && (k <? Message_ID m)) = since k (room_log d room).
Proof.
  intros Hwf. apply sorted_eq; [by apply messages_where_sorted|by apply since_sorted, messages_where_sorted|].
  intros m. unfold since, room_log. rewrite elem_of_bfilter, !elem_of_messages_where, andb_true_iff by done. tauto.
Qed.
Lemma messages_before_all d room : db_wf d -> (forall k m, messages d !! k = Some m -> k < max_int64) ->
  messages_where d (fun m => in_room room m && (Message_ID m <? max_int64)) = room_log d room.
Proof.
  intros Hwf Hmax. apply sorted_eq; [by apply messages_where_sorted..|]. intros m. unfold room_log.
  rewrite !elem_of_messages_where, andb_true_iff by done. split; [tauto|]. intros [Hm Hr]. split_and!; [done..|].
  apply Z.ltb_lt. by eapply Hmax.
Qed.

Section rooms.
Context {E : Env}.

(** C15. What someone sees who joins a room over RRC: on their first visit the
    latest messages, [ReplayFirstVisit] of them; after that every message since
    they were last there, in order, or, if those are more than [ReplayMax], the
    latest [ReplayMax] of them. *)
Theorem catch_up_exact id room q replay note q' :
  db_wf (q_db q) -> (forall k m, messages (q_db q) !! k = Some m -> k < max_int64) -> 0 <= ReplayMax cfg ->
  catchUp id room q = (Ok (replay, note), q') ->
  let log := room_log (q_db q) room in
  q' = q /\
  match cursors (q_db q) !! (id, room, ViaRRC) with
  | None => replay = latest (ReplayFirstVisit cfg) log
  | Some c =>
    let missed := since (Cursor_MessageID c) log in
    replay = if Z.of_nat (length missed) <=? ReplayMax cfg then missed else latest (ReplayMax cfg) missed
  end.
Proof.
  intros Hwf Hmax Hpos Hc. assert (q' = q) as -> by (eapply reads_ok; [apply reads_catchUp|done]). cbn. split; [done|].
  unfold catchUp in Hc. apply bind_ok in Hc as (o & q1 & [-> ->]%tx_gets_ok & Hc).
  destruct (cursors (q_db q) !! _) as [c|].
  - apply bind_ok in Hc as (n & q1 & [-> ->]%tx_gets_ok & Hc). rewrite messages_after_since in Hc by done.
    set (missed := since _ _) in *. destruct (Z.eqb_spec (Z.of_nat (length missed)) 0) as [H0|H0].
    { injection Hc as <- _. clearbody missed. destruct missed; [|done]. cbn. destruct (_ <=? _); [done|].
      unfold latest, limit. cbn. by case_match; rewrite ?take_nil. }
    destruct (Z.ltb_spec (ReplayMax cfg) (Z.of_nat (length missed))) as [Hlt|Hle].
    + apply bind_ok in Hc as (msgs & q1 & [-> ->]%tx_gets_ok & Hc). injection Hc as <- _.
      rewrite messages_before_all by done. destruct (Z.leb_spec (Z.of_nat (length missed)) (ReplayMax cfg)); [lia|].
      destruct (since_suffix (Cursor_MessageID c) (room_log (q_db q) room)) as [pre Hpre]; [by apply messages_where_sorted|].
      rewrite Hpre. apply latest_app. fold missed. lia.
    + apply bind_ok in Hc as (msgs & q1 & [-> ->]%tx_gets_ok & Hc). injection Hc as <- _.
      rewrite messages_after_since by done. fold missed. destruct (Z.leb_spec (Z.of_nat (length missed)) (ReplayMax cfg)); [|lia].
      unfold limit. destruct (Z.ltb_spec (Z.of_nat (length missed)) 0); [lia|]. by rewrite Nat2Z.id, firstn_all.
  - apply bind_ok in Hc as (msgs & q1 & [-> ->]%tx_gets_ok & Hc). rewrite messages_before_all in Hc by done.
    case_match eqn:Hl; injection Hc as <- _; done.
Qed.
End rooms.

(** ** Joining and leaving *)
Section joining.
Context {E : Env}.

(** Pausing never announces anything; only resuming does. *)
Lemma db_only_pause id : db_only (autoPauseChanged id true).
Proof.
  unfold autoPauseChanged. apply db_only_bind; [db_only_auto|]. intros ids. apply db_only_foreach. intros i.
  apply db_only_bind; [db_only_auto|]. intros p. case_match; [|db_only_auto]. unfold lxmfPauseChanged. cbn. db_only_auto.
Qed.

(** Why someone is let into a room. *)
Record admitted (q : Req) (req : JoinRequest) (room : string) : Prop := {
  ad_room : NormalizeRoom (jr_Room req) (MaxRoomNameBytes cfg) = inr room;
  ad_ban : bans (q_db q) !! jr_Identity req = None;
  ad_room_ban : room_roles (q_db q) !! (room, jr_Identity req, RoleBan) = None;
  ad_limit : rrcPresent_in (q_mem q) room (jr_Identity req) = true \/
    Z.of_nat (length (rooms_of (q_mem q) (jr_Identity req))) < MaxRoomsPerPerson cfg;
  ad_gate : forall row, rooms (q_db q) !! room = Some row ->
    (exists op, isRoomOp row (jr_Identity req) q = (Ok op, q) /\
      (op = true \/
       (exists x, invites (q_db q) !! (room, jr_Identity req) = Some x /\ nowMS < x) \/
       (HasMode row "i" = false /\ (Room_Key row = "" \/ jr_Key req = Room_Key row))))
}.

Lemma join_gate_ok room r id key q b q' : join_gate room r id key q = (Ok b, q') ->
  q' = q /\ exists op, isRoomOp r id q = (Ok op, q) /\
    (op = true \/ (exists x, invites (q_db q) !! (room, id) = Some x /\ nowMS < x) \/
     (HasMode r "i" = false /\ (Room_Key r = "" \/ key = Room_Key r))).
Proof.
  unfold join_gate. intros (op & q1 & Hop & Hr)%bind_ok.
  assert (q1 = q) as -> by (eapply reads_ok; [apply reads_isRoomOp|done]).
  apply bind_ok in Hr as (inv & q1 & [-> ->]%tx_gets_ok & [Hi [Hk Hr]%refuse_or]%refuse_or).
  injection Hr as _ <-. split; [done|]. exists op. split; [done|]. destruct op; [by left|right].
  destruct (invites (q_db q) !! (room, id)) as [x|].
  - destruct (Z.ltb_spec nowMS x); [left; eauto|right]. destruct (HasMode r "i"); [done|]. split; [done|]. cbn in Hk.
    repeat case_bool_decide; first [done | by auto].
  - right. destruct (HasMode r "i"); [done|]. split; [done|]. cbn in Hk. repeat case_bool_decide; first [done | by auto].
Qed.

Lemma join_ok req q r q' : join req q = (Ok r, q') ->
  exists room name d, admitted q req room /\
    let already := rrcPresent_in (q_mem q) room (jr_Identity req) in
    jr_FirstLink r = negb already /\
    q' = mkReq d (q_mem q) (q_events q ++ (if already then [] else [JoinedEvent room (jr_Identity req) name ViaRRC]))
           (q_after q ++ [AJoin room (jr_Identity req) name]).
Proof.
  unfold join. case_bool_decide; [done|]. intros (room & q1 & [-> Hroom]%normRoom_ok & Hr)%bind_ok.
  apply bind_ok in Hr as (u1 & q1 & [-> Hban]%checkHubBan_ok & Hr).
  apply bind_ok in Hr as (already & q1 & [-> ->]%mem_ok & Hr). apply bind_ok in Hr as (rs & q1 & [-> ->]%mem_ok & [Hlim Hr]%refuse_or).
  apply bind_ok in Hr as (row & q1 & [-> ->]%tx_gets_ok & Hr). apply bind_ok in Hr as (invited & q1 & Hg & Hr).
  assert (q1 = q /\ forall row, rooms (q_db q) !! room = Some row -> exists op, isRoomOp row (jr_Identity req) q = (Ok op, q) /\
    (op = true \/ (exists x, invites (q_db q) !! (room, jr_Identity req) = Some x /\ nowMS < x) \/
     (HasMode row "i" = false /\ (Room_Key row = "" \/ jr_Key req = Room_Key row)))) as [-> Hgate].
  { destruct (rooms (q_db q) !! room) as [row|]; [|by injection Hg as _ <-].
    apply join_gate_ok in Hg as [-> Hg]. split; [done|]. by intros ? [= <-]. }
  apply bind_ok in Hr as (u2 & q1 & [-> Hrb]%checkRoomBan_ok & Hr).
  exists room. do 2 (apply bind_ok in Hr as (? & ? & Htx & Hr); apply (db_only_ok _ _ _ _ (db_only_tx _)) in Htx as [? ->]).
  apply bind_ok in Hr as (u3 & q1 & Hinv & Hr). apply db_only_ok in Hinv as [d3 ->]; [|db_only_auto].
  apply bind_ok in Hr as (name & q1 & Hname & Hr). apply (reads_ok _ _ _ _ (reads_displayName _)) in Hname as ->.
  apply bind_ok in Hr as (caught & q1 & Hc & Hr). apply bind_ok in Hr as (u4 & q2 & Hthen & Hr).
  injection Hthen as _ <-. apply bind_ok in Hr as (ms & q2 & Hms & Hr).
  apply (reads_ok _ _ _ _ (reads_membersAfterJoin _ _ _)) in Hms as ->. injection Hr as <- <-.
  assert (exists d, q1 = mkReq d (q_mem q) (q_events q ++
    (if rrcPresent_in (q_mem q) room (jr_Identity req) then [] else [JoinedEvent room (jr_Identity req) name ViaRRC])) (q_after q))
    as [d ->].
  { destruct (rrcPresent_in _ _ _).
    - injection Hc as _ <-. eexists. unfold with_db. cbn. by rewrite app_nil_r.
    - unfold first_link in Hc. apply bind_ok in Hc as ([replay note] & q2 & Hcu & Hc).
      apply (reads_ok _ _ _ _ (reads_catchUp _ _)) in Hcu as ->.
      do 2 (apply bind_ok in Hc as (? & ? & Htx & Hc); apply (db_only_ok _ _ _ _ (db_only_tx _)) in Htx as [? ->]).
      apply bind_ok in Hc as (u5 & q2 & Hp & Hc). apply db_only_ok in Hp as [d5 ->];
        [|db_only_auto; apply db_only_pause].
      apply bind_ok in Hc as (u6 & q2 & He & Hc). injection He as _ <-. injection Hc as _ <-. by eexists. }
  exists name, d. split.
  - constructor; try done. destruct (rrcPresent_in _ _ _); [by left|right]. cbn in Hlim. lia.
  - done.
Qed.
End joining.

(** How many links an identity has into a room. *)
Definition links (m : Mem) (room : string) (id : ident) : Z :=
  match present_in m room !! id with Some e => pe_rrcLinks e | None => 0 end.
Lemma present_put m room ps r :
  present_in (put_room_presence room ps m) r = if decide (r = room) then ps else present_in m r.
Proof.
  unfold put_room_presence, present_in. cbn. destruct (decide (r = room)) as [->|Hr]; case_bool_decide; subst;
    by rewrite ?lookup_delete_eq, ?lookup_delete_ne, ?lookup_insert_eq, ?lookup_insert_ne.
Qed.
Lemma present_set m room ps r :
  present_in (set_presence (<[room := ps]> (presence m)) m) r = if decide (r = room) then ps else present_in m r.
Proof.
  unfold present_in. cbn. destruct (decide (r = room)) as [->|Hr]; by rewrite ?lookup_insert_eq, ?lookup_insert_ne.
Qed.
Lemma links_join m room id name r x :
  links (apply_after (AJoin room id name) m) r x = links m r x + (if decide (r = room /\ x = id) then 1 else 0).
Proof.
  unfold links. cbn [apply_after]. rewrite present_set. destruct (decide (r = room)) as [->|Hr].
  - rewrite lookup_insert. repeat case_decide; subst; try (exfalso; naive_solver); cbn; [|lia].
    by destruct (present_in m room !! x).
  - rewrite decide_False by naive_solver. lia.
Qed.
Lemma links_part m room id r x : mem_wf m ->
  links (apply_after (APart room id) m) r x =
    links m r x - (if decide (r = room /\ x = id /\ 0 < links m r x) then 1 else 0).
Proof.
  intros Hwf. unfold links. cbn [apply_after]. destruct (present_in m room !! id) as [e|] eqn:He.
  2:{ case_decide as Hc; [|lia]. destruct Hc as (-> & -> & Hl). rewrite He in Hl. lia. }
  pose proof (mem_wf_present _ room Hwf) as Hps. apply Hps in He as Hpos. destruct Hpos as [_ Hpos]. cbn [pe_rrcLinks].
  destruct (Z.leb_spec (pe_rrcLinks e - 1) 0); rewrite ?present_put, ?present_set;
    (destruct (decide (r = room)) as [->|Hr]; [|rewrite decide_False by naive_solver; lia]);
    (destruct (decide (x = id)) as [->|Hx];
      [rewrite ?lookup_delete_eq, ?lookup_insert_eq, He, decide_True by done; cbn; lia
      |rewrite ?lookup_delete_ne, ?lookup_insert_ne, decide_False by naive_solver; lia]).
Qed.

Section leaving.
Context {E : Env}.

(** What the rest of a departure leaves alone: rooms, the memory, this reader's
    place in the room; and it announces only that LXMF copies resume. *)
Record leaving (q0 : Req) (key : ident * string * Via) (q : Req) : Prop := {
  lv_rooms : rooms (q_db q) = rooms (q_db q0);
  lv_mem : q_mem q = q_mem q0;
  lv_after : q_after q = q_after q0;
  lv_cursor : key.2 = ViaRRC -> cursors (q_db q) !! key = cursors (q_db q0) !! key;
  lv_events : exists es, q_events q = q_events q0 ++ es /\ Forall (fun e => exists i n, e = LXMFResumeEvent i n) es
}.
#[local] Instance leaving_weak q0 key : Weakening (leaving q0 key) := {| weak _ := True; weakens _ _ := Logic.I |}.
Lemma leaving_refl q key : leaving q key q.
Proof. constructor; try done. exists []. by rewrite app_nil_r. Qed.
Lemma leaving_set_cursor q0 key i room k t : pres (leaving q0 key) (tx (tx_SetCursor i room ViaLXMF k t)).
Proof.
  intros q [Hr Hm Ha Hc He]. destruct (tx _ q) as [[u|e] q'] eqn:Ht; [|split; [|done]].
  - apply tx_ok in Ht as (d & ->%set_cursor_ok & ->). constructor; cbn; try done.
    intros Hv. rewrite lookup_insert_ne; [auto|]. intros <-. done.
  - intros Hrec. exfalso. by apply tx_fail in Ht as (d & Hs%set_cursor_fail).
Qed.
Lemma leaving_resume q0 key i n : pres (leaving q0 key) (emit (LXMFResumeEvent i n)).
Proof.
  intros q [Hr Hm Ha Hc (es & He & Hes)]. constructor; cbn; try done. exists (es ++ [LXMFResumeEvent i n]).
  rewrite He, app_assoc. split; [done|]. apply Forall_app. split; [done|]. constructor; [by eauto|constructor].
Qed.
Lemma leaving_autoPause q0 key id b : pres (leaving q0 key) (autoPauseChanged id b).
Proof.
  unfold autoPauseChanged, lxmfPauseChanged.
  repeat first [ apply leaving_set_cursor | apply leaving_resume | pres_step ].
Qed.
End leaving.

Section parting.
Context {E : Env}.

(** Whether anyone but [id] has a link into the room. *)
Definition someone_else (m : Mem) (room : string) (id : ident) : Prop := exists x, x <> id /\ 0 < links m room x.
Definition permanent (row : Room) : bool := Room_Registered row || isDefaultRoom cfg (Room_Name row).

Lemma someone_else_spec m room id :
  existsb (fun ke => negb (bool_decide (ke.1 = id)) && (0 <? pe_rrcLinks ke.2)) (map_to_list (present_in m room)) = true
    <-> someone_else m room id.
Proof.
  rewrite existsb_exists. unfold someone_else, links. split.
  - intros ([x e] & Hin%list_elem_of_In%elem_of_map_to_list & Hb). cbn in Hb. exists x. rewrite Hin.
    apply andb_true_iff in Hb as [Hx%negb_true_iff%bool_decide_eq_false He]. split; [done|lia].
  - intros (x & Hx & Hl). destruct (present_in m room !! x) as [e|] eqn:He; [|lia]. exists (x, e).
    rewrite <- list_elem_of_In, elem_of_map_to_list. split; [done|]. cbn. rewrite bool_decide_eq_false_2 by done. cbn. lia.
Qed.
Lemma forgetEmptyRoom_ok room id q u q' : db_wf (q_db q) -> forgetEmptyRoom room id q = (Ok u, q') ->
  exists d, q' = with_db d q /\ cursors d = cursors (q_db q) /\
    (forall r, r <> room -> rooms d !! r = rooms (q_db q) !! r) /\
    (is_Some (rooms d !! room) <-> exists row, rooms (q_db q) !! room = Some row /\
       (permanent row = true \/ someone_else (q_mem q) room id)).
Proof.
  intros Hwf. unfold forgetEmptyRoom. intros (b & q1 & [-> ->]%mem_ok & Hr)%bind_ok.
  destruct (existsb _ _) eqn:Hex.
  { apply someone_else_spec in Hex. injection Hr as _ <-. exists (q_db q).
    split_and!; [by destruct q|done..|]. split; [intros [row Hrow]; exists row; auto|intros (row & -> & _); eauto]. }
  assert (~ someone_else (q_mem q) room id) as Hno by (rewrite <- someone_else_spec, Hex; done).
  apply bind_ok in Hr as (o & q1 & [-> ->]%tx_gets_ok & Hr). destruct (rooms (q_db q) !! room) as [row|] eqn:Hrow.
  2:{ injection Hr as _ <-. exists (q_db q). split_and!; [by destruct q|done..|]. rewrite Hrow.
      split; [by intros []|by intros (? & ? & _)]. }
  pose proof (wf_room _ Hwf _ _ Hrow) as Hname.
  destruct (Room_Registered row || isDefaultRoom cfg room) eqn:Hperm.
  - apply tx_ok in Hr as (d & (created & ->)%put_room_ok & ->). cbn. eexists. split; [done|]. cbn. rewrite Hname.
    split; [done|]. split; [intros r Hne; by rewrite lookup_insert_ne|]. rewrite lookup_insert_eq.
    split; [intros _|by eauto]. exists row. split; [done|]. left. unfold permanent. by rewrite Hname.
  - apply tx_ok in Hr as (d & [= _ <-] & ->). eexists. split; [done|]. cbn. split; [done|].
    split; [intros r Hne; by rewrite lookup_delete_ne|]. rewrite lookup_delete_eq. split; [by intros []|].
    intros (row' & [= <-] & [Hp|]); [|done]. unfold permanent in Hp. rewrite Hname in Hp. congruence.
Qed.

Lemma last_link_ok id room name q u q' : req_inv db_wf q -> last_link id room name q = (Ok u, q') ->
  exists d es c, q' = mkReq d (q_mem q) (q_events q ++ PartedEvent room id name ViaRRC :: es) (q_after q) /\
    Forall (fun e => exists i n, e = LXMFResumeEvent i n) es /\
    cursors d !! (id, room, ViaRRC) = Some c /\
    Cursor_MessageID c = match cursors (q_db q) !! (id, room, ViaRRC) with
                         | Some c0 => Z.max (Cursor_MessageID c0) (last_message_id (q_db q) room)
                         | None => last_message_id (q_db q) room
                         end /\
    (forall r, r <> room -> rooms d !! r = rooms (q_db q) !! r) /\
    (is_Some (rooms d !! room) <-> exists row, rooms (q_db q) !! room = Some row /\
       (permanent row = true \/ someone_else (q_mem q) room id)).
Proof.
  intros [Hwf Hmwf]. unfold last_link. intros (k & q1 & [-> ->]%tx_gets_ok & Hr)%bind_ok.
  apply bind_ok in Hr as (u1 & q1 & (d1 & Hcur & ->)%tx_ok & Hr).
  assert (db_wf d1) as Hwf1 by (eapply pres_ok; [apply pres_SetCursor| |done]; done).
  apply set_cursor_ok in Hcur. apply bind_ok in Hr as (u2 & q2 & He & Hr). injection He as _ <-.
  set (q1 := mkReq _ _ _ _) in Hr. assert (req_inv db_wf q1) as Hq1 by done. apply bind_ok in Hr as (u3 & q3 & Hp & Hr).
  assert (leaving q1 (id, room, ViaRRC) q3 /\ db_wf (q_db q3)) as [[Hrooms Hm Ha Hc (es & Hev & Hes)] Hwf3].
  { case_bool_decide.
    - apply bind_ok in Hp as (on & q4 & Hon & Hp). apply (reads_ok _ _ _ _ (reads_personOnRRC _ _ _)) in Hon as ->.
      destruct on; [injection Hp as _ <-; split; [apply leaving_refl|done]|]. split.
      + eapply pres_ok; [apply leaving_autoPause|apply leaving_refl|done].
      + eapply (pres_ok (req_inv db_wf)); [apply pres_autoPauseChanged|exact Hq1|done].
    - injection Hp as _ <-. split; [apply leaving_refl|done]. }
  apply forgetEmptyRoom_ok in Hr as (d & -> & Hcd & Hother & Hroom); [|done].
  cbn in *. subst d1. rewrite Hm in *. rewrite Hrooms in *.
  eexists d, es, _. split_and!; [|done| | |done|done].
  - unfold with_db. rewrite Hm, Ha, Hev. by rewrite <- app_assoc.
  - rewrite Hcd, Hc by done. cbn. by rewrite lookup_insert_eq.
  - done.
Qed.

(** A departure's request: nothing, one link less, or the last link's going. *)
Lemma Part_ok id name h room h' : hub_wf h -> Part id name h = (Ok room, h') ->
  NormalizeRoom name (MaxRoomNameBytes cfg) = inr room /\
  ( (links (h_mem h) room id = 0 /\ h' = h) \/
    (exists d es, h' = mkHub d (apply_after (APart room id) (h_mem h)) (publish es (h_subs h)) /\
      0 < links (h_mem h) room id /\ (1 < links (h_mem h) room id -> d = h_db h /\ es = []) /\
      (links (h_mem h) room id = 1 -> exists shown u q, last_link id room shown (start h) = (Ok u, q) /\
         d = q_db q /\ es = q_events q))).
Proof.
  intros [Hwf Hmwf _] (q & Hp & ->)%update_ok. unfold part_room in Hp. case_bool_decide; [done|].
  apply bind_ok in Hp as (room' & q1 & [-> Hn]%normRoom_ok & Hp). apply bind_ok in Hp as (u & q1 & Hp & Hr).
  injection Hr as -> <-. split; [done|]. unfold part in Hp. apply bind_ok in Hp as (e & q2 & [-> ->]%mem_ok & Hp). cbn in Hp.
  destruct (present_in (h_mem h) room !! id) as [e|] eqn:He.
  2:{ injection Hp as _ <-. left. unfold links. rewrite He. by destruct h. }
  assert (links (h_mem h) room id = pe_rrcLinks e) as Hl by (unfold links; by rewrite He). rewrite Hl.
  apply (mem_wf_present _ room Hmwf) in He as [_ Hpos]. destruct (Z.eqb_spec (pe_rrcLinks e) 0); [lia|]. right.
  apply bind_ok in Hp as (u1 & q2 & Hlast & Hp). injection Hp as _ <-.
  destruct (Z.eqb_spec (pe_rrcLinks e) 1) as [H1|H1].
  - pose proof Hlast as (d & es & c & -> & _)%last_link_ok; [|done]. eexists d, _. split_and!; [reflexivity|lia|lia|].
    intros _. eexists _, _, _. split; [exact Hlast|done].
  - injection Hlast as _ <-. exists (h_db h), []. cbn. by split_and!; [|lia|..].
Qed.
Lemma part_links id name h room h' : hub_wf h -> Part id name h = (Ok room, h') ->
  forall r x, links (h_mem h') r x = links (h_mem h) r x - (if decide (r = room /\ x = id /\ 0 < links (h_mem h) r x) then 1 else 0).
Proof.
  intros Hwf [_ [[H0 ->]|(d & es & -> & _)]]%Part_ok r x; [|apply links_part, Hwf|done].
  case_decide as Hc; [|lia]. destruct Hc as (-> & -> & ?). lia.
Qed.

(** Leaving a room takes one of the leaver's links out of it.  The last link
    marks everything in the room as read, tells every adapter, and, if the room
    is neither registered nor configured and nobody else is in it, ends the
    room; other rooms stay.  Leaving a room one isn't in does nothing. *)
Theorem part_exact id name h room h' : hub_wf h -> Part id name h = (Ok room, h') ->
  NormalizeRoom name (MaxRoomNameBytes cfg) = inr room /\
  (forall r x, links (h_mem h') r x = links (h_mem h) r x - (if decide (r = room /\ x = id /\ 0 < links (h_mem h) r x) then 1 else 0)) /\
  (links (h_mem h) room id <> 1 -> h_db h' = h_db h /\ h_subs h' = h_subs h) /\
  (links (h_mem h) room id = 1 ->
    (exists shown es, h_subs h' = publish (PartedEvent room id shown ViaRRC :: es) (h_subs h) /\
      Forall (fun e => exists i n, e = LXMFResumeEvent i n) es) /\
    (exists c, cursors (h_db h') !! (id, room, ViaRRC) = Some c /\ last_message_id (h_db h) room <= Cursor_MessageID c) /\
    (forall r, r <> room -> rooms (h_db h') !! r = rooms (h_db h) !! r) /\
    (is_Some (rooms (h_db h') !! room) <-> exists row, rooms (h_db h) !! room = Some row /\
       (permanent row = true \/ someone_else (h_mem h) room id))).
Proof.
  intros Hwf Hp. pose proof (part_links _ _ _ _ _ Hwf Hp) as Hlinks. apply Part_ok in Hp as [Hn Hp]; [|done].
  split; [done|]. split; [done|]. destruct Hp as [[H0 ->]|(d & es & -> & Hpos & Hmore & Hone)].
  { split; [done|]. intros H1. lia. }
  split; [intros Hne; destruct Hmore as [-> ->]; [lia|done]|]. intros H1. cbn.
  destruct (Hone H1) as (shown & u & q & Hlast & -> & ->).
  apply last_link_ok in Hlast as (d & es & c & -> & Hes & Hc & Hcm & Hother & Hroom); [|by destruct Hwf]. cbn in *.
  split_and!; [by eauto| |done|done]. exists c. split; [done|]. rewrite Hcm. destruct (cursors (h_db h) !! _); lia.
Qed.
End parting.

Section theorems.
Context {E : Env}.

(** C14. Nobody gets into a room who is banned from it or from the hub, who is in
    as many rooms as one may be, or whom an invite-only or keyed room has not
    admitted: its ops, those invited, and for a key those who know it.  Who gets
    in has one link more there, and their first link is announced, once. *)
Theorem join_exact req h r h' : Join req h = (Ok r, h') ->
  exists room name, let id := jr_Identity req in let already := rrcPresent_in (h_mem h) room id in
    admitted (start h) req room /\ jr_FirstLink r = negb already /\
    h_subs h' = (if already then h_subs h else map (offer (JoinedEvent room id name ViaRRC)) (h_subs h)) /\
    (forall rm x, links (h_mem h') rm x = links (h_mem h) rm x + (if decide (rm = room /\ x = id) then 1 else 0)).
Proof.
  intros (q & (room & name & d & Had & Hf & ->)%join_ok & ->)%update_ok. exists room, name. cbn in *.
  split_and!; [done..| |intros rm x; apply links_join]. by destruct (rrcPresent_in _ _ _).
Qed.

(** Joining a room and leaving it again puts everyone's presence back as it
    was: links are counted, not just noted. *)
Theorem join_part_presence req name h r room h1 h2 :
  hub_wf h -> Join req h = (Ok r, h1) ->
  NormalizeRoom name (MaxRoomNameBytes cfg) = NormalizeRoom (jr_Room req) (MaxRoomNameBytes cfg) ->
  Part (jr_Identity req) name h1 = (Ok room, h2) ->
  forall rm x, links (h_mem h2) rm x = links (h_mem h) rm x.
Proof.
  intros Hwf Hj Hname Hp rm x.
  assert (hub_wf h1) as Hwf1 by (pose proof (hub_inv_perform (CallJoin req) h Hwf) as Hk; cbn in Hk; by rewrite Hj in Hk).
  rewrite (part_links _ _ _ _ _ Hwf1 Hp). apply Part_ok in Hp as [Hn _]; [|done].
  apply update_ok in Hj as (q & (room' & nm & d & Had & _ & ->)%join_ok & ->).
  destruct Had as [Hroom _ _ _ _]. assert (room' = room) as -> by congruence.
  assert (forall r y, 0 <= links (h_mem h) r y) as Hpos.
  { intros r' y. unfold links. destruct (present_in (h_mem h) r' !! y) as [e|] eqn:He; [|lia].
    apply (mem_wf_present _ r' (hw_mem _ _ Hwf)) in He as [_ He]. lia. }
  cbn [h_mem q_mem q_after app start run_after fold_left]. rewrite links_join. specialize (Hpos rm x).
  repeat case_decide; try lia; naive_solver lia.
Qed.
End theorems.

(** * The line a join draws

    internal/hub/rooms.go and post.go: the line a join draws in a room's log.
    What it counts as seen is what is stored, and what is posted later is newer. *)
(** ** What a join has seen *)
Section seen.
Context {E : Env}.

Lemma PutRoom_messages r d u d' : tx_PutRoom r d = (Ok u, d') -> messages d' = messages d.
Proof.
  unfold tx_PutRoom. intros (u1 & d1 & Hc & Hr)%bind_ok. assert (d1 = d) as ->.
  { destruct (Room_Founder r); [|by injection Hc as _ ->]. unfold check_id, assert in Hc. case_match; [by injection Hc as _ ->|done]. }
  apply bind_ok in Hr as (u2 & d2 & Ha & [= <- <-]). by destruct (mode_letters_ok _); [injection Ha as _ <-|].
Qed.
Lemma join_caught req q r q' : db_wf (q_db q) -> join req q = (Ok r, q') -> jr_FirstLink r = true ->
  exists q1 q2 name, messages (q_db q1) = messages (q_db q) /\
    first_link (jr_Identity req) (Room_Name (jr_RoomState r)) name q1 = (Ok (jr_Replay r, jr_ReplayNote r, jr_SeenUpTo r), q2).
Proof.
  intros Hwf. unfold join. case_bool_decide; [done|]. intros (room & q1 & [-> _]%normRoom_ok & Hr)%bind_ok.
  apply bind_ok in Hr as (u1 & q1 & [-> _]%checkHubBan_ok & Hr).
  apply bind_ok in Hr as (already & q1 & [-> ->]%mem_ok & Hr). apply bind_ok in Hr as (rs & q1 & [-> ->]%mem_ok & [_ Hr]%refuse_or).
  apply bind_ok in Hr as (row & q1 & [-> ->]%tx_gets_ok & Hr). apply bind_ok in Hr as (invited & q1 & Hg & Hr).
  assert (q1 = q) as ->.
  { destruct (rooms (q_db q) !! room) as [row|]; [|by injection Hg as _ <-]. by apply join_gate_ok in Hg as [-> _]. }
  apply bind_ok in Hr as (u2 & q1 & [-> _]%checkRoomBan_ok & Hr).
  apply bind_ok in Hr as (u3 & q1 & (d1 & Ht & ->)%tx_ok & Hr). apply touch_ok in Ht as (_ & rows & ps & ->).
  apply bind_ok in Hr as (u4 & q1 & (d2 & Hp%PutRoom_messages & ->)%tx_ok & Hr). cbn in Hp.
  apply bind_ok in Hr as (u5 & q1 & Hinv & Hr).
  assert (messages (q_db q1) = messages (q_db q)) as Hm.
  { destruct invited; [|by injection Hinv as _ <-]. apply tx_ok in Hinv as (d3 & [= _ <-] & ->). done. }
  apply bind_ok in Hr as (name & q2 & Hname & Hr). apply (reads_ok _ _ _ _ (reads_displayName _)) in Hname as ->.
  apply bind_ok in Hr as (caught & q2 & Hc & Hr). apply bind_ok in Hr as (u6 & q3 & _ & Hr).
  apply bind_ok in Hr as (ms & q4 & _ & [= <- _]). cbn. intros Hfirst. destruct (rrcPresent_in _ _ _); [done|].
  destruct caught as [[replay note] last]. exists q1, q2, name. split; [done|]. cbn. rewrite <- Hc. f_equal.
  destruct (rooms (q_db q) !! room) as [row|] eqn:Hrow; [|done]. cbn. by apply (wf_room _ Hwf) in Hrow.
Qed.

Lemma messages_where_same d d' p : messages d = messages d' -> messages_where d p = messages_where d' p.
Proof. unfold messages_where. by intros ->. Qed.
Lemma sorted_last l m x : StronglySorted id_before l -> last l = Some m -> x ∈ l -> Message_ID x <= Message_ID m.
Proof.
  intros Hs [l' ->]%last_Some Hx. apply elem_of_app in Hx as [Hx| ->%list_elem_of_singleton]; [|done].
  apply StronglySorted_app in Hs as (Hlt & _ & _). unfold id_before in Hlt. specialize (Hlt x m Hx ltac:(set_solver)). lia.
Qed.
Lemma last_message_max d room m : db_wf d -> m ∈ room_log d room -> Message_ID m <= last_message_id d room.
Proof.
  intros Hwf Hm. unfold last_message_id. fold (room_log d room). destruct (last (room_log d room)) as [x|] eqn:Hl.
  - eapply sorted_last; [by apply messages_where_sorted|done..].
  - apply last_None in Hl. rewrite Hl in Hm. by apply elem_of_nil in Hm.
Qed.
Lemma elem_of_limit {A} n (l : list A) x : x ∈ limit n l -> x ∈ l.
Proof. unfold limit. case_match; [done|]. intros Hx. rewrite <- (firstn_skipn (Z.to_nat n) l). set_solver. Qed.
Lemma elem_of_latest n l x : x ∈ latest n l -> x ∈ l.
Proof. unfold latest. rewrite !list_elem_of_In, <- in_rev. intros Hx%list_elem_of_In%elem_of_limit. apply in_rev. by apply list_elem_of_In. Qed.
Lemma elem_of_part d d' room p m : db_wf d -> messages d' = messages d ->
  m ∈ messages_where d' (fun m => in_room room m && p m) -> m ∈ room_log d room.
Proof. intros Hwf Hm. rewrite (messages_where_same d' d) by done. unfold room_log. rewrite !elem_of_messages_where, andb_true_iff by done. tauto. Qed.
(** What is replayed is in the log. *)
Lemma catchUp_log id room q replay note q' d m : db_wf d -> messages (q_db q) = messages d ->
  catchUp id room q = (Ok (replay, note), q') -> m ∈ replay -> m ∈ room_log d room.
Proof.
  intros Hwf Hd Hc Hm. unfold catchUp in Hc. apply bind_ok in Hc as (o & q1 & [-> ->]%tx_gets_ok & Hc). destruct (cursors _ !! _) as [c|].
  - apply bind_ok in Hc as (n & q1 & [-> ->]%tx_gets_ok & Hc). destruct (_ =? 0); [injection Hc as <- _; by apply elem_of_nil in Hm|].
    destruct (_ <? _); apply bind_ok in Hc as (msgs & q1 & [-> ->]%tx_gets_ok & Hc); injection Hc as <- _.
    + apply elem_of_latest in Hm. by apply (elem_of_part d) in Hm.
    + apply elem_of_limit in Hm. by apply (elem_of_part d) in Hm.
  - apply bind_ok in Hc as (msgs & q1 & [-> ->]%tx_gets_ok & Hc).
    assert (m ∈ latest (ReplayFirstVisit cfg) (messages_where (q_db q) (fun m => in_room room m && (Message_ID m <? max_int64)))) as Hm'.
    { cbn in Hc. destruct (latest _ _); injection Hc as <- _; [by apply elem_of_nil in Hm|done]. }
    apply elem_of_latest in Hm'. by apply (elem_of_part d) in Hm'.
Qed.

(** The line that the first link into a room draws: what is stored in the room
    by then has ids up to [SeenUpTo], the messages replayed among it; and as long
    as none of it is deleted, whatever is accepted later anywhere has a greater
    one. *)
Theorem join_draws_line req h res h1 :
  db_wf (h_db h) -> Join req h = (Ok res, h1) -> jr_FirstLink res = true ->
  let room := Room_Name (jr_RoomState res) in
  (forall m, m ∈ jr_Replay res -> messages (h_db h) !! Message_ID m = Some m /\ Message_Room m = room) /\
  (forall k m, messages (h_db h) !! k = Some m -> Message_Room m = room -> k <= jr_SeenUpTo res) /\
  (forall post h2 pr h3, db_wf (h_db h2) -> messages (h_db h) ⊆ messages (h_db h2) ->
    Post post h2 = (Ok pr, h3) -> po_Duplicate pr = false -> jr_SeenUpTo res < Message_ID (po_Message pr)).
Proof.
  intros Hwf (q & Hj & ->)%update_ok Hfirst room. destruct (join_caught req (start h) res q Hwf Hj Hfirst) as (q1 & q2 & name & Hm & Hc).
  fold room in Hc. cbn in Hm. unfold first_link in Hc. apply bind_ok in Hc as ([replay note] & q3 & Hcu & Hc).
  pose proof (reads_ok _ _ _ _ (reads_catchUp _ _) Hcu) as ->. apply bind_ok in Hc as (last & q3 & [-> ->]%tx_gets_ok & Hc).
  run_ok Hc. injection Hc as <- _ Hseen.
  assert (jr_SeenUpTo res = last_message_id (h_db h) room) as Hlast
    by (rewrite <- Hseen; unfold last_message_id; by rewrite (messages_where_same _ (h_db h))).
  rewrite Hlast. split_and!.
  - intros m Hin. pose proof (catchUp_log _ _ _ _ _ _ (h_db h) m Hwf Hm Hcu Hin) as Hlog. unfold room_log in Hlog.
    apply elem_of_messages_where in Hlog as [Hk Hr%bool_decide_eq_true]; done.
  - intros k m Hk Hr. destruct (wf_message _ Hwf _ _ Hk) as [<- _]. apply last_message_max; [done|]. unfold room_log.
    apply elem_of_messages_where; [done|]. split; [done|]. by apply bool_decide_eq_true.
  - intros post h2 pr h3 Hwf2 Hsub Hp Hdup. destruct (post_new _ _ _ _ Hwf2 Hp Hdup) as (room' & row & name' & to & _ & -> & _).
    cbn. unfold last_message_id. destruct (last _) as [x|] eqn:Hx; [|apply next_id_pos].
    assert (x ∈ messages_where (h_db h) (in_room room)) as Hin by (apply last_Some in Hx as [l' ->]; set_solver).
    apply elem_of_messages_where in Hin as [Hk _]; [|done]. eapply next_id_gt, (lookup_weaken _ _ _ _ Hk Hsub).
Qed.
End seen.
