(* ===== verification/ModerationSpec.v ===== *)
(** internal/hub/moderation.go: what a ban does, how bans run out, and the
    lengths a ban can have. *)
From S2P Require Import Prelude Text Db StorePeople StoreRooms StoreMessages StoreGroup StoreInv StoreWf Names HubCore.
From S2P Require Import Clock Ranks People Rooms Post Commands CmdRooms Moderation HubWf System Frame PostSpec RoomSpec.
Local Open Scope Z_scope.

(** ** Taking someone out of everything *)
Section removal.
Context {E : Env}.

(** [d] has the bans [B], and none of [ids] is a member of the group. *)
Definition outside (B : gmap ident Ban) (ids : list ident) (d : DB) : Prop :=
  bans d = B /\ forall id, id ∈ ids -> members d !! id = None.
Lemma outside_same B ids d d' : bans d' = bans d -> members d' = members d -> outside B ids d -> outside B ids d'.
Proof. unfold outside. by intros -> ->. Qed.
Ltac outside_tac :=
  intros d Hd;
  repeat (unfold newPerson, put_identity, SetPrefsOfPerson, move_identity, check_id,
            bind, get, gets, put, modify, assert, fail, ret in *; cbn in *;
          first [ done | (split; [intros _|done]); done | progress simplify_eq | case_match ]);
  try (by eapply outside_same; [..|exact Hd]).
Lemma outside_UnlinkIdentity B ids id t : pres (outside B ids) (tx_UnlinkIdentity id t).
Proof.
  unfold tx_UnlinkIdentity. apply pres_bind; [apply pres_gets|]. intros [p|]; [|apply pres_fail].
  apply pres_bind; [apply pres_get|]. intros d0. case_match; [apply pres_ret|].
  apply pres_bind; [outside_tac|]. intros fresh. apply pres_bind; [outside_tac|]. intros _.
  apply pres_bind; [outside_tac|]. intros _. apply pres_ret.
Qed.
Lemma outside_ReleaseName B ids id : pres (outside B ids) (tx_ReleaseName id).
Proof.
  unfold tx_ReleaseName. apply pres_bind; [apply reads_pres, reads_NameOf|]. intros [n|]; [|apply pres_ret].
  apply pres_bind; [outside_tac|]. intros _. apply pres_ret.
Qed.
Lemma outside_SetRank B ids id r b t : pres (outside B ids) (tx_SetRank id r b t).
Proof.
  unfold tx_SetRank. apply pres_bind; [apply reads_pres, reads_personID|]. intros p.
  apply pres_bind; [apply pres_assert|]. intros _. outside_tac.
Qed.
Lemma outside_Audit B ids t a x y z : pres (outside B ids) (tx_Audit t a x y z).
Proof. by apply pres_modify. Qed.

(** [out] are out of the group and, once the request commits, [ids] are in no
    room. *)
Definition is_join (a : After) : bool := match a with AJoin _ _ _ => true | _ => false end.
Record gone (B : gmap ident Ban) (m : Mem) (out ids : list ident) (q : Req) : Prop := {
  gn_db : outside B out (q_db q);
  gn_mem : q_mem q = m;
  gn_rooms : forall id room, id ∈ ids -> 0 < links m room id -> AForgetPresence room id ∈ q_after q;
  gn_join : forall a, a ∈ q_after q -> is_join a = false
}.
#[local] Instance gone_weak B m out ids : Weakening (gone B m out ids) := {| weak _ := True; weakens _ _ := Logic.I |}.
Lemma gone_tx {A} B m out ids (f : Tx A) : pres (outside B out) f -> pres (gone B m out ids) (tx f).
Proof.
  intros Hf q [Hd Hm Hr Hj]. specialize (Hf _ Hd). unfold tx. destruct (f (q_db q)) as [[a|e] d]; cbn in *.
  - by constructor.
  - split; [|done]. intros He. by constructor; [apply Hf| | |].
Qed.
Lemma gone_emit B m out ids e : pres (gone B m out ids) (emit e).
Proof. intros q []. by constructor. Qed.
Lemma gone_event B m out ids e q : gone B m out ids q -> gone B m out ids (with_event e q).
Proof. intros []. by constructor. Qed.
Lemma gone_then B m out ids a : is_join a = false -> pres (gone B m out ids) (then_ a).
Proof.
  intros Ha q [Hd Hm Hr Hj]. constructor; cbn; [done|done| |].
  - intros id room Hid Hl. apply elem_of_app. left. by apply Hr.
  - intros b [Hb|Hb%list_elem_of_singleton]%elem_of_app; [by apply Hj|by subst].
Qed.
Hint Resolve gone_tx gone_emit outside_UnlinkIdentity outside_ReleaseName outside_SetRank outside_Audit : pres.

Lemma gone_unlinkAll B m out ids id : pres (gone B m out ids) (unlinkAll id).
Proof.
  unfold unlinkAll. repeat first [apply gone_tx; apply outside_UnlinkIdentity | apply gone_then; reflexivity | apply gone_emit | pres_step].
Qed.

Lemma links_forget m room id r x :
  links (apply_after (AForgetPresence room id) m) r x = if decide (r = room /\ x = id) then 0 else links m r x.
Proof.
  unfold links. cbn [apply_after]. rewrite present_put. destruct (decide (r = room)) as [->|Hr].
  - destruct (decide (x = id)) as [->|Hx].
    + by rewrite lookup_delete_eq, decide_True.
    + rewrite lookup_delete_ne by done. rewrite decide_False; [done|]. naive_solver.
  - rewrite decide_False; [done|]. naive_solver.
Qed.
Lemma links_other a m r x : is_join a = false -> mem_wf m -> links (apply_after a m) r x <= links m r x.
Proof.
  intros Ha Hm. destruct a as [| room id|room id|id name|p ts|id ts]; [done| | | |done|done].
  - rewrite links_part by done. case_decide; lia.
  - rewrite links_forget. case_decide; [|lia]. unfold links. destruct (present_in m r !! x) as [e|] eqn:He; [|lia].
    apply (mem_wf_present _ r Hm) in He as [_ He]. lia.
  - unfold links, present_in. cbn. rewrite lookup_fmap. destruct (presence m !! r) as [ps|]; [|done]. cbn.
    rewrite lookup_alter. case_decide; [subst|done]. by destruct (ps !! x).
Qed.
Lemma links_gone l m r x : mem_wf m -> (forall a, a ∈ l -> is_join a = false) ->
  (0 < links m r x -> AForgetPresence r x ∈ l) -> links (run_after l m) r x <= 0.
Proof.
  revert m. induction l as [|a l IH]; intros m Hm Hj Hl; cbn.
  { destruct (decide (0 < links m r x)) as [Hp|]; [|lia]. by apply Hl, elem_of_nil in Hp. }
  apply IH; [by apply mem_wf_after|intros b Hb; apply Hj; by right|]. intros Hpos.
  assert (is_join a = false) as Ha by (apply Hj; by left). pose proof (links_other a m r x Ha Hm).
  assert (AForgetPresence r x ∈ a :: l) as [Heq|]%elem_of_cons by (apply Hl; lia); [|done].
  subst a. rewrite links_forget, decide_True in Hpos by done. lia.
Qed.

Lemma elem_of_rooms_of m id room : mem_wf m -> 0 < links m room id -> room ∈ rooms_of m id.
Proof.
  intros Hm Hl. unfold rooms_of. rewrite elem_of_order_by, elem_of_bfilter. unfold links in Hl.
  destruct (present_in m room !! id) as [e|] eqn:He; [|lia]. split; [|unfold rrcPresent_in; rewrite He; lia].
  unfold present_in in He. destruct (presence m !! room) as [ps|] eqn:Hp; [|done].
  apply list_elem_of_fmap. exists (room, ps). split; [done|]. by apply elem_of_map_to_list.
Qed.

(** One app: out of the group, and out of each of its rooms on the commit. *)
Lemma gone_leave_rooms B m out ids id why (banned : bool) q u q' : gone B m out ids q ->
  (forall room, room ∈ rooms_of m id -> is_Some (present_in m room !! id)) ->
  foreach (rooms_of m id) (fun room =>
    (if banned then ret tt else emit (RemovedEvent room id why)) ;;; forgetPresence room id) q = (Ok u, q') ->
  gone B m out ids q' /\ forall room, room ∈ rooms_of m id -> AForgetPresence room id ∈ q_after q'.
Proof.
  intros Hg Hin Hr.
  refine (foreach_ok (fun done q => gone B m out ids q /\ forall room, room ∈ done -> AForgetPresence room id ∈ q_after q)
    _ _ _ q u q' _ Hr); [|split; [done|by intros room ?%elem_of_nil]].
  intros done_ room s v s' Hroom [Hs Hd] (u1 & s1 & He & Hf)%bind_ok.
  assert (gone B m out ids s1 /\ q_after s1 = q_after s) as [Hs1 Ha1].
  { destruct banned; injection He as _ <-; [done|]. split; [by apply gone_event|done]. }
  unfold forgetPresence in Hf. apply bind_ok in Hf as (e & s2 & [-> ->]%mem_ok & Hf). rewrite (gn_mem _ _ _ _ _ Hs1) in Hf.
  destruct (Hin room Hroom) as [e He']. rewrite He' in Hf. injection Hf as _ <-. cbn. split.
  - apply (gone_then B m out ids (AForgetPresence room id) eq_refl (with_event (PartedEvent room id (pe_name e) ViaRRC) s1)).
    by apply gone_event.
  - intros r Hr'. rewrite Ha1. apply elem_of_app in Hr' as [Hr'|Hr']; apply elem_of_app; [left; by apply Hd|right].
    apply list_elem_of_singleton in Hr' as ->. by left.
Qed.
Lemma rooms_of_present m id room : room ∈ rooms_of m id -> is_Some (present_in m room !! id).
Proof.
  unfold rooms_of. rewrite elem_of_order_by, elem_of_bfilter. intros [_ Hp]. unfold rrcPresent_in in Hp.
  destruct (present_in m room !! id); [by eexists|done].
Qed.
Lemma gone_remove_app B m ids name why banned id q u q' : mem_wf m -> gone B m ids ids q ->
  remove_app name why banned id q = (Ok u, q') -> gone B m (ids ++ [id]) (ids ++ [id]) q'.
Proof.
  intros Hm [[Hb Hmem] Hqm Hrooms Hjoin] Hr. unfold remove_app in Hr.
  apply bind_ok in Hr as (was & q1 & (d & Hd & ->)%tx_ok & Hr). injection Hd as _ <-. set (q1 := with_db _ q) in Hr.
  assert (gone B m (ids ++ [id]) ids q1) as H1.
  { constructor; try done. split; [done|]. intros x Hx. cbn. rewrite lookup_delete. case_decide; [done|].
    apply Hmem. apply elem_of_app in Hx as [?|?%list_elem_of_singleton]; [done|by subst]. }
  apply bind_ok in Hr as (u1 & q2 & Hg & Hr).
  assert (gone B m (ids ++ [id]) ids q2) as H2 by (destruct was; injection Hg as _ <-; [exact (gone_event _ _ _ _ _ q1 H1)|done]).
  apply bind_ok in Hr as (rs & q3 & [-> ->]%mem_ok & Hr). rewrite (gn_mem _ _ _ _ _ H2) in Hr.
  apply bind_ok in Hr as (u2 & q4 & Hf & Hr). apply gone_leave_rooms with (1 := H2) in Hf as [H4 Hin]; [|apply rooms_of_present].
  apply bind_ok in Hr as (u3 & q5 & He & Hr). injection He as _ <-.
  assert (gone B m (ids ++ [id]) (ids ++ [id]) q4) as H5.
  { destruct H4 as [Hd4 Hm4 Hr4 Hj4]. constructor; try done. intros x room [Hx| ->%list_elem_of_singleton]%elem_of_app Hl.
    - by apply Hr4.
    - by apply Hin, elem_of_rooms_of. }
  apply (gone_event _ _ _ _ (NoticeEvent id "" why was)) in H5.
  destruct banned; injection Hr as _ <-; [exact (gone_event _ _ _ _ _ _ H5)|exact H5].
Qed.

Lemma gone_removeEverywhere target why banned q u q' : mem_wf (q_mem q) -> q_after q = [] ->
  removeEverywhere target why banned q = (Ok u, q') ->
  gone (bans (q_db q)) (q_mem q) (p_Identities target) (p_Identities target) q'.
Proof.
  intros Hm Ha Hr. unfold removeEverywhere in Hr. set (B := bans (q_db q)). set (ids := p_Identities target) in *.
  apply bind_ok in Hr as (u1 & q1 & Hf & Hr).
  assert (gone B (q_mem q) ids ids q1) as H1.
  { refine (foreach_ok (fun done q' => gone B (q_mem q) done done q') _ _ _ q u1 q1 _ Hf).
    - intros done_ x s v s' _ Hs Hx. by eapply gone_remove_app.
    - constructor; [split; [done|by intros ? ?%elem_of_nil]|done|by intros ? ? ?%elem_of_nil|rewrite Ha; by intros ? ?%elem_of_nil]. }
  apply bind_ok in Hr as (u2 & q2 & Hun & Hr).
  assert (gone B (q_mem q) ids ids q2) as H2 by (eapply pres_ok; [apply gone_unlinkAll|exact H1|done]).
  apply bind_ok in Hr as (u3 & q3 & Hrel & Hr).
  assert (gone B (q_mem q) ids ids q3) as H3.
  { eapply pres_ok; [|exact H2|exact Hrel]. destruct (p_Claimed target); [|apply pres_ret].
    repeat first [apply gone_tx; apply outside_ReleaseName | apply gone_then; reflexivity | apply gone_emit | pres_step]. }
  eapply pres_ok; [|exact H3|exact Hr].
  destruct (p_PersonRank target); first [apply pres_ret | apply gone_tx, outside_SetRank].
Qed.
End removal.

Section bans.
Context {E : Env} {c : Cmd}.

Lemma hub_ok {A} (m : H A) s a s' : hub m s = (Ok a, s') ->
  exists q, m (c_q s) = (Ok a, q) /\ s' = mkCState q (c_args s) (c_reply s).
Proof. unfold hub. destruct (m (c_q s)) as [[b|e] q]; [|done]. intros [= -> <-]. eauto. Qed.

Definition ban_row (target : Person) (length_ : Z) (reason : string) (id : ident) : Ban :=
  mkBan id (p_Name target) reason (Some (cr_Identity c_req)) nowMS (if 0 <? length_ then nowMS + length_ / Millisecond else 0).
Lemma add_bans_ok target length_ reason q u q' :
  foreach (p_Identities target) (fun id => tx (tx_AddBan (ban_row target length_ reason id))) q = (Ok u, q') ->
  q_mem q' = q_mem q /\ q_after q' = q_after q /\
  forall id, bans (q_db q') !! id =
    if decide (id ∈ p_Identities target) then Some (ban_row target length_ reason id) else bans (q_db q) !! id.
Proof.
  intros Hr. refine (foreach_ok (fun done s => q_mem s = q_mem q /\ q_after s = q_after q /\
    forall id, bans (q_db s) !! id = if decide (id ∈ done) then Some (ban_row target length_ reason id) else bans (q_db q) !! id)
    _ _ _ q u q' _ Hr).
  - intros done_ x s v s' _ (Hm & Ha & Hb) (d & Hd & ->)%tx_ok. unfold tx_AddBan, check_id, assert, bind, modify in Hd.
    destruct (checkID _); [|done]. injection Hd as _ <-. cbn. split_and!; [done..|]. intros id. rewrite lookup_insert, Hb.
    repeat case_decide; subst; set_solver.
  - split_and!; [done..|]. intros id. by rewrite decide_False by apply not_elem_of_nil.
Qed.

End bans.

(** ** Bans that run out *)
Section expiry.

Lemma lift_bans_ok t bs : forall lifted d u d', lift_bans t lifted bs d = (Ok u, d') ->
  exists es, d' = set_audit (audit d ++ es) (set_bans (foldr (fun b m => delete (Ban_Identity b) m) (bans d) (rev bs)) d) /\
    NoDup (map Audit_Target es) /\ Forall (fun e => Audit_Action e = "unban" /\ Audit_Actor e = None) es /\
    forall n, n ∈ map Audit_Target es <-> n ∈ map ban_title bs /\ n ∉ lifted.
Proof.
  induction bs as [|b bs IH]; intros lifted d u d'; cbn [lift_bans].
  - intros [= _ <-]. exists []. rewrite app_nil_r. split_and!; [by destruct d|constructor|constructor|set_solver].
  - intros (r & d1 & Hrem & Hl)%bind_ok. injection Hrem as _ <-.
    set (d1 := set_bans (delete (Ban_Identity b) (bans d)) d) in Hl.
    case_bool_decide as Hin.
    + apply IH in Hl as (es & -> & Hnd & Hall & Hn). exists es. unfold d1; cbn.
      split_and!; [|done|done|intros n; rewrite Hn; set_solver].
      by rewrite foldr_app.
    + apply bind_ok in Hl as (u1 & d2 & Ha & Hl). injection Ha as _ <-. apply IH in Hl as (es & -> & Hnd & Hall & Hn).
      exists (mkAuditEntry (Z.of_nat (length (audit d)) + 1) t None "unban" (ban_title b) "the ban ran out" :: es).
      split_and!.
      * unfold d1; cbn. rewrite foldr_app, <- app_assoc. done.
      * cbn. constructor; [|done]. rewrite Hn. set_solver.
      * by constructor.
      * intros n. cbn. rewrite elem_of_cons, Hn. destruct (decide (n = ban_title b)); set_solver.
Qed.
Lemma lift_bans_run t bs : forall lifted d, exists d', lift_bans t lifted bs d = (Ok tt, d').
Proof.
  induction bs as [|b bs IH]; intros lifted d; cbn; [by eexists|].
  unfold bind, tx_RemoveBan, get, put, ret. cbn. case_bool_decide; [apply IH|]. cbn. apply IH.
Qed.
Lemma foldr_delete_lookup (bs : list Ban) (m : gmap ident Ban) id :
  foldr (fun b m => delete (Ban_Identity b) m) m bs !! id =
    if decide (id ∈ map Ban_Identity bs) then None else m !! id.
Proof.
  induction bs as [|b bs IH]; cbn; [by rewrite decide_False by apply not_elem_of_nil|].
  rewrite lookup_delete, IH. repeat case_decide; set_solver.
Qed.

(** Each minute exactly the bans that have run out are lifted, and the log
    names each person whose ban it was once, however many apps they had. *)
Theorem expired_bans_lifted t d : db_wf d ->
  exists d', liftExpiredBans t d = (Ok tt, d') /\
    (forall id, bans d' !! id = (b ← bans d !! id; if ban_expired t b then None else Some b)) /\
    exists es, audit d' = audit d ++ es /\ NoDup (map Audit_Target es) /\
      Forall (fun e => Audit_Action e = "unban" /\ Audit_Actor e = None) es /\
      forall n, n ∈ map Audit_Target es <-> exists id b, bans d !! id = Some b /\ ban_expired t b = true /\ ban_title b = n.
Proof.
  intros Hwf. unfold liftExpiredBans. erewrite bind_run by done.
  set (bs := order_by ban_expiry_le _).
  assert (forall b, b ∈ bs <-> bans d !! Ban_Identity b = Some b /\ ban_expired t b = true) as Hbs.
  { intros b. unfold bs. rewrite elem_of_order_by, elem_of_bfilter, elem_of_values. split.
    - intros [[id Hid] He]. pose proof (wf_ban _ Hwf _ _ Hid) as Hb. rewrite Hb. done.
    - intros [Hid He]. eauto. }
  destruct (lift_bans_run t bs [] d) as [d' Hd']. exists d'. split; [done|].
  apply lift_bans_ok in Hd' as (es & -> & Hnd & Hall & Hn). cbn. split.
  - intros id. rewrite foldr_delete_lookup. case_decide as Hin.
    + apply list_elem_of_fmap in Hin as (b & -> & Hb). rewrite list_elem_of_In, <- List.in_rev, <- list_elem_of_In in Hb.
      apply Hbs in Hb as [Hb He]. rewrite Hb. cbn. by rewrite He.
    + destruct (bans d !! id) as [b|] eqn:Hb; [|done]. cbn. destruct (ban_expired t b) eqn:He; [|done].
      destruct Hin. apply list_elem_of_fmap. pose proof (wf_ban _ Hwf _ _ Hb) as Hid. exists b. split; [done|].
      rewrite list_elem_of_In, <- List.in_rev, <- list_elem_of_In. apply Hbs. by rewrite Hid.
  - exists es. split_and!; [done..|]. intros n. rewrite Hn, list_elem_of_fmap. split.
    + intros [(b & -> & [Hb He]%Hbs) _]. eauto.
    + intros (id & b & Hb & He & <-). split; [|apply not_elem_of_nil]. exists b. split; [done|]. apply Hbs.
      pose proof (wf_ban _ Hwf _ _ Hb) as ->. done.
Qed.
End expiry.

(** ** Lengths of bans *)
Section lengths.
Context {E : Env}.

Lemma digits_value_bound s : forall acc v, 0 <= acc -> digits_value acc s = Some v ->
  0 <= v < (acc + 1) * 10 ^ len s.
Proof.
  induction s as [|c s IH]; intros acc v Hacc; cbn.
  - intros [= ->]. unfold len. cbn. lia.
  - destruct (ascii_digit_p (byte c)) eqn:Hd; [|done]. unfold ascii_digit_p in Hd.
    intros Hv. apply IH in Hv; [|lia]. replace (len (String c s)) with (1 + len s) by (unfold len; cbn [String.length]; lia).
    rewrite Z.pow_add_r by (unfold len; lia). split; [lia|]. nia.
Qed.

Lemma atoi_digits c s : ascii_digit_p (byte c) = true ->
  atoi (String c s) = (v ← digits_value 0 (String c s); if v <=? int_max then Some v else None).
Proof.
  intros Hd. destruct c as [b0 b1 b2 b3 b4 b5 b6 b7].
  destruct b0, b1, b2, b3, b4, b5, b6, b7; try discriminate Hd; unfold atoi; cbn;
    (destruct (digits_value _ s) as [v|]; [|done]; cbn; by destruct (v <=? int_max)).
Qed.
Lemma atoi_bound s v : all_digits s = true -> atoi s = Some v -> 0 <= v < 10 ^ len s.
Proof.
  destruct s as [|c s]; [done|]. unfold all_digits. cbn [bytes forallb]. intros [Hd _]%andb_true_iff.
  rewrite atoi_digits by done. intros (w & Hw & Hv)%bind_Some. apply digits_value_bound in Hw; [|lia].
  destruct (w <=? int_max); [|done]. injection Hv as <-. lia.
Qed.

(** The length of a ban anyone can ask for is for good, or between a minute
    and 9999 days; so the time it runs out fits the 64 bits it is kept in. *)
Theorem ban_length_bounds s d : parseBanLength s = Some d ->
  d = 0 \/ (Minute <= d <= 9999 * (24 * Hour) /\ d < 2 ^ 63).
Proof.
  unfold parseBanLength. destruct (equal_fold s "perm"); [intros [= <-]; by left|]. cbv zeta.
  set (digits := str_take _ _). set (unit_ := ban_unit _).
  destruct ((1 <=? len digits) && (len digits <=? 4) && all_digits digits) eqn:Hg; [|done].
  destruct (atoi digits) as [v|] eqn:Hv; [|done]. destruct unit_ as [u|] eqn:Hu; [|done].
  destruct (Z.eqb_spec v 0); [done|]. intros [= <-]. right.
  assert (0 <= v <= 9999) as Hv'.
  { apply andb_true_iff in Hg as [[H1 H4]%andb_true_iff Hd]. apply atoi_bound in Hv; [|done].
    assert (10 ^ len digits <= 10 ^ 4) by (apply Z.pow_le_mono_r; lia). lia. }
  assert (u = Minute \/ u = Hour \/ u = 24 * Hour) as Hu'.
  { revert Hu. subst unit_. unfold ban_unit. repeat case_bool_decide; naive_solver. }
  unfold Hour, Minute, Second, Millisecond in *. lia.
Qed.
End lengths.
