(* ===== verification/LinkSpec.v ===== *)
(** internal/hub/links.go and the persons of internal/store: what linking and
    unlinking an app do, and which codes work. *)
From S2P Require Import Prelude Text Db StorePeople StoreRooms StoreMessages StoreGroup StoreInv StoreWf Names HubCore.
From S2P Require Import Clock Ranks People Rooms Post Commands Links HubWf System Frame PostSpec ModerationSpec.
Local Open Scope Z_scope.

(** ** The store *)
(** [id] is the only app of its person. *)
Definition alone (d : DB) (id : ident) (p : Z) : Prop :=
  forall x i, identities d !! x = Some i -> Identity_Person i = p -> x = id.
(** A whisper handed over with the person it was to. *)
Definition handed_over (from to : Z) (w : Whisper) : Whisper :=
  if Whisper_ToPerson w =? from
  then mkWhisper (Whisper_ID w) (Whisper_From w) (Whisper_FromName w) to (Whisper_ToName w) (Whisper_Body w)
         (Whisper_Via w) (Whisper_SaidAt w) (Whisper_RRCAt w) (Whisper_ReadAt w)
  else w.
Lemma handed_over_not from to w : from <> to -> Whisper_ToPerson (handed_over from to w) <> from.
Proof. intros Hne. unfold handed_over. destruct (Z.eqb_spec (Whisper_ToPerson w) from); cbn; auto. Qed.

Lemma LinkIdentity_ok id to t d u d' : tx_LinkIdentity id to t d = (Ok u, d') ->
  exists i, identities d !! id = Some i /\
    ( (Identity_Person i = to /\ d' = d) \/
      (Identity_Person i <> to /\ is_Some (people d !! to) /\
       let d1 := set_identities (alter (with_person to t) id (identities d)) d in
       if bool_decide (others d (Identity_Person i) id = []) then
         names d !! Identity_Person i = None /\
         d' = people_cascade (Identity_Person i) (merge_ignores_of (Identity_Person i) to
                (merge_ignores_by (Identity_Person i) to (merge_whispers (Identity_Person i) to d1)))
       else d' = d1) ).
Proof.
  unfold tx_LinkIdentity, tx_PersonByID. intros (from & d0 & (-> & i & Hi & <-)%personID_ok & Hr)%bind_ok. exists i. split; [done|].
  destruct (Z.eqb_spec (Identity_Person i) to); [injection Hr as _ <-; by left|right]. split; [done|].
  apply bind_ok in Hr as (p & d0 & [= <- <-] & Hr). destruct (people d !! to) as [p|]; [|done]. split; [done|]. cbn.
  apply bind_ok in Hr as (x & d0 & [= <- <-] & Hr). apply bind_ok in Hr as (v & d0 & Ha & Hr).
  destruct (negb _) eqn:Hn in Ha; [|done]. injection Ha as _ <-.
  apply bind_ok in Hr as (v1 & d0 & Hm & Hr). rewrite move_identity_eq in Hm. injection Hm as _ <-.
  destruct (bool_decide (others d (Identity_Person i) id = [])); [|by injection Hr as _ <-].
  cbn [andb] in Hn. apply negb_true_iff, bool_decide_eq_false, eq_None_not_Some in Hn. split; [done|].
  do 3 (apply bind_ok in Hr as (? & ? & Hm & Hr); injection Hm as _ <-).
  unfold delete_person in Hr. apply bind_ok in Hr as (? & ? & [= <- <-] & Hr).
  apply bind_ok in Hr as (v2 & d0 & Ha & Hr). destruct (bool_decide _) in Ha; [|done]. injection Ha as _ <-. by injection Hr as _ <-.
Qed.


(** Unlinking an app that shares its person gives it a person of its own,
    with the old one's preferences and no name, and leaves everyone else's apps
    where they are; an app that is alone stays as it is. *)
Theorem unlink_frees_one_app id t d p d' : db_wf d -> tx_UnlinkIdentity id t d = (Ok p, d') ->
  exists i, identities d !! id = Some i /\
    ( (alone d id (Identity_Person i) /\ p = Identity_Person i /\ d' = d) \/
      (~ alone d id (Identity_Person i) /\ people d !! p = None /\ names d' !! p = None /\
       identities d' = <[id := with_person p t i]> (identities d) /\
       (forall q, q <> p -> people d' !! q = people d !! q) /\
       (exists sp old, people d' !! p = Some sp /\ people d !! Identity_Person i = Some old /\
          SPerson_Prefs sp = SPerson_Prefs old /\ SPerson_Rank sp = SRankMember)) ).
Proof.
  intros Hwf. unfold tx_UnlinkIdentity, tx_PersonOf. intros (o & d0 & [= <- <-] & Hr)%bind_ok.
  destruct (identities d !! id) as [i|] eqn:Hi; [|done]. cbn in Hr. exists i. split; [done|].
  destruct (people d !! Identity_Person i) as [sp|] eqn:Hsp; [|done].
  destruct (wf_person _ Hwf _ _ Hsp) as (Hid & _ & Hpref). rewrite Hid in Hr.
  apply bind_ok in Hr as (x & d0 & [= <- <-] & Hr). case_bool_decide as Ho.
  - injection Hr as <- <-. left. split_and!; [|done..]. intros x j Hj Hp. by apply (proj1 (others_nil _ _ _ Hwf) Ho x j).
  - right. apply bind_ok in Hr as (fresh & d0 & [= <- <-] & Hr). set (fresh := next_id (people d)) in *.
    assert (people d !! fresh = None) as Hf by apply next_id_fresh.
    apply bind_ok in Hr as (v & d0 & Hs & Hr). unfold SetPrefsOfPerson, assert, bind, get, put in Hs. rewrite Hpref in Hs.
    cbn in Hs. rewrite lookup_insert_eq in Hs. injection Hs as _ <-.
    apply bind_ok in Hr as (v1 & d0 & Hm & Hr). rewrite move_identity_eq in Hm. injection Hm as _ <-. injection Hr as <- <-.
    cbn. split_and!.
    + intros Hal. apply Ho, others_nil; [done|]. intros x j Hj Hp. by eapply Hal.
    + done.
    + destruct (names d !! fresh) as [n|] eqn:Hn; [|done]. apply (wf_name _ Hwf) in Hn as ([? ?] & _). congruence.
    + apply map_eq. intros x. rewrite lookup_alter, lookup_insert. destruct (decide (id = x)) as [<-|]; [by rewrite Hi|done].
    + intros q Hq. by rewrite !lookup_insert_ne.
    + eexists _, sp. rewrite lookup_insert_eq. split; [reflexivity|]. done.
Qed.
