(* ===== verification/RateSpec.v ===== *)
(** internal/hub/post.go: how fast anyone can post, over any sequence of
    attempts by any number of people. *)
From S2P Require Import Prelude Text Db Names HubCore Clock Ranks People Rooms Post HubWf Frame System.
Local Open Scope Z_scope.

Section rate.
Context {W : Env}.
Notation perMin := (PostsPerMinute cfg).

Definition let_through (r : res bool) : bool := match r with Ok b => b | Fail _ => false end.
(** A sequence of attempts, each at its own time: who tries, and how many of
    theirs are let through. *)
Fixpoint allowed_posts (who : ident) (l : list (Z * ident)) (q : Req) : Z :=
  match l with
  | [] => 0
  | (t, id) :: l' =>
    match allowPost (E := at_time W t "") id q with
    | (r, q') => (if bool_decide (id = who) && let_through r then 1 else 0) + allowed_posts who l' q'
    end
  end.
Definition times_of (who : ident) (l : list (Z * ident)) : list Z :=
  map fst (List.filter (fun a => bool_decide (a.2 = who)) l).

(** A bucket no fuller than it can be, and not from the future. *)
Definition bucket_ok (t : Z) (b : option Bucket) : Prop :=
  match b with Some b => 0 <= b_tokens b <= perMin * Minute /\ b_at b <= t | None => True end.

Lemma allowPost_step (t : Z) (id : ident) (q : Req) :
  exists b, allowPost (E := at_time W t "") id q =
    (Ok b, with_mem (set_rate (<[id := (take_token (E := at_time W t "") (rate (q_mem q) !! id)).2]> (rate (q_mem q))) (q_mem q)) q) /\
    b = (take_token (E := at_time W t "") (rate (q_mem q) !! id)).1.
Proof.
  unfold allowPost. erewrite bind_run by done. destruct (take_token _) as [b bk]. by exists b.
Qed.
Lemma step_bucket (id who : ident) bk q :
  rate (q_mem (with_mem (set_rate (<[id := bk]> (rate (q_mem q))) (q_mem q)) q)) !! who =
    if bool_decide (id = who) then Some bk else rate (q_mem q) !! who.
Proof. cbn. rewrite lookup_insert. by repeat case_decide; repeat case_bool_decide. Qed.

(** The tokens there would be at [t], and those the time up to [t1] can add. *)
Definition potential (t t1 : Z) (b : option Bucket) : Z :=
  match b with
  | Some b => Z.min (perMin * Minute) (b_tokens b + (t - b_at b) * perMin)
  | None => perMin * Minute
  end + (t1 - t) * perMin.
Lemma potential_later s t t1 b : 0 <= perMin -> s <= t -> bucket_ok s b -> potential t t1 b <= potential s t1 b.
Proof.
  intros Hp Hst Hb. unfold potential. destruct b as [b|]; [|nia].
  replace ((t - b_at b) * perMin) with ((s - b_at b) * perMin + (t - s) * perMin) by ring.
  replace ((t1 - s) * perMin) with ((t1 - t) * perMin + (t - s) * perMin) by ring.
  assert (0 <= (t - s) * perMin) by nia. lia.
Qed.
Lemma potential_take (t t1 : Z) b : 0 <= perMin -> bucket_ok t b ->
  let r := take_token (E := at_time W t "") b in
  bucket_ok t (Some r.2) /\ potential t t1 (Some r.2) + (if r.1 then Minute else 0) <= potential t t1 b.
Proof.
  intros Hp Hb. unfold take_token, refill, potential. cbn [cfg at_time now]. assert (0 < Minute) by done.
  destruct b as [b|]; cbn in *; rewrite ?Z.sub_diag, ?Z.mul_0_l, ?Z.add_0_r.
  - assert (0 <= (t - b_at b) * perMin) by nia. destruct Hb. generalize dependent ((t - b_at b) * perMin). intros x Hx.
    generalize dependent (perMin * Minute). intros full Hfull. generalize dependent ((t1 - t) * perMin). intros y.
    destruct (Z.ltb_spec (Z.min full (b_tokens b + x)) Minute); cbn; rewrite Z.sub_diag, Z.mul_0_l; lia.
  - assert (0 <= perMin * Minute) by nia. generalize dependent (perMin * Minute). intros full Hfull.
    generalize dependent ((t1 - t) * perMin). intros y.
    destruct (Z.ltb_spec (Z.min full full) Minute); cbn; rewrite Z.sub_diag, Z.mul_0_l; lia.
Qed.

Lemma allowed_potential who l q s t1 :
  0 <= perMin -> Sorted Z.le (s :: map fst l) -> Forall (fun a => a.1 <= t1) l -> s <= t1 ->
  bucket_ok s (rate (q_mem q) !! who) ->
  allowed_posts who l q * Minute <= potential s t1 (rate (q_mem q) !! who).
Proof.
  intros Hp. revert q s. induction l as [|[t id] l IH]; intros q s Hs Hl Ht1 Hb; cbn [allowed_posts].
  { unfold potential. destruct (rate _ !! who) as [b|]; cbn in *; unfold Minute, Second, Millisecond in *; nia. }
  inversion Hs as [|? ? Hs' Hhd]; subst. inversion Hhd; subst. inversion Hl as [|? ? Hla Hl']; subst. cbn [fst] in *.
  destruct (allowPost_step t id q) as (b & -> & Hbk). 
  pose proof (potential_later s t t1 _ Hp ltac:(eassumption) Hb) as Hlater.
  assert (bucket_ok t (rate (q_mem q) !! who)) as Hbt by (destruct (rate _ !! who); cbn in *; lia).
  specialize (IH (with_mem (set_rate (<[id := (take_token (E := at_time W t "") (rate (q_mem q) !! id)).2]> (rate (q_mem q)))
    (q_mem q)) q) t Hs' Hl' Hla).
  rewrite step_bucket in IH. cbn [let_through]. case_bool_decide as Hid; cbn [andb].
  - subst id. destruct (potential_take t t1 _ Hp Hbt) as [Hok Hpot]. rewrite <- Hbk in Hpot. specialize (IH Hok).
    destruct b; lia.
  - specialize (IH Hbt). lia.
Qed.


(** The next attempt at [t] will find a token. *)
Definition ready (t : Z) (b : option Bucket) : Prop :=
  match b with Some b => Minute <= b_tokens b + (t - b_at b) * perMin | None => True end.
Lemma ready_take (t : Z) b : 1 <= perMin -> ready t b ->
  let r := take_token (E := at_time W t "") b in r.1 = true /\ 0 <= b_tokens r.2 /\ b_at r.2 = t.
Proof.
  intros Hp Hb. unfold take_token, refill. cbn [cfg at_time now]. assert (0 < Minute) by done.
  assert (Minute <= perMin * Minute) by nia.
  destruct b as [b|]; cbn in *; rewrite ?Z.sub_diag, ?Z.mul_0_l, ?Z.add_0_r.
  - destruct (Z.ltb_spec (Z.min (perMin * Minute) (b_tokens b + (t - b_at b) * perMin)) Minute); cbn; lia.
  - destruct (Z.ltb_spec (Z.min (perMin * Minute) (perMin * Minute)) Minute); cbn; lia.
Qed.

End rate.
