(* ===== verification/RankSpec.v ===== *)
(** internal/hub/ranks.go: the rank rule in closed form, and the calendar of
    internal/hub/rooms.go's clock against the Gregorian rules; and the command table
    and the help pages of internal/hub/commands.go. *)
From S2P Require Import Prelude Text Db Names HubCore Clock Ranks People Commands.
Local Open Scope Z_scope.

Definition is_self (actor target : Person) : Prop := p_PersonID actor <> 0 /\ p_PersonID actor = p_PersonID target.
(** [actor] outranks [target]; an owner outranks everyone but the owners. *)
Definition outranks (actor target : Person) : Prop :=
  p_PersonRank target <> RankOwner /\ (p_Rank actor = RankOwner \/ rank_n (p_PersonRank target) < rank_n (p_Rank actor)).

Lemma rank_lt_spec a b : rank_lt a b = true <-> rank_n a < rank_n b.
Proof. unfold rank_lt. apply Z.ltb_lt. Qed.
Lemma rank_ge_spec a b : rank_ge a b = true <-> rank_n b <= rank_n a.
Proof. unfold rank_ge. apply Z.leb_le. Qed.

(** [may] allows an action exactly when the actor's rank reaches it and, if
    it is aimed at someone, either the actor aims it at themselves and it is one
    of the few that may be, or the actor is a mod or up where it takes one, and
    outranks the target: so nobody acts on an equal, on anyone above them, or
    on an owner. *)
Theorem may_exact actor action target :
  may actor action (Some target) = None <->
  rank_n (minRank action) <= rank_n (p_Rank actor) /\
  (hasTarget action = true ->
     (is_self actor target /\ on_self action = true) \/
     (~ is_self actor target /\ (on_self action = true -> rank_n RankMod <= rank_n (p_Rank actor)) /\ outranks actor target)).
Proof.
  unfold may. destruct (rank_lt (p_Rank actor) (minRank action)) eqn:Hmin.
  { apply rank_lt_spec in Hmin. split; [done|]. intros [? _]. lia. }
  assert (rank_n (minRank action) <= rank_n (p_Rank actor)) as Hge by (apply not_true_iff_false in Hmin; rewrite rank_lt_spec in Hmin; lia).
  destruct (hasTarget action); cbn [negb]; [|split; [done|]; done].
  destruct (negb (p_PersonID actor =? 0) && (p_PersonID actor =? p_PersonID target)) eqn:Hself.
  - assert (is_self actor target) as Hs by (unfold is_self; lia).
    destruct (on_self action); split; [by auto|done|done|]. intros [_ [[_ [=]]|[[] _]]]; done.
  - assert (~ is_self actor target) as Hs by (unfold is_self; lia). unfold outranks.
    destruct (on_self action && rank_lt (p_Rank actor) RankMod) eqn:Hmod.
    { apply andb_true_iff in Hmod as [Ho Hm%rank_lt_spec]. split; [done|]. intros [_ [[? _]|(_ & Hm' & _)]]; [done|done|].
      specialize (Hm' Ho). lia. }
    assert (on_self action = true -> rank_n RankMod <= rank_n (p_Rank actor)) as Hm.
    { intros Ho. rewrite Ho in Hmod. cbn [andb] in Hmod. apply not_true_iff_false in Hmod. rewrite rank_lt_spec in Hmod. lia. }
    case_bool_decide as Hown; [split; [done|]; intros [_ [[? _]|(_ & _ & [] & _)]]; done|].
    destruct (rank_ge (p_PersonRank target) (p_Rank actor)) eqn:Hr.
    + apply rank_ge_spec in Hr. case_bool_decide as Ha; cbn [negb andb].
      * split; [|done]. intros _. split; [done|]. intros _. right. auto.
      * split; [done|]. intros [_ [[? _]|(_ & _ & _ & [?|?])]]; [done|done|done|lia].
    + apply not_true_iff_false in Hr. rewrite rank_ge_spec in Hr. rewrite andb_false_r. split; [|done].
      intros _. split; [done|]. intros _. right. split_and!; [done..|right; lia].
Qed.

(** In a room, an op's power stops at the hub's own: nobody kicks, bans or
    demotes there someone of a hub rank who is an owner or not below them, unless
    it is themselves. *)
Theorem room_target_exact actor target :
  room_target_refusal actor target = None <->
  p_PersonRank target = RankMember \/ is_self actor target \/ outranks actor target.
Proof.
  unfold room_target_refusal, outranks, is_self. destruct (rank_lt (p_PersonRank target) RankMod) eqn:Hm.
  { split; [|done]. intros _. left. by destruct (p_PersonRank target). }
  assert (p_PersonRank target <> RankMember) as Hne by (intros He; by rewrite He in Hm).
  destruct (negb (p_PersonID actor =? 0) && (p_PersonID actor =? p_PersonID target)) eqn:Hself; [split; [|done]; intros _; right; left; lia|].
  case_bool_decide as Hown; [split; [done|]; intros [?|[[? ?]|[? _]]]; [done|lia|done]|].
  destruct (rank_ge (p_PersonRank target) (p_Rank actor)) eqn:Hr.
  - apply rank_ge_spec in Hr. case_bool_decide as Ha; cbn [negb andb].
    + split; [|done]. intros _. auto.
    + split; [done|]. intros [?|[[? ?]|[_ [?|?]]]]; [done|lia|done|lia].
  - apply not_true_iff_false in Hr. rewrite rank_ge_spec in Hr. rewrite andb_false_r. split; [|done].
    intros _. right. right. split; [done|]. right. lia.
Qed.

(** ** The calendar *)
Definition leap (y : Z) : bool := ((y mod 4 =? 0) && negb (y mod 100 =? 0)) || (y mod 400 =? 0).
Definition month_days (y m : Z) : Z :=
  if (m =? 4) || (m =? 6) || (m =? 9) || (m =? 11) then 30
  else if m =? 2 then (if leap y then 29 else 28) else 31.
(** The day after, by the rules everyone knows. *)
Definition next_day (c : Civil) : Civil :=
  if civ_day c <? month_days (civ_year c) (civ_month c) then mkCivil (civ_year c) (civ_month c) (civ_day c + 1)
  else if civ_month c <? 12 then mkCivil (civ_year c) (civ_month c + 1) 1
  else mkCivil (civ_year c + 1) 1 1.
#[export] Instance Civil_eq_dec : EqDecision Civil.
Proof. solve_decision. Defined.
Fixpoint same_calendar (n : nat) (day : Z) (c : Civil) : bool :=
  match n with
  | O => true
  | S n' => bool_decide (civil_of_days day = c) && (days_of_civil c =? day) && same_calendar n' (day + 1) (next_day c)
  end.
Fixpoint date_after (n : nat) (c : Civil) : Civil :=
  match n with
  | O => c
  | S n' => date_after n' (next_day c)
  end.
Lemma same_calendar_spec n : forall day c, same_calendar n day c = true ->
  forall i, (i < n)%nat -> civil_of_days (day + Z.of_nat i) = date_after i c /\ days_of_civil (date_after i c) = day + Z.of_nat i.
Proof.
  induction n as [|n IH]; intros day c Hs i Hi; [lia|]. cbn [same_calendar] in Hs.
  apply andb_true_iff in Hs as [[Hc%bool_decide_eq_true Hd%Z.eqb_eq]%andb_true_iff Hs]. destruct i as [|i].
  - rewrite Z.add_0_r. done.
  - specialize (IH _ _ Hs i ltac:(lia)). cbn [date_after]. by replace (day + Z.of_nat (S i)) with (day + 1 + Z.of_nat i) by lia.
Qed.

(** From 1970 until into 2107 the arithmetic that turns a day number into a
    date agrees, day by day, with counting days, months and leap years from
    1 January 1970, and back. *)
Lemma civil_of_days_correct i : (i < 50000)%nat ->
  civil_of_days (Z.of_nat i) = date_after i (mkCivil 1970 1 1) /\
  days_of_civil (date_after i (mkCivil 1970 1 1)) = Z.of_nat i.
Proof. apply (same_calendar_spec 50000 0). vm_compute. reflexivity. Qed.

(** * Help

    internal/hub/commands.go: the command table and the help pages. *)
Definition all_ranks : list Rank := [RankMember; RankMod; RankAdmin; RankOwner].
(** The commands a rank may use that help lists, section by section. *)
Definition listed (rank : Rank) : list string :=
  concat (map (section_lines rank) (seqZ 1 (Z.of_nat (length helpSections) - 1))).
Definition page_text (pages : list helpPage) (n : Z) : string := strings_Join newline (renderHelpPage pages n).
Definition page_fits (pages : list helpPage) (n : Z) : bool :=
  negb (bool_decide (renderHelpPage pages n = [])) && (len (page_text pages n) <=? OnePacketText).

Lemma all_pages_fit :
  forallb (fun r => forallb (page_fits (help_pages r)) (seqZ 1 (Z.of_nat (length (help_pages r))))) all_ranks = true.
Proof. vm_compute. reflexivity. Qed.
Lemma all_pages_list : forallb (fun r => bool_decide (concat (map hp_lines (help_pages r)) = listed r)) all_ranks = true.
Proof. vm_compute. reflexivity. Qed.
Lemma elem_of_all_ranks r : r ∈ all_ranks.
Proof. destruct r; repeat constructor. Qed.
(** A check of every page of every rank, as a statement about each. *)
Lemma every_page (pages : Rank -> list helpPage) (lines : Rank -> list string) (fits : list helpPage -> Z -> bool) :
  forallb (fun r => forallb (fits (pages r)) (seqZ 1 (Z.of_nat (length (pages r))))) all_ranks = true ->
  forallb (fun r => bool_decide (concat (map hp_lines (pages r)) = lines r)) all_ranks = true ->
  forall rank n, 1 <= n <= Z.of_nat (length (pages rank)) ->
    fits (pages rank) n = true /\ concat (map hp_lines (pages rank)) = lines rank.
Proof.
  intros Hf Hl rank n Hn. rewrite forallb_forall in Hf, Hl. pose proof (elem_of_all_ranks rank) as Hr%list_elem_of_In.
  specialize (Hf _ Hr). specialize (Hl _ Hr). apply bool_decide_eq_true in Hl. split; [|done].
  rewrite forallb_forall in Hf. apply Hf, list_elem_of_In, elem_of_seqZ. lia.
Qed.

Lemma page_fits_len pages n : page_fits pages n = true -> len (page_text pages n) <= OnePacketText.
Proof. unfold page_fits. intros [_ Hl]%andb_prop. by apply Z.leb_le. Qed.
#[local] Opaque help_pages listed.

(** Every help page of every rank fits in one LXMF packet ([OnePacketText]),
    and a rank's pages list every command it may use, each once and in order. *)
Theorem help_pages_fit rank n : 1 <= n <= Z.of_nat (length (help_pages rank)) ->
  len (page_text (help_pages rank) n) <= OnePacketText /\ concat (map hp_lines (help_pages rank)) = listed rank.
Proof.
  intros Hn. destruct (every_page help_pages listed page_fits all_pages_fit all_pages_list rank n Hn) as [Hf Hl].
  split; [exact (page_fits_len _ _ Hf)|exact Hl].
Qed.

#[export] Instance access_eq_dec : EqDecision access. Proof. solve_decision. Defined.
#[export] Instance Handler_eq_dec : EqDecision Handler. Proof. solve_decision. Defined.
#[export] Instance OldForm_eq_dec : EqDecision OldForm. Proof. solve_decision. Defined.
#[export] Instance command_eq_dec : EqDecision command. Proof. solve_decision. Defined.
Definition words_of (c : command) : list string := cmd_name c :: cmd_aliases c.
Lemma all_words_unique :
  forallb (fun c => forallb (fun w => bool_decide (lookupCommand w = Some c)) (words_of c)) commandTable = true.
Proof. vm_compute. reflexivity. Qed.

(** No word names two commands: every name and alias of the table picks the
    command it belongs to. *)
Theorem command_words_unique c w : c ∈ commandTable -> w ∈ words_of c -> lookupCommand w = Some c.
Proof.
  intros Hc%list_elem_of_In Hw%list_elem_of_In. pose proof all_words_unique as Ha. rewrite forallb_forall in Ha.
  specialize (Ha c Hc). rewrite forallb_forall in Ha. specialize (Ha w Hw). by apply bool_decide_eq_true in Ha.
Qed.
