(* ===== verification/NamesSpec.v ===== *)
(** internal/hub/names.go, rrc/wire/names.go and internal/hub/config.go: which
    names are the same, which can be claimed, and what a room can be called; and the
    normal forms of Unicode they rest on. *)
From S2P Require Import Prelude Text TextCut Db Names HubCore.
Local Open Scope Z_scope.

(** ** ASCII text, rune by rune *)
Lemma byte_range c : 0 <= byte c < 256.
Proof. unfold byte. pose proof (N_ascii_bounded c). lia. Qed.
Lemma chr_byte c : chr (byte c) = c.
Proof. unfold chr, byte. by rewrite N2Z.id, ascii_N_embedding. Qed.
Lemma byte_chr b : 0 <= b < 256 -> byte (chr b) = b.
Proof. intros Hb. unfold chr, byte. rewrite N_ascii_embedding by lia. lia. Qed.
Lemma ascii_only_cons c s : ascii_only (String c s) <-> byte c < 128 /\ ascii_only s.
Proof. unfold ascii_only. cbn. rewrite andb_true_iff. by rewrite Z.ltb_lt. Qed.

Lemma decode_rune_ascii c s : byte c < 128 -> decode_rune (String c s) = (byte c, 1%nat).
Proof. intros Hc. unfold decode_rune. cbn [substring bytes]. by destruct (Z.ltb_spec (byte c) 128); [|lia]. Qed.
Lemma segs_cons c s : byte c < 128 -> segs (String c s) = (byte c, String c "") :: segs s.
Proof. intros Hc. unfold segs. cbn [segs_from]. rewrite decode_rune_ascii by done. cbn. by destruct s. Qed.
Lemma substring_whole s : substring 0 (String.length s) s = s.
Proof. induction s as [|c s IH]; [done|]. exact (f_equal (String c) IH). Qed.
Lemma of_segs_cons p l : of_segs (p :: l) = p.2 +:+ of_segs l.
Proof.
  unfold of_segs. cbn [map fmap list_fmap]. destruct (l.*2) as [|x r] eqn:Hl; cbn.
  - by rewrite str_app_nil.
  - done.
Qed.
Lemma decode_rune_width c s : (1 <= (decode_rune (String c s)).2 <= String.length (String c s))%nat.
Proof.
  unfold decode_rune. destruct s as [|c1 [|c2 [|c3 s]]]; cbn [substring bytes String.length]; rewrite ?substring_0; cbn [bytes].
  all: repeat (case_match; cbn; try lia).
Qed.
(** A text is its runes. *)
Lemma of_segs_segs s : of_segs (segs s) = s.
Proof.
  remember (String.length s) as n eqn:Hn. revert s Hn. induction (lt_wf n) as [n _ IH]. intros [|c s] ->; [done|].
  pose proof (decode_rune_width c s) as Hw. unfold segs. cbn [segs_from]. destruct (decode_rune (String c s)) as [r w]. cbn [snd] in Hw.
  rewrite of_segs_cons, segs_from_drop. cbn [snd]. rewrite (IH (String.length (str_drop (w - 1) s))); [|rewrite length_str_drop; cbn in *; lia|done].
  destruct w as [|w]; [lia|]. cbn [Nat.sub]. rewrite Nat.sub_0_r. rewrite <- (str_drop_cons w c s). apply take_drop.
Qed.
Lemma of_segs_ascii s : ascii_only s -> of_segs (segs s) = s.
Proof. intros _. apply of_segs_segs. Qed.
Lemma runes_ascii s : ascii_only s -> runes s = bytes s.
Proof.
  unfold runes. induction s as [|c s IH]; [done|]. rewrite ascii_only_cons. intros [Hc Hs].
  rewrite segs_cons by done. cbn. f_equal. by apply IH.
Qed.
Lemma encode_rune_ascii b : 0 <= b < 128 -> encode_rune b = String (chr b) "".
Proof.
  intros Hb. unfold encode_rune.
  destruct (Z.ltb_spec b 0), (Z.ltb_spec 1114111 b), (Z.leb_spec 55296 b); try lia. cbn [orb andb].
  by destruct (Z.ltb_spec b 128); [|lia].
Qed.
Lemma drop_while_false {A} (p : A -> bool) l : Forall (fun x => p x = false) l -> drop_while p l = l.
Proof. destruct 1 as [|x l Hx _]; cbn; [done|by rewrite Hx]. Qed.

Section names.
Context {U : Unicode}.

(** ** Room names *)
(** What a room's name can be written with: its own characters and the '#'. *)
Definition plain_string (s : string) : Prop := forallb (fun b => room_char b || (b =? 35)) (bytes s) = true.
Definition room_string (s : string) : Prop := forallb room_char (bytes s) = true.
Lemma plain_char_ascii b : room_char b || (b =? 35) = true -> 0 <= b < 128 /\ is_space b = false /\ rune_lower b = b.
Proof.
  unfold room_char, ascii_lower_p, ascii_digit_p. intros Hb.
  assert (b = 35 \/ b = 45 \/ b = 46 \/ b = 95 \/ 48 <= b <= 57 \/ 97 <= b <= 122) as Hr by lia.
  split_and!; [lia|lia| |].
  - unfold is_space. lia.
  - unfold rune_lower, ascii_upper_p. destruct (Z.ltb_spec b 128); [|lia].
    destruct (Z.leb_spec 65 b), (Z.leb_spec b 90); cbn; lia.
Qed.
Lemma plain_string_cons c s : plain_string (String c s) <-> room_char (byte c) || (byte c =? 35) = true /\ plain_string s.
Proof. unfold plain_string. cbn [bytes forallb]. by rewrite andb_true_iff. Qed.
Lemma room_string_cons c s : room_string (String c s) <-> room_char (byte c) = true /\ room_string s.
Proof. unfold room_string. cbn. by rewrite andb_true_iff. Qed.
Lemma room_string_plain s : room_string s -> plain_string s.
Proof. induction s as [|c s IH]; [done|]. rewrite room_string_cons, plain_string_cons. intros [-> Hs]. auto. Qed.
Lemma plain_string_ascii s : plain_string s -> ascii_only s.
Proof.
  induction s as [|c s IH]; [done|]. rewrite plain_string_cons, ascii_only_cons. intros [Hc Hs].
  apply plain_char_ascii in Hc. split; [lia|auto].
Qed.
Lemma plain_segs s : plain_string s -> Forall (fun p => space_seg p = false) (segs s).
Proof.
  induction s as [|c s IH]; [constructor|]. rewrite plain_string_cons. intros [Hc Hs].
  apply plain_char_ascii in Hc as (Hr & Hsp & _). rewrite segs_cons by lia. constructor; [done|auto].
Qed.
Lemma trim_space_plain s : plain_string s -> trim_space s = s.
Proof.
  intros Hs. unfold trim_space, drop_while_end. pose proof (plain_segs s Hs) as Hf.
  rewrite (drop_while_false _ _ Hf), drop_while_false, rev_involutive by (by apply Forall_rev).
  by apply of_segs_ascii, plain_string_ascii.
Qed.
Lemma to_lower_plain s : plain_string s -> to_lower s = s.
Proof.
  intros Hs. unfold to_lower. rewrite runes_ascii by by apply plain_string_ascii. change (String.concat "") with cat.
  induction s as [|c s IH]; [done|]. apply plain_string_cons in Hs as [Hc Hs]. cbn [bytes map].
  apply plain_char_ascii in Hc as (Hr & _ & Hl). rewrite cat_cons, IH, Hl, encode_rune_ascii, chr_byte by done. done.
Qed.
Lemma trim_hash_room s : room_string s -> trim_prefix s "#" = s.
Proof.
  destruct s as [|c s]; [done|]. rewrite room_string_cons. intros [Hc _]. unfold trim_prefix, has_prefix.
  change (String.prefix "#" (String c s)) with (if ascii_dec "#" c then String.prefix "" s else false).
  destruct (ascii_dec "#" c) as [<-|]; [|done]. by vm_compute in Hc.
Qed.
Lemma trim_hash s : trim_prefix (String "#" s) "#" = s.
Proof.
  unfold trim_prefix, has_prefix. replace (String.prefix "#" (String "#" s)) with true by (by destruct s).
  unfold str_drop. cbn. rewrite Nat.sub_0_r. apply substring_whole.
Qed.
(** Written with or without the '#'. *)
Lemma NormalizeRoom_run w s max : room_string s -> s <> "" -> (max <= 0 \/ len s <= max) -> w = s \/ w = String "#" s ->
  NormalizeRoom w max = inr s.
Proof.
  intros Hs Hne Hlen Hw. assert (plain_string w) as Hp.
  { destruct Hw as [->| ->]; [by apply room_string_plain|]. apply plain_string_cons. split; [done|by apply room_string_plain]. }
  unfold NormalizeRoom. rewrite trim_space_plain, to_lower_plain by done.
  assert (trim_prefix w "#" = s) as -> by (destruct Hw as [->| ->]; [by apply trim_hash_room|apply trim_hash]).
  rewrite bool_decide_eq_false_2 by done.
  destruct (Z.ltb_spec 0 max), (Z.ltb_spec max (len s)); try lia; cbn [andb]; by rewrite Hs.
Qed.
Lemma NormalizeRoom_ok s max r : NormalizeRoom s max = inr r -> room_string r /\ r <> "" /\ (max <= 0 \/ len r <= max).
Proof.
  unfold NormalizeRoom. set (n := trim_prefix _ _). case_bool_decide; [done|].
  destruct ((0 <? max) && (max <? len n)) eqn:Hl; [done|]. destruct (forallb room_char (bytes n)) eqn:Hf; [|done].
  intros [= <-]. split_and!; [done..|]. lia.
Qed.

(** A room's name as the hub keeps it is not empty, fits the limit, and uses
    lower-case letters, digits, '-', '_' and '.' only; given again, with or
    without its '#', it is the same room. *)
Theorem NormalizeRoom_normal s max r : NormalizeRoom s max = inr r ->
  r <> "" /\ (max <= 0 \/ len r <= max) /\ forallb room_char (bytes r) = true /\
  NormalizeRoom r max = inr r /\ NormalizeRoom ("#" +:+ r) max = inr r.
Proof.
  intros (Hr & Hne & Hlen)%NormalizeRoom_ok. split_and!; [done..| |]; apply NormalizeRoom_run; auto.
Qed.

(** ** The configuration *)
Lemma set_pos_idem v d : 0 < d -> set_pos (set_pos v d) d = set_pos v d /\ 0 < set_pos v d.
Proof. unfold set_pos. intros Hd. destruct (Z.leb_spec v 0); [destruct (Z.leb_spec d 0)|destruct (Z.leb_spec v 0)]; lia. Qed.
Lemma validate_rooms_bad max g l : forall rs listed bad, bad = true ->
  (fold_left (validate_room max g) l (rs, listed, bad)).2 = true.
Proof.
  induction l as [|rc l IH]; intros rs listed bad Hb; cbn [fold_left]; [done|]. unfold validate_room at 2.
  by destruct (NormalizeRoom _ _); apply IH.
Qed.
(** Rooms the loop has let through are left as they are. *)
Lemma validate_rooms_idem max g l : forall rs listed rs' listed',
  fold_left (validate_room max g) l (rs, listed, false) = (rs', listed', false) ->
  exists out, rs' = rs ++ out /\ Forall (fun r => NormalizeRoom (rc_Name r) max = inr (rc_Name r)) out /\
    length out = length l /\ listed' = listed || existsb (fun r => bool_decide (rc_Name r = g)) out.
Proof.
  induction l as [|rc l IH]; intros rs listed rs' listed' Hf; cbn [fold_left] in Hf.
  - injection Hf as <- <-. exists []. rewrite app_nil_r, orb_false_r. split_and!; [done|constructor|done..].
  - unfold validate_room at 2 in Hf. destruct (NormalizeRoom (rc_Name rc) max) as [e|n] eqn:Hn.
    { pose proof (validate_rooms_bad max g l (rs ++ [rc]) listed true eq_refl) as Hb. by rewrite Hf in Hb. }
    apply IH in Hf as (out & -> & Hout & Hlen & ->). exists (mkRoomConfig n (rc_Topic rc) :: out).
    rewrite <- app_assoc. split_and!; [done| |cbn; lia|cbn; by rewrite orb_assoc].
    constructor; [|done]. cbn. apply NormalizeRoom_ok in Hn as (Hr & Hne & Hl). apply NormalizeRoom_run; auto.
Qed.
Lemma validate_rooms_run max g l : Forall (fun r => NormalizeRoom (rc_Name r) max = inr (rc_Name r)) l -> forall rs listed,
  fold_left (validate_room max g) l (rs, listed, false) =
    (rs ++ l, listed || existsb (fun r => bool_decide (rc_Name r = g)) l, false).
Proof.
  induction 1 as [|r l Hr _ IH]; intros rs listed; cbn [fold_left existsb].
  - by rewrite app_nil_r, orb_false_r.
  - unfold validate_room at 2. rewrite Hr, IH, <- app_assoc, orb_assoc. by destruct r.
Qed.

(** A configuration that passes is one the hub can run on: the group's room
    is one of the rooms, every room's name is as the hub will keep it, owners are
    identities, no limit is zero or less; and passing it again changes nothing. *)
Theorem validate_sound c c' : validate c = Some c' ->
  GroupRoom c' ∈ map rc_Name (Rooms c') /\
  Forall (fun r => NormalizeRoom (rc_Name r) (MaxRoomNameBytes c') = inr (rc_Name r)) (Rooms c') /\
  Forall (fun a => len a = IdentityLen) (Admins c') /\
  Forall (fun v => 0 < v) [Retention c'; ReplayFirstVisit c'; ReplayMax c'; HistoryMax c'; HistoryCooldown c';
    PostsPerMinute c'; MaxBodyBytes c'; MaxTopicBytes c'; MaxRoomNameBytes c'; MaxRoomsPerPerson c'; InviteTTL c';
    PruneRoomsAfter c'] /\
  validate c' = Some c'.
Proof.
  intros Hv. unfold validate in Hv. set (max := set_pos (MaxRoomNameBytes c) _) in Hv.
  set (roomList := match Rooms c with [] => Rooms Defaults | _ => _ end) in Hv.
  set (groupRoom := if bool_decide (GroupRoom c = "") then _ else _) in Hv.
  destruct (existsb _ (Admins c)) eqn:Hadm; [by destruct (fold_left _ _ _) as [[? ?] ?]|].
  destruct (NormalizeRoom groupRoom max) as [e|g] eqn:Hg; cbn [default] in Hv; [by destruct (fold_left _ _ _) as [[? ?] ?]|].
  rewrite bool_decide_eq_true_2 in Hv by done. cbn [negb orb from_option id] in Hv.
  apply NormalizeRoom_ok in Hg as (Hgr & Hgne & Hgl).
  destruct (fold_left _ roomList _) as [[rs listed] bad] eqn:Hf. cbn [default from_option id] in Hv.
  destruct bad; [done|]. destruct listed; [|by rewrite bool_decide_eq_false_2 in Hv].
  apply validate_rooms_idem in Hf as (out & -> & Hout & Hlen & Hlisted). cbn [app orb] in *.
  assert (0 < max) as Hmax by (by apply set_pos_idem). injection Hv as <-. cbn.
  assert (out <> []) as Hne by (destruct out; [|done]; by destruct (Rooms c)).
  split_and!.
  - symmetry in Hlisted. apply existsb_exists in Hlisted as (r & Hr%list_elem_of_In & Hn%bool_decide_eq_true).
    apply list_elem_of_fmap. by exists r.
  - done.
  - apply Forall_forall. intros a Ha%list_elem_of_In. apply not_true_iff_false in Hadm.
    destruct (Z.eqb_spec (len a) IdentityLen) as [|Hn]; [done|]. destruct Hadm. apply existsb_exists. exists a.
    split; [done|]. by destruct (Z.eqb_spec (len a) IdentityLen).
  - repeat constructor; by apply set_pos_idem.
  - unfold validate. cbn. rewrite Hadm, bool_decide_eq_false_2 by done.
    assert (set_pos max 64 = max) as -> by (by apply set_pos_idem).
    rewrite (NormalizeRoom_run g g) by auto. destruct out as [|o out']; [done|].
    rewrite (validate_rooms_run _ _ _ Hout). cbn [default from_option id app orb]. rewrite <- Hlisted.
    rewrite bool_decide_eq_true_2 by done. cbn [negb orb andb]. f_equal.
    cbn. f_equal; first [by apply set_pos_idem | by repeat case_bool_decide].
Qed.
End names.

(** ** Names people claim *)
Section skeletons.
Context {U : Unicode} {N : Norm} {L : NormLaws N}.

Lemma Skeleton_ascii s : ascii_only s -> skeleton_folded s = cat (map skeleton_rune (bytes s)).
Proof. intros Hs. unfold skeleton_folded. by rewrite NFKD_ascii, runes_ascii. Qed.

Lemma replace2_other a b r x s : x <> a -> replace2 a b r (String x s) = String x (replace2 a b r s).
Proof. intros Hx. destruct s as [|y s]; [done|]. cbn [replace2]. by rewrite bool_decide_eq_false_2 by naive_solver. Qed.
Lemma hex_encode_ascii s : ascii_only (hex_encode s).
Proof.
  assert (forall d, 0 <= d < 16 -> byte (hex_digit d) < 128) as Hd.
  { intros d Hd. unfold hex_digit. destruct (Z.ltb_spec d 10); rewrite byte_chr; lia. }
  induction s as [|c s IH]; [done|]. cbn [hex_encode]. rewrite !ascii_only_cons. pose proof (byte_range c).
  split_and!; [apply Hd..|done]; [split; [apply Z.div_pos; lia|apply Z.div_lt_upper_bound; lia]|apply Z.mod_pos_bound; lia].
Qed.
Lemma substring_ascii s : forall n m, ascii_only s -> ascii_only (substring n m s).
Proof.
  induction s as [|c s IH]; intros n m Hs; [by destruct n, m|]. apply ascii_only_cons in Hs as [Hc Hs].
  destruct n, m; cbn; try done; try (by apply IH). apply ascii_only_cons. split; [done|by apply IH].
Qed.
Lemma guest_skeleton s : ascii_only s -> has_prefix (Skeleton ("guest-" +:+ s)) "guest" = true.
Proof.
  intros Hs. unfold Skeleton.
  assert (ascii_only ("guest-" +:+ s)) as Ha by (do 6 (apply ascii_only_cons; split; [done|]); exact Hs).
  rewrite Skeleton_ascii by done. change (bytes ("guest-" +:+ s)) with (bytes "guest-" ++ bytes s).
  rewrite map_app. unfold cat. generalize (map skeleton_rune (bytes s)) as l. intros l.
  assert (exists x, String.concat "" (map skeleton_rune (bytes "guest-") ++ l) = "guest" +:+ x) as [x ->].
  { change (String.concat "" ?l) with (cat l). cbn [bytes map app]. rewrite !cat_cons. eexists. reflexivity. }
  change ("guest" +:+ x) with (String "g" (String "u" (String "e" (String "s" (String "t" x))))).
  rewrite !replace2_other by done. by destruct (replace2 "v" _ _ _).
Qed.
Lemma GuestName_shape id : exists s, GuestName id = "guest-" +:+ s /\ ascii_only s.
Proof.
  unfold GuestName. destruct (4 <? len _); eexists; (split; [reflexivity|]);
    [apply substring_ascii|]; apply hex_encode_ascii.
Qed.

(** C31. What can be claimed: a name of 2 to 24 letters, digits, '-', '_' and '.',
    in 32 bytes at most, that starts with a letter; one that does not look like a
    reserved word; and one that does not look like the name of anyone who has
    none, whoever they are. *)
Theorem CleanName_sound want n sk : CleanName want = inr (n, sk) ->
  sk = Skeleton n /\ NameMinRunes <= rune_count n <= NameMaxRunes /\ len n <= NameMaxBytes /\
  Forall (fun r => name_char r = true) (runes n) /\
  (exists r rs, runes n = r :: rs /\ isPlainLatinLetter r = true) /\
  (forall w, w ∈ reserved -> sk <> Skeleton w) /\
  (forall id, sk <> Skeleton (GuestName id)).
Proof.
  unfold CleanName. set (m := NFC _). case_bool_decide as Hm; [done|].
  destruct (Z.ltb_spec (rune_count m) NameMinRunes); [done|].
  destruct (Z.ltb_spec NameMaxRunes (rune_count m)), (Z.ltb_spec NameMaxBytes (len m)); try done. cbn [orb].
  destruct (check_name_runes true (runes m)) eqn:Hc; [done|].
  destruct (has_prefix (Skeleton m) "guest") eqn:Hg; [done|].
  destruct (existsb _ reserved) eqn:Hr; [done|]. intros [= <- <-].
  assert (forall first l, check_name_runes first l = None -> Forall (fun r => name_char r = true) l) as Hall.
  { intros first l. revert first. induction l as [|r l IH]; intros first Hl; [constructor|]. cbn in Hl.
    destruct (first && negb (isPlainLatinLetter r)); [done|]. destruct (name_char r) eqn:Hn; cbn in Hl; [|by case_match].
    constructor; eauto. }
  split_and!; [done..|by eapply Hall| | |].
  - destruct (runes m) as [|r rs] eqn:Hrs.
    { unfold runes in Hrs. apply fmap_nil_inv in Hrs. unfold rune_count, NameMinRunes in *. rewrite Hrs in *. cbn in *. lia. }
    exists r, rs. split; [done|]. cbn in Hc. by destruct (isPlainLatinLetter r).
  - intros w Hw He. apply not_true_iff_false in Hr. destruct Hr. apply existsb_exists. exists w.
    rewrite <- list_elem_of_In. by rewrite bool_decide_eq_true_2.
  - intros id He. destruct (GuestName_shape id) as (s & Hs & Ha). rewrite Hs in He.
    pose proof (guest_skeleton s Ha) as Hp. rewrite <- He in Hp. congruence.
Qed.

(** What a name says apart from its case and its separators. *)
Definition strip_char (c : ascii) : string :=
  let b := byte c in if (b =? 45) || (b =? 95) || (b =? 46) then "" else String (ascii_lower c) "".
Fixpoint stripped (s : string) : string :=
  match s with
  | EmptyString => ""
  | String c s' => strip_char c +:+ stripped s'
  end.
Lemma skeleton_rune_strip c : byte c < 128 -> cat (map skeleton_rune (bytes (strip_char c))) = skeleton_rune (byte c).
Proof.
  intros Hc. unfold strip_char. destruct ((byte c =? 45) || (byte c =? 95) || (byte c =? 46)) eqn:Hsep.
  - unfold skeleton_rune, is_mn, rune_lower, ascii_upper_p. destruct (Z.ltb_spec (byte c) 128); [|lia].
    assert (byte c = 45 \/ byte c = 95 \/ byte c = 46) as [Hb|[Hb|Hb]] by lia; by rewrite Hb.
  - cbn [bytes map]. rewrite cat_cons. cbn [cat]. unfold cat. cbn [String.concat]. rewrite str_app_nil.
    unfold skeleton_rune, is_mn, ascii_lower.
    destruct (ascii_upper_p (byte c)) eqn:Hu; [|done]. assert (65 <= byte c <= 90) by (unfold ascii_upper_p in Hu; lia).
    rewrite byte_chr by lia. unfold rune_lower. destruct (Z.ltb_spec (byte c + 32) 128), (Z.ltb_spec (byte c) 128); try lia.
    rewrite Hu. unfold ascii_upper_p. by destruct (Z.leb_spec (byte c + 32) 90); [lia|rewrite andb_false_r].
Qed.
Lemma stripped_ascii s : ascii_only s -> ascii_only (stripped s) /\
  cat (map skeleton_rune (bytes (stripped s))) = cat (map skeleton_rune (bytes s)).
Proof.
  induction s as [|c s IH]; [done|]. rewrite ascii_only_cons. intros [Hc Hs]. destruct (IH Hs) as [Ha He].
  cbn [stripped bytes map]. rewrite cat_cons, <- He, <- skeleton_rune_strip by done. unfold strip_char.
  case_match; [done|]. change (String (ascii_lower c) "" +:+ stripped s) with (String (ascii_lower c) (stripped s)).
  cbn [bytes map]. rewrite !cat_cons. split; [|unfold cat at 2; cbn [String.concat]; by rewrite str_app_nil].
  apply ascii_only_cons. split; [|done]. unfold ascii_lower. destruct (ascii_upper_p (byte c)) eqn:Hu; [|done].
  unfold ascii_upper_p in Hu. rewrite byte_chr; lia.
Qed.

(** Two names of plain letters, digits and separators that differ only in
    case and in where the separators are have the same skeleton, so they are the
    same name and one person holds them. *)
Theorem same_name_case_separators s t : ascii_only s -> ascii_only t -> stripped s = stripped t -> Skeleton s = Skeleton t.
Proof.
  intros Hs Ht He. unfold Skeleton. rewrite !Skeleton_ascii by done.
  destruct (stripped_ascii s Hs) as [_ <-], (stripped_ascii t Ht) as [_ <-]. by rewrite He.
Qed.
End skeletons.

(** * Normal forms

    UTF-8 and Unicode's normal forms: a rune is what it is encoded as, and what
    CleanName gives is clean and has a skeleton. *)
(** ** Runes *)
Definition rune_ok (r : Z) : Prop := 0 <= r <= 1114111 /\ ~ (55296 <= r < 57344).
Lemma decode_rune_ok s : rune_ok (decode_rune s).1.
Proof.
  assert (rune_ok rune_error) by (unfold rune_ok, rune_error; lia).
  assert (forall c, 0 <= byte c < 256) as Hb by (apply byte_range).
  unfold decode_rune. destruct s as [|c [|c1 [|c2 [|c3 s]]]]; cbn [substring bytes]; rewrite ?substring_0; cbn [bytes].
  all: repeat (match goal with |- context [byte ?c] => pose proof (Hb c); generalize dependent (byte c); intros end).
  all: repeat (match goal with |- context [?b =? 224] => destruct (Z.eqb_spec b 224) | |- context [?b =? 237] => destruct (Z.eqb_spec b 237)
    | |- context [?b =? 240] => destruct (Z.eqb_spec b 240) | |- context [?b =? 244] => destruct (Z.eqb_spec b 244) end; try lia).
  all: repeat (case_match; try done; cbn [fst]); unfold rune_ok, cont in *; try lia; exact H.
Qed.
(** [euclid] decides bounds on quotients and remainders. *)
Ltac euclid := Z.to_euclidean_division_equations; lia.
Lemma decode_encode r : rune_ok r -> decode_rune (encode_rune r) = (r, String.length (encode_rune r)).
Proof.
  intros [Hr Hs]. unfold encode_rune. replace ((r <? 0) || _ || _) with false by (symmetry; lia). cbv iota beta zeta.
  assert (forall b, 0 <= b < 256 -> byte (chr b) = b) as Hb by apply byte_chr.
  destruct (Z.ltb_spec r 128); [|destruct (Z.ltb_spec r 2048); [|destruct (Z.ltb_spec r 65536)]];
    unfold decode_rune; cbn [of_bytes substring bytes String.length];
    rewrite !Hb by euclid.
  - by destruct (Z.ltb_spec r 128); [|lia].
  - replace (192 + r / 64 <? 128) with false by (symmetry; euclid).
    replace ((194 <=? 192 + r / 64) && (192 + r / 64 <? 224)) with true by (symmetry; euclid).
    unfold cont. replace ((128 <=? 128 + r mod 64) && _) with true by (symmetry; euclid).
    f_equal. euclid.
  - replace (224 + r / 4096 <? 128) with false by (symmetry; euclid).
    replace ((194 <=? 224 + r / 4096) && _) with false by (symmetry; euclid).
    replace ((224 <=? 224 + r / 4096) && _) with true by (symmetry; euclid).
    unfold cont. cbv zeta.
    destruct (Z.eqb_spec (224 + r / 4096) 224), (Z.eqb_spec (224 + r / 4096) 237);
    (match goal with |- (if ?b then _ else _) = _ => replace b with true by (symmetry; rewrite !andb_true_iff, !Z.leb_le, !Z.ltb_lt; euclid) end);
    f_equal; euclid.
  - replace (240 + r / 262144 <? 128) with false by (symmetry; euclid).
    replace ((194 <=? 240 + r / 262144) && _) with false by (symmetry; euclid).
    replace ((224 <=? 240 + r / 262144) && _) with false by (symmetry; euclid).
    replace ((240 <=? 240 + r / 262144) && _) with true by (symmetry; euclid).
    unfold cont. cbv zeta.
    destruct (Z.eqb_spec (240 + r / 262144) 240), (Z.eqb_spec (240 + r / 262144) 244);
    (match goal with |- (if ?b then _ else _) = _ => replace b with true by (symmetry; rewrite !andb_true_iff, !Z.leb_le, !Z.ltb_lt; euclid) end);
    f_equal; euclid.
Qed.

(** ** A clean name is clean *)
Section again.
Context {U : Unicode} {N : Norm}.
(** What golang.org/x/text/unicode/norm promises of normal forms: NFC is
    normal, NFKD is each rune's decomposition, in the canonical order, white
    space decomposes into white space, and an eszett not at all, a small letter. *)
Class NormalForms : Prop := {
  NFC_idem : forall s, NFC (NFC s) = NFC s;
  NFKD_in : forall s r d, r ∈ runes s -> d ∈ runes (NFKD (encode_rune r)) -> d ∈ runes (NFKD s);
  NFKD_space : forall r, is_space r = true -> Forall (fun d => is_space d = true) (runes (NFKD (encode_rune r)));
  NFKD_eszett : eszett ∈ runes (NFKD (encode_rune eszett));
  eszett_letter : uni_mn eszett = false /\ uni_lower eszett = eszett
}.
Context {F : NormalForms}.

Lemma plain_base_in l : forall found b, plain_base found l = Some (Some b) -> found = Some b \/ b ∈ l.
Proof.
  induction l as [|d l IH]; intros found b; cbn; [intros [= ->]; auto|].
  destruct (is_mn d); [intros [?|?]%IH; set_solver|]. destruct found; [done|]. intros [[= ->]|?]%IH; set_solver.
Qed.
Lemma name_char_no_space r : name_char r = true -> is_space r = false.
Proof.
  intros Hn. apply not_true_iff_false. intros Hs. unfold name_char, isPlainLatinLetter, ascii_digit_p in Hn.
  assert (r = eszett -> False) by (intros ->; by vm_compute in Hs).
  destruct (Z.eqb_spec r eszett); [done|].
  destruct (plain_base None _) as [[b|]|] eqn:Hb; [|unfold is_space in Hs; lia..].
  apply plain_base_in in Hb as [[=]|Hb]. eapply Forall_forall in Hb; [|by apply NFKD_space]. cbn in Hb.
  unfold ascii_letter, ascii_lower_p, ascii_upper_p, is_space in *. lia.
Qed.
Lemma trim_space_none s : Forall (fun r => is_space r = false) (runes s) -> trim_space s = s.
Proof.
  intros Hs. assert (Forall (fun p => space_seg p = false) (segs s)) as Hf by (by apply Forall_fmap in Hs).
  unfold trim_space, drop_while_end. rewrite (drop_while_false _ _ Hf), drop_while_false, rev_involutive by (by apply Forall_rev).
  apply of_segs_segs.
Qed.
(** What [CleanName] gives it takes as it is. *)
Lemma CleanName_again want n sk : CleanName want = inr (n, sk) -> CleanName n = inr (n, sk).
Proof.
  intros H. assert (NFC (trim_space n) = n) as Hn; [|revert H; unfold CleanName at 2; rewrite Hn].
  - revert H. unfold CleanName. set (m := NFC _). intros H. assert (m = n) as <- by (repeat case_match; by simplify_eq).
    assert (check_name_runes true (runes m) = None) as Hc by (repeat case_match; by simplify_eq).
    rewrite trim_space_none; [apply NFC_idem|]. clear H. revert Hc. generalize true, (runes m). intros first l. revert first.
    induction l as [|r l IH]; intros first Hc; [constructor|]. cbn in Hc. destruct (first && _); [done|].
    destruct (name_char r) eqn:Hr; cbn in Hc; [|by case_match]. constructor; [by apply name_char_no_space|eauto].
  - unfold CleanName. set (m := NFC (trim_space want)). intros H.
    assert (m = n) as <- by (repeat case_match; by simplify_eq). exact H.
Qed.
Lemma SuggestName_clean raw : SuggestName raw <> "" -> exists sk, CleanName (SuggestName raw) = inr (SuggestName raw, sk).
Proof.
  unfold SuggestName. destruct (CleanName (trim_right _ _)) as [|[n sk]] eqn:E; [done|]. intros _. exists sk. by eapply CleanName_again.
Qed.

(** ** A clean name has a skeleton *)
Lemma replace2_nonempty a b c s : s <> "" -> replace2 a b (String c "") s <> "".
Proof. destruct s as [|x [|y s]]; cbn; try done. by case_bool_decide. Qed.
Lemma cat_in x l : x ∈ l -> x <> "" -> cat l <> "".
Proof.
  intros Hx Hne. induction l as [|y l IH]; [by apply not_elem_of_nil in Hx|]. rewrite cat_cons.
  apply elem_of_cons in Hx as [->|Hx]; [by destruct y|]. destruct y; [by apply IH|done].
Qed.
Lemma skeleton_rune_letter b : ascii_letter b = true \/ b = eszett -> skeleton_rune b <> "".
Proof.
  intros Hb. assert (forall r, encode_rune r <> "") as He by (intros r; unfold encode_rune; repeat case_match; done).
  unfold skeleton_rune, is_mn, rune_lower. destruct Hb as [Hb| ->].
  - unfold ascii_letter, ascii_lower_p, ascii_upper_p in *. destruct (Z.ltb_spec b 128); [|lia]. cbv zeta.
    destruct ((65 <=? b) && (b <=? 90)) eqn:Hu; (case_match; [lia|]); repeat (case_match; try done); apply He.
  - destruct eszett_letter as [Hm Hl]. change (eszett <? 128) with false. cbv iota. rewrite Hm, Hl. done.
Qed.
Lemma CleanName_skeleton want n sk : CleanName want = inr (n, sk) -> n <> "" /\ sk <> "".
Proof.
  intros H. assert (n <> "" /\ sk = Skeleton n /\ check_name_runes true (runes n) = None) as (Hn & -> & Hc).
  { revert H. unfold CleanName. set (m := NFC _). intros H. repeat (case_match; simplify_eq). split_and!; [|done..]. by case_bool_decide. }
  split; [done|]. assert (exists b, b ∈ runes (NFKD n) /\ (ascii_letter b = true \/ b = eszett)) as (b & Hb & Hl).
  { destruct (runes n) as [|r rs] eqn:Hr.
    { destruct n as [|c n]; [done|]. unfold runes, segs in Hr. cbn [segs_from] in Hr. by destruct (decode_rune _). }
    cbn in Hc. destruct (isPlainLatinLetter r) eqn:Hp; [|done]. unfold isPlainLatinLetter in Hp.
    assert (r ∈ runes n) as Hin by (rewrite Hr; constructor). destruct (Z.eqb_spec r eszett) as [->|].
    - exists eszett. split; [|by right]. eapply NFKD_in; [done|]. apply NFKD_eszett.
    - destruct (plain_base None _) as [[b|]|] eqn:Hb; [|done..]. apply plain_base_in in Hb as [[=]|Hb].
      exists b. split; [|by left]. by eapply NFKD_in. }
  unfold Skeleton, skeleton_folded. do 2 apply replace2_nonempty.
  eapply cat_in; [|by apply (skeleton_rune_letter b)]. apply list_elem_of_fmap. eauto.
Qed.
End again.

(** ASCII alone has normal forms. *)
Lemma runes_encode r : rune_ok r -> runes (encode_rune r) = [r].
Proof.
  intros Hr. pose proof (decode_encode r Hr) as Hd. unfold runes, segs. destruct (encode_rune r) as [|c s] eqn:He.
  { exfalso. revert He. unfold encode_rune. by repeat case_match. }
  cbn [segs_from]. rewrite Hd. cbn [fmap list_fmap fst String.length]. rewrite segs_from_drop.
  assert (str_drop (S (String.length s) - 1) s = "") as ->; [|done].
  pose proof (length_str_drop (S (String.length s) - 1) s) as Hl. destruct (str_drop _ s); [done|cbn in Hl; lia].
Qed.
Lemma runes_ok s : Forall rune_ok (runes s).
Proof.
  unfold runes, segs. generalize 0%nat. induction s as [|c s IH]; intros k; [constructor|]. cbn [segs_from]. destruct k; [|apply IH].
  pose proof (decode_rune_ok (String c s)) as Hd. destruct (decode_rune (String c s)) as [r n]. by constructor; [|apply IH].
Qed.
#[export] Instance ascii_normal_forms : NormalForms (U:=ascii_unicode) (N:=ascii_norm).
Proof.
  assert (forall r, is_space r = true -> rune_ok r) as Hs by (intros r; unfold is_space, rune_ok; lia).
  constructor.
  - done.
  - change (@NFKD ascii_norm) with (fun s : string => s). cbv beta. intros s r d Hr. pose proof (runes_ok s) as Ho. rewrite Forall_forall in Ho. rewrite runes_encode by auto.
    by intros ->%list_elem_of_singleton.
  - change (@NFKD ascii_norm) with (fun s : string => s). cbv beta. intros r Hr. rewrite runes_encode by auto. by constructor.
  - change (@NFKD ascii_norm) with (fun s : string => s). cbv beta. rewrite runes_encode by (unfold rune_ok, eszett; lia). constructor.
  - done.
Qed.
