(* ===== verification/GoStd.v ===== *)
(** What the command line, the configuration and the importer use of Go's standard
    library: float64, time.ParseDuration, strconv, net.SplitHostPort,
    path/filepath on Unix, and net/url's query strings. *)
From Stdlib Require Import SpecFloat.
From S2P Require Import Prelude Text TextCut HubCore.
Local Open Scope Z_scope.

(** ** float64 *)
Definition int64_min : Z := - 2 ^ 63.
Definition float64 : Type := spec_float.
Definition float_of (z : Z) : float64 := binary_normalize 53 1024 z 0 false.
Definition float_mul (x y : float64) : float64 := SFmul 53 1024 x y.
Definition float_div (x y : float64) : float64 := SFdiv 53 1024 x y.
(** As an int64: towards zero; what it is out of the range Go leaves to the
    implementation, and on amd64 it is the least. *)
Definition float_to_int64 (x : float64) : Z :=
  match x with
  | S754_zero _ => 0
  | S754_finite neg m e =>
    let v := if 0 <=? e then Z.pos m * 2 ^ e else Z.pos m / 2 ^ (- e) in
    let z := if neg then - v else v in
    if (int64_min <=? z) && (z <=? int_max) then z else int64_min
  | _ => int64_min
  end.
(** A uint64 as an int64. *)
Definition to_int64 (n : Z) : Z := (n + 2 ^ 63) mod 2 ^ 64 - 2 ^ 63.

(** ** [time.ParseDuration] *)
(** Package time's own quoting: byte by byte. *)
Definition time_quote_byte (c : ascii) : string :=
  let b := byte c in
  if (128 <=? b) || (b <? 32) then backslash +:+ "x" +:+ hex2 b
  else if (b =? 34) || (b =? 92) then backslash +:+ String c ""
  else String c "".
Fixpoint time_quote_from (s : string) : string :=
  match s with
  | EmptyString => ""
  | String c s' => time_quote_byte c +:+ time_quote_from s'
  end.
Definition time_quote (s : string) : string := cat [dquote; time_quote_from s; dquote].

Definition two63 : Z := 2 ^ 63.
Definition two64 : Z := 2 ^ 64.
(** [leadingInt]: [None] if it does not fit. *)
Fixpoint leadingInt (x : Z) (s : string) : option (Z * string) :=
  match s with
  | String c s' =>
    if ascii_digit_p (byte c) then
      if two63 / 10 <? x then None else
      let x := 10 * x + (byte c - 48) in
      if two63 <? x then None else leadingInt x s'
    else Some (x, s)
  | EmptyString => Some (x, s)
  end.
(** [leadingFraction]: the digits that fit, and what they are to be divided by. *)
Fixpoint leadingFraction (x scale : Z) (overflow : bool) (s : string) : Z * Z * string :=
  match s with
  | String c s' =>
    if ascii_digit_p (byte c) then
      if overflow then leadingFraction x scale true s' else
      if (two63 - 1) / 10 <? x then leadingFraction x scale true s' else
      let y := 10 * x + (byte c - 48) in
      if two63 <? y then leadingFraction x scale true s' else leadingFraction y (10 * scale) false s'
    else (x, scale, s)
  | EmptyString => (x, scale, s)
  end.
(** The unit: up to the next digit or point. *)
Fixpoint span_unit (s : string) : string * string :=
  match s with
  | String c s' =>
    if ascii_digit_p (byte c) || (byte c =? 46) then ("", s) else let '(u, r) := span_unit s' in (String c u, r)
  | EmptyString => ("", "")
  end.
Definition micro_sign : string := of_bytes [194; 181; 115].
Definition mu_sign : string := of_bytes [206; 188; 115].
Definition unitMap (u : string) : option Z :=
  if bool_decide (u = "ns") then Some 1
  else if bool_decide (u = "us") || bool_decide (u = micro_sign) || bool_decide (u = mu_sign) then Some 1000
  else if bool_decide (u = "ms") then Some Millisecond
  else if bool_decide (u = "s") then Some Second
  else if bool_decide (u = "m") then Some Minute
  else if bool_decide (u = "h") then Some Hour
  else None.
Definition digit_or_point (s : string) : bool :=
  match s with String c _ => ascii_digit_p (byte c) || (byte c =? 46) | EmptyString => false end.
(** One number and its unit: what they come to, as a uint64, and the rest. *)
Definition parse_term (orig s : string) : string + (Z * string) :=
  let invalid := "time: invalid duration " +:+ time_quote orig in
  if negb (digit_or_point s) then inl invalid else
  match leadingInt 0 s with
  | None => inl invalid
  | Some (v, s1) =>
    let pre := negb (bool_decide (s1 = s)) in
    let '(f, scale, s2, post) :=
      match s1 with
      | String "." r => let '(f, scale, r') := leadingFraction 0 1 false r in (f, scale, r', negb (bool_decide (r' = r)))
      | _ => (0, 1, s1, false)
      end in
    if negb pre && negb post then inl invalid else
    let '(u, rest) := span_unit s2 in
    if bool_decide (u = "") then inl (cat ["time: missing unit in duration "; time_quote orig]) else
    match unitMap u with
    | None => inl (cat ["time: unknown unit "; time_quote u; " in duration "; time_quote orig])
    | Some unit_ =>
      if two63 / unit_ <? v then inl invalid else
      let v := v * unit_ in
      let v := if 0 <? f then v + float_to_int64 (float_mul (float_of f) (float_div (float_of unit_) (float_of scale))) else v in
      if (0 <? f) && (two63 <? v) then inl invalid else inr (v, rest)
    end
  end.
(** The terms one after another; each takes a byte at least, so that the length
    of the text is enough [fuel]. *)
Fixpoint parse_terms (fuel : nat) (orig : string) (d : Z) (s : string) : string + Z :=
  if bool_decide (s = "") then inr d else
  match fuel with
  | O => inr d
  | S fuel =>
    match parse_term orig s with
    | inl e => inl e
    | inr (v, s) =>
      let d := (d + v) mod two64 in
      if two63 <? d then inl ("time: invalid duration " +:+ time_quote orig) else parse_terms fuel orig d s
    end
  end.
Definition ParseDuration (s : string) : string + Z :=
  let '(neg, r) := match s with String "-" r => (true, r) | String "+" r => (false, r) | _ => (false, s) end in
  if bool_decide (r = "0") then inr 0
  else if bool_decide (r = "") then inl ("time: invalid duration " +:+ time_quote s)
  else match parse_terms (String.length r) s 0 r with
       | inl e => inl e
       | inr d =>
         if neg then inr (to_int64 (- d))
         else if two63 - 1 <? d then inl ("time: invalid duration " +:+ time_quote s)
         else inr d
       end.
Example durations : map ParseDuration ["168h"; "1h30m"; "1.5h"; "-2s"; ".5s"; "0"] =
  [inr (168 * Hour); inr (90 * Minute); inr (90 * Minute); inr (-2 * Second); inr (500 * Millisecond); inr 0].
Proof. vm_compute. reflexivity. Qed.
Example durations_refused : map (fun s => match ParseDuration s with inl _ => true | inr _ => false end)
  ["30"; "m"; "1x"; ""; "."; "9223372036854775808ns"; "3000000h"] = [true; true; true; true; true; true; true].
Proof. vm_compute. reflexivity. Qed.

(** ** strconv *)
Definition ParseBool (s : string) : option bool :=
  if existsb (fun t => bool_decide (s = t)) ["1"; "t"; "T"; "true"; "TRUE"; "True"] then Some true
  else if existsb (fun t => bool_decide (s = t)) ["0"; "f"; "F"; "false"; "FALSE"; "False"] then Some false
  else None.
Section strconv.
Context {U : Unicode}.
Definition num_error (fn s why : string) : string := cat ["strconv."; fn; ": parsing "; quote s; ": "; why].
(** [Atoi]'s error: a sign and digits that do not fit, or something else. *)
Definition atoi_error (s : string) : string :=
  let d := match s with String "-" d | String "+" d => d | _ => s end in
  num_error "Atoi" s (match digits_value 0 d with
                      | Some _ => if bool_decide (d = "") then "invalid syntax" else "value out of range"
                      | None => "invalid syntax"
                      end).
End strconv.

(** [strings.Cut] at a byte. *)
Definition cut_at_byte (s : string) (c : ascii) : option (string * string) :=
  match index_byte s c with Some i => Some (str_take i s, str_drop (S i) s) | None => None end.

(** ** [net.SplitHostPort] *)
Definition has_byte (c : ascii) (s : string) : bool := bool_decide (is_Some (index_byte s c)).
Definition addr_error (hostport why : string) : string := cat ["address "; hostport; ": "; why].
Definition missing_port : string := "missing port in address".
Definition too_many_colons : string := "too many colons in address".
Definition split_brackets (hostport : string) (host : string) (j k i : nat) : string + (string * string) :=
  if has_byte "[" (str_drop j hostport) then inl (addr_error hostport "unexpected '[' in address")
  else if has_byte "]" (str_drop k hostport) then inl (addr_error hostport "unexpected ']' in address")
  else inr (host, str_drop (S i) hostport).
Definition SplitHostPort (hostport : string) : string + (string * string) :=
  match last_index hostport ":" with
  | None => inl (addr_error hostport missing_port)
  | Some i =>
    if has_prefix hostport "[" then
      match index_byte hostport "]" with
      | None => inl (addr_error hostport "missing ']' in address")
      | Some e =>
        if (S e =? String.length hostport)%nat then inl (addr_error hostport missing_port)
        else if (S e =? i)%nat then split_brackets hostport (str_take (e - 1) (str_drop 1 hostport)) 1 (S e) i
        else if bool_decide (String.get (S e) hostport = Some ":"%char) then inl (addr_error hostport too_many_colons)
        else inl (addr_error hostport missing_port)
      end
    else
      let host := str_take i hostport in
      if has_byte ":" host then inl (addr_error hostport too_many_colons) else split_brackets hostport host 0 0 i
  end.
Example host_ports : map SplitHostPort ["rns.example.net:4242"; "[fe80::1]:4242"; ":4242"] =
  [inr ("rns.example.net", "4242"); inr ("fe80::1", "4242"); inr ("", "4242")].
Proof. vm_compute. reflexivity. Qed.
Example host_ports_refused : map (fun s => match SplitHostPort s with inl _ => true | inr _ => false end)
  ["rns.example.net"; "fe80::1:4242"; "[fe80::1]"; "[fe80::1]4242:1"; "a[b:1"; ""] = [true; true; true; true; true; true].
Proof. vm_compute. reflexivity. Qed.

(** ** path/filepath *)
Definition IsAbs (p : string) : bool := has_prefix p "/".
(** [Clean]: the elements without those that say nothing; [..] takes the one
    before it away, and at the root nothing. *)
Fixpoint clean_elems (rooted : bool) (acc : list string) (l : list string) : list string :=
  match l with
  | [] => rev acc
  | e :: l =>
    if bool_decide (e = "") || bool_decide (e = ".") then clean_elems rooted acc l
    else if bool_decide (e = "..") then
      match acc with
      | x :: acc' => if bool_decide (x = "..") then clean_elems rooted (e :: acc) l else clean_elems rooted acc' l
      | [] => if rooted then clean_elems rooted [] l else clean_elems rooted [e] l
      end
    else clean_elems rooted (e :: acc) l
  end.
Definition Clean (p : string) : string :=
  let rooted := IsAbs p in
  let body := strings_Join "/" (clean_elems rooted [] (split "/" p)) in
  if rooted then "/" +:+ body else if bool_decide (body = "") then "." else body.
Definition Join (a b : string) : string :=
  if bool_decide (a = "") then (if bool_decide (b = "") then "" else Clean b) else Clean (cat [a; "/"; b]).
Definition Dir (p : string) : string := Clean (match last_index p "/" with Some i => str_take (S i) p | None => "" end).
Example paths : (Join "/data" "identities/group", Join "/data/" "../x", Join "" "x", Clean "/../a/./b//c/..", Dir "/data/hub.db", Dir "hub.db") =
  ("/data/identities/group", "/x", "x", "/a/b", "/data", ".").
Proof. vm_compute. reflexivity. Qed.

(** ** [url.QueryEscape] *)
Definition upper_hex_digit (d : Z) : ascii := if d <? 10 then chr (48 + d) else chr (55 + d).
Definition query_byte (c : ascii) : string :=
  let b := byte c in
  if ascii_lower_p b || ascii_upper_p b || ascii_digit_p b || (b =? 45) || (b =? 95) || (b =? 46) || (b =? 126) then String c ""
  else if b =? 32 then "+"
  else String "%" (String (upper_hex_digit (b / 16)) (String (upper_hex_digit (b mod 16)) "")).
Fixpoint QueryEscape (s : string) : string :=
  match s with
  | EmptyString => ""
  | String c s' => query_byte c +:+ QueryEscape s'
  end.
