(* ===== verification/Adapters.v ===== *)
(** What the adapters ask of the hub: the interfaces [Hub] of
    internal/lxmfgroup/group.go, internal/rrcsrv/server.go and
    internal/nomadpage/page.go as classes, over any type of hubs, and the hub of
    this development as their instance. *)
From S2P Require Import Prelude Text Db StorePeople StoreRooms StoreMessages StoreGroup Names HubCore Clock Sha256 Ranks.
From S2P Require Import People Rooms Post Commands CmdPeople CmdRooms Moderation Links Whispers Profile Dispatch Maintain.
Local Open Scope Z_scope.

(** lxmfgroup.Hub. *)
Class GroupHub (S : Type) := {
  gh_PersonOf : ident -> S -> res Person;
  gh_Identify : ident -> option string -> S -> res Person * S;
  gh_Post : PostRequest -> S -> res PostResult * S;
  gh_Command : CommandRequest -> S -> res Reply * S;
  gh_Recent : string -> Z -> Z -> S -> res (list Message);
  gh_DueDeliveries : Z -> S -> res (list PendingDelivery);
  gh_RecordDelivery : Delivery -> DeliveryOutcome -> bool -> Z -> option Z -> S -> res unit * S
}.
#[export] Instance hub_group {E : Env} : GroupHub Hub := {|
  gh_PersonOf := PersonOf; gh_Identify := Identify; gh_Post := Post; gh_Command := Command;
  gh_Recent := Recent; gh_DueDeliveries := DueDeliveries; gh_RecordDelivery := RecordDelivery
|}.

(** rrcsrv.Hub. *)
Class RrcHub (S : Type) := {
  rh_Identify : ident -> option string -> S -> res Person * S;
  rh_PersonOf : ident -> S -> res Person;
  rh_ClaimName : ident -> string -> S -> res Person * S;
  rh_Join : JoinRequest -> S -> res JoinResult * S;
  rh_Part : ident -> string -> S -> res string * S;
  rh_Disconnect : ident -> list string -> S -> res unit * S;
  rh_Post : PostRequest -> S -> res PostResult * S;
  rh_Command : CommandRequest -> S -> res Reply * S;
  rh_MayNotice : ident -> string -> S -> res unit * S;
  rh_MayNotifyDirect : ident -> ident -> S -> res unit * S;
  rh_UnsentRRCWhispers : ident -> S -> res (list Whisper);
  rh_WhisperSentRRC : Z -> S -> res unit * S
}.
#[export] Instance hub_rrc {E : Env} : RrcHub Hub := {|
  rh_Identify := Identify; rh_PersonOf := PersonOf; rh_ClaimName := ClaimName; rh_Join := Join; rh_Part := Part;
  rh_Disconnect := Disconnect; rh_Post := Post; rh_Command := Command; rh_MayNotice := MayNotice;
  rh_MayNotifyDirect := MayNotifyDirect; rh_UnsentRRCWhispers := UnsentRRCWhispers; rh_WhisperSentRRC := WhisperSentRRC
|}.

(** nomadpage.Hub. *)
Class PageHub (S : Type) := {
  nh_Identify : ident -> option string -> S -> res Person * S;
  nh_PersonOf : ident -> S -> res Person;
  nh_ClaimName : ident -> string -> S -> res Person * S;
  nh_Forget : ident -> S -> res Person * S;
  nh_LeaveGroup : ident -> S -> res bool * S;
  nh_Command : CommandRequest -> S -> res Reply * S;
  nh_LinkedApps : ident -> S -> res LinkedApps;
  nh_SetPrefs : ident -> (Prefs -> Prefs) -> S -> res Person * S;
  nh_Whispers : ident -> Z -> S -> res WhisperInbox * S;
  nh_SetLXMFMode : ident -> LXMFMode -> S -> res Person * S;
  nh_SetLXMFMine : ident -> bool -> S -> res Person * S;
  nh_Post : PostRequest -> S -> res PostResult * S;
  nh_Recent : string -> Z -> Z -> S -> res (list Message);
  nh_Members : string -> S -> res (list Member);
  nh_Room : string -> S -> res (option Room);
  nh_MarkRead : ident -> string -> Via -> Z -> S -> res unit * S;
  nh_ReadCursor : ident -> string -> Via -> S -> res (option Cursor);
  nh_DeleteMessage : ident -> Z -> S -> res Reply * S;
  nh_ProfileOf : ident -> S -> res Profile;
  nh_Permissions : ident -> ident -> S -> res (list (Action * bool))
}.
#[export] Instance hub_page {E : Env} : PageHub Hub := {|
  nh_Identify := Identify; nh_PersonOf := PersonOf; nh_ClaimName := ClaimName; nh_Forget := Forget; nh_LeaveGroup := LeaveGroup;
  nh_Command := Command; nh_LinkedApps := LinkedAppsOf; nh_SetPrefs := SetPrefs; nh_Whispers := WhispersOf;
  nh_SetLXMFMode := SetLXMFMode; nh_SetLXMFMine := SetLXMFMine; nh_Post := Post; nh_Recent := Recent; nh_Members := Members;
  nh_Room := RoomInfo; nh_MarkRead := MarkRead; nh_ReadCursor := ReadCursor; nh_DeleteMessage := DeleteMessage;
  nh_ProfileOf := ProfileOf; nh_Permissions := Permissions
|}.

(** third_party/reticulum-go/rns. *)
Definition PublicKeyLen : Z := 64.
Definition IdentityHashFromPublicKey (pub : string) : ident :=
  if negb (len pub =? PublicKeyLen) then "" else str_take 16 (Sum256 pub).
