(* ===== verification/LxmfSplit.v ===== *)
(** internal/lxmfgroup/split.go: cutting a text into parts that fit a packet.
    The definitions follow the file; then what [Split] promises. *)
From S2P Require Import Prelude Text TextCut HubCore Clock Ranks People Rooms Post Commands.
Local Open Scope Z_scope.

(** ** The code *)
Definition MaxContent : Z := OnePacketText.
Definition partMarkWidth : Z := len "(99/99) ".
Definition maxParts : nat := 99.
(** "…" *)
Definition ellipsis : string := of_bytes [226; 128; 166].

Definition truncate (s : string) (max : Z) : string :=
  if len s <=? max then s
  else
    let i := max - len ellipsis in
    if i <? 0 then str_take 0 s
    else str_take (rune_floor s (Z.to_nat i)) s +:+ ellipsis.

(** The cutset of both trims. *)
Definition cut_space : string := of_bytes [32; 10].
Fixpoint cut_at (seps : list string) (window s : string) : option (string * string) :=
  match seps with
  | [] => None
  | sep :: seps' =>
    match last_index window sep with
    | Some (S i' as i) =>
      let chunk := trim_right_ascii cut_space (str_take i s) in
      if bool_decide (chunk = "") then cut_at seps' window s
      else Some (chunk, trim_left_ascii cut_space (str_drop (i + String.length sep) s))
    | _ => cut_at seps' window s
    end
  end.
Definition cut (s : string) (room : nat) : string * string :=
  if (String.length s <=? room)%nat then (s, "") else
  let window := str_take (room + 1) s in
  match cut_at [newline +:+ newline; newline; " "] window s with
  | Some r => r
  | None =>
    let i := match rune_floor s room with O => room | i => i end in
    (str_take i s, str_drop i s)
  end.

(** The loop of [Split], from a number of chunks already cut; it goes round
    [maxParts] times at most. *)
Fixpoint split_loop (fuel cut_so_far room : nat) (rest : string) : option (list string) :=
  if bool_decide (rest = "") then Some [] else
  match fuel with
  | O => None
  | S fuel' =>
    if (cut_so_far =? maxParts - 1)%nat && (room <? String.length rest)%nat
    then Some [truncate rest (Z.of_nat room)]
    else let '(chunk, next) := cut rest room in cons chunk <$> split_loop fuel' (S cut_so_far) room next
  end.
Definition mark_part (n i : Z) (c : string) : string := cat ["("; itoa i; "/"; itoa n; ") "; c].
Definition mark_parts (chunks : list string) : list string :=
  imap (fun i c => mark_part (Z.of_nat (length chunks)) (Z.of_nat i + 1) c) chunks.
Definition Split (text : string) (max : Z) : option (list string) :=
  if len text <=? max then Some [text] else
  let room := max - partMarkWidth in
  if room <? 8 then Some [truncate text max] else
  chunks ← split_loop maxParts 0 (Z.to_nat room) text;
  Some (match chunks with
        | [_] => chunks
        | _ => mark_parts chunks
        end).

Example Split_two : Split "hello, this is a longer text than fits" 30 = Some ["(1/2) hello, this is a"; "(2/2) longer text than fits"].
Proof. vm_compute. reflexivity. Qed.

(** ** What a cut does *)
Record cut_ok (s : string) (room : nat) (chunk next : string) : Prop := {
  co_len : (String.length chunk <= room)%nat;
  co_next : next = "" \/ (String.length next < String.length s)%nat;
  co_text : squeeze cut_space chunk +:+ squeeze cut_space next = squeeze cut_space s;
  co_valid : valid_string s = true -> valid_string chunk = true /\ valid_string next = true
}.
Lemma cut_space_ascii : ascii_cutset cut_space.
Proof. repeat constructor. Qed.
Lemma cut_at_ok seps s room chunk next :
  Forall (fun sep => squeeze cut_space sep = "" /\ valid_string sep = true /\
    exists c, String.get 0 sep = Some c /\ rune_start c = true) seps ->
  cut_at seps (str_take (room + 1) s) s = Some (chunk, next) -> cut_ok s room chunk next.
Proof.
  induction 1 as [|sep seps (Hsq & Hv & c & Hg & Hst) _ IH]; cbn [cut_at]; [done|].
  destruct (last_index _ sep) as [[|i']|] eqn:Hi; [done| |done]. remember (S i') as i eqn:Hi'.
  case_bool_decide as Hc; [done|]. intros [= <- <-].
  apply window_sep in Hi as (t & Hs & Ht & Hl). rewrite Ht. assert (0 < String.length sep)%nat by (destruct sep; [done|cbn; lia]).
  pose proof (trim_right_length cut_space (str_take i s)) as Hr. rewrite length_str_take in Hr.
  pose proof (f_equal String.length Hs) as Hlen. rewrite !length_str_app, length_str_take in Hlen. constructor.
  - lia.
  - right. pose proof (trim_left_length cut_space t). lia.
  - rewrite squeeze_trim_left, squeeze_trim_right. rewrite Hs at 2. rewrite !squeeze_app, Hsq. done.
  - intros Hvs. assert (boundary s i) as Hb.
    { right. right. exists c. split; [|done]. rewrite Hs. replace i with (String.length (str_take i s) + 0)%nat at 1
        by (rewrite length_str_take; lia). by rewrite get_app_r, get_app_l. }
    destruct (valid_cut s i Hvs Hb) as [H1 H2]. split; [by apply trim_right_valid; [apply cut_space_ascii|]|].
    apply trim_left_valid; [apply cut_space_ascii|]. rewrite <- Ht. rewrite <- (valid_app sep) by done.
    pose proof (f_equal (str_drop i) Hs) as Hd. rewrite str_drop_app_ge in Hd by (rewrite length_str_take; lia).
    rewrite length_str_take in Hd. replace (i - _)%nat with O in Hd by lia. rewrite str_drop_0 in Hd. rewrite Ht, <- Hd. done.
Qed.
Lemma cut_is_ok s room : (8 <= room)%nat -> cut_ok s room (cut s room).1 (cut s room).2.
Proof.
  intros Hroom. unfold cut. destruct (Nat.leb_spec (String.length s) room) as [Hl|Hl].
  { constructor; cbn; [done|by left|apply str_app_nil|done]. }
  destruct (cut_at _ _ s) as [[chunk next]|] eqn:Hc.
  { eapply cut_at_ok; [|exact Hc]. repeat constructor; by eexists. }
  pose proof (rune_floor_le s room) as Hle. destruct (rune_floor s room) as [|i'] eqn:Hf; cbn [fst snd].
  - constructor.
    + rewrite length_str_take. lia.
    + right. rewrite length_str_drop. lia.
    + by rewrite <- squeeze_app, take_drop.
    + intros Hv. pose proof (rune_floor_near s room Hv Hl). lia.
  - constructor.
    + rewrite length_str_take. lia.
    + right. rewrite length_str_drop. lia.
    + by rewrite <- squeeze_app, take_drop.
    + intros Hv. apply valid_cut; [done|]. rewrite <- Hf. apply rune_floor_boundary.
Qed.
Lemma truncate_ok s room : (3 <= room)%nat -> (room < String.length s)%nat ->
  exists kept tail, truncate s (Z.of_nat room) = kept +:+ ellipsis /\ s = kept +:+ tail /\
    (String.length (kept +:+ ellipsis) <= room)%nat /\ (valid_string s = true -> valid_string kept = true).
Proof.
  intros H3 Hl. unfold truncate, len. destruct (Z.leb_spec (Z.of_nat (String.length s)) (Z.of_nat room)); [lia|].
  change (Z.of_nat (String.length ellipsis)) with 3. destruct (Z.ltb_spec (Z.of_nat room - 3) 0); [lia|].
  set (i := rune_floor s _). exists (str_take i s), (str_drop i s). split; [done|]. split; [by rewrite take_drop|]. split.
  - rewrite length_str_app, length_str_take. change (String.length ellipsis) with 3%nat.
    pose proof (rune_floor_le s (Z.to_nat (Z.of_nat room - 3))) as Hf. fold i in Hf. lia.
  - intros Hv. apply (valid_cut s i Hv). apply rune_floor_boundary.
Qed.

(** ** What the loop does *)
(** [chunks] is all of [rest] but white space at the cuts; or as many chunks as
    there may be, of which the last ends in an ellipsis. *)
Definition keeps_text (fuel : nat) (chunks : list string) (rest : string) : Prop :=
  squeeze cut_space (cat chunks) = squeeze cut_space rest \/
  (length chunks = fuel /\ exists front kept lost, chunks = front ++ [kept +:+ ellipsis] /\
     squeeze cut_space (cat front +:+ kept) +:+ squeeze cut_space lost = squeeze cut_space rest).
Record chunks_ok (fuel room : nat) (rest : string) (chunks : list string) : Prop := {
  ck_count : (length chunks <= fuel)%nat;
  ck_some : rest <> "" -> chunks <> [];
  ck_fit : Forall (fun c => (String.length c <= room)%nat) chunks;
  ck_valid : valid_string rest = true -> Forall (fun c => valid_string c = true) chunks;
  ck_text : keeps_text fuel chunks rest
}.
Lemma keeps_text_cons fuel chunk chunks next rest :
  squeeze cut_space chunk +:+ squeeze cut_space next = squeeze cut_space rest ->
  keeps_text fuel chunks next -> keeps_text (S fuel) (chunk :: chunks) rest.
Proof.
  intros Hs [H|(Hl & front & kept & lost & -> & H)].
  - left. by rewrite cat_cons, squeeze_app, H.
  - right. split; [by rewrite <- Hl|]. exists (chunk :: front), kept, lost. split; [done|].
    by rewrite cat_cons, <- str_app_assoc, squeeze_app, <- str_app_assoc, H.
Qed.
Lemma split_loop_ok room : (8 <= room)%nat -> forall fuel cut_so_far rest,
  (cut_so_far + fuel = maxParts)%nat -> (fuel = O -> rest = "") ->
  exists chunks, split_loop fuel cut_so_far room rest = Some chunks /\ chunks_ok fuel room rest chunks.
Proof.
  intros Hroom. induction fuel as [|fuel IH]; intros k rest Hk H0; cbn [split_loop]; case_bool_decide as Hr.
  1,3: subst; exists []; (split; [done|]); constructor; [cbn; lia|done|constructor|constructor|by left].
  { by destruct Hr; apply H0. }
  destruct ((k =? maxParts - 1)%nat && (room <? String.length rest)%nat) eqn:Hlast.
  - apply andb_true_iff in Hlast as [->%Nat.eqb_eq Hl%Nat.ltb_lt].
    destruct (truncate_ok rest room ltac:(lia) Hl) as (kept & lost & -> & Hrest & Hlen & Hv).
    eexists. split; [done|]. constructor.
    + cbn. lia.
    + done.
    + by repeat constructor.
    + intros H. repeat constructor. rewrite valid_app by auto. done.
    + right. assert (fuel = O) as -> by (unfold maxParts in *; lia). split; [done|]. exists [], kept, lost. split; [done|].
      by rewrite str_app_empty, <- squeeze_app, <- Hrest.
  - destruct (cut_is_ok rest room Hroom) as [Hlen Hnext Htext Hvalid]. destruct (cut rest room) as [chunk next] eqn:Hcut. cbn [fst snd] in *.
    destruct (IH (S k) next ltac:(lia)) as (chunks & -> & [Hc Hs Hf Hv Ht]).
    { intros ->. apply andb_false_iff in Hlast as [Hlast|Hlast].
      - apply Nat.eqb_neq in Hlast. unfold maxParts in *. lia.
      - apply Nat.ltb_ge in Hlast. unfold cut in Hcut. apply Nat.leb_le in Hlast. rewrite Hlast in Hcut. by injection Hcut as _ <-. }
    eexists. split; [done|]. constructor.
    + cbn. lia.
    + done.
    + by constructor.
    + intros [H1 H2]%Hvalid. constructor; auto.
    + by eapply keeps_text_cons.
Qed.

(** ** Numbers of parts *)
Lemma itoa_small i : 0 <= i < 100 -> len (itoa i) <= 2 /\ valid_string (itoa i) = true.
Proof.
  intros Hi. assert (forallb (fun i => (len (itoa i) <=? 2) && valid_string (itoa i)) (seqZ 0 100) = true) as H
    by (vm_compute; reflexivity).
  rewrite forallb_forall in H. specialize (H i). rewrite <- list_elem_of_In, elem_of_seqZ, andb_true_iff, Z.leb_le in H. auto.
Qed.
Lemma mark_part_ok n i c room : 0 <= n < 100 -> 0 <= i < 100 -> len c <= room ->
  len (mark_part n i c) <= room + partMarkWidth /\ (valid_string c = true -> valid_string (mark_part n i c) = true).
Proof.
  intros [Hn Hnv]%itoa_small [Hi Hiv]%itoa_small Hc. unfold mark_part. rewrite !cat_cons. change (cat []) with "". split.
  - change partMarkWidth with 8. unfold len in *. rewrite !length_str_app. cbn [String.length]. lia.
  - intros Hv. rewrite (valid_app "("), (valid_app (itoa i)), (valid_app "/"), (valid_app (itoa n)), (valid_app ") ") by done.
    by rewrite str_app_nil.
Qed.
Lemma mark_parts_Forall (P : string -> Prop) chunks :
  (forall i c, (i < length chunks)%nat -> c ∈ chunks -> P (mark_part (Z.of_nat (length chunks)) (Z.of_nat i + 1) c)) ->
  Forall P (mark_parts chunks).
Proof.
  intros H. apply Forall_lookup. intros i p. unfold mark_parts. rewrite list_lookup_imap.
  intros (c & Hc & ->)%fmap_Some. apply H; [by eapply lookup_lt_Some|by eapply list_elem_of_lookup_2].
Qed.

(** ** What [Split] promises *)
(** C28. A text cut for LXMF always comes out, in [maxParts] parts at most; each
    fits the packet it is for, its number included; and if the text is valid
    UTF-8, so is each part: no cut falls inside a character. *)
Theorem Split_parts text max : 16 <= max ->
  exists parts, Split text max = Some parts /\ parts <> [] /\ (length parts <= maxParts)%nat /\
    Forall (fun p => len p <= max) parts /\
    (valid_string text = true -> Forall (fun p => valid_string p = true) parts).
Proof.
  intros Hmax. unfold Split. destruct (Z.leb_spec (len text) max) as [Hl|Hl].
  { exists [text]. split_and!; [done|done|cbn; unfold maxParts; lia|by repeat constructor|by repeat constructor]. }
  change partMarkWidth with 8. destruct (Z.ltb_spec (max - 8) 8); [lia|].
  destruct (split_loop_ok (Z.to_nat (max - 8)) ltac:(lia) maxParts 0 text ltac:(lia) ltac:(done)) as (chunks & -> & [Hc Hs Hf Hv _]).
  cbn [mbind option_bind]. assert (chunks <> []) as Hne by (apply Hs; intros ->; unfold len in Hl; cbn in Hl; lia).
  assert (forall c, c ∈ chunks -> len c <= max - 8) as Hfit.
  { intros c Hin. rewrite Forall_forall in Hf. specialize (Hf c Hin). unfold len. lia. }
  assert (Forall (fun p => len p <= max) (mark_parts chunks) /\
    (valid_string text = true -> Forall (fun p => valid_string p = true) (mark_parts chunks))) as [Hm1 Hm2].
  { unfold maxParts in Hc. split; [|intros Ht; specialize (Hv Ht); rewrite Forall_forall in Hv];
      apply mark_parts_Forall; intros i c Hi Hin;
      destruct (mark_part_ok (Z.of_nat (length chunks)) (Z.of_nat i + 1) c (max - 8)) as [Hlen Hval]; try lia; auto.
    change partMarkWidth with 8 in Hlen. lia. }
  assert (length (mark_parts chunks) = length chunks) as Hlen by apply length_imap.
  destruct chunks as [|c [|c' chunks]]; [done| |].
  - eexists. split_and!; [done|done|done| |done]. repeat constructor. specialize (Hfit c ltac:(set_solver)). lia.
  - eexists. split_and!; [done|done|by rewrite Hlen|done|done].
Qed.
