(* ===== verification/LxmfGroup.v ===== *)
(** internal/lxmfgroup/group.go: the LXMF group.  What comes in is answered or
    passed to the hub; what the hub has queued is sent in parts, and each attempt
    is reported back.  The network is a parameter: what it knows of addresses,
    and what becomes of each thing sent. *)
From S2P Require Import Prelude Text TextCut Db Names HubCore Clock Ranks People Rooms Post Commands Whispers Profile.
From S2P Require Import Maintain Adapters LxmfSplit.
Local Open Scope Z_scope.

(** ** The transport *)
Inductive SendErr :=
  | ErrStampCostTooHigh
  | ErrRecipientUnknown
  | ErrLinkPeerUnknown
  | ErrPropagationNodeUnknown
  | ErrSend.
Record KnownIdentity := mkKnownIdentity { ki_PublicKey : string; ki_AppData : string }.
(** What is sent: through a propagation node, or directly; to which address. *)
Record Sending := mkSending { sg_node : option string; sg_to : string; sg_content : string }.
(** reticulum-go: the announces it has heard, the display name in an announce,
    and the outcome of the n-th thing sent, [None] if it arrived. *)
Class LxmfNet := {
  Recall : string -> option KnownIdentity;
  DecodeLXMFAppDataDisplayName : string -> option string;
  send_outcome : nat -> Sending -> option SendErr
}.
(** lxmf.Message, what the group reads of it; the time in milliseconds. *)
Record LMessage := mkLMessage {
  lm_SourceHash : string;
  lm_Content : string;
  lm_DedupKey : string;
  lm_MessageID : string;
  lm_Timestamp : Z
}.

(** ** Configuration and state *)
Record GConfig := mkGConfig {
  gc_Name : string;
  gc_GroupRoom : string;
  gc_PropagationNode : option string;
  gc_Senders : Z;
  gc_JoinDigest : Z;
  gc_DirectAttempts : Z;
  gc_AwayFor : Z;
  gc_GiveUpAfter : Z
}.
Definition group_Defaults : GConfig :=
  mkGConfig "ScotMesh Chat" "scotmesh" None 16 10 2 (10 * Minute) (24 * Hour).
(** [New]: what is missing is filled in. *)
Definition group_config (c : GConfig) : GConfig :=
  let d := group_Defaults in
  let fill v def := if v <=? 0 then def else v in
  mkGConfig (if bool_decide (gc_Name c = "") then gc_Name d else gc_Name c)
    (if bool_decide (gc_GroupRoom c = "") then gc_GroupRoom d else gc_GroupRoom c)
    (n ← gc_PropagationNode c; if len n =? 16 then Some n else None)
    (fill (gc_Senders c) (gc_Senders d)) (fill (gc_JoinDigest c) (gc_JoinDigest d))
    (fill (gc_DirectAttempts c) (gc_DirectAttempts d)) (fill (gc_AwayFor c) (gc_AwayFor d))
    (fill (gc_GiveUpAfter c) (gc_GiveUpAfter d)).

Record GStats := mkGStats {
  Received : Z; gs_Duplicates : Z; UnknownSender : Z; Sent : Z; Propagated : Z; Retries : Z; gs_GaveUp : Z; InboxDropped : Z
}.
Inductive GStat := SReceived | SDuplicates | SUnknownSender | SSent | SPropagated | SRetries | SGaveUp | SInboxDropped.
Definition stat_add (k : GStat) (s : GStats) : GStats :=
  let up j n := match k, j with
    | SReceived, SReceived | SDuplicates, SDuplicates | SUnknownSender, SUnknownSender | SSent, SSent
    | SPropagated, SPropagated | SRetries, SRetries | SGaveUp, SGaveUp | SInboxDropped, SInboxDropped => n + 1
    | _, _ => n
    end in
  mkGStats (up SReceived (Received s)) (up SDuplicates (gs_Duplicates s)) (up SUnknownSender (UnknownSender s))
    (up SSent (Sent s)) (up SPropagated (Propagated s)) (up SRetries (Retries s)) (up SGaveUp (gs_GaveUp s))
    (up SInboxDropped (InboxDropped s)).

(** seenSet: the keys in the order they came, and as a set. *)
Record SeenSet := mkSeenSet { ss_order : list string; ss_set : gset string; ss_max : nat }.
Definition newSeenSet (n : nat) : SeenSet := mkSeenSet [] ∅ n.
Definition seen_add (k : string) (s : SeenSet) : bool * SeenSet :=
  if bool_decide (k ∈ ss_set s) then (false, s) else
  let set := {[k]} ∪ ss_set s in
  let order := ss_order s ++ [k] in
  (true,
   if (ss_max s <? length order)%nat
   then mkSeenSet (tl order) (match order with o :: _ => set ∖ {[o]} | [] => set end) (ss_max s)
   else mkSeenSet order set (ss_max s)).

Record outgoing := mkOutgoing { og_to : ident; og_content : string }.
Record Grp (S : Type) := mkGrp {
  g_hub : S;
  g_inbox : list LMessage;
  g_replies : list outgoing;
  g_wake : bool;
  g_seen : SeenSet;
  g_inFlight : gset string;
  g_finished : gmap string Z;
  g_seq : Z;
  g_stats : GStats;
  g_sent : list (Sending * option SendErr);
  g_paths : list string
}.
Arguments mkGrp {S}. Arguments g_hub {S}. Arguments g_inbox {S}. Arguments g_replies {S}. Arguments g_wake {S}.
Arguments g_seen {S}. Arguments g_inFlight {S}. Arguments g_finished {S}. Arguments g_seq {S}. Arguments g_stats {S}.
Arguments g_sent {S}. Arguments g_paths {S}.
Definition inboxMax : nat := 512.
Definition repliesMax : nat := 512.
Definition group_New {S} (hub : S) : Grp S :=
  mkGrp hub [] [] false (newSeenSet 4096) ∅ ∅ 0 (mkGStats 0 0 0 0 0 0 0 0) [] [].

Section group.
Context {E : Env} {N : LxmfNet} {S : Type} {HS : GroupHub S} (gcfg : GConfig).
Notation GM := (ST (Grp S)).

Definition set_g_hub (x : S) (g : Grp S) : Grp S :=
  mkGrp x (g_inbox g) (g_replies g) (g_wake g) (g_seen g) (g_inFlight g) (g_finished g) (g_seq g) (g_stats g) (g_sent g) (g_paths g).
Definition set_g_inbox x (g : Grp S) : Grp S :=
  mkGrp (g_hub g) x (g_replies g) (g_wake g) (g_seen g) (g_inFlight g) (g_finished g) (g_seq g) (g_stats g) (g_sent g) (g_paths g).
Definition set_g_replies x (g : Grp S) : Grp S :=
  mkGrp (g_hub g) (g_inbox g) x (g_wake g) (g_seen g) (g_inFlight g) (g_finished g) (g_seq g) (g_stats g) (g_sent g) (g_paths g).
Definition set_g_wake x (g : Grp S) : Grp S :=
  mkGrp (g_hub g) (g_inbox g) (g_replies g) x (g_seen g) (g_inFlight g) (g_finished g) (g_seq g) (g_stats g) (g_sent g) (g_paths g).
Definition set_g_seen x (g : Grp S) : Grp S :=
  mkGrp (g_hub g) (g_inbox g) (g_replies g) (g_wake g) x (g_inFlight g) (g_finished g) (g_seq g) (g_stats g) (g_sent g) (g_paths g).
Definition set_g_jobs inflight finished seq (g : Grp S) : Grp S :=
  mkGrp (g_hub g) (g_inbox g) (g_replies g) (g_wake g) (g_seen g) inflight finished seq (g_stats g) (g_sent g) (g_paths g).
Definition set_g_stats x (g : Grp S) : Grp S :=
  mkGrp (g_hub g) (g_inbox g) (g_replies g) (g_wake g) (g_seen g) (g_inFlight g) (g_finished g) (g_seq g) x (g_sent g) (g_paths g).
Definition set_g_sent x (g : Grp S) : Grp S :=
  mkGrp (g_hub g) (g_inbox g) (g_replies g) (g_wake g) (g_seen g) (g_inFlight g) (g_finished g) (g_seq g) (g_stats g) x (g_paths g).
Definition set_g_paths x (g : Grp S) : Grp S :=
  mkGrp (g_hub g) (g_inbox g) (g_replies g) (g_wake g) (g_seen g) (g_inFlight g) (g_finished g) (g_seq g) (g_stats g) (g_sent g) x.

(** A request to the hub, and a question; the caller looks at the error. *)
Definition g_call {A} (f : S -> res A * S) : GM (res A) := fun g =>
  let '(r, s) := f (g_hub g) in (Ok r, set_g_hub s g).
Definition g_ask {A} (f : S -> res A) : GM (res A) := gets (fun g => f (g_hub g)).
Definition g_stat (k : GStat) : GM unit := modify (fun g => set_g_stats (stat_add k (g_stats g)) g).
Definition request_path (dest : string) : GM unit := modify (fun g => set_g_paths (g_paths g ++ [dest]) g).
Definition nudge : GM unit := modify (set_g_wake true).
(** [SendWithID] and [SendPropagated]. *)
Definition send_one (x : Sending) : GM (option SendErr) := fun g =>
  let o := send_outcome (length (g_sent g)) x in (Ok o, set_g_sent (g_sent g ++ [(x, o)]) g).

(** [OnMessage]: the inbox has room for [inboxMax] messages. *)
Definition OnMessage (m : LMessage) : GM unit :=
  inbox <- gets g_inbox ;;
  if (length inbox <? inboxMax)%nat then modify (set_g_inbox (inbox ++ [m])) else g_stat SInboxDropped.

Definition reply (id : ident) (content : string) : GM unit :=
  replies <- gets g_replies ;;
  if (length replies <? repliesMax)%nat
  then modify (set_g_replies (replies ++ [mkOutgoing id content])) ;;; nudge
  else ret tt.

(** ** Inbound *)
Definition announcedName (k : KnownIdentity) : string :=
  if bool_decide (ki_AppData k = "") then "" else
  match DecodeLXMFAppDataDisplayName (ki_AppData k) with
  | None => ""
  | Some n => SuggestName n
  end.
Definition group_clock (ms : Z) : string := fmt_dow_hm (london_seconds ms).
Definition formatHistory (note : string) (msgs : list Message) : string :=
  strings_Join newline (note :: map (fun m => cat ["["; group_clock (Message_SaidAt m); "] "; LXMFLine m]) msgs).

Definition post_answer (r : res PostResult) : option string :=
  match r with
  | Ok _ => None
  | Fail (UserError t) =>
    Some (if has_prefix t "send /join first"
          then cat ["This is "; gc_Name gcfg; ". Send /join to take part: you'll get every message from #"; gc_GroupRoom gcfg;
                    " on RRC, this group and the chat page, and yours will reach them all."]
          else "Not sent: " +:+ t)
  | Fail _ => Some "Not sent: something went wrong on the hub. Please try again."
  end.
Definition group_post (id : ident) (m : LMessage) (text : string) (action : bool) : GM unit :=
  r <- g_call (gh_Post (mkPostRequest ViaLXMF id "" action text (Some (lm_MessageID m)) (lm_Timestamp m) None)) ;;
  (match post_answer r with Some t => reply id t | None => ret tt end) ;;;
  nudge.

(** [isJoin]: the first field, less its prefix. *)
Definition is_join_word (fs : list string) : bool :=
  match fs with f0 :: _ => equal_fold (str_drop 1 f0) "join" | [] => false end.
Definition command_answer (before : Person) (isJoin : bool) (r : Reply) : GM (list string) :=
  recent <- g_ask (gh_Recent (gc_GroupRoom gcfg) (gc_JoinDigest gcfg) 0) ;;
  ret ((match Lines r with [] => [] | _ => [Reply_Text r] end) ++
       (match Reply_History r with [] => [] | h => [formatHistory (HistoryNote r) h] end) ++
       (if isJoin && negb (p_Member before) && negb (Reply_Error r) then
          match recent with
          | Ok (_ :: _ as recent) =>
            [formatHistory (cat ["— the last "; itoa (Z.of_nat (length recent)); " messages —"]) recent]
          | _ => []
          end
        else [])).
Definition group_command (id : ident) (known : KnownIdentity) (text : string) : GM unit :=
  before <- g_ask (gh_PersonOf id) ;;
  match before with
  | Fail _ => ret tt
  | Ok before =>
    let fs := fields text in
    let isJoin := is_join_word fs in
    let name := announcedName known in
    let text := if isJoin && (length fs =? 1)%nat && negb (p_Claimed before) && negb (bool_decide (name = ""))
                then cat [default "" (head fs); " "; name] else text in
    r <- g_call (gh_Command (mkCommandRequest ViaLXMF id (gc_GroupRoom gcfg) text)) ;;
    match r with
    | Fail _ => reply id "That didn't work: something went wrong on the hub. Please try again."
    | Ok r =>
      out <- command_answer before isJoin r ;;
      match out with
      | [] => ret tt
      | _ => reply id (strings_Join (newline +:+ newline) out)
      end
    end
  end.

(** The key is counted as seen only once the sender is known. *)
Definition group_said (m : LMessage) (known : KnownIdentity) : GM unit :=
  let id := IdentityHashFromPublicKey (ki_PublicKey known) in
  r <- g_call (gh_Identify id (Some (ki_PublicKey known))) ;;
  match r with
  | Fail _ => ret tt
  | Ok _ =>
    let text := trim_space (lm_Content m) in
    if bool_decide (text = "") then ret tt else
    match ActionText text with
    | Some action => group_post id m action true
    | None => if IsCommand text then group_command id known text else group_post id m text false
    end
  end.
Definition group_handle (m : LMessage) : GM unit :=
  g_stat SReceived ;;;
  match Recall (lm_SourceHash m) with
  | Some (mkKnownIdentity (String _ _) _ as known) =>
    seen <- gets g_seen ;;
    let '(new, seen') := seen_add (lm_DedupKey m) seen in
    modify (set_g_seen seen') ;;;
    if negb new then g_stat SDuplicates else group_said m known
  | _ => g_stat SUnknownSender ;;; request_path (lm_SourceHash m)
  end.
(** One turn of [receive]. *)
Definition group_receive : GM unit :=
  inbox <- gets g_inbox ;;
  match inbox with
  | [] => ret tt
  | m :: rest => modify (set_g_inbox rest) ;;; group_handle m
  end.

(** ** Events *)
Definition said_plural (n : Z) (one many : string) : string :=
  if n =? 1 then cat ["1 "; one; " said"] else cat [itoa n; " "; many; " said"].
Definition replyIfMember (id : ident) (text : string) : GM unit :=
  p <- g_ask (gh_PersonOf id) ;;
  match p with
  | Ok p => if p_Member p then reply id text else ret tt
  | Fail _ => ret tt
  end.
Definition group_event (e : Event) : GM unit :=
  match e with
  | MessageEvent _ (_ :: _) => nudge
  | WhisperEvent _ _ => nudge
  | LXMFResumeEvent id missed =>
    reply id (cat ["LXMF delivery is back on. "; said_plural missed "message was" "messages were";
                   " while it was paused: send /history "; itoa (Z.min missed 100); " to read them."])
  | NoticeEvent id _ text toLXMF => if (toLXMF : bool) then reply id text else replyIfMember id text
  | _ => ret tt
  end.
End group.
