(* ===== verification/LxmfDeliver.v ===== *)
(** internal/lxmfgroup/group.go, outbound: the scheduler that hands due
    deliveries to the senders, and what a sender does with one. *)
From S2P Require Import Prelude Text TextCut Db Names HubCore Clock Ranks People Rooms Post Commands Whispers Profile.
From S2P Require Import Maintain Adapters LxmfSplit LxmfGroup.
Local Open Scope Z_scope.

Definition deliveryKey (d : Delivery) : string :=
  cat [itoa (Delivery_MessageID d); "/"; hex_encode (Delivery_Identity d)].
(** [Split] comes to an end for any text ([LxmfSplit.Split_parts]). *)
Definition content_parts (text : string) : list string := default [] (Split text MaxContent).

Section deliver.
Context {E : Env} {N : LxmfNet} {S : Type} {HS : GroupHub S} (gcfg : GConfig).
Notation GM := (ST (Grp S)).

(** ** Replies *)
Fixpoint propagate_all (node addr : string) (parts : list string) : GM unit :=
  match parts with
  | [] => ret tt
  | p :: ps =>
    e <- send_one (mkSending (Some node) addr p) ;;
    match e with
    | Some _ => ret tt
    | None => g_stat SPropagated ;;; propagate_all node addr ps
    end
  end.
Fixpoint send_reply_parts (addr : string) (parts : list string) : GM unit :=
  match parts with
  | [] => ret tt
  | p :: ps =>
    e <- send_one (mkSending None addr p) ;;
    match e with
    | None => send_reply_parts addr ps
    | Some _ => match gc_PropagationNode gcfg with
                | None => ret tt
                | Some node => propagate_all node addr parts
                end
    end
  end.
Definition sendReply (r : outgoing) : GM unit := send_reply_parts (LXMFAddress (og_to r)) (content_parts (og_content r)).

(** ** Deliveries *)
Definition record (d : Delivery) (o : DeliveryOutcome) (propagated : bool) (retryAt : Z) (awayUntil : option Z) : GM unit :=
  _ <- g_call (gh_RecordDelivery d o propagated retryAt awayUntil) ;;
  match o with
  | RetryAt => if retryAt <=? now then nudge else ret tt
  | _ => ret tt
  end.

(** The parts not yet done, until one can't be sent: how many went, and why the
    next did not. *)
Fixpoint send_parts (node : option string) (addr : string) (parts : list string) : GM (nat * option SendErr) :=
  match parts with
  | [] => ret (O, None)
  | p :: ps =>
    e <- send_one (mkSending node addr p) ;;
    match e with
    | Some e => ret (O, Some e)
    | None => let! (n, e) := send_parts node addr ps in ret (Datatypes.S n, e)
    end
  end.
Definition with_progress (parts : Z) (attempts : Z) (d : Delivery) : Delivery :=
  mkDelivery (Delivery_MessageID d) (Delivery_Whisper d) (Delivery_Identity d) (Delivery_State d) attempts parts
    (Delivery_NextAt d) (Delivery_UpdatedAt d).
(** When to try again, and whether the member is away till then: [None] to
    give up. *)
Definition retry_of (err : SendErr) (propagate : bool) (attempts : Z) : option (bool * Z * option Z) :=
  match err with
  | ErrStampCostTooHigh => None
  | ErrRecipientUnknown | ErrLinkPeerUnknown => Some (false, now + 30 * Second, None)
  | ErrPropagationNodeUnknown => Some (false, now + Minute, None)
  | ErrSend =>
    if negb propagate && (gc_DirectAttempts gcfg <=? attempts) then Some (false, now, Some (now + gc_AwayFor gcfg))
    else Some (propagate, now + Z.min (attempts * (30 * Second)) (10 * Minute), None)
  end.
Definition ask_path (err : SendErr) (addr : string) : GM unit :=
  match err with
  | ErrRecipientUnknown | ErrLinkPeerUnknown => request_path addr
  | ErrPropagationNodeUnknown => request_path (default "" (gc_PropagationNode gcfg))
  | _ => ret tt
  end.
Definition deliver (pd : PendingDelivery) : GM unit :=
  let d := pd_Delivery pd in
  let addr := LXMFAddress (Delivery_Identity d) in
  if gc_GiveUpAfter gcfg <? now - PendingDelivery_SaidAt pd * Millisecond then
    g_stat SGaveUp ;;; record d GaveUp false 0 None
  else
    let away := nowMS <? pd_AwayUntil pd in
    let node := if away then gc_PropagationNode gcfg else None in
    let propagate := bool_decide (is_Some node) in
    let parts := content_parts (PendingDelivery_Text pd) in
    let! (n, err) := send_parts node addr (drop (Z.to_nat (Delivery_PartsDone d)) parts) in
    let done := Delivery_PartsDone d + Z.of_nat n in
    match err with
    | None =>
      g_stat (if propagate then SPropagated else SSent) ;;;
      record (with_progress done (Delivery_Attempts d) d) Delivered propagate 0 None
    | Some err =>
      g_stat SRetries ;;;
      let d := with_progress done (Delivery_Attempts d + 1) d in
      match retry_of err propagate (Delivery_Attempts d) with
      | None => g_stat SGaveUp ;;; record d GaveUp false 0 None
      | Some (propagated, retryAt, away) => ask_path err addr ;;; record d RetryAt propagated retryAt away
      end
    end.

(** ** The scheduler *)
(** A round over the due deliveries, with [idle] senders free. *)
Definition job_busy (snapshotSeq : Z) (key : string) (g : Grp S) : bool :=
  bool_decide (key ∈ g_inFlight g) || (snapshotSeq <? default 0 (g_finished g !! key)).
Definition job_start (key : string) (g : Grp S) : Grp S :=
  set_g_jobs ({[key]} ∪ g_inFlight g) (g_finished g) (g_seq g) g.
Fixpoint dispatch (idle : nat) (snapshotSeq : Z) (due : list PendingDelivery) : GM (list PendingDelivery) :=
  match due with
  | [] => ret []
  | d :: due' =>
    busy <- gets (job_busy snapshotSeq (deliveryKey (pd_Delivery d))) ;;
    if (busy : bool) then dispatch idle snapshotSeq due' else
    match idle with
    | O => ret []
    | Datatypes.S idle' =>
      modify (job_start (deliveryKey (pd_Delivery d))) ;;;
      rest <- dispatch idle' snapshotSeq due' ;;
      ret (d :: rest)
    end
  end.
(** [sender], once an attempt is over. *)
Definition job_done (key : string) (g : Grp S) : Grp S :=
  let seq := g_seq g + 1 in
  let finished := <[key := seq]> (g_finished g) in
  set_g_jobs (g_inFlight g ∖ {[key]})
    (if (4096 <? Z.of_nat (size finished)) then filter (fun kt => seq <= kt.2 + 2048) finished else finished) seq g.
Definition run_job (d : PendingDelivery) : GM unit := deliver d ;;; modify (job_done (deliveryKey (pd_Delivery d))).

Fixpoint drain_replies (l : list outgoing) : GM unit :=
  match l with
  | [] => ret tt
  | r :: l' => sendReply r ;;; drain_replies l'
  end.
(** One turn of [schedule], with the senders it finds free. *)
Definition schedule_turn (idle : nat) : GM (list PendingDelivery) :=
  replies <- gets g_replies ;;
  modify (set_g_replies []) ;;;
  drain_replies replies ;;;
  snapshotSeq <- gets g_seq ;;
  due <- g_ask (gh_DueDeliveries 256) ;;
  dispatch idle snapshotSeq (match due with Ok l => l | Fail _ => [] end).
End deliver.
