(* ===== verification/LxmfSched.v ===== *)
(** The group's scheduler and its pool of senders, interleaved: the mutex of
    group.go is held for [job_busy] with [job_start], and for [job_done]; between
    them the rounds and the senders go as they like. *)
From S2P Require Import Prelude Text Db Names HubCore Post Maintain Adapters LxmfSplit LxmfGroup LxmfDeliver.
Local Open Scope Z_scope.

Section sched.
Context {S : Type} (senders : nat).

(** A job a sender holds: the delivery's key, how many attempts at it had been
    recorded when its row was read, and whether this one has been recorded. *)
Record Job := mkJob { job_key : string; job_read : nat; job_recorded : bool }.
(** Where the scheduler is: waiting; past the snapshot; or going through the
    rows it has read, each with the attempts recorded by then. *)
Inductive Round :=
  | Waiting
  | Snapshot (snapshotSeq : Z)
  | Going (snapshotSeq : Z) (due : list (string * nat)).
Record Sched := mkSched {
  sd_group : Grp S;
  sd_jobs : list Job;
  sd_round : Round;
  sd_recorded : string -> nat   (* attempts recorded, by key *)
}.

Inductive sched_step : Sched -> Sched -> Prop :=
  | sched_snapshot g jobs rec : sched_step (mkSched g jobs Waiting rec) (mkSched g jobs (Snapshot (g_seq g)) rec)
  | sched_read g jobs rec snap keys : (length keys <= 256)%nat ->
    sched_step (mkSched g jobs (Snapshot snap) rec) (mkSched g jobs (Going snap (map (fun k => (k, rec k)) keys)) rec)
  | sched_skip g jobs rec snap k n due : job_busy snap k g = true ->
    sched_step (mkSched g jobs (Going snap ((k, n) :: due)) rec) (mkSched g jobs (Going snap due) rec)
  | sched_dispatch g jobs rec snap k n due : job_busy snap k g = false -> (length jobs < senders)%nat ->
    sched_step (mkSched g jobs (Going snap ((k, n) :: due)) rec)
      (mkSched (job_start k g) (mkJob k n false :: jobs) (Going snap due) rec)
  | sched_over g jobs rec snap due : sched_step (mkSched g jobs (Going snap due) rec) (mkSched g jobs Waiting rec)
  | sched_record g before k n after rd rec :
    sched_step (mkSched g (before ++ mkJob k n false :: after) rd rec)
      (mkSched g (before ++ mkJob k n true :: after) rd (fun k' => if bool_decide (k' = k) then Datatypes.S (rec k) else rec k'))
  | sched_done g before k n after rd rec :
    sched_step (mkSched g (before ++ mkJob k n true :: after) rd rec) (mkSched (job_done k g) (before ++ after) rd rec).
Definition sched_start (g : Grp S) : Prop := g_inFlight g = ∅.

(** The rows still to go through are up to date, or their keys are busy. *)
Definition due_ok (snap : Z) (g : Grp S) (rec : string -> nat) (kn : string * nat) : Prop :=
  kn.1 ∈ g_inFlight g \/ snap < default 0 (g_finished g !! kn.1) \/ kn.2 = rec kn.1.
Record sched_ok (s : Sched) : Prop := {
  so_flight : forall k, k ∈ g_inFlight (sd_group s) <-> k ∈ map job_key (sd_jobs s);
  so_nodup : NoDup (map job_key (sd_jobs s));
  so_jobs : forall j, j ∈ sd_jobs s -> job_recorded j = false -> job_read j = sd_recorded s (job_key j);
  so_senders : (length (sd_jobs s) <= senders)%nat;
  so_round : match sd_round s with
    | Waiting => True
    | Snapshot snap => 0 <= snap <= g_seq (sd_group s) /\ g_seq (sd_group s) + Z.of_nat (length (sd_jobs s)) <= snap + Z.of_nat senders
    | Going snap due => 0 <= snap <= g_seq (sd_group s) /\
        g_seq (sd_group s) + Z.of_nat (length (sd_jobs s)) + Z.of_nat (length due) <= snap + Z.of_nat senders + 256 /\
        Forall (due_ok snap (sd_group s) (sd_recorded s)) due
    end
}.

Lemma not_busy snap k (g : Grp S) : job_busy snap k g = false -> k ∉ g_inFlight g /\ default 0 (g_finished g !! k) <= snap.
Proof. unfold job_busy. intros [Hk Hs]%orb_false_iff. apply bool_decide_eq_false in Hk. split; [done|lia]. Qed.
(** What finished after the snapshot is still known to have. *)
Lemma job_done_finished k k' (g : Grp S) snap :
  snap <= g_seq g -> g_seq g <= snap + 2048 -> (k' = k \/ snap < default 0 (g_finished g !! k')) -> 0 <= snap ->
  snap < default 0 (g_finished (job_done k g) !! k').
Proof.
  intros Hs Hb Hk H0. unfold job_done. cbn [g_finished set_g_jobs].
  assert (exists t, <[k:=g_seq g + 1]> (g_finished g) !! k' = Some t /\ snap < t) as (t & Ht & Hst).
  { destruct (decide (k' = k)) as [->|Hne]; [exists (g_seq g + 1); rewrite lookup_insert_eq; split; [done|lia]|].
    rewrite lookup_insert_ne by done. destruct Hk as [->|Hk]; [done|]. destruct (g_finished g !! k') as [t|]; [|cbn in Hk; lia]. by exists t. }
  destruct (4096 <? _); [|by rewrite Ht].
  rewrite (proj2 (map_lookup_filter_Some (fun kt : string * Z => g_seq g + 1 <= kt.2 + 2048) _ k' t)); [done|]. split; [done|cbn; lia].
Qed.

Lemma sched_step_ok s s' : (senders <= 1024)%nat -> sched_step s s' -> 0 <= g_seq (sd_group s) -> sched_ok s -> sched_ok s' /\ 0 <= g_seq (sd_group s').
Proof.
  intros Hsend Hst H0 [Hf Hnd Hj Hn Hr].
  destruct Hst as [g jobs rec|g jobs rec snap keys Hk|g jobs rec snap k n due Hb|g jobs rec snap k n due Hb Hl|g jobs rec snap due
    |g before k n after rd rec|g before k n after rd rec]; cbn [sd_group sd_jobs sd_round sd_recorded] in *.
  - split; [|done]. constructor; cbn; [done..|]. lia.
  - split; [|done]. constructor; cbn; [done..|]. rewrite length_map. split; [lia|split; [lia|]].
    apply Forall_map, Forall_forall. intros k _. right. by right.
  - destruct Hr as (Hs & Hb' & Hd). cbn in Hb'. inversion Hd; subst. split; [|done]. constructor; cbn; [done..|]. split; [lia|split; [lia|done]].
  - destruct Hr as (Hs & Hb' & Hd). cbn in Hb'. inversion Hd as [|? ? Hkn Hd']; subst. apply not_busy in Hb as [Hkf Hfin].
    destruct Hkn as [Hkn|[Hkn|Hkn]]; cbn in Hkn; [done|lia|]. split; [|done]. constructor; cbn.
    + intros k'. rewrite elem_of_union, elem_of_singleton, elem_of_cons, Hf. done.
    + constructor; [by rewrite <- Hf|done].
    + intros j [->|Hin]%elem_of_cons; [done|by apply Hj].
    + lia.
    + split; [lia|split; [lia|]]. eapply Forall_impl; [exact Hd'|]. intros [k' n'] [H|[H|H]]; cbn in *; [left; set_solver|right; by left|right; by right].
  - split; [|done]. by constructor.
  - rewrite !map_app in *. cbn [map job_key] in *.
    assert (forall j, j ∈ before \/ j ∈ after -> job_key j <> k) as Hother.
    { intros j Hin <-. apply NoDup_app in Hnd as (_ & Hba & [Ha _]%NoDup_cons).
      destruct Hin as [Hin%(list_elem_of_fmap_2 job_key)|Hin%(list_elem_of_fmap_2 job_key)]; [|done].
      apply (Hba _ Hin). set_solver. }
    split; [|done]. constructor; cbn.
    + intros k'. by rewrite map_app, Hf.
    + by rewrite map_app.
    + intros j [Hin|[->|Hin]%elem_of_cons]%elem_of_app Hjr; [|done|];
        (rewrite bool_decide_eq_false_2 by auto; apply Hj; [set_solver|done]).
    + rewrite length_app in *. exact Hn.
    + destruct rd as [|snap|snap due]; [done|rewrite length_app in *; exact Hr|]. destruct Hr as (Hs & Hb & Hd).
      rewrite length_app in *. split; [done|split; [exact Hb|]]. eapply Forall_impl; [exact Hd|].
      intros [k' n'] [H|[H|H]]; [by left|right; by left|]. cbn in *. destruct (decide (k' = k)) as [->|Hne].
      * left. apply Hf. set_solver.
      * right. right. by rewrite bool_decide_eq_false_2.
  - rewrite !map_app in *. cbn [map job_key] in *.
    apply NoDup_app in Hnd as (Hnb & Hba & [Ha Hna]%NoDup_cons).
    split; [|cbn; lia]. constructor; cbn.
    + intros k'. rewrite elem_of_difference, elem_of_singleton, Hf, map_app, !elem_of_app, elem_of_cons.
      split; [naive_solver|]. intros Hk'. split; [tauto|]. intros ->. destruct Hk' as [H|H]; [|done]. apply (Hba k H). set_solver.
    + rewrite map_app. apply NoDup_app. split_and!; [done| |done]. intros x Hx Hxa. apply (Hba x Hx). set_solver.
    + intros j Hin. apply Hj. set_solver.
    + rewrite length_app in *. cbn in *. lia.
    + destruct rd as [|snap|snap due]; [done| |].
      * rewrite length_app in *. cbn in *. lia.
      * destruct Hr as (Hs & Hb & Hd). rewrite length_app in *. cbn in *. split; [lia|split; [lia|]].
        eapply Forall_impl; [exact Hd|]. intros [k' n'] Hdue. unfold due_ok in *. cbn [fst snd] in *.
        destruct (decide (k' = k)) as [->|Hne]; [right; left; apply job_done_finished; auto; lia|].
        destruct Hdue as [H|[H|H]]; [left; cbn; set_solver|right; left; apply job_done_finished; auto; lia|right; by right].
Qed.

(** A turn of [dispatch] is a run of these steps. *)
Lemma dispatch_steps idle snap due g jobs rec started g' :
  dispatch idle snap due g = (Ok started, g') -> (idle + length jobs <= senders)%nat ->
  exists jobs' rest, map job_key jobs' = rev (map (fun d => deliveryKey (pd_Delivery d)) started) ++ map job_key jobs /\
    rtc sched_step (mkSched g jobs (Going snap (map (fun d => (deliveryKey (pd_Delivery d), rec (deliveryKey (pd_Delivery d)))) due)) rec)
                   (mkSched g' jobs' (Going snap rest) rec).
Proof.
  revert idle g jobs started g'. induction due as [|d due IH]; intros idle g jobs started g'; cbn [dispatch map].
  { intros [= <- <-] _. by exists jobs, []. }
  erewrite bind_run by done. destruct (job_busy snap (deliveryKey (pd_Delivery d)) g) eqn:Hb; cbn [negb].
  { intros Hd Hl. destruct (IH _ _ jobs _ _ Hd Hl) as (jobs' & rest & Hj & Hr). exists jobs', rest. split; [done|].
    eapply rtc_l; [by apply sched_skip|done]. }
  destruct idle as [|idle]; [intros [= <- <-] _; by eexists jobs, _|]. erewrite bind_run by done. intros Hd Hl.
  apply bind_ok in Hd as (rest & g1 & Hd & [= <- <-]).
  destruct (IH _ _ (mkJob (deliveryKey (pd_Delivery d)) (rec (deliveryKey (pd_Delivery d))) false :: jobs) _ _ Hd) as (jobs' & rest' & Hj & Hr).
  { cbn. lia. }
  exists jobs', rest'. split; [rewrite Hj; cbn; by rewrite <- app_assoc|]. eapply rtc_l; [|exact Hr]. apply sched_dispatch; [done|lia].
Qed.

(** C21. However rounds, senders and the recording of attempts interleave, no two
    senders hold the same delivery, and none holds one that has moved on: when a
    sender starts on a delivery, and until it records its attempt, no other
    attempt has been recorded since the row it works from was read. *)
Theorem senders_exclusive_and_current hub rec s :
  (senders <= 1024)%nat -> rtc sched_step (mkSched (group_New hub) [] Waiting rec) s ->
  (length (sd_jobs s) <= senders)%nat /\ NoDup (map job_key (sd_jobs s)) /\
  forall j, j ∈ sd_jobs s -> job_recorded j = false -> job_read j = sd_recorded s (job_key j).
Proof.
  intros Hn Hst. enough (sched_ok s) as [_ Hnd Hj Hs _] by done.
  remember (mkSched (group_New hub) [] Waiting rec) as s0 eqn:H0.
  assert (sched_ok s0 /\ 0 <= g_seq (sd_group s0)) as Hs0.
  { subst s0. split; [|done]. constructor; cbn; [set_solver|constructor|set_solver|lia|done]. }
  clear H0. induction Hst as [s|s s1 s2 H1 _ IH]; [apply Hs0|]. apply IH. destruct Hs0. by eapply sched_step_ok.
Qed.
End sched.
