(* ===== verification/Wire.v ===== *)
(** rrc/wire: the envelopes of the RRC protocol and the bodies they carry.  The
    CBOR codec (github.com/fxamacker/cbor) is a parameter, the class [Cbor]; what
    the package relies on of it is the class [CborLaws]. *)
From S2P Require Import Prelude Text TextCut.
Local Open Scope Z_scope.

(** ** The codec *)
(** What is encoded: Go values; a raw message is encoded already. *)
Inductive CVal :=
  | VUint (n : Z)
  | VBytes (s : string)
  | VText (s : string)
  | VBool (b : bool)
  | VList (l : list CVal)
  | VMap (l : list (Z * CVal))
  | VRaw (s : string).
(** The keys of a decoded map, and what is decoded into [any]. *)
Inductive CKey := KUint (n : Z) | KNegative (n : Z) | KOther.
Inductive CAny :=
  | AUint (n : Z)
  | ANegative (n : Z)
  | AText (s : string)
  | ABool (b : bool)
  | AMap (l : list (CKey * CAny))
  | AOther.
Class Cbor := {
  (** [encMode.Marshal] *)
  marshal : CVal -> option string;
  (** [decMode.Unmarshal] into a map of raw messages (or the error's text), a
      map, a map with text keys, any value, bytes and a string *)
  unmarshal_raw_map : string -> string + list (CKey * string);
  unmarshal_map : string -> option (list (CKey * CAny));
  unmarshal_text_map : string -> option (list (string * CAny));
  unmarshal_any : string -> option CAny;
  unmarshal_bytes : string -> option string;
  unmarshal_text : string -> option string;
  (** [cbor.Marshal] and [cbor.Unmarshal] of extension fields *)
  marshal_ext : gmap Z string -> option string;
  unmarshal_ext : string -> option (gmap Z string)
}.
(** The major type in an item's first byte, [raw[0]>>5]. *)
Definition major (raw : string) : option Z :=
  match raw with EmptyString => None | String c _ => Some (byte c / 32) end.

(** ** constants.go *)
Definition Version : Z := 1.
Definition KeyV : Z := 0.
Definition KeyT : Z := 1.
Definition KeyID : Z := 2.
Definition KeyTS : Z := 3.
Definition KeySrc : Z := 4.
Definition KeyRoom : Z := 5.
Definition KeyBody : Z := 6.
Definition KeyNick : Z := 7.
Definition KeyDst : Z := 8.
Definition ExtensionMin : Z := 64.

Definition TypeHello : Z := 1.
Definition TypeWelcome : Z := 2.
Definition TypeJoin : Z := 10.
Definition TypeJoined : Z := 11.
Definition TypePart : Z := 12.
Definition TypeParted : Z := 13.
Definition TypeMsg : Z := 20.
Definition TypeNotice : Z := 21.
Definition TypeAction : Z := 22.
Definition TypePing : Z := 30.
Definition TypePong : Z := 31.
Definition TypeError : Z := 40.
Definition TypeResourceEnvelope : Z := 50.
Definition typeNames : list (Z * string) :=
  [(TypeHello, "HELLO"); (TypeWelcome, "WELCOME"); (TypeJoin, "JOIN"); (TypeJoined, "JOINED"); (TypePart, "PART");
   (TypeParted, "PARTED"); (TypeMsg, "MSG"); (TypeNotice, "NOTICE"); (TypeAction, "ACTION"); (TypePing, "PING");
   (TypePong, "PONG"); (TypeError, "ERROR"); (TypeResourceEnvelope, "RESOURCE_ENVELOPE")].
Definition Type_String (t : Z) : string :=
  match List.find (fun p => p.1 =? t) typeNames with
  | Some p => p.2
  | None => cat ["TYPE("; itoa t; ")"]
  end.

(** ** envelope.go *)
Record Envelope := mkEnvelope {
  e_Type : Z;
  e_ID : string;
  e_TS : Z;
  e_Src : string;
  e_Room : string;
  e_Nick : string;
  e_Dst : option string;
  e_Body : string;          (* raw CBOR, empty for none *)
  e_Ext : gmap Z string     (* raw CBOR *)
}.
Record DecodeLimits := mkDecodeLimits { MaxFrameBytes : Z; MaxIDBytes : Z; MaxExtBytes : Z }.
Definition DefaultLimits : DecodeLimits := mkDecodeLimits (256 * 1024) 64 128.
Definition over (limit n : Z) : bool := (0 <? limit) && (limit <? n).

Section wire.
Context {C : Cbor}.

Definition int64_max : Z := 2 ^ 63 - 1.
Definition decodeInt (raw : string) : option Z :=
  match major raw with
  | Some m =>
    if 1 <? m then None else
    match unmarshal_any raw with
    | Some (AUint n) => Some (Z.min n int64_max)
    | Some (ANegative n) => Some n
    | _ => None
    end
  | None => None
  end.
Definition decodeBytes (raw : string) : option string :=
  if bool_decide (major raw = Some 2) then unmarshal_bytes raw else None.
Definition decodeString (raw : string) : option string :=
  if bool_decide (major raw = Some 3) then unmarshal_text raw else None.

(** The fields of an envelope: its unsigned keys. *)
Definition fields_of (raw : list (CKey * string)) : gmap Z string :=
  list_to_map (omap (fun kv => match kv.1 with KUint n => Some (n, kv.2) | _ => None end) raw).
Definition key_other (kv : CKey * string) : bool := match kv.1 with KOther => true | _ => false end.
Definition key_negative (kv : CKey * string) : bool := match kv.1 with KNegative _ => true | _ => false end.
(** A field that may be missing, or else must decode. *)
Definition optional {A} (f : gmap Z string) (k : Z) (absent : A) (dec : string -> option A) (err : string) : string + A :=
  match f !! k with
  | None => inr absent
  | Some raw => match dec raw with Some a => inr a | None => inl err end
  end.
Definition ext_of (f : gmap Z string) : gmap Z string := filter (fun kv => ExtensionMin <= kv.1) f.
(** Value plus the largest encoding of a key. *)
Definition ext_bytes (ext : gmap Z string) : Z := map_fold (fun _ v n => n + (len v + 9)) 0 ext.

Definition decode_fields (lim : DecodeLimits) (f : gmap Z string) : string + Envelope :=
  let fld k := default "" (f !! k) in
  match decodeInt (fld KeyV) with
  | None => inl "protocol version must be an integer"
  | Some v =>
  if negb (v =? Version) then inl ("unsupported version " +:+ itoa v) else
  match (t ← decodeInt (fld KeyT); if t <? 0 then None else Some t) with
  | None => inl "message type must be an integer"
  | Some t =>
  match decodeBytes (fld KeyID) with
  | None => inl "message id must be bytes"
  | Some id =>
  if over (MaxIDBytes lim) (len id)
  then inl (cat ["message id too long: "; itoa (len id); " bytes > "; itoa (MaxIDBytes lim); " bytes"]) else
  match decodeInt (fld KeyTS) with
  | None => inl "timestamp must be an integer"
  | Some ts =>
  if ts <? 0 then inl "timestamp must be unsigned" else
  match decodeBytes (fld KeySrc) with
  | None => inl "sender identity must be bytes"
  | Some src =>
  match optional f KeyRoom "" decodeString "room name must be a string" with
  | inl e => inl e
  | inr room =>
  match optional f KeyNick "" decodeString "nickname must be a string" with
  | inl e => inl e
  | inr nick =>
  match optional f KeyDst None (fun raw => Some <$> decodeBytes raw) "destination identity must be bytes" with
  | inl e => inl e
  | inr dst =>
  let n := ext_bytes (ext_of f) in
  if over (MaxExtBytes lim) n
  then inl (cat ["extension fields too large: "; itoa n; " bytes > "; itoa (MaxExtBytes lim); " bytes"])
  else inr (mkEnvelope t id ts src room nick dst (default "" (f !! KeyBody)) (ext_of f))
  end end end end end end end end.
Definition missing_key (f : gmap Z string) : option Z :=
  List.find (fun k => negb (bool_decide (is_Some (f !! k)))) [KeyV; KeyT; KeyID; KeyTS; KeySrc].
Definition Decode (frame : string) (lim : DecodeLimits) : string + Envelope :=
  if over (MaxFrameBytes lim) (len frame)
  then inl (cat ["frame too large: "; itoa (len frame); " bytes > "; itoa (MaxFrameBytes lim); " bytes"]) else
  if negb (bool_decide (major frame = Some 5)) then inl "envelope must be a CBOR map (dict)" else
  match unmarshal_raw_map frame with
  | inl err => inl ("malformed CBOR: " +:+ err)
  | inr raw =>
    if existsb key_other raw then inl "envelope keys must be integers" else
    if existsb key_negative raw then inl "envelope keys must be unsigned integers" else
    match missing_key (fields_of raw) with
    | Some k => inl ("missing envelope key " +:+ itoa k)
    | None => decode_fields lim (fields_of raw)
    end
  end.

Definition envelope_pairs (e : Envelope) : list (Z * CVal) :=
  map (fun kv => (kv.1, VRaw kv.2)) (List.filter (fun kv => ExtensionMin <=? kv.1) (map_to_list (e_Ext e))) ++
  [(KeyV, VUint Version); (KeyT, VUint (e_Type e)); (KeyID, VBytes (e_ID e)); (KeyTS, VUint (e_TS e)); (KeySrc, VBytes (e_Src e))] ++
  (if bool_decide (e_Room e = "") then [] else [(KeyRoom, VText (e_Room e))]) ++
  (if bool_decide (e_Body e = "") then [] else [(KeyBody, VRaw (e_Body e))]) ++
  (if bool_decide (e_Nick e = "") then [] else [(KeyNick, VText (e_Nick e))]) ++
  match e_Dst e with None => [] | Some d => [(KeyDst, VBytes d)] end.
Definition Encode (e : Envelope) : option string := marshal (VMap (envelope_pairs e)).

Definition BodyString (e : Envelope) : option string :=
  if bool_decide (e_Body e = "") then None else decodeString (e_Body e).
Definition with_body (body : string) (e : Envelope) : Envelope :=
  mkEnvelope (e_Type e) (e_ID e) (e_TS e) (e_Src e) (e_Room e) (e_Nick e) (e_Dst e) body (e_Ext e).
(** [SetBody]; a value that does not encode leaves the envelope as it is. *)
Definition SetBody (v : CVal) (e : Envelope) : option Envelope := (fun b => with_body b e) <$> marshal v.
(** A string always encodes. *)
Definition TextBody (s : string) : string := default "" (marshal (VText s)).

(** ** bodies.go *)
(** constants.go: the keys of the bodies' maps. *)
Definition HelloName : Z := 0.
Definition HelloVersion : Z := 1.
Definition HelloCaps : Z := 2.
Definition HelloLegacyNick : Z := 64.
Definition WelcomeHub : Z := 0.
Definition WelcomeVersion : Z := 1.
Definition WelcomeCaps : Z := 2.
Definition WelcomeLimits : Z := 3.
Definition LimitMaxNickBytes : Z := 0.
Definition LimitMaxRoomNameBytes : Z := 1.
Definition LimitMaxMsgBodyBytes : Z := 2.
Definition LimitMaxRoomsPerSession : Z := 3.
Definition LimitRatePerMinute : Z := 4.
Definition CapAction : Z := 1.
Definition CapDirectNotice : Z := 2.
Definition ResID : Z := 0.
Definition ResKind : Z := 1.
Definition ResSize : Z := 2.
Definition ResSHA256 : Z := 3.
Definition ResEncoding : Z := 4.
Record Hello := mkHello { hl_Name : string; hl_Version : string; hl_Caps : gmap Z bool; hl_LegacyNick : string }.
Definition any_get (m : list (CKey * CAny)) (k : Z) : option CAny :=
  snd <$> List.find (fun kv => match kv.1 with KUint n => n =? k | _ => false end) m.
Definition any_text (a : option CAny) : string := match a with Some (AText s) => s | _ => "" end.
(** Anything but false counts. *)
Definition any_caps (a : option CAny) : gmap Z bool :=
  match a with
  | Some (AMap l) =>
    list_to_map (omap (fun kv => match kv.1 with
                                 | KUint n => Some (n, match kv.2 with ABool on => on | _ => true end)
                                 | _ => None
                                 end) l)
  | _ => ∅
  end.
Definition ParseHello (body : string) : Hello :=
  match (if bool_decide (body = "") then None else unmarshal_map body) with
  | None => mkHello "" "" ∅ ""
  | Some m => mkHello (any_text (any_get m HelloName)) (any_text (any_get m HelloVersion)) (any_caps (any_get m HelloCaps))
      (any_text (any_get m HelloLegacyNick))
  end.
Definition caps_val (caps : gmap Z bool) : CVal :=
  VMap (map (fun kv => (kv.1, VBool true)) (List.filter (fun kv => kv.2) (map_to_list caps))).
Definition Hello_Encode (h : Hello) : option string :=
  marshal (VMap (
    (if bool_decide (hl_Name h = "") then [] else [(HelloName, VText (hl_Name h))]) ++
    (if bool_decide (hl_Version h = "") then [] else [(HelloVersion, VText (hl_Version h))]) ++
    (if bool_decide (hl_Caps h = ∅) then [] else [(HelloCaps, caps_val (hl_Caps h))]) ++
    (if bool_decide (hl_LegacyNick h = "") then [] else [(HelloLegacyNick, VText (hl_LegacyNick h))]))).

Record HubLimits := mkHubLimits {
  MaxNickBytes : Z; wl_MaxRoomNameBytes : Z; MaxMsgBodyBytes : Z; MaxRoomsPerSession : Z; RatePerMinute : Z
}.
Record Welcome := mkWelcome { wc_Hub : string; wc_Version : string; wc_Caps : gmap Z bool; wc_Limits : HubLimits }.
Definition Welcome_Encode (w : Welcome) : option string :=
  let l := wc_Limits w in
  marshal (VMap
    [(WelcomeHub, VText (wc_Hub w)); (WelcomeVersion, VText (wc_Version w)); (WelcomeCaps, caps_val (wc_Caps w));
     (WelcomeLimits, VMap
       [(LimitMaxNickBytes, VUint (MaxNickBytes l)); (LimitMaxRoomNameBytes, VUint (wl_MaxRoomNameBytes l));
        (LimitMaxMsgBodyBytes, VUint (MaxMsgBodyBytes l)); (LimitMaxRoomsPerSession, VUint (MaxRoomsPerSession l));
        (LimitRatePerMinute, VUint (RatePerMinute l))])]).
(** [int(v)] of a uint64: 64 bits, signed. *)
Definition any_int (m : list (CKey * CAny)) (k : Z) : Z :=
  match any_get m k with Some (AUint n) => if n <=? int64_max then n else n - 2 ^ 64 | _ => 0 end.
Definition ParseWelcome (body : string) : Welcome :=
  match (if bool_decide (body = "") then None else unmarshal_map body) with
  | None => mkWelcome "" "" ∅ (mkHubLimits 0 0 0 0 0)
  | Some m =>
    mkWelcome (any_text (any_get m WelcomeHub)) (any_text (any_get m WelcomeVersion)) (any_caps (any_get m WelcomeCaps))
      (match any_get m WelcomeLimits with
       | Some (AMap l) =>
         mkHubLimits (any_int l LimitMaxNickBytes) (any_int l LimitMaxRoomNameBytes) (any_int l LimitMaxMsgBodyBytes)
           (any_int l LimitMaxRoomsPerSession) (any_int l LimitRatePerMinute)
       | _ => mkHubLimits 0 0 0 0 0
       end)
  end.

Record ResourceEnvelope := mkResourceEnvelope {
  re_ID : string; re_Kind : string; re_Size : Z; re_SHA256 : option string; re_Encoding : string
}.
Definition ParseResourceEnvelope (body : string) : string + ResourceEnvelope :=
  match (if bool_decide (major body = Some 5) then unmarshal_raw_map body else inl "") with
  | inl _ => inl "invalid resource envelope body"
  | inr m =>
    let f := fields_of m in
    let fld k := default "" (f !! k) in
    match decodeBytes (fld ResID) with
    | None => inl "resource envelope missing id"
    | Some id =>
    match (k ← decodeString (fld ResKind); if bool_decide (k = "") then None else Some k) with
    | None => inl "resource envelope missing kind"
    | Some kind =>
    match (s ← decodeInt (fld ResSize); if s <? 0 then None else Some s) with
    | None => inl "resource envelope invalid size"
    | Some size =>
    match optional f ResSHA256 None (fun raw => Some <$> decodeBytes raw) "resource envelope invalid sha256" with
    | inl e => inl e
    | inr sha =>
      inr (mkResourceEnvelope id kind size sha (default "" (r ← f !! ResEncoding; decodeString r)))
    end end end end
  end.
Definition ResourceEnvelope_Encode (re : ResourceEnvelope) : option string :=
  marshal (VMap (
    [(ResID, VBytes (re_ID re)); (ResKind, VText (re_Kind re)); (ResSize, VUint (re_Size re))] ++
    match re_SHA256 re with None => [] | Some s => [(ResSHA256, VBytes s)] end ++
    (if bool_decide (re_Encoding re = "") then [] else [(ResEncoding, VText (re_Encoding re))]))).

Definition AnnounceAppData (hubName : string) : option string :=
  kp ← marshal (VText "proto"); vp ← marshal (VText "rrc");
  kv ← marshal (VText "v"); vv ← marshal (VUint Version);
  kh ← marshal (VText "hub"); vh ← marshal (VText hubName);
  Some (cat [of_bytes [163]; kp; vp; kv; vv; kh; vh]).
Definition ParseAnnounceAppData (appData : string) : option string :=
  m ← unmarshal_text_map appData;
  let get k := snd <$> List.find (fun kv => bool_decide (kv.1 = k)) m in
  match get "proto", get "v" with
  | Some (AText proto), Some (AUint v) =>
    if bool_decide (proto = "rrc") && (v =? Version) then Some (any_text (get "hub")) else None
  | _, _ => None
  end.
End wire.
