(* ===== verification/WireSpec.v ===== *)
(** rrc/wire: what is sent is what is read.  [CborLaws] is what the package relies
    on of the codec (RFC 8949, and fxamacker/cbor's [RawMessage]): an encoded
    integer, byte string or text decodes to what it was, and a map to its keys with
    the encodings of its values, in some order.  Envelopes and the announcement of a resource; then a codec
    that keeps the laws. *)
From S2P Require Import Prelude Text TextCut Wire.
Local Open Scope Z_scope.

Class CborLaws (C : Cbor) := {
  (** One well-formed encoded item. *)
  cb_item : string -> Prop;
  cb_raw s : cb_item s -> marshal (VRaw s) = Some s;
  cb_uint n : 0 <= n < 2 ^ 64 -> exists b, marshal (VUint n) = Some b /\ cb_item b /\ major b = Some 0 /\ unmarshal_any b = Some (AUint n);
  cb_bytes s : len s <= int64_max -> exists b, marshal (VBytes s) = Some b /\ cb_item b /\ major b = Some 2 /\ unmarshal_bytes b = Some s;
  cb_text s : len s <= int64_max -> valid_string s = true -> exists b, marshal (VText s) = Some b /\ cb_item b /\ major b = Some 3 /\ unmarshal_text b = Some s;
  cb_map l : NoDup l.*1 -> Z.of_nat (length l) <= int64_max -> Forall (fun kv => 0 <= kv.1 < 2 ^ 64 /\ exists v, marshal kv.2 = Some v /\ cb_item v) l ->
    exists b raw, marshal (VMap l) = Some b /\ major b = Some 5 /\ unmarshal_raw_map b = inr raw /\
      raw ≡ₚ map (fun kv => (KUint kv.1, default "" (marshal kv.2))) l
}.

Section wire.
Context {C : Cbor} {L : CborLaws C}.

Definition enc (v : CVal) : string := default "" (marshal v).
Lemma enc_uint n : 0 <= n <= int64_max -> decodeInt (enc (VUint n)) = Some n.
Proof.
  intros Hn. destruct (cb_uint n) as (b & Hb & _ & Hm & Hu); [unfold int64_max in Hn; lia|]. unfold enc. rewrite Hb. cbn.
  unfold decodeInt. rewrite Hm, Hu. cbn. f_equal. lia.
Qed.
Lemma enc_bytes s : len s <= int64_max -> decodeBytes (enc (VBytes s)) = Some s.
Proof. intros Hs. destruct (cb_bytes s Hs) as (b & Hb & _ & Hm & Hu). unfold enc. rewrite Hb. cbn. unfold decodeBytes. by rewrite bool_decide_eq_true_2. Qed.
Lemma enc_text s : len s <= int64_max -> valid_string s = true -> decodeString (enc (VText s)) = Some s.
Proof. intros Hn Hs. destruct (cb_text s Hn Hs) as (b & Hb & _ & Hm & Hu). unfold enc. rewrite Hb. cbn. unfold decodeString. by rewrite bool_decide_eq_true_2. Qed.

Lemma enc_keys (l : list (Z * CVal)) : (map (fun kv => (kv.1, enc kv.2)) l).*1 = l.*1.
Proof. induction l as [|kv l IH]; [done|]. cbn. by f_equal. Qed.
(** What a map of encoded values decodes to: its fields. *)
Lemma map_fields l : NoDup l.*1 -> Z.of_nat (length l) <= int64_max -> Forall (fun kv => 0 <= kv.1 < 2 ^ 64 /\ exists v, marshal kv.2 = Some v /\ cb_item v) l ->
  exists b raw, marshal (VMap l) = Some b /\ major b = Some 5 /\ unmarshal_raw_map b = inr raw /\
    existsb key_other raw = false /\ existsb key_negative raw = false /\
    fields_of raw = list_to_map (map (fun kv => (kv.1, enc kv.2)) l).
Proof.
  intros Hnd Hn Hl. destruct (cb_map l Hnd Hn Hl) as (b & raw & Hb & Hm & Hu & Hp). exists b, raw. split_and!; [done..| | |].
  - apply not_true_iff_false. intros (x & Hx & Hk)%existsb_exists. apply list_elem_of_In in Hx. rewrite Hp in Hx.
    apply list_elem_of_fmap in Hx as (kv & -> & _). done.
  - apply not_true_iff_false. intros (x & Hx & Hk)%existsb_exists. apply list_elem_of_In in Hx. rewrite Hp in Hx.
    apply list_elem_of_fmap in Hx as (kv & -> & _). done.
  - unfold fields_of. set (l' := map (fun kv => (kv.1, enc kv.2)) l).
    assert (NoDup l'.*1) as Hnd' by by (unfold l'; rewrite enc_keys).
    symmetry. apply list_to_map_proper; [done|]. rewrite Hp. clear. subst l'. induction l as [|kv l IH]; [done|]. cbn. by constructor.
Qed.

(** What may be an entry of a map that is written. *)
Definition entry_ok (kv : Z * CVal) : Prop := 0 <= kv.1 < 2 ^ 64 /\ exists v, marshal kv.2 = Some v /\ cb_item v.
Lemma entry_uint k n : 0 <= k < 2 ^ 64 -> 0 <= n <= int64_max -> entry_ok (k, VUint n).
Proof. intros Hk Hn. split; [done|]. destruct (cb_uint n) as (b & Hb & Hi & _); [unfold int64_max in Hn; lia|by exists b]. Qed.
Lemma entry_bytes k s : 0 <= k < 2 ^ 64 -> len s <= int64_max -> entry_ok (k, VBytes s).
Proof. intros Hk Hn. split; [done|]. destruct (cb_bytes s Hn) as (b & Hb & Hi & _). by exists b. Qed.
Lemma entry_text k s : 0 <= k < 2 ^ 64 -> len s <= int64_max -> valid_string s = true -> entry_ok (k, VText s).
Proof. intros Hk Hn Hs. split; [done|]. destruct (cb_text s Hn Hs) as (b & Hb & Hi & _). by exists b. Qed.
Lemma entry_raw k s : 0 <= k < 2 ^ 64 -> cb_item s -> entry_ok (k, VRaw s).
Proof. intros Hk Hs. split; [done|]. exists s. split; [by apply cb_raw|done]. Qed.

(** ** The envelope *)
(** An envelope that can be written: numbers and lengths in their range, text in UTF-8, and
    bodies and extension fields that are encoded items. *)
Record env_wf (e : Envelope) : Prop := {
  ew_len : Forall (fun s => len s <= int64_max) (e_ID e :: e_Src e :: e_Room e :: e_Nick e :: match e_Dst e with Some d => [d] | None => [] end);
  ew_size : Z.of_nat (size (e_Ext e)) + 9 <= int64_max;
  ew_type : 0 <= e_Type e <= int64_max;
  ew_ts : 0 <= e_TS e <= int64_max;
  ew_room : valid_string (e_Room e) = true;
  ew_nick : valid_string (e_Nick e) = true;
  ew_body : e_Body e = "" \/ cb_item (e_Body e);
  ew_ext : forall k v, e_Ext e !! k = Some v -> ExtensionMin <= k < 2 ^ 64 /\ cb_item v
}.
Definition ext_pairs (e : Envelope) : list (Z * CVal) :=
  map (fun kv => (kv.1, VRaw kv.2)) (List.filter (fun kv => ExtensionMin <=? kv.1) (map_to_list (e_Ext e))).
Definition own_pairs (e : Envelope) : list (Z * CVal) :=
  [(KeyV, VUint Version); (KeyT, VUint (e_Type e)); (KeyID, VBytes (e_ID e)); (KeyTS, VUint (e_TS e)); (KeySrc, VBytes (e_Src e))] ++
  (if bool_decide (e_Room e = "") then [] else [(KeyRoom, VText (e_Room e))]) ++
  (if bool_decide (e_Body e = "") then [] else [(KeyBody, VRaw (e_Body e))]) ++
  (if bool_decide (e_Nick e = "") then [] else [(KeyNick, VText (e_Nick e))]) ++
  match e_Dst e with None => [] | Some d => [(KeyDst, VBytes d)] end.
Lemma envelope_pairs_app e : envelope_pairs e = ext_pairs e ++ own_pairs e.
Proof. done. Qed.
Lemma ext_pairs_keep e : env_wf e -> ext_pairs e = map (fun kv => (kv.1, VRaw kv.2)) (map_to_list (e_Ext e)).
Proof.
  intros Hw. unfold ext_pairs. f_equal. enough (forall l, (forall kv, kv ∈ l -> kv ∈ map_to_list (e_Ext e)) ->
    List.filter (fun kv => ExtensionMin <=? kv.1) l = l) as H by by apply H.
  induction l as [|kv l IH]; intros Hl; [done|]. cbn. destruct kv as [k v]. assert (e_Ext e !! k = Some v) as Hk by (apply elem_of_map_to_list, Hl; set_solver).
  destruct (ew_ext _ Hw _ _ Hk) as [Hk' _]. cbn. destruct (Z.leb_spec ExtensionMin k); [|lia]. rewrite IH; [done|]. intros. apply Hl. set_solver.
Qed.
Lemma own_keys e k : k ∈ (own_pairs e).*1 -> 0 <= k < ExtensionMin.
Proof.
  unfold own_pairs, ExtensionMin. repeat case_bool_decide; destruct (e_Dst e); cbn; intros Hk;
    repeat (apply elem_of_cons in Hk as [->|Hk]; [done|]); by apply elem_of_nil in Hk.
Qed.
Lemma own_NoDup e : NoDup (own_pairs e).*1.
Proof.
  unfold own_pairs. repeat case_bool_decide; destruct (e_Dst e); cbn;
    (apply (bool_decide_unpack _); vm_compute; exact I).
Qed.
Lemma ext_keys e k : env_wf e -> k ∈ (ext_pairs e).*1 -> ExtensionMin <= k < 2 ^ 64.
Proof.
  intros Hw. rewrite ext_pairs_keep by done. intros (kv & -> & (kv' & -> & Hin)%list_elem_of_fmap)%list_elem_of_fmap. destruct kv' as [k v].
  apply elem_of_map_to_list in Hin. by apply (ew_ext _ Hw) in Hin as [Hin _].
Qed.
Lemma pairs_NoDup e : env_wf e -> NoDup (envelope_pairs e).*1.
Proof.
  intros Hw. rewrite envelope_pairs_app, fmap_app. apply NoDup_app. split_and!; [|intros k H1%ext_keys H2%own_keys; [lia|done]|apply own_NoDup].
  rewrite ext_pairs_keep by done. replace (map _ _).*1 with (map_to_list (e_Ext e)).*1; [apply NoDup_fst_map_to_list|].
  induction (map_to_list (e_Ext e)) as [|kv l IH]; cbn; congruence.
Qed.
Lemma pairs_length e : env_wf e -> Z.of_nat (length (envelope_pairs e)) <= int64_max.
Proof.
  intros Hw. rewrite envelope_pairs_app, length_app, ext_pairs_keep, length_map, length_map_to_list by done. pose proof (ew_size _ Hw).
  enough (length (own_pairs e) <= 9)%nat by lia. unfold own_pairs. repeat case_bool_decide; destruct (e_Dst e); cbn; lia.
Qed.
Lemma pairs_encode e : env_wf e -> Forall entry_ok (envelope_pairs e).
Proof.
  intros Hw.
  pose proof Hw as [Hlen _ H1 H2 H3 H4 H5 H6]. rewrite !Forall_cons in Hlen. destruct Hlen as (L1 & L2 & L3 & L4 & L5). rewrite envelope_pairs_app. apply Forall_app_2.
  - rewrite ext_pairs_keep by done. apply Forall_forall. intros kv ([k v] & -> & Hin)%list_elem_of_fmap. apply elem_of_map_to_list in Hin.
    destruct (H6 _ _ Hin). apply entry_raw; [unfold ExtensionMin in *; cbn; lia|done].
  - unfold own_pairs. destruct (e_Dst e); [apply Forall_cons in L5 as [L5 _]|]; repeat first [apply Forall_app_2 | apply Forall_nil_2 | apply Forall_cons_2 | case_bool_decide]; cbn;
      first [by apply entry_uint | by apply entry_bytes | by apply entry_text | by destruct H5; [|apply entry_raw]].
Qed.

Definition own_fields (e : Envelope) : gmap Z string := list_to_map (map (fun kv => (kv.1, enc kv.2)) (own_pairs e)).
Lemma fields_split e : env_wf e ->
  (list_to_map (map (fun kv => (kv.1, enc kv.2)) (envelope_pairs e)) : gmap Z string) = e_Ext e ∪ own_fields e.
Proof.
  intros Hw. rewrite envelope_pairs_app, map_app, list_to_map_app. f_equal. rewrite ext_pairs_keep, map_map by done. cbn.
  rewrite <- (list_to_map_to_list (e_Ext e)) at 2. f_equal.
  enough (forall l, (forall kv, kv ∈ l -> kv ∈ map_to_list (e_Ext e)) -> map (fun kv => (kv.1, enc (VRaw kv.2))) l = l) as H by by apply H.
  induction l as [|[k v] l IH]; intros Hl; [done|]. cbn. rewrite IH by (intros; apply Hl; set_solver). f_equal. f_equal.
  assert (e_Ext e !! k = Some v) as Hk by (apply elem_of_map_to_list, Hl; set_solver). unfold enc. rewrite cb_raw; [done|]. by apply (ew_ext _ Hw) in Hk as [_ Hk].
Qed.
Lemma own_fields_high e k : ExtensionMin <= k -> own_fields e !! k = None.
Proof.
  intros Hk. apply not_elem_of_list_to_map_1. intros Hin.
  rewrite enc_keys in Hin. apply own_keys in Hin. lia.
Qed.
Lemma fields_low e k : env_wf e -> k < ExtensionMin -> (e_Ext e ∪ own_fields e) !! k = own_fields e !! k.
Proof.
  intros Hw Hk. apply lookup_union_r. destruct (e_Ext e !! k) as [v|] eqn:Hv; [|done]. apply (ew_ext _ Hw) in Hv. lia.
Qed.
Lemma fields_ext e : env_wf e -> ext_of (e_Ext e ∪ own_fields e) = e_Ext e.
Proof.
  intros Hw. apply map_eq. intros k. unfold ext_of. destruct (decide (ExtensionMin <= k)) as [Hk|Hk].
  - destruct (e_Ext e !! k) as [v|] eqn:Hv.
    + apply map_lookup_filter_Some. split; [|done]. by apply lookup_union_Some_l.
    + apply map_lookup_filter_None. left. apply lookup_union_None. split; [done|by apply own_fields_high].
  - transitivity (None : option string).
    + apply map_lookup_filter_None. right. intros v _. done.
    + destruct (e_Ext e !! k) as [v|] eqn:Hv; [|done]. apply (ew_ext _ Hw) in Hv. lia.
Qed.
(** The fields an envelope is written with. *)
Lemma own_fields_spec e : let f := own_fields e in
  f !! KeyV = Some (enc (VUint Version)) /\ f !! KeyT = Some (enc (VUint (e_Type e))) /\ f !! KeyID = Some (enc (VBytes (e_ID e))) /\
  f !! KeyTS = Some (enc (VUint (e_TS e))) /\ f !! KeySrc = Some (enc (VBytes (e_Src e))) /\
  f !! KeyRoom = (if bool_decide (e_Room e = "") then None else Some (enc (VText (e_Room e)))) /\
  f !! KeyBody = (if bool_decide (e_Body e = "") then None else Some (enc (VRaw (e_Body e)))) /\
  f !! KeyNick = (if bool_decide (e_Nick e = "") then None else Some (enc (VText (e_Nick e)))) /\
  f !! KeyDst = (fun d => enc (VBytes d)) <$> e_Dst e.
Proof.
  unfold own_fields, own_pairs. repeat case_bool_decide; destruct (e_Dst e); cbn -[enc]; split_and!;
    rewrite ?lookup_insert; cbn; repeat (rewrite lookup_insert_ne by done); rewrite ?lookup_insert_eq, ?lookup_empty; done.
Qed.


(** ** The body of a RESOURCE_ENVELOPE *)
Record resource_wf (re : ResourceEnvelope) : Prop := {
  rw_ID : len (re_ID re) <= int64_max;
  rw_Kind : re_Kind re <> "" /\ len (re_Kind re) <= int64_max /\ valid_string (re_Kind re) = true;
  rw_Size : 0 <= re_Size re <= int64_max;
  rw_SHA256 : forall s, re_SHA256 re = Some s -> len s <= int64_max;
  rw_Encoding : len (re_Encoding re) <= int64_max /\ valid_string (re_Encoding re) = true
}.
(** What announces a resource is read back as it was written, without a hash or an
    encoding too. *)
Theorem resource_roundtrip re : resource_wf re ->
  exists body, ResourceEnvelope_Encode re = Some body /\ ParseResourceEnvelope body = inr re.
Proof.
  intros [H0 (Hk & H1 & H1') H2 H3 [H4 H4']]. unfold ResourceEnvelope_Encode.
  set (l := [_; _; _] ++ _ ++ _). destruct (map_fields l) as (b & raw & Hb & Hm & Hu & _ & _ & Hf).
  { subst l. destruct (re_SHA256 re); case_bool_decide; cbn; apply (bool_decide_unpack _); vm_compute; exact I. }
  { subst l. destruct (re_SHA256 re); case_bool_decide; cbn; done. }
  { subst l. destruct (re_SHA256 re) as [s|]; [pose proof (H3 s eq_refl)|];
      repeat first [apply Forall_app_2 | apply Forall_nil_2 | apply Forall_cons_2 | case_bool_decide];
      first [by apply entry_uint | by apply entry_bytes | by apply entry_text]. }
  exists b. split; [done|]. unfold ParseResourceEnvelope. rewrite bool_decide_eq_true_2, Hu by done. cbv zeta. rewrite Hf. clear Hf Hu Hb Hm.
  assert ((list_to_map (map (fun kv => (kv.1, enc kv.2)) l) : gmap Z string) !! ResID = Some (enc (VBytes (re_ID re))) /\
    (list_to_map (map (fun kv => (kv.1, enc kv.2)) l) : gmap Z string) !! ResKind = Some (enc (VText (re_Kind re))) /\
    (list_to_map (map (fun kv => (kv.1, enc kv.2)) l) : gmap Z string) !! ResSize = Some (enc (VUint (re_Size re))) /\
    (list_to_map (map (fun kv => (kv.1, enc kv.2)) l) : gmap Z string) !! ResSHA256 = (fun s => enc (VBytes s)) <$> re_SHA256 re /\
    (list_to_map (map (fun kv => (kv.1, enc kv.2)) l) : gmap Z string) !! ResEncoding =
      (if bool_decide (re_Encoding re = "") then None else Some (enc (VText (re_Encoding re))))) as (F0 & F1 & F2 & F3 & F4).
  { subst l. destruct (re_SHA256 re); case_bool_decide; cbn -[enc]; split_and!;
      repeat (rewrite lookup_insert_ne by done); rewrite ?lookup_insert_eq, ?lookup_empty; done. }
  unfold optional. rewrite F0, F1, F2, F3, F4. cbn [default from_option id]. unfold id. rewrite enc_bytes, enc_text, enc_uint by done.
  cbn [mbind option_bind]. rewrite bool_decide_eq_false_2 by done. destruct (Z.ltb_spec (re_Size re) 0); [lia|].
  destruct re as [i k sz [s|] en]; cbn in *; [rewrite enc_bytes by auto; cbn|];
    (case_bool_decide; subst; cbn; [done|by rewrite enc_text]).
Qed.
End wire.

(** * A codec

    A concrete codec to try the theorems on: CBOR with arguments in the first byte
    or in eight bytes after it.  It reads what it writes, which is what
    [CborLaws] asks; it does not read everything CBOR allows. *)
(** ** Big-endian numbers *)
Fixpoint be (k : nat) (n : Z) : string :=
  match k with O => "" | S k' => be k' (n / 256) +:+ String (chr (n mod 256)) "" end.
Fixpoint be_read (acc : Z) (s : string) : Z :=
  match s with EmptyString => acc | String c s' => be_read (acc * 256 + byte c) s' end.
Lemma byte_of_chr n : 0 <= n < 256 -> byte (chr n) = n.
Proof. intros Hn. unfold byte, chr. rewrite N_ascii_embedding by lia. lia. Qed.
Lemma be_length k n : String.length (be k n) = k.
Proof. revert n. induction k as [|k IH]; intros n; [done|]. cbn [be]. rewrite length_str_app, IH. cbn. lia. Qed.
Lemma be_read_app acc s t : be_read acc (s +:+ t) = be_read (be_read acc s) t.
Proof. revert acc. induction s as [|c s IH]; intros acc; [done|]. cbn. apply IH. Qed.
Lemma be_read_be k n acc : 0 <= n < 256 ^ Z.of_nat k -> be_read acc (be k n) = acc * 256 ^ Z.of_nat k + n.
Proof.
  revert n. induction k as [|k IH]; intros n Hn; [cbn in *; lia|].
  cbn [be]. rewrite Nat2Z.inj_succ, Z.pow_succ_r in * by lia. rewrite be_read_app, IH.
  - cbn [be_read]. pose proof (Z.mod_pos_bound n 256 ltac:(lia)). rewrite byte_of_chr by done. pose proof (Z.div_mod n 256 ltac:(lia)). nia.
  - split; [apply Z.div_pos; lia|]. apply Z.div_lt_upper_bound; lia.
Qed.

(** ** Heads and items *)
Definition head_of (m n : Z) : string :=
  if n <? 24 then String (chr (m * 32 + n)) "" else String (chr (m * 32 + 27)) (be 8 n).
Definition read_head (s : string) : option (Z * Z * string) :=
  match s with
  | EmptyString => None
  | String c s' =>
    let m := byte c / 32 in
    let a := byte c mod 32 in
    if a <? 24 then Some (m, a, s')
    else if (a =? 27) && (8 <=? String.length s')%nat then Some (m, be_read 0 (str_take 8 s'), str_drop 8 s') else None
  end.
Lemma read_head_of m n t : 0 <= m < 8 -> 0 <= n < 2 ^ 64 -> read_head (head_of m n +:+ t) = Some (m, n, t).
Proof.
  intros Hm Hn. unfold head_of. destruct (Z.ltb_spec n 24).
  - rewrite str_app_cons, str_app_empty. cbn [read_head]. rewrite byte_of_chr by lia. replace ((m * 32 + n) / 32) with m by (rewrite Z.add_comm, Z.div_add, Z.div_small; lia).
    replace ((m * 32 + n) mod 32) with n by (rewrite Z.add_comm, Z.mod_add, Z.mod_small; lia).
    by destruct (Z.ltb_spec n 24); [|lia].
  - rewrite str_app_cons. cbn [read_head]. rewrite byte_of_chr by lia.
    replace ((m * 32 + 27) / 32) with m by (rewrite Z.add_comm, Z.div_add, Z.div_small; lia).
    replace ((m * 32 + 27) mod 32) with 27 by (rewrite Z.add_comm, Z.mod_add, Z.mod_small; lia). cbn [Z.ltb Z.eqb Z.compare Pos.compare Pos.compare_cont Pos.eqb andb].
    rewrite length_str_app, be_length. destruct (Nat.leb_spec 8 (8 + String.length t)); [|lia].
    pose proof (be_length 8 n) as Hl. rewrite <- Hl at 1. rewrite str_take_app. rewrite <- Hl at 2. rewrite str_drop_app.
    rewrite be_read_be; [done|]. replace (256 ^ Z.of_nat 8) with (2 ^ 64) by done. lia.
Qed.
Lemma major_head m n t : 0 <= m < 8 -> 0 <= n -> major (head_of m n +:+ t) = Some m.
Proof.
  intros Hm Hn. unfold head_of. destruct (Z.ltb_spec n 24); rewrite str_app_cons; cbn [major]; rewrite byte_of_chr by lia; f_equal;
    rewrite Z.add_comm, Z.div_add, Z.div_small; lia.
Qed.
Lemma head_length m n : (1 <= String.length (head_of m n))%nat.
Proof. unfold head_of. case_match; cbn; lia. Qed.

(** The rest of the input behind one item, or behind [n]. *)
Fixpoint skip_item (fuel : nat) (s : string) : option string :=
  match fuel with
  | O => None
  | S f =>
    match read_head s with
    | None => None
    | Some (m, n, t) =>
      let fix skip_items (k : nat) (s : string) : option string :=
        match k with O => Some s | S k' => s' ← skip_item f s; skip_items k' s' end in
      if (m =? 2) || (m =? 3) then (if n <=? len t then Some (str_drop (Z.to_nat n) t) else None)
      else if m =? 4 then skip_items (Z.to_nat n) t
      else if m =? 5 then skip_items (Z.to_nat (2 * n)) t
      else if m =? 6 then skip_item f t
      else Some t
    end
  end.
Definition is_item (s : string) : Prop :=
  forall t fuel, (String.length s <= fuel)%nat -> skip_item fuel (s +:+ t) = Some t.

(** ** The codec *)
Definition str_take_to (s rest : string) : string := str_take (String.length s - String.length rest) s.
Definition read_item (s : string) : option (string * string) :=
  rest ← skip_item (String.length s) s; Some (str_take_to s rest, rest).
Fixpoint read_pairs (k : nat) (s : string) : option (list (string * string)) :=
  match k with
  | O => if bool_decide (s = "") then Some [] else None
  | S k' =>
    '(key, s1) ← read_item s; '(v, s2) ← read_item s1; ps ← read_pairs k' s2; Some ((key, v) :: ps)
  end.
Definition demo_key (raw : string) : CKey :=
  match read_head raw with
  | Some (0, n, _) => KUint n
  | Some (1, n, _) => KNegative (- 1 - n)
  | _ => KOther
  end.
Fixpoint demo_marshal (v : CVal) : option string :=
  match v with
  | VUint n => Some (head_of 0 n)
  | VBytes s => Some (head_of 2 (len s) +:+ s)
  | VText s => Some (head_of 3 (len s) +:+ s)
  | VBool b => Some (head_of 7 (if b then 21 else 20))
  | VRaw s => Some s
  | VList l =>
    let fix all (l : list CVal) : option string :=
      match l with [] => Some "" | v :: l' => a ← demo_marshal v; b ← all l'; Some (a +:+ b) end in
    b ← all l; Some (head_of 4 (Z.of_nat (length l)) +:+ b)
  | VMap l =>
    let fix all (l : list (Z * CVal)) : option string :=
      match l with [] => Some "" | (k, v) :: l' => a ← demo_marshal v; b ← all l'; Some (head_of 0 k +:+ a +:+ b) end in
    b ← all l; Some (head_of 5 (Z.of_nat (length l)) +:+ b)
  end.
Definition demo_any (raw : string) : option CAny :=
  match read_head raw with
  | Some (0, n, _) => Some (AUint n)
  | Some (1, n, _) => Some (ANegative (- 1 - n))
  | Some (3, _, t) => Some (AText t)
  | Some _ => Some AOther
  | None => None
  end.
Definition demo_string (m : Z) (raw : string) : option string :=
  '(m', n, t) ← read_head raw; if (m' =? m) && (n =? len t) then Some t else None.
Definition demo_raw_map (s : string) : string + list (CKey * string) :=
  match read_head s with
  | Some (5, n, t) =>
    match read_pairs (Z.to_nat n) t with
    | Some ps => inr (map (fun kv => (demo_key kv.1, kv.2)) ps)
    | None => inl "unexpected EOF"
    end
  | _ => inl "cbor: cannot unmarshal"
  end.
#[export] Instance demo_cbor : Cbor := {|
  marshal := demo_marshal;
  unmarshal_raw_map := demo_raw_map;
  unmarshal_map := fun _ => None;
  unmarshal_text_map := fun _ => None;
  unmarshal_any := demo_any;
  unmarshal_bytes := demo_string 2;
  unmarshal_text := demo_string 3;
  marshal_ext := fun _ => None;
  unmarshal_ext := fun _ => None
|}.

(** ** It keeps the laws *)
Lemma str_take_to_app s t : str_take_to (s +:+ t) t = s.
Proof. unfold str_take_to. rewrite length_str_app, Nat.add_sub. apply str_take_app. Qed.
Lemma read_item_app s t : is_item s -> read_item (s +:+ t) = Some (s, t).
Proof.
  intros Hs. unfold read_item. rewrite Hs by (rewrite length_str_app; lia). cbn. by rewrite str_take_to_app.
Qed.
Lemma skip_head m n f t : 0 <= m < 8 -> 0 <= n < 2 ^ 64 -> m <> 2 -> m <> 3 -> m <> 4 -> m <> 5 -> m <> 6 ->
  skip_item (S f) (head_of m n +:+ t) = Some t.
Proof.
  intros Hm Hn. cbn [skip_item]. rewrite read_head_of by done. intros.
  destruct (Z.eqb_spec m 2), (Z.eqb_spec m 3), (Z.eqb_spec m 4), (Z.eqb_spec m 5), (Z.eqb_spec m 6); done.
Qed.
Lemma item_head m n : 0 <= m < 8 -> 0 <= n < 2 ^ 64 -> m <> 2 -> m <> 3 -> m <> 4 -> m <> 5 -> m <> 6 -> is_item (head_of m n).
Proof. intros. intros t [|f] Hf; [pose proof (head_length m n); lia|]. by apply skip_head. Qed.
Lemma item_string m s : m = 2 \/ m = 3 -> len s <= int64_max -> is_item (head_of m (len s) +:+ s).
Proof.
  intros Hm Hs t [|f] Hf; [rewrite length_str_app in Hf; pose proof (head_length m (len s)); lia|].
  rewrite <- str_app_assoc. cbn [skip_item]. unfold int64_max in Hs. rewrite read_head_of by (unfold len in *; lia).
  assert ((m =? 2) || (m =? 3) = true) as -> by (destruct Hm as [-> | ->]; done).
  destruct (Z.leb_spec (len s) (len (s +:+ t))) as [Hl|Hl]; [|unfold len in Hl; rewrite length_str_app in Hl; lia].
  f_equal. unfold len. rewrite Nat2Z.id. apply str_drop_app.
Qed.
Lemma demo_string_head m s : 0 <= m < 8 -> len s <= int64_max -> demo_string m (head_of m (len s) +:+ s) = Some s.
Proof.
  intros Hm Hs. unfold demo_string. unfold int64_max in Hs. rewrite read_head_of by (unfold len in *; lia). cbn. by rewrite !Z.eqb_refl.
Qed.
(** A map of items reads as its pairs. *)
Definition item_pair (kv : Z * CVal) : Prop := 0 <= kv.1 < 2 ^ 64 /\ exists v, marshal kv.2 = Some v /\ is_item v.
Lemma read_pairs_ok (l : list (Z * CVal)) : Forall item_pair l -> exists b,
  (fix all (l : list (Z * CVal)) : option string :=
      match l with [] => Some "" | (k, v) :: l' => a ← demo_marshal v; b ← all l'; Some (head_of 0 k +:+ a +:+ b) end) l = Some b /\
  read_pairs (length l) b = Some (map (fun kv => (head_of 0 kv.1, default "" (marshal kv.2))) l).
Proof.
  induction l as [|[k v] l IH]; [by exists ""|]. intros [[Hk (a & Ha & Hi)] (b & Hb & Hr)%IH]%Forall_cons. cbn [fst snd] in *.
  exists (head_of 0 k +:+ a +:+ b). change (marshal v) with (demo_marshal v) in Ha. rewrite Ha. cbn [mbind option_bind]. rewrite Hb. split; [done|].
  cbn [length read_pairs map fst snd]. rewrite read_item_app by by apply item_head. cbn. rewrite read_item_app by done. cbn. rewrite Hr. cbn.
  change (marshal v) with (demo_marshal v). by rewrite Ha.
Qed.
#[export] Instance demo_cbor_laws : CborLaws demo_cbor.
Proof.
  refine {| cb_item := is_item |}.
  - done.
  - intros n Hn. exists (head_of 0 n). split; [done|]. split; [by apply item_head|]. pose proof (read_head_of 0 n "" ltac:(lia) Hn) as Hr.
    pose proof (major_head 0 n "" ltac:(lia) ltac:(lia)) as Hm. rewrite str_app_nil in *. split; [done|]. cbn. unfold demo_any. by rewrite Hr.
  - intros s Hs. exists (head_of 2 (len s) +:+ s). split; [done|]. split; [apply item_string; auto|].
    split; [apply major_head; unfold len; lia|]. by apply demo_string_head.
  - intros s Hs _. exists (head_of 3 (len s) +:+ s). split; [done|]. split; [apply item_string; auto|].
    split; [apply major_head; unfold len; lia|]. by apply demo_string_head.
  - intros l _ Hn Hl. destruct (read_pairs_ok l) as (b & Hb & Hr); [done|]. cbn [marshal demo_cbor demo_marshal]. rewrite Hb. cbn [mbind option_bind].
    eexists _, _. split; [done|]. split; [apply major_head; lia|]. cbn [unmarshal_raw_map demo_cbor]. unfold demo_raw_map.
    rewrite read_head_of by (unfold int64_max in Hn; lia). rewrite Nat2Z.id, Hr. split; [done|]. rewrite map_map. cbn.
    match goal with |- ?x ≡ₚ ?y => enough (x = y) as -> by done end. apply map_ext_Forall. eapply Forall_impl; [exact Hl|].
    intros [k v] [Hk _]. cbn in *. unfold demo_key. pose proof (read_head_of 0 k "" ltac:(lia) Hk) as Hr'. rewrite str_app_nil in Hr'.
    by rewrite Hr'.
Defined.
