(* ===== verification/RrcFrames.v ===== *)
(** internal/rrcsrv/envelopes.go: the frames the RRC server sends.  A function
    that draws message ids takes the number of ids drawn so far and gives it back;
    [fresh_id] is crypto/rand.  Then: texts in frames. *)
From S2P Require Import Prelude Text TextCut Db HubCore Clock Sha256 Commands Wire.
Local Open Scope Z_scope.

(** [Config], and what the server is made with besides. *)
Record SConfig := mkSConfig {
  sc_HubName : string;
  sc_Version : string;
  sc_Greeting : list string;
  sc_GroupRoom : string;
  sc_MaxNickBytes : Z;
  sc_MaxRoomNameBytes : Z;
  sc_MaxMsgBodyBytes : Z;
  sc_MaxRoomsPerSession : Z;
  sc_RatePerMinute : Z;
  sc_IncludeJoinedMemberList : bool;
  sc_PingInterval : Z;
  sc_PingTimeout : Z;
  sc_HelloTimeout : Z;
  sc_Workers : Z;
  sc_SendQueue : Z
}.
Definition server_Defaults : SConfig :=
  mkSConfig "ScotMesh" "dev" [] "" 32 64 350 32 240 false (30 * Second) (30 * Second) (30 * Second) 4 256.
(** [New]: what is missing is filled in. *)
Definition server_config (c : SConfig) : SConfig :=
  let d := server_Defaults in
  let fill v def := if v <=? 0 then def else v in
  mkSConfig (if bool_decide (sc_HubName c = "") then sc_HubName d else sc_HubName c)
    (if bool_decide (sc_Version c = "") then sc_Version d else sc_Version c) (sc_Greeting c) (sc_GroupRoom c)
    (fill (sc_MaxNickBytes c) (sc_MaxNickBytes d)) (fill (sc_MaxRoomNameBytes c) (sc_MaxRoomNameBytes d))
    (fill (sc_MaxMsgBodyBytes c) (sc_MaxMsgBodyBytes d)) (fill (sc_MaxRoomsPerSession c) (sc_MaxRoomsPerSession d))
    (fill (sc_RatePerMinute c) (sc_RatePerMinute d)) (sc_IncludeJoinedMemberList c)
    (fill (sc_PingInterval c) (sc_PingInterval d)) (fill (sc_PingTimeout c) (sc_PingTimeout d))
    (fill (sc_HelloTimeout c) (sc_HelloTimeout d)) (fill (sc_Workers c) (sc_Workers d)) (fill (sc_SendQueue c) (sc_SendQueue d)).

(** ** Cutting text *)
(** Cuts [text] into pieces of at most [limit] bytes; [None] if [fuel] is not
    enough, which it may never be. *)
Definition cut_point (text : string) (limit : nat) : nat :=
  let cut := rune_floor text limit in
  match last_index (str_take cut text) " " with
  | Some sp => if (limit / 2 <? sp)%nat then (sp + 1)%nat else cut
  | None => cut
  end.
Fixpoint split_text (fuel limit : nat) (text : string) : option (list string) :=
  if (String.length text <=? limit)%nat then Some (if bool_decide (text = "") then [] else [text]) else
  match fuel with
  | O => None
  | S fuel' =>
    let cut := cut_point text limit in
    cons (trim_right_ascii " " (str_take cut text)) <$> split_text fuel' limit (trim_left_ascii " " (str_drop cut text))
  end.
Definition splitText (text : string) (limit : Z) : option (list string) :=
  if len text <=? limit then Some [text] else split_text (String.length text) (Z.to_nat limit) text.

(** The hub identity's hash, crypto/rand's n-th id, and whether the transport
    takes the n-th frame it is given: the link, the frame. *)
Class RrcEnv := {
  hubHash : string;
  fresh_id : nat -> string;
  SendOnLink : nat -> string -> string -> bool
}.

Section frames.
Context {C : Cbor} {R : RrcEnv} (scfg : SConfig) (now : Z).

(** rns.LinkMDU *)
Definition maxFrame : Z := 431.
Definition hubEnvelope (t : Z) (room : string) (n : nat) : Envelope * nat :=
  (mkEnvelope t (fresh_id n) (unix_milli now) hubHash room "" None "" ∅, S n).
Definition encode (e : Envelope) : option string :=
  b ← Encode e; if maxFrame <? len b then None else Some b.

Definition with_id (id : string) (e : Envelope) : Envelope :=
  mkEnvelope (e_Type e) id (e_TS e) (e_Src e) (e_Room e) (e_Nick e) (e_Dst e) (e_Body e) (e_Ext e).
Definition with_ext (ext : gmap Z string) (e : Envelope) : Envelope :=
  mkEnvelope (e_Type e) (e_ID e) (e_TS e) (e_Src e) (e_Room e) (e_Nick e) (e_Dst e) (e_Body e) ext.
(** The longest text body [e] can carry in one frame. *)
Definition zeros (n : nat) : string := of_bytes (replicate n 0).
Definition bodyBudget (e : Envelope) : Z :=
  match Encode (with_body (TextBody "") (with_id (zeros (Nat.max (String.length (e_ID e)) 8)) e)) with
  | None => 16
  | Some empty => Z.max (Z.min (maxFrame - len empty - 2) (sc_MaxMsgBodyBytes scfg)) 16
  end.
(** Bodies are valid text and the budget is 16 bytes at least, so the cutting
    ends ([split_text_ends]). *)
Definition fitText (e : Envelope) (text : string) : list string := default [] (splitText text (bodyBudget e)).

(** One frame for each part, with an id of its own; a part that does not encode
    is logged and left out. *)
Fixpoint part_frames (e : Envelope) (parts : list string) (n : nat) : list string * nat :=
  match parts with
  | [] => ([], n)
  | p :: ps =>
    let '(fs, n') := part_frames e ps (S n) in
    (match encode (with_body (TextBody p) (with_id (fresh_id n) e)) with Some b => b :: fs | None => fs end, n')
  end.
Fixpoint line_frames (t : Z) (room : string) (lines : list string) (n : nat) : list string * nat :=
  match lines with
  | [] => ([], n)
  | l :: ls =>
    if bool_decide (trim_space l = "") then line_frames t room ls n else
    let '(e, n) := hubEnvelope t room n in
    let '(fs, n) := part_frames e (fitText e l) n in
    let '(fs', n) := line_frames t room ls n in
    (fs ++ fs', n)
  end.
Definition noticeFrames (t : Z) (room text : string) (n : nat) : list string * nat :=
  line_frames t room (split (chr 10) text) n.

Definition whisperFrames (w : Whisper) (to : ident) (n : nat) : list string * nat :=
  let e := mkEnvelope TypeNotice "" (Z.max (Whisper_SaidAt w) 0) (Whisper_From w) "" (Whisper_FromName w) (Some to) "" ∅ in
  part_frames e (fitText e ("(whisper) " +:+ Whisper_Body w)) n.

(** [binary.BigEndian.PutUint64]. *)
Definition uint64_be (z : Z) : string := of_bytes (map (fun i => (z / 256 ^ i) mod 256) [7; 6; 5; 4; 3; 2; 1; 0]).
Definition messageID (m : Message) (part : Z) : string :=
  match Message_OriginID m with
  | Some (String _ _ as o) =>
    if (part =? 0) && bool_decide (Message_Via m = ViaRRC) then o
    else str_take 8 (Sum256 (cat ["scotmesh-chat/"; Message_Room m; "/"; itoa part; "/"; uint64_be (Message_ID m)]))
  | _ => str_take 8 (Sum256 (cat ["scotmesh-chat/"; Message_Room m; "/"; itoa part; "/"; uint64_be (Message_ID m)]))
  end.
Definition message_envelope (m : Message) : Envelope :=
  mkEnvelope (match Message_Kind m with KindAction => TypeAction | KindMsg => TypeMsg end) (messageID m 0)
    (Z.max (Message_SaidAt m) 0) (Message_Author m) (Message_Room m) (Message_AuthorName m) None ""
    (match Message_Ext m with Some (String _ _ as x) => default ∅ (unmarshal_ext x) | _ => ∅ end).
(** " (00/00)" *)
Definition partSuffixWidth : Z := len " (00/00)".
Fixpoint numbered_frames (m : Message) (e : Envelope) (i n : Z) (parts : list string) : list string :=
  match parts with
  | [] => []
  | p :: ps =>
    let e' := if 1 <? n then with_id (messageID m i) e else e in
    let body := if 1 <? n then cat [p; " ("; itoa i; "/"; itoa n; ")"] else p in
    match encode (with_body (TextBody body) e') with
    | Some b => b :: numbered_frames m e (i + 1) n ps
    | None => numbered_frames m e (i + 1) n ps
    end
  end.
Definition messageFrames (m : Message) : list string :=
  let e := message_envelope m in
  if len (Message_Body m) <=? bodyBudget e then numbered_frames m e 1 1 [Message_Body m]
  else
    let e := with_ext ∅ e in
    let parts := default [] (splitText (Message_Body m) (bodyBudget e - partSuffixWidth)) in
    numbered_frames m e 1 (Z.of_nat (length parts)) parts.
End frames.

(** * Texts in frames

    internal/rrcsrv/envelopes.go: cutting a text into frames comes to an end, and
    loses nothing; of texts that are valid UTF-8. *)
Lemma space_cutset : ascii_cutset " ".
Proof. repeat constructor. Qed.
Lemma length_str_take_le i s : (i <= String.length s)%nat -> String.length (str_take i s) = i.
Proof. rewrite length_str_take. lia. Qed.
(** Behind an ASCII character a rune starts. *)
Lemma after_ascii s i c : valid_string s = true -> byte c < 128 -> String.get i s = Some c -> boundary s (i + 1).
Proof.
  intros Hv Hc Hg. assert (i < String.length s)%nat as Hi.
  { destruct (decide (i < String.length s)%nat) as [|Hn]; [done|]. rewrite <- (str_app_nil s) in Hg.
    replace i with (String.length s + (i - String.length s))%nat in Hg by lia. rewrite get_app_r in Hg. done. }
  assert (boundary s i) as Hb by (right; right; exists c; split; [done|]; unfold rune_start, cont; lia).
  destruct (valid_cut s i Hv Hb) as [_ Hd]. pose proof (take_drop i s) as Hs.
  assert (exists t, str_drop i s = String c t) as [t Ht].
  { rewrite <- Hs, <- (length_str_take_le i s) in Hg at 1 by lia. rewrite <- (Nat.add_0_r (String.length _)), get_app_r in Hg.
    destruct (str_drop i s) as [|d t]; [done|]. injection Hg as ->. by exists t. }
  rewrite Ht in Hd, Hs. rewrite valid_ascii_cons in Hd by done. rewrite <- Hs at 1.
  rewrite <- (length_str_take_le i s) at 2 by lia. change (String c t) with ((String c "") +:+ t). rewrite str_app_assoc.
  replace (String.length (str_take i s) + 1)%nat with (String.length (str_take i s +:+ String c "") + 0)%nat
    by (rewrite length_str_app; cbn; lia).
  apply boundary_app_r; [by left|done].
Qed.
Lemma cut_point_ok text limit : valid_string text = true -> (4 <= limit < String.length text)%nat ->
  (1 <= cut_point text limit <= limit)%nat /\ boundary text (cut_point text limit).
Proof.
  intros Hv Hl. unfold cut_point. pose proof (rune_floor_le text limit). pose proof (rune_floor_near text limit Hv ltac:(lia)).
  pose proof (rune_floor_boundary text limit) as Hb. destruct (last_index _ " ") as [sp|] eqn:Hsp; [|split; [lia|done]].
  destruct (Nat.ltb_spec (limit / 2) sp); [|split; [lia|done]].
  apply window_sep in Hsp as (t & Hs & _ & Hl'). change (String.length " ") with 1%nat in Hl'. split; [lia|].
  apply after_ascii with " "%char; [done|done|]. rewrite Hs. rewrite <- (length_str_take_le sp text) at 1 by lia.
  by rewrite <- (Nat.add_0_r (String.length _)), get_app_r.
Qed.

(** [splitText]'s loop ends on every valid text, in pieces that fit, are valid and
    lack nothing of the text but spaces. *)
Theorem split_text_ends text limit fuel :
  valid_string text = true -> (4 <= limit)%nat -> (String.length text <= fuel)%nat ->
  exists parts, split_text fuel limit text = Some parts /\
    Forall (fun p => (String.length p <= limit)%nat /\ valid_string p = true) parts /\
    squeeze " " (cat parts) = squeeze " " text.
Proof.
  intros Hv Hl. revert text Hv. induction fuel as [|fuel IH]; intros text Hv Hf; cbn [split_text].
  - destruct (Nat.leb_spec (String.length text) limit); [|lia]. case_bool_decide as Ht; [subst; by exists []|].
    exists [text]. rewrite cat_cons, str_app_nil. eauto.
  - destruct (Nat.leb_spec (String.length text) limit).
    { case_bool_decide as Ht; [subst; by exists []|]. exists [text]. rewrite cat_cons, str_app_nil. eauto. }
    destruct (cut_point_ok text limit Hv ltac:(lia)) as [Hc Hb]. set (i := cut_point text limit) in *.
    destruct (valid_cut text i Hv Hb) as [H1 H2]. pose proof (trim_left_length " " (str_drop i text)). rewrite length_str_drop in *.
    destruct (IH (trim_left_ascii " " (str_drop i text))) as (parts & -> & HF & Hs); [by apply trim_left_valid; [apply space_cutset|]|lia|].
    eexists. split; [done|]. split.
    + constructor; [|done]. split; [|by apply trim_right_valid; [apply space_cutset|]].
      pose proof (trim_right_length " " (str_take i text)). rewrite length_str_take in *. lia.
    + by rewrite cat_cons, squeeze_app, squeeze_trim_right, Hs, squeeze_trim_left, <- squeeze_app, take_drop.
Qed.

(** Of bytes that are not UTF-8 it need not end, whatever the time it is given. *)
Theorem split_text_spins fuel : split_text fuel 16 (of_bytes (replicate 20 128)) = None.
Proof.
  induction fuel as [|fuel IH]; [done|]. cbn [split_text].
  change (cut_point _ _) with O. rewrite str_drop_0. change (trim_left_ascii _ _) with (of_bytes (replicate 20 128)).
  rewrite IH. done.
Qed.
