(* ===== verification/RrcSession.v ===== *)
(** internal/rrcsrv/session.go and what server.go keeps: a link's session, the
    server's maps of them, its counters, and how frames are queued and written.
    Sessions are objects: the maps hold references into [s_heap], so that two maps
    that hold one session see the same one. *)
From S2P Require Import Prelude Text TextCut Db Names HubCore Ranks Post Adapters Wire RrcFrames.
Local Open Scope Z_scope.

(** A room message held for a link whose JOIN is in progress. *)
Record buffered := mkBuffered { bf_id : Z; bf_frames : list string }.
Definition maxBuffered : nat := 256.
Definition maxPending : nat := 8.

(** [identity] is nil until LINKIDENTIFY, and a nil identity is empty; so is that
    of a public key of the wrong length.  The tokens are counted as in Post.v:
    [b_tokens / Minute] of them. *)
Record session := mkSession {
  ss_link : string;
  ss_start : Z;
  ss_identity : ident;
  ss_pubKey : string;
  ss_welcomed : bool;
  ss_nick : string;
  ss_triedNick : gset string;
  ss_caps : gmap Z bool;
  ss_rooms : gset string;
  ss_joining : gmap string (list buffered);
  ss_lastHeard : Z;
  ss_pingSent : option Z;
  ss_pending : list string;
  ss_tokens : Bucket;
  ss_errorAt : option Z;
  ss_out : list string;
  ss_stopped : bool;
  ss_closing : bool;
  ss_writing : bool   (* its writer has not returned *)
}.
Definition newSession (link : string) (now : Z) (perMinute : Z) : session :=
  mkSession link now "" "" false "" ∅ ∅ ∅ ∅ now None [] (mkBucket (perMinute * Minute) now) None [] false false true.

Definition set_identity id pk ss :=
  mkSession (ss_link ss) (ss_start ss) id pk (ss_welcomed ss) (ss_nick ss) (ss_triedNick ss) (ss_caps ss) (ss_rooms ss) (ss_joining ss)
    (ss_lastHeard ss) (ss_pingSent ss) (ss_pending ss) (ss_tokens ss) (ss_errorAt ss) (ss_out ss) (ss_stopped ss) (ss_closing ss) (ss_writing ss).
Definition set_welcomed x ss :=
  mkSession (ss_link ss) (ss_start ss) (ss_identity ss) (ss_pubKey ss) x (ss_nick ss) (ss_triedNick ss) (ss_caps ss) (ss_rooms ss) (ss_joining ss)
    (ss_lastHeard ss) (ss_pingSent ss) (ss_pending ss) (ss_tokens ss) (ss_errorAt ss) (ss_out ss) (ss_stopped ss) (ss_closing ss) (ss_writing ss).
Definition set_nick x ss :=
  mkSession (ss_link ss) (ss_start ss) (ss_identity ss) (ss_pubKey ss) (ss_welcomed ss) x (ss_triedNick ss) (ss_caps ss) (ss_rooms ss) (ss_joining ss)
    (ss_lastHeard ss) (ss_pingSent ss) (ss_pending ss) (ss_tokens ss) (ss_errorAt ss) (ss_out ss) (ss_stopped ss) (ss_closing ss) (ss_writing ss).
Definition set_triedNick x ss :=
  mkSession (ss_link ss) (ss_start ss) (ss_identity ss) (ss_pubKey ss) (ss_welcomed ss) (ss_nick ss) x (ss_caps ss) (ss_rooms ss) (ss_joining ss)
    (ss_lastHeard ss) (ss_pingSent ss) (ss_pending ss) (ss_tokens ss) (ss_errorAt ss) (ss_out ss) (ss_stopped ss) (ss_closing ss) (ss_writing ss).
Definition set_caps x ss :=
  mkSession (ss_link ss) (ss_start ss) (ss_identity ss) (ss_pubKey ss) (ss_welcomed ss) (ss_nick ss) (ss_triedNick ss) x (ss_rooms ss) (ss_joining ss)
    (ss_lastHeard ss) (ss_pingSent ss) (ss_pending ss) (ss_tokens ss) (ss_errorAt ss) (ss_out ss) (ss_stopped ss) (ss_closing ss) (ss_writing ss).
Definition set_rooms x ss :=
  mkSession (ss_link ss) (ss_start ss) (ss_identity ss) (ss_pubKey ss) (ss_welcomed ss) (ss_nick ss) (ss_triedNick ss) (ss_caps ss) x (ss_joining ss)
    (ss_lastHeard ss) (ss_pingSent ss) (ss_pending ss) (ss_tokens ss) (ss_errorAt ss) (ss_out ss) (ss_stopped ss) (ss_closing ss) (ss_writing ss).
Definition set_joining x ss :=
  mkSession (ss_link ss) (ss_start ss) (ss_identity ss) (ss_pubKey ss) (ss_welcomed ss) (ss_nick ss) (ss_triedNick ss) (ss_caps ss) (ss_rooms ss) x
    (ss_lastHeard ss) (ss_pingSent ss) (ss_pending ss) (ss_tokens ss) (ss_errorAt ss) (ss_out ss) (ss_stopped ss) (ss_closing ss) (ss_writing ss).
Definition set_heard x p ss :=
  mkSession (ss_link ss) (ss_start ss) (ss_identity ss) (ss_pubKey ss) (ss_welcomed ss) (ss_nick ss) (ss_triedNick ss) (ss_caps ss) (ss_rooms ss) (ss_joining ss)
    x p (ss_pending ss) (ss_tokens ss) (ss_errorAt ss) (ss_out ss) (ss_stopped ss) (ss_closing ss) (ss_writing ss).
Definition set_pending x ss :=
  mkSession (ss_link ss) (ss_start ss) (ss_identity ss) (ss_pubKey ss) (ss_welcomed ss) (ss_nick ss) (ss_triedNick ss) (ss_caps ss) (ss_rooms ss) (ss_joining ss)
    (ss_lastHeard ss) (ss_pingSent ss) x (ss_tokens ss) (ss_errorAt ss) (ss_out ss) (ss_stopped ss) (ss_closing ss) (ss_writing ss).
Definition set_tokens x ss :=
  mkSession (ss_link ss) (ss_start ss) (ss_identity ss) (ss_pubKey ss) (ss_welcomed ss) (ss_nick ss) (ss_triedNick ss) (ss_caps ss) (ss_rooms ss) (ss_joining ss)
    (ss_lastHeard ss) (ss_pingSent ss) (ss_pending ss) x (ss_errorAt ss) (ss_out ss) (ss_stopped ss) (ss_closing ss) (ss_writing ss).
Definition set_errorAt x ss :=
  mkSession (ss_link ss) (ss_start ss) (ss_identity ss) (ss_pubKey ss) (ss_welcomed ss) (ss_nick ss) (ss_triedNick ss) (ss_caps ss) (ss_rooms ss) (ss_joining ss)
    (ss_lastHeard ss) (ss_pingSent ss) (ss_pending ss) (ss_tokens ss) x (ss_out ss) (ss_stopped ss) (ss_closing ss) (ss_writing ss).
Definition set_out x ss :=
  mkSession (ss_link ss) (ss_start ss) (ss_identity ss) (ss_pubKey ss) (ss_welcomed ss) (ss_nick ss) (ss_triedNick ss) (ss_caps ss) (ss_rooms ss) (ss_joining ss)
    (ss_lastHeard ss) (ss_pingSent ss) (ss_pending ss) (ss_tokens ss) (ss_errorAt ss) x (ss_stopped ss) (ss_closing ss) (ss_writing ss).
Definition set_ends stopped closing writing ss :=
  mkSession (ss_link ss) (ss_start ss) (ss_identity ss) (ss_pubKey ss) (ss_welcomed ss) (ss_nick ss) (ss_triedNick ss) (ss_caps ss) (ss_rooms ss) (ss_joining ss)
    (ss_lastHeard ss) (ss_pingSent ss) (ss_pending ss) (ss_tokens ss) (ss_errorAt ss) (ss_out ss) stopped closing writing.

(** [inRoom]. *)
Definition inRoom (room : string) (ss : session) : bool := ss_welcomed ss && bool_decide (room ∈ ss_rooms ss).
(** [take]: spends a token from the link's frame budget. *)
Definition take (now perMinute : Z) (ss : session) : bool * session :=
  let b := ss_tokens ss in
  let tokens := Z.min (perMinute * Minute) (b_tokens b + (now - b_at b) * perMinute) in
  if tokens <? Minute then (false, set_tokens (mkBucket tokens now) ss)
  else (true, set_tokens (mkBucket (tokens - Minute) now) ss).
(** [enqueue]: false if the queue is full or the session has stopped. *)
Definition enqueue (queue : Z) (frame : string) (ss : session) : bool * session :=
  if ss_stopped ss || ss_closing ss then (false, ss) else
  if Z.of_nat (length (ss_out ss)) <? queue then (true, set_out (ss_out ss ++ [frame]) ss) else (false, ss).
Definition closeAfterFlush (ss : session) : session :=
  if ss_stopped ss || ss_closing ss then ss else set_ends (ss_stopped ss) true (ss_writing ss) ss.
Definition stop (ss : session) : session :=
  if ss_stopped ss then ss else set_ends true (ss_closing ss) (ss_writing ss) ss.

(** ** The server *)
Record RStats := mkRStats {
  FramesIn : Z; FramesOut : Z; FramesDropped : Z; JobsDropped : Z; RateLimited : Z; BadFrames : Z;
  LinksAccepted : Z; LinksClosed : Z; rs_InternalErrors : Z
}.
Inductive RStat := SFramesIn | SFramesOut | SFramesDropped | SJobsDropped | SRateLimited | SBadFrames
  | SLinksAccepted | SLinksClosed | SInternalErrors.
#[export] Instance RStat_eq_dec : EqDecision RStat.
Proof. solve_decision. Defined.
Definition rstat_add (k : RStat) (n : Z) (s : RStats) : RStats :=
  let up j v := if bool_decide (k = j) then v + n else v in
  mkRStats (up SFramesIn (FramesIn s)) (up SFramesOut (FramesOut s)) (up SFramesDropped (FramesDropped s)) (up SJobsDropped (JobsDropped s))
    (up SRateLimited (RateLimited s)) (up SBadFrames (BadFrames s)) (up SLinksAccepted (LinksAccepted s)) (up SLinksClosed (LinksClosed s))
    (up SInternalErrors (rs_InternalErrors s)).

(** [s_ids] message ids have been drawn; [s_written] is what has been handed to
    [SendOnLink], with whether it was taken, and [s_torn] the links torn down. *)
Record Srv (S : Type) := mkSrv {
  s_hub : S;
  s_heap : list session;
  s_sessions : gmap string nat;
  s_byIdentity : gmap ident (gmap string nat);
  s_stats : RStats;
  s_ids : nat;
  s_written : list (string * string * bool);
  s_torn : list string
}.
Arguments mkSrv {S}. Arguments s_hub {S}. Arguments s_heap {S}. Arguments s_sessions {S}. Arguments s_byIdentity {S}.
Arguments s_stats {S}. Arguments s_ids {S}. Arguments s_written {S}. Arguments s_torn {S}.
Definition server_New {S} (hub : S) : Srv S := mkSrv hub [] ∅ ∅ (mkRStats 0 0 0 0 0 0 0 0 0) O [] [].

Section server.
Context {S : Type}.
Notation SM := (ST (Srv S)).

Definition set_s_hub (x : S) (s : Srv S) : Srv S :=
  mkSrv x (s_heap s) (s_sessions s) (s_byIdentity s) (s_stats s) (s_ids s) (s_written s) (s_torn s).
Definition set_s_heap x (s : Srv S) : Srv S :=
  mkSrv (s_hub s) x (s_sessions s) (s_byIdentity s) (s_stats s) (s_ids s) (s_written s) (s_torn s).
Definition set_s_maps x y (s : Srv S) : Srv S :=
  mkSrv (s_hub s) (s_heap s) x y (s_stats s) (s_ids s) (s_written s) (s_torn s).
Definition set_s_stats x (s : Srv S) : Srv S :=
  mkSrv (s_hub s) (s_heap s) (s_sessions s) (s_byIdentity s) x (s_ids s) (s_written s) (s_torn s).
Definition set_s_ids x (s : Srv S) : Srv S :=
  mkSrv (s_hub s) (s_heap s) (s_sessions s) (s_byIdentity s) (s_stats s) x (s_written s) (s_torn s).
Definition set_s_written x (s : Srv S) : Srv S :=
  mkSrv (s_hub s) (s_heap s) (s_sessions s) (s_byIdentity s) (s_stats s) (s_ids s) x (s_torn s).
Definition set_s_torn x (s : Srv S) : Srv S :=
  mkSrv (s_hub s) (s_heap s) (s_sessions s) (s_byIdentity s) (s_stats s) (s_ids s) (s_written s) x.

(** The object a reference is to; every reference held is to one. *)
Definition deref (r : nat) (s : Srv S) : session := default (newSession "" 0 0) (s_heap s !! r).
Definition ss_get {A} (r : nat) (f : session -> A) : SM A := gets (fun s => f (deref r s)).
Definition ss_mod (r : nat) (f : session -> session) : SM unit := modify (fun s => set_s_heap (alter f r (s_heap s)) s).
(** A method of the session that gives a result. *)
Definition ss_do {A} (r : nat) (f : session -> A * session) : SM A :=
  a <- ss_get r (fun ss => (f ss).1) ;; ss_mod r (fun ss => (f ss).2) ;;; ret a.
Definition s_stat (k : RStat) : SM unit := modify (fun s => set_s_stats (rstat_add k 1 (s_stats s)) s).
(** A request to the hub, and a question; the caller looks at the error. *)
Definition s_call {A} (f : S -> res A * S) : SM (res A) := fun s =>
  let '(r, h) := f (s_hub s) in (Ok r, set_s_hub h s).
Definition s_ask {A} (f : S -> res A) : SM (res A) := gets (fun s => f (s_hub s)).
(** What draws message ids. *)
Definition drawing {A} (f : nat -> A * nat) : SM A := fun s =>
  let '(a, n) := f (s_ids s) in (Ok a, set_s_ids n s).
Definition teardown (link : string) : SM unit := modify (fun s => set_s_torn (s_torn s ++ [link]) s).

(** ** server.go: finding sessions; a map is gone through in the order of its keys *)
Definition session_of (link : string) : SM (option nat) := gets (fun s => s_sessions s !! link).
Definition sessionsOf (id : ident) : SM (list nat) :=
  gets (fun s => (map_to_list (default ∅ (s_byIdentity s !! id))).*2).
Definition allSessions : SM (list nat) := gets (fun s => (map_to_list (s_sessions s)).*2).
Definition sessionsIn (room : string) : SM (list nat) :=
  gets (fun s => List.filter (fun r => inRoom room (deref r s)) (map_to_list (s_sessions s)).*2).

(** ** Sending *)
Section send.
Context {C : Cbor} {R : RrcEnv} (scfg : SConfig) (now : Z).

Definition sendFrame (r : nat) (frame : string) : SM bool :=
  ok <- ss_do r (enqueue (sc_SendQueue scfg) frame) ;;
  if (ok : bool) then ret true else s_stat SFramesDropped ;;; ret false.
Definition sendFrames (r : nat) (frames : list string) : SM unit :=
  foreach frames (fun f => _ <- sendFrame r f ;; ret tt).
Definition send (r : nat) (e : Envelope) : SM bool :=
  match encode e with
  | None => ret false
  | Some frame => sendFrame r frame
  end.
Definition notices (t : Z) (room text : string) : SM (list string) := drawing (noticeFrames scfg now t room text).
Definition notify (r : nat) (t : Z) (room text : string) : SM unit :=
  fs <- notices t room text ;; sendFrames r fs.
Definition sendError (r : nat) (room text : string) : SM unit := notify r TypeError room text.
Definition hub_envelope (t : Z) (room : string) : SM Envelope := drawing (hubEnvelope now t room).
Definition userText (e : Error) : SM string :=
  match e with
  | UserError t => ret t
  | _ => s_stat SInternalErrors ;;; ret "internal error, sorry; the hub operator has been told"
  end.

(** [offerMessage] *)
Definition offerMessage (r : nat) (room : string) (id : Z) (frames : list string) : SM unit :=
  joining <- ss_get r (fun ss => ss_joining ss !! room) ;;
  match joining with
  | Some buf =>
    if (length buf <? maxBuffered)%nat
    then ss_mod r (fun ss => set_joining (<[room := buf ++ [mkBuffered id frames]]> (ss_joining ss)) ss)
    else modify (fun s => set_s_stats (rstat_add SFramesDropped (Z.of_nat (length frames)) (s_stats s)) s)
  | None =>
    in_ <- ss_get r (inRoom room) ;;
    if (in_ : bool) then sendFrames r frames else ret tt
  end.
(** A turn of [writer]: the next frame is sent, or the queue is closed and drained
    and the writer returns; or there is nothing to do yet. *)
Definition writer_turn (r : nat) : SM unit :=
  ss <- ss_get r id ;;
  if negb (ss_writing ss) then ret tt else
  match ss_out ss with
  | frame :: rest =>
    ss_mod r (set_out rest) ;;;
    written <- gets s_written ;;
    let ok := SendOnLink (length written) (ss_link ss) frame in
    modify (set_s_written (written ++ [(ss_link ss, frame, ok)])) ;;;
    if ok then s_stat SFramesOut else ret tt
  | [] =>
    if ss_closing ss then teardown (ss_link ss) ;;; ss_mod r (set_ends (ss_stopped ss) true false)
    else if ss_stopped ss then ss_mod r (set_ends true false false)
    else ret tt
  end.
(** A stopped session's writer may see that first, whatever is queued. *)
Definition writer_quits (r : nat) : SM unit :=
  ss_mod r (fun ss => if ss_stopped ss then set_ends true (ss_closing ss) false ss else ss).
End send.
End server.
