(* ===== verification/RrcHandle.v ===== *)
(** internal/rrcsrv/handle.go: what the server does for a link.  [hub] is any hub
    that keeps the interface [RrcHub]; the configuration and the clock are [scfg]
    and [now]. *)
From S2P Require Import Prelude Text TextCut Db Names HubCore Clock Ranks People Rooms Post Commands Whispers.
From S2P Require Import Adapters Wire RrcFrames RrcSession.
Local Open Scope Z_scope.

Section handle.
Context {E : Env} {C : Cbor} {R : RrcEnv} {S : Type} {HS : RrcHub S} (scfg : SConfig).
Notation SM := (ST (Srv S)).
Notation send := (send scfg).
Notation sendFrame := (sendFrame scfg).
Notation sendFrames := (sendFrames scfg).
Notation notify := (notify scfg now).
Notation sendError := (sendError scfg now).
Notation notices := (notices scfg now).
Notation hub_envelope := (hub_envelope now).

(** ** Links *)
Definition established (link : string) : SM unit :=
  known <- session_of link ;;
  match known with
  | Some _ => ret tt
  | None =>
    modify (fun s => set_s_maps (<[link := length (s_heap s)]> (s_sessions s)) (s_byIdentity s)
                       (set_s_heap (s_heap s ++ [newSession link now (sc_RatePerMinute scfg)]) s)) ;;;
    s_stat SLinksAccepted
  end.
(** The session for a link, made if the established callback was lost. *)
Definition sessionFor (link : string) : SM nat :=
  known <- session_of link ;;
  match known with
  | Some r => ret r
  | None => established link ;;; made <- session_of link ;; ret (default O made)
  end.
(** [refuseLink]: tells a link why it can't stay, then closes it. *)
Definition refusal (e : Error) : SM string :=
  match e with
  | UserError t => ret (if contains t "banned" then "banned" else t)
  | _ => s_stat SInternalErrors ;;; ret "internal error"
  end.
Definition refuseLink (r : nat) (e : Error) : SM unit :=
  text <- refusal e ;;
  sendError r "" text ;;;
  ss_mod r closeAfterFlush.
Definition closed (link : string) : SM unit :=
  known <- session_of link ;;
  id <- (match known with Some r => ss_get r ss_identity | None => ret "" end) ;;
  modify (fun s => set_s_maps (delete link (s_sessions s))
    (if bool_decide (id = "") then s_byIdentity s
     else let links := delete link (default ∅ (s_byIdentity s !! id)) in
          if bool_decide (links = ∅) then delete id (s_byIdentity s) else <[id := links]> (s_byIdentity s)) s) ;;;
  match known with
  | None => ret tt
  | Some r =>
    s_stat SLinksClosed ;;;
    ss_mod r stop ;;;
    rooms <- ss_get r (fun ss => elements (ss_rooms ss)) ;;
    match bool_decide (id = ""), rooms with
    | false, _ :: _ => _ <- s_call (rh_Disconnect id rooms) ;; ret tt
    | _, _ => ret tt
    end
  end.

(** ** HELLO *)
(** [sendMissedWhispers] *)
Definition send_whisper (r : nat) (id : ident) (w : Whisper) : SM unit :=
  fs <- drawing (whisperFrames scfg w id) ;; sendFrames r fs.
Definition sendMissedWhispers (r : nat) : SM unit :=
  id <- ss_get r ss_identity ;;
  ws <- s_ask (rh_UnsentRRCWhispers id) ;;
  match ws with
  | Fail _ => ret tt
  | Ok ws => foreach ws (fun w => send_whisper r id w ;;; _ <- s_call (rh_WhisperSentRRC (Whisper_ID w)) ;; ret tt)
  end.
(** The nickname that comes with HELLO: the person, and what to say of a refusal. *)
Definition hello_nick (r : nat) (id : ident) (nick : string) (person : Person) : SM (Person * string) :=
  match NormalizeNick nick (sc_MaxNickBytes scfg) with
  | None => ret (person, "")
  | Some n =>
    if bool_decide (n = p_Name person) then ret (person, "") else
    p <- s_call (rh_ClaimName id n) ;;
    res <- (match p with
            | Ok p => ret (p, "")
            | Fail e => note <- userText e ;; ret (person, note)
            end) ;;
    ss_mod r (fun ss => set_triedNick ({[n]} ∪ ss_triedNick ss) ss) ;;;
    ret res
  end.
Definition welcome_body : option string :=
  Welcome_Encode (mkWelcome (sc_HubName scfg) (sc_Version scfg) (<[CapAction := true]> (<[CapDirectNotice := true]> ∅))
    (mkHubLimits (sc_MaxNickBytes scfg) (sc_MaxRoomNameBytes scfg) (sc_MaxMsgBodyBytes scfg) (sc_MaxRoomsPerSession scfg)
       (sc_RatePerMinute scfg))).
Definition greeting_lines (person : Person) (note : string) : list string :=
  sc_Greeting scfg ++ ["Commands start with / or, in NomadNet, with ! (try !help)."] ++
  (if negb (bool_decide (note = "")) then [note]
   else if negb (p_Claimed person)
        then [cat ["You are "; p_Name person; ". Set a nickname in your app, or send /nick YourName, to claim a name."]]
        else []).
(** A re-HELLO starts the session afresh: its rooms are left. *)
Definition restart (r : nat) (caps : gmap Z bool) (id : ident) : SM unit :=
  old <- ss_get r (fun ss => (ss_welcomed ss, elements (ss_rooms ss))) ;;
  ss_mod r (fun ss => set_caps caps (set_welcomed false (set_rooms ∅ ss))) ;;;
  match old with
  | (true, (_ :: _) as rooms) => _ <- s_call (rh_Disconnect id rooms) ;; ret tt
  | _ => ret tt
  end.
Definition welcome (r : nat) (person : Person) (note : string) : SM unit :=
  match welcome_body with
  | None => ret tt
  | Some body =>
    e <- hub_envelope TypeWelcome "" ;;
    sent <- send r (with_body body e) ;;
    if negb sent then ret tt else
    ss_mod r (fun ss => set_nick (p_Name person) (set_welcomed true ss)) ;;;
    notify r TypeNotice "" (strings_Join newline (greeting_lines person note)) ;;;
    sendMissedWhispers r
  end.
Definition hello (r : nat) (e : Envelope) : SM unit :=
  let h := ParseHello (e_Body e) in
  id <- ss_get r ss_identity ;;
  restart r (hl_Caps h) id ;;;
  pubKey <- ss_get r ss_pubKey ;;
  p <- s_call (rh_Identify id (Some pubKey)) ;;
  match p with
  | Fail err => refuseLink r err
  | Ok person =>
    let! (person, note) := hello_nick r id (if bool_decide (e_Nick e = "") then hl_LegacyNick h else e_Nick e) person in
    welcome r person note
  end.

(** ** JOIN and PART *)
(** Up to the hub's [Join]: the room whose messages are held from here on, or
    [None] if the JOIN has been answered. *)
Definition join_begin (r : nat) (e : Envelope) : SM (option string) :=
  match NormalizeRoom (e_Room e) (sc_MaxRoomNameBytes scfg) with
  | inl _ => ret (Some "")
  | inr room =>
    in_ <- ss_get r (inRoom room) ;;
    if (in_ : bool) then x <- hub_envelope TypeJoined room ;; _ <- send r x ;; ret None else
    n <- ss_get r (fun ss => Z.of_nat (size (ss_rooms ss))) ;;
    if sc_MaxRoomsPerSession scfg <=? n then sendError r (e_Room e) "too many rooms" ;;; ret None else
    (if bool_decide (room = "") then ret tt else ss_mod r (fun ss => set_joining (<[room := []]> (ss_joining ss)) ss)) ;;;
    ret (Some room)
  end.
(** [finishJoin]: the link becomes a member, and what was held and the replay
    didn't cover is sent. *)
Definition finishJoin (r : nat) (room : string) (seenUpTo : Z) : SM unit :=
  held <- ss_get r (fun ss => default [] (ss_joining ss !! room)) ;;
  ss_mod r (fun ss => set_rooms ({[room]} ∪ ss_rooms ss) (set_joining (delete room (ss_joining ss)) ss)) ;;;
  foreach (List.filter (fun b => seenUpTo <? bf_id b) held) (fun b => sendFrames r (bf_frames b)).
Definition mode_order : list ascii := ["i"; "k"; "m"; "n"; "p"; "r"; "t"]%char.
Definition modeString (modes : string) (key registered : bool) : string :=
  let on m := if (m =? "k")%char then key else if (m =? "r")%char then registered else contains modes (String m "") in
  match List.filter on mode_order with
  | [] => "(none)"
  | ms => "+" +:+ cat (map (fun m => String m "") ms)
  end.
Definition room_info (r : Room) : string :=
  cat ["room "; Room_Name r; ": "; if Room_Registered r then "registered" else "unregistered"; "; mode=";
       modeString (Room_Modes r) (negb (bool_decide (Room_Key r = ""))) (Room_Registered r); "; topic=";
       if bool_decide (Room_Topic r = "") then "(none)" else Room_Topic r].
(** A long member list does not fit; /who has it. *)
Definition with_members (ms : list Member) (e : Envelope) : Envelope :=
  if negb (sc_IncludeJoinedMemberList scfg) then e else
  let e' := default e (SetBody (VList (map (fun m => VBytes (Member_Identity m)) ms)) e) in
  match encode e' with Some _ => e' | None => with_body "" e' end.
Definition end_of_history : string := "— end of history —".
Definition send_history (r : nat) (room note : string) (ms : list Message) : SM unit :=
  match ms with
  | [] => ret tt
  | _ =>
    notify r TypeNotice room note ;;;
    foreach ms (fun m => sendFrames r (messageFrames scfg m)) ;;;
    notify r TypeNotice room end_of_history
  end.
(** What the link hears of the room it is about to be in. *)
Definition join_reply (r : nat) (res : JoinResult) : SM unit :=
  let room := Room_Name (jr_RoomState res) in
  x <- hub_envelope TypeJoined room ;;
  _ <- send r (with_members (jr_Members res) x) ;;
  notify r TypeNotice room (room_info (jr_RoomState res)) ;;;
  send_history r room (jr_ReplayNote res) (jr_Replay res).
Definition join_answer (r : nat) (e : Envelope) (held : string) (res : res JoinResult) : SM unit :=
  match res with
  | Fail err =>
    (if bool_decide (held = "") then ret tt else ss_mod r (fun ss => set_joining (delete held (ss_joining ss)) ss)) ;;;
    text <- userText err ;; sendError r (e_Room e) text
  | Ok res => join_reply r res ;;; finishJoin r (Room_Name (jr_RoomState res)) (jr_SeenUpTo res)
  end.
Definition join (r : nat) (e : Envelope) : SM unit :=
  held <- join_begin r e ;;
  match held with
  | None => ret tt
  | Some held =>
    id <- ss_get r ss_identity ;;
    res <- s_call (rh_Join (mkJoinRequest id (e_Room e) (default "" (BodyString e)))) ;;
    join_answer r e held res
  end.

Definition with_sender (src room nick : string) (e : Envelope) : Envelope :=
  mkEnvelope (e_Type e) (e_ID e) (e_TS e) src room nick (e_Dst e) (e_Body e) (e_Ext e).
Definition identity_list (ids : list ident) (e : Envelope) : Envelope := default e (SetBody (VList (map VBytes ids)) e).
Definition part (r : nat) (e : Envelope) : SM unit :=
  if bool_decide (e_Room e = "") then sendError r "" "PART requires room name" else
  match NormalizeRoom (e_Room e) (sc_MaxRoomNameBytes scfg) with
  | inl err => sendError r (e_Room e) err
  | inr room =>
    in_ <- ss_get r (fun ss => bool_decide (room ∈ ss_rooms ss)) ;;
    ss_mod r (fun ss => set_rooms (ss_rooms ss ∖ {[room]}) ss) ;;;
    id <- ss_get r ss_identity ;;
    (if negb in_ then ret tt else
     p <- s_call (rh_Part id room) ;;
     match p with
     | Ok _ => ret tt
     | Fail err => text <- userText err ;; sendError r (e_Room e) text
     end) ;;;
    x <- hub_envelope TypeParted room ;;
    _ <- send r (identity_list [id] x) ;; ret tt
  end.

(** ** MSG, ACTION and NOTICE *)
Definition nameOf (id : ident) : SM string :=
  p <- s_ask (rh_PersonOf id) ;;
  ret (match p with Ok p => p_Name p | Fail _ => GuestName id end).
(** [maybeClaimNick]: a refusal is explained once per nick per session. *)
Definition maybeClaimNick (r : nat) (nick : string) : SM unit :=
  match NormalizeNick nick (sc_MaxNickBytes scfg) with
  | None => ret tt
  | Some n =>
    known <- ss_get r (fun ss => bool_decide (n = ss_nick ss) || bool_decide (n ∈ ss_triedNick ss)) ;;
    ss_mod r (fun ss => set_triedNick ({[n]} ∪ ss_triedNick ss) ss) ;;;
    if (known : bool) then ret tt else
    id <- ss_get r ss_identity ;;
    p <- s_call (rh_ClaimName id n) ;;
    match p with
    | Fail err => text <- userText err ;; notify r TypeNotice "" text
    | Ok p => ss_mod r (set_nick (p_Name p))
    end
  end.
(** The lines of a command's reply.  They carry no room; all of them go in one
    NOTICE if the command asks for it and they fit. *)
Definition send_reply (r : nat) (reply : Reply) : SM unit :=
  let t := if Reply_Error reply && (length (Lines reply) =? 1)%nat then TypeError else TypeNotice in
  let line_by_line := notify r t "" (Reply_Text reply) in
  if negb (Whole reply) then line_by_line else
  e <- hub_envelope t "" ;;
  let e := with_body (TextBody (Reply_Text reply)) e in
  match (if len (Reply_Text reply) <=? bodyBudget scfg e then encode e else None) with
  | Some frame => _ <- sendFrame r frame ;; ret tt
  | None => line_by_line
  end.
Definition command (r : nat) (e : Envelope) (text : string) : SM unit :=
  let room := match NormalizeRoom (e_Room e) (sc_MaxRoomNameBytes scfg) with inr n => n | inl _ => e_Room e end in
  let room := if bool_decide (e_Room e = "") then "" else room in
  id <- ss_get r ss_identity ;;
  reply <- s_call (rh_Command (mkCommandRequest ViaRRC id room text)) ;;
  match reply with
  | Fail err => text <- userText err ;; sendError r "" text
  | Ok reply =>
    in_ <- ss_get r (inRoom (PartRoom reply)) ;;
    (if negb (bool_decide (PartRoom reply = "")) && in_
     then x <- hub_envelope TypePart (PartRoom reply) ;; part r (with_sender id (e_Room x) (e_Nick x) x)
     else ret tt) ;;;
    send_history r (match Reply_History reply with m :: _ => Message_Room m | [] => "" end) (HistoryNote reply) (Reply_History reply) ;;;
    match Lines reply with [] => ret tt | _ => send_reply r reply end
  end.
Definition direct_notice (r : nat) (e : Envelope) (dst id : ident) : SM unit :=
  if negb (bool_decide (e_Room e = "")) then sendError r "" "direct notice must not include room" else
  may <- s_call (rh_MayNotifyDirect id dst) ;;
  match may with
  | Fail err => text <- userText err ;; sendError r "" text
  | Ok _ =>
    targets <- sessionsOf dst ;;
    match targets with
    | [] => sendError r "" "destination not connected"
    | _ =>
      name <- nameOf id ;;
      match encode (with_sender id (e_Room e) name e) with
      | None => sendError r "" "message too large"
      | Some frame => foreach targets (fun t => _ <- sendFrame t frame ;; ret tt)
      end
    end
  end.
Definition room_notice (r : nat) (e : Envelope) (id : ident) : SM unit :=
  let room := NormalizeRoom (e_Room e) (sc_MaxRoomNameBytes scfg) in
  in_ <- ss_get r (fun ss => match room with inr n => inRoom n ss | inl _ => false end) ;;
  match room with
  | inr room =>
    if negb in_ then sendError r (e_Room e) "no outside messages (+n)" else
    may <- s_call (rh_MayNotice id room) ;;
    match may with
    | Fail err => text <- userText err ;; sendError r room text
    | Ok _ =>
      name <- nameOf id ;;
      match encode (with_sender id room name e) with
      | None => ret tt
      | Some frame => targets <- sessionsIn room ;; foreach targets (fun t => _ <- sendFrame t frame ;; ret tt)
      end
    end
  | inl _ => sendError r (e_Room e) "no outside messages (+n)"
  end.
Definition notice (r : nat) (e : Envelope) : SM unit :=
  id <- ss_get r ss_identity ;;
  match e_Dst e with
  | Some dst => direct_notice r e dst id
  | None => if bool_decide (e_Room e = "") then ret tt else room_notice r e id
  end.

Definition with_type (t : Z) (e : Envelope) : Envelope :=
  mkEnvelope t (e_ID e) (e_TS e) (e_Src e) (e_Room e) (e_Nick e) (e_Dst e) (e_Body e) (e_Ext e).
Definition post (r : nat) (e : Envelope) (text : string) : SM unit :=
  maybeClaimNick r (e_Nick e) ;;;
  id <- ss_get r ss_identity ;;
  res <- s_call (rh_Post (mkPostRequest ViaRRC id (e_Room e) (e_Type e =? TypeAction) text (Some (e_ID e))
    (Z.min (e_TS e) (2 ^ 62)) (if bool_decide (e_Ext e = ∅) then None else marshal_ext (e_Ext e)))) ;;
  match res with
  | Ok _ => ret tt
  | Fail err => text <- userText err ;; sendError r (e_Room e) text
  end.
(** "!me waves" from a client that keeps /me to itself: an ACTION. *)
Definition as_action (e : Envelope) : Envelope :=
  match BodyString e with
  | Some text =>
    if negb (e_Type e =? TypeMsg) then e else
    match ActionText text with
    | Some action => if has_prefix (trim_space text) "!" then with_type TypeAction (with_body (TextBody action) e) else e
    | None => e
    end
  | None => e
  end.
(** ... and its text, which is not read back from the new body. *)
Definition as_action_text (e : Envelope) : option string :=
  match BodyString e with
  | Some text =>
    if negb (e_Type e =? TypeMsg) then Some text else
    match ActionText text with
    | Some action => if has_prefix (trim_space text) "!" then Some action else Some text
    | None => Some text
    end
  | None => None
  end.
Definition message (r : nat) (e0 : Envelope) : SM unit :=
  let e := as_action e0 in
  let text := as_action_text e0 in
  let says p := match text with Some t => p t | None => false end in
  if ((e_Type e =? TypeMsg) || (e_Type e =? TypeNotice)) && says IsCommand then command r e (default "" text) else
  if e_Type e =? TypeNotice then notice r e else
  if bool_decide (e_Room e = "") then sendError r "" "message requires room name" else
  match text with
  | None => sendError r (e_Room e) "message body must be text"
  | Some text =>
    if sc_MaxMsgBodyBytes scfg <? len text
    then sendError r "" (cat ["message too large: "; itoa (len text); " bytes > "; itoa (sc_MaxMsgBodyBytes scfg); " bytes"])
    else post r e text
  end.

(** ** Frames *)
Definition dispatch_frame (r : nat) (e : Envelope) : SM unit :=
  welcomed <- ss_get r ss_welcomed ;;
  let ty t := e_Type e =? t in
  if ty TypePong then ret tt else
  if ty TypePing then x <- hub_envelope TypePong "" ;; _ <- send r (with_body (e_Body e) x) ;; ret tt else
  if ty TypeResourceEnvelope then
    match ParseResourceEnvelope (e_Body e) with inl err => sendError r (e_Room e) err | inr _ => ret tt end else
  if ty TypeHello then hello r e else
  if negb welcomed then sendError r "" "send HELLO first" else
  if ty TypeJoin then join r e else
  if ty TypePart then part r e else
  if ty TypeMsg || ty TypeNotice || ty TypeAction then message r e else ret tt.
Definition frame_limits : DecodeLimits := mkDecodeLimits maxFrame (MaxIDBytes DefaultLimits) (MaxExtBytes DefaultLimits).
(** "rate limited" is said every ten seconds at most. *)
Definition rate_limited (r : nat) : SM unit :=
  s_stat SRateLimited ;;;
  tell <- ss_get r (fun ss => match ss_errorAt ss with None => true | Some t => 10 * Second <? now - t end) ;;
  if (tell : bool) then ss_mod r (set_errorAt (Some now)) ;;; sendError r "" "rate limited" else ret tt.
Definition data (link frame : string) : SM unit :=
  s_stat SFramesIn ;;;
  r <- sessionFor link ;;
  id <- ss_get r ss_identity ;;
  if bool_decide (id = "") then
    ss_mod r (fun ss => if (length (ss_pending ss) <? maxPending)%nat then set_pending (ss_pending ss ++ [frame]) ss else ss)
  else
  ss_mod r (set_heard now None) ;;;
  ok <- ss_do r (take now (sc_RatePerMinute scfg)) ;;
  if negb ok then rate_limited r else
  match Decode frame frame_limits with
  | inl err => s_stat SBadFrames ;;; sendError r "" ("bad message: " +:+ err)
  | inr e => dispatch_frame r e
  end.
(** [resource]: ignored. *)
Definition resource (link body : string) : SM unit := ret tt.
(** [identified]; what the link sent before it is handled now. *)
Definition identified (link pubKey : string) : SM unit :=
  r <- sessionFor link ;;
  let id := IdentityHashFromPublicKey pubKey in
  had <- ss_get r ss_identity ;;
  if negb (bool_decide (had = "")) then ret tt else
  pending <- ss_get r ss_pending ;;
  ss_mod r (fun ss => set_pending [] (set_identity id pubKey ss)) ;;;
  modify (fun s => set_s_maps (s_sessions s) (<[id := <[link := r]> (default ∅ (s_byIdentity s !! id))]> (s_byIdentity s)) s) ;;;
  p <- s_call (rh_Identify id (Some pubKey)) ;;
  match p with
  | Fail err => refuseLink r err
  | Ok _ => foreach pending (data link)
  end.

(** ** Keepalive *)
Definition hang_up (r : nat) : SM unit :=
  ss_mod r stop ;;; link <- ss_get r ss_link ;; teardown link.
Definition keepalive_one (r : nat) : SM unit :=
  ss <- ss_get r id ;;
  if negb (ss_welcomed ss) then
    if sc_HelloTimeout scfg <? now - ss_start ss then hang_up r else ret tt
  else
  match ss_pingSent ss with
  | Some pinged => if sc_PingTimeout scfg <? now - pinged then hang_up r else ret tt
  | None =>
    if negb (sc_PingInterval scfg <? now - ss_lastHeard ss) then ret tt else
    ping <- hub_envelope TypePing "" ;;
    match SetBody (VUint (unix_milli now)) ping with
    | None => ret tt
    | Some ping =>
      sent <- send r ping ;;
      if (sent : bool) then ss_mod r (fun ss => set_heard (ss_lastHeard ss) (Some now) ss) else ret tt
    end
  end.
Definition keepalive : SM unit := all <- allSessions ;; foreach all keepalive_one.
Definition closeAll : SM unit := all <- allSessions ;; foreach all hang_up.
End handle.
