(* ===== verification/RrcFanout.v ===== *)
(** internal/rrcsrv/fanout.go, what hub events become for the sessions they
    concern, and the rest of server.go: the workers and their queues. *)
From S2P Require Import Prelude Text TextCut Db Names HubCore Clock Ranks People Rooms Post Commands Whispers.
From S2P Require Import Adapters Wire RrcFrames RrcSession RrcHandle.
Local Open Scope Z_scope.

Section fanout.
Context {E : Env} {C : Cbor} {R : RrcEnv} {S : Type} {HS : RrcHub S} (scfg : SConfig).
Notation SM := (ST (Srv S)).
Notation sendFrames := (sendFrames scfg).
Notation sendFrame := (sendFrame scfg).
Notation sendError := (sendError scfg now).
Notation notices := (notices scfg now).

(** JOINED or PARTED for the room's other members. *)
Definition presenceChange (t : Z) (room : string) (id : ident) (name : string) : SM unit :=
  if bool_decide (room = "") then ret tt else
  e <- hub_envelope now t room ;;
  match (e ← SetBody (VList [VBytes id]) (with_sender (e_Src e) room name e); encode e) with
  | None => ret tt
  | Some frame =>
    targets <- sessionsIn room ;;
    foreach targets (fun r =>
      own <- ss_get r (fun ss => bool_decide (ss_identity ss = id)) ;;
      if (own : bool) then ret tt else _ <- sendFrame r frame ;; ret tt)
  end.
Definition to_sessions_of (id : ident) (frames : list string) : SM unit :=
  targets <- sessionsOf id ;; foreach targets (fun r => sendFrames r frames).
(** A whisper to one of its identities, and whether a session got it. *)
Definition whisper_to (w : Whisper) (id : ident) : SM bool :=
  targets <- sessionsOf id ;;
  foreach targets (fun r => send_whisper scfg r id w) ;;;
  ret (match targets with [] => false | _ => true end).
Definition remove_from (room : string) (reason : string) (r : nat) : SM unit :=
  in_ <- ss_get r (fun ss => bool_decide (room ∈ ss_rooms ss)) ;;
  ss_mod r (fun ss => set_rooms (ss_rooms ss ∖ {[room]}) ss) ;;;
  if (in_ : bool) then sendError r room reason else ret tt.
Definition ban_session (reason : string) (r : nat) : SM unit :=
  ss_mod r (set_rooms ∅) ;;;
  sendError r "" (if bool_decide (reason = "") then "banned" else reason) ;;;
  ss_mod r closeAfterFlush.

Definition deliver (ev : Event) : SM unit :=
  match ev with
  | WhisperEvent w to =>
    sent <- collect to (whisper_to w) ;;
    if existsb (fun b => b) sent then _ <- s_call (rh_WhisperSentRRC (Whisper_ID w)) ;; ret tt else ret tt
  | MessageEvent m _ =>
    all <- allSessions ;;
    foreach all (fun r => offerMessage scfg r (Message_Room m) (Message_ID m) (messageFrames scfg m))
  | JoinedEvent room id name _ => presenceChange TypeJoined room id name
  | PartedEvent room id name _ => presenceChange TypeParted room id name
  | GroupEvent id name joined => presenceChange (if (joined : bool) then TypeJoined else TypeParted) (sc_GroupRoom scfg) id name
  | NameEvent id _ new => targets <- sessionsOf id ;; foreach targets (fun r => ss_mod r (set_nick new))
  | RoomNoticeEvent room text =>
    fs <- notices TypeNotice room text ;;
    targets <- sessionsIn room ;; foreach targets (fun r => sendFrames r fs)
  | NoticeEvent id _ text _ =>
    fs <- notices TypeNotice "" text ;; to_sessions_of id fs
  | RemovedEvent room id reason => targets <- sessionsOf id ;; foreach targets (remove_from room reason)
  | BannedEvent id reason => targets <- sessionsOf id ;; foreach targets (ban_session reason)
  | LXMFResumeEvent _ _ => ret tt
  end.

(** ** server.go: jobs *)
Inductive job :=
  | jobEstablished (link : string)
  | jobIdentified (link pubKey : string)
  | jobData (link frame : string)
  | jobResource (link body : string)
  | jobClosed (link : string).
Definition job_link (j : job) : string :=
  match j with jobEstablished l | jobIdentified l _ | jobData l _ | jobResource l _ | jobClosed l => l end.
Definition handleJob (j : job) : SM unit :=
  match j with
  | jobEstablished link => established scfg link
  | jobIdentified link pubKey => identified scfg link pubKey
  | jobData link frame => data scfg link frame
  | jobResource link body => resource link body
  | jobClosed link => closed link
  end.
(** [Hooks]: what must be delivered. *)
Definition must_deliver (j : job) : bool :=
  match j with jobEstablished _ | jobIdentified _ _ | jobClosed _ => true | jobData _ _ | jobResource _ _ => false end.
End fanout.

(** [hash/fnv.New32a] of a link, and the worker it is given to. *)
Definition fnv32a (s : string) : Z :=
  fold_left (fun h b => Z.land (Z.lxor h b * 16777619) (2 ^ 32 - 1)) (bytes s) 2166136261.
Definition worker_of (workers : Z) (link : string) : nat := Z.to_nat (fnv32a link mod workers).
Definition jobsMax : nat := 1024.
(** The queues, a list for each worker; the senders that wait for room in one,
    in no order; and how many jobs were dropped. *)
Record Jobs := mkJobs { jb_queues : list (list job); jb_waiting : list (nat * job); jb_dropped : Z }.
Definition jobs_New (c : SConfig) : Jobs := mkJobs (replicate (Z.to_nat (sc_Workers c)) []) [] 0.
(** [Server.enqueue] *)
Definition job_enqueue (j : job) (js : Jobs) : Jobs :=
  let w := worker_of (Z.of_nat (length (jb_queues js))) (job_link j) in
  let q := default [] (jb_queues js !! w) in
  if (length q <? jobsMax)%nat then mkJobs (<[w := q ++ [j]]> (jb_queues js)) (jb_waiting js) (jb_dropped js)
  else if must_deliver j then mkJobs (jb_queues js) (jb_waiting js ++ [(w, j)]) (jb_dropped js)
  else mkJobs (jb_queues js) (jb_waiting js) (jb_dropped js + 1).
(** A waiting sender gets its job into the queue; worker [w] takes its next. *)
Definition job_admit (k : nat) (js : Jobs) : Jobs :=
  match jb_waiting js !! k with
  | None => js
  | Some (w, j) =>
    let q := default [] (jb_queues js !! w) in
    if (length q <? jobsMax)%nat
    then mkJobs (<[w := q ++ [j]]> (jb_queues js)) (delete k (jb_waiting js)) (jb_dropped js) else js
  end.
Definition job_take (w : nat) (js : Jobs) : option (job * Jobs) :=
  match jb_queues js !! w with
  | Some (j :: q) => Some (j, mkJobs (<[w := q]> (jb_queues js)) (jb_waiting js) (jb_dropped js))
  | _ => None
  end.
