(* ===== verification/RrcSpec.v ===== *)
(** The RRC server: what its maps, sessions and queues are at every moment, and
    what a link gets of a room it joins; what comes before HELLO and after a close; and
    what becomes of the jobs on their way to the workers. *)
From S2P Require Import Prelude Text TextCut Db Names HubCore Clock Ranks People Rooms Post Commands Whispers System Adapters Wire RrcFrames RrcSession.
From S2P Require Import RrcHandle RrcFanout.
Local Open Scope Z_scope.

(** ** Frames fit a packet *)
Definition fits (frame : string) : Prop := len frame <= maxFrame.
Definition all_fit (frames : list string) : Prop := Forall fits frames.

Section fit.
Context {C : Cbor} {R : RrcEnv} (scfg : SConfig) (now : Z).
Lemma encode_fits e f : encode e = Some f -> fits f.
Proof. unfold encode, fits. destruct (Encode e) as [b|]; cbn; [|done]. destruct (Z.ltb_spec maxFrame (len b)); [done|]. by intros [= <-]. Qed.
Lemma part_frames_fit e ps n : all_fit (part_frames e ps n).1.
Proof.
  unfold all_fit. revert n. induction ps as [|p ps IH]; intros n; cbn [part_frames]; [constructor|]. specialize (IH (S n)).
  destruct (part_frames e ps (S n)) as [fs n']. cbn in *.
  destruct (encode (with_body _ _)) as [b|] eqn:Hb; [|done]. constructor; [by eapply encode_fits|done].
Qed.
Lemma line_frames_fit t room ls n : all_fit (line_frames scfg now t room ls n).1.
Proof.
  unfold all_fit. revert n. induction ls as [|l ls IH]; intros n; cbn [line_frames]; [constructor|]. case_bool_decide; [done|].
  cbn [hubEnvelope]. destruct (part_frames _ _ _) as [fs n1] eqn:E1. destruct (line_frames _ _ _ _ _ _) as [fs' n2] eqn:E2. cbn.
  apply Forall_app. split; [change fs with (fs, n1).1; rewrite <- E1; apply part_frames_fit|change fs' with (fs', n2).1; rewrite <- E2; apply IH].
Qed.
Lemma noticeFrames_fit t room text n : all_fit (noticeFrames scfg now t room text n).1.
Proof. apply line_frames_fit. Qed.
Lemma whisperFrames_fit w to n : all_fit (whisperFrames scfg w to n).1.
Proof. apply part_frames_fit. Qed.
Lemma numbered_frames_fit m e i n ps : all_fit (numbered_frames m e i n ps).
Proof.
  unfold all_fit. revert i. induction ps as [|p ps IH]; intros i; cbn [numbered_frames]; [constructor|].
  destruct (encode _) as [b|] eqn:Hb; [|done]. constructor; [by eapply encode_fits|done].
Qed.
Lemma messageFrames_fit m : all_fit (messageFrames scfg m).
Proof. unfold messageFrames. case_match; apply numbered_frames_fit. Qed.
End fit.

(** ** The invariant *)
(** A session's queues are within their bounds, and all they hold fits. *)
Record ss_wf (scfg : SConfig) (ss : session) : Prop := {
  sw_out : Z.of_nat (length (ss_out ss)) <= sc_SendQueue scfg;
  sw_fit : all_fit (ss_out ss);
  sw_pending : (length (ss_pending ss) <= maxPending)%nat;
  sw_held : forall room buf, ss_joining ss !! room = Some buf ->
    (length buf <= maxBuffered)%nat /\ Forall (fun b => all_fit (bf_frames b)) buf
}.
(** The maps refer to the sessions whose links and identities they are under,
    and an identified link is under its identity. *)
Record srv_wf {S} (scfg : SConfig) (s : Srv S) : Prop := {
  vw_sessions : Forall (ss_wf scfg) (s_heap s);
  vw_link : forall link r, s_sessions s !! link = Some r -> exists ss, s_heap s !! r = Some ss /\ ss_link ss = link;
  vw_identity : forall id links link r, id <> "" -> s_byIdentity s !! id = Some links -> links !! link = Some r ->
    s_sessions s !! link = Some r /\ exists ss, s_heap s !! r = Some ss /\ ss_identity ss = id;
  vw_listed : forall link r ss, s_sessions s !! link = Some r -> s_heap s !! r = Some ss -> ss_identity ss <> "" ->
    exists links, s_byIdentity s !! ss_identity ss = Some links /\ links !! link = Some r;
  vw_nonempty : forall id, s_byIdentity s !! id <> Some ∅;
  vw_written : Forall (fun w => fits w.1.2) (s_written s)
}.

Section inv.
Context {E : Env} {C : Cbor} {R : RrcEnv} {S : Type} {HS : RrcHub S} (scfg : SConfig).
Notation SM := (ST (Srv S)).
Notation srv_ok := (srv_wf (S := S) scfg).
#[local] Instance srv_ok_weak : Weakening srv_ok := {| weak := srv_ok; weakens _ H := H |}.

(** What leaves a session's place in the maps, and its bounds. *)
Definition quiet (f : session -> session) : Prop :=
  forall ss, ss_link (f ss) = ss_link ss /\ ss_identity (f ss) = ss_identity ss /\ (ss_wf scfg ss -> ss_wf scfg (f ss)).
Lemma quiet_same f : (forall ss, ss_link (f ss) = ss_link ss /\ ss_identity (f ss) = ss_identity ss /\ ss_out (f ss) = ss_out ss /\
  ss_pending (f ss) = ss_pending ss /\ ss_joining (f ss) = ss_joining ss) -> quiet f.
Proof. intros Hf ss. destruct (Hf ss) as (H1 & H2 & H3 & H4 & H5). split_and!; [done..|]. intros []. constructor; by rewrite ?H3, ?H4, ?H5. Qed.

Lemma alter_deref f r (s : Srv S) r' ss' : alter f r (s_heap s) !! r' = Some ss' ->
  exists ss, s_heap s !! r' = Some ss /\ ss' = (if decide (r = r') then f ss else ss).
Proof.
  case_decide as Hr.
  - subst r'. rewrite list_lookup_alter_eq. intros (ss & -> & Hs)%fmap_Some. by exists ss.
  - rewrite list_lookup_alter_ne by done. eauto.
Qed.
Lemma alter_some f r (s : Srv S) r' ss : s_heap s !! r' = Some ss ->
  alter f r (s_heap s) !! r' = Some (if decide (r = r') then f ss else ss).
Proof. intros Hs. case_decide as Hr; [subst; by rewrite list_lookup_alter_eq, Hs|by rewrite list_lookup_alter_ne]. Qed.
Lemma srv_wf_alter_at f r s :
  (forall ss, s_heap s !! r = Some ss -> ss_link (f ss) = ss_link ss /\ ss_identity (f ss) = ss_identity ss /\ (ss_wf scfg ss -> ss_wf scfg (f ss))) ->
  srv_ok s -> srv_ok (set_s_heap (alter f r (s_heap s)) s).
Proof.
  intros Hf [H1 H2 H3 H4 H5 H6].
  assert (forall r' ss, s_heap s !! r' = Some ss -> ss_identity (if decide (r = r') then f ss else ss) = ss_identity ss) as Hid
    by (intros r' ss Hs; case_decide; [subst; apply (Hf _ Hs)|done]).
  constructor; cbn.
  - apply Forall_lookup. intros r' ss' (ss & Hs & ->)%alter_deref. case_decide; [subst; apply (Hf _ Hs)|]; eapply Forall_lookup; eauto.
  - intros link r' Hl. destruct (H2 _ _ Hl) as (ss & Hs & He). eexists. split; [by apply alter_some|].
    case_decide; [|done]. subst. apply (Hf _ Hs).
  - intros id links link r' Hne Hi Hl. destruct (H3 _ _ _ _ Hne Hi Hl) as (Hs & ss & Hh & He). split; [done|]. eexists.
    split; [by apply alter_some|]. by rewrite Hid.
  - intros link r' ss' Hl (ss & Hs & ->)%alter_deref. rewrite (Hid _ _ Hs). by apply H4.
  - done.
  - done.
Qed.
Lemma srv_wf_alter f r s : quiet f -> srv_ok s -> srv_ok (set_s_heap (alter f r (s_heap s)) s).
Proof. intros Hf. apply srv_wf_alter_at. auto. Qed.
Lemma pres_ss_mod r f : quiet f -> pres srv_ok (ss_mod r f).
Proof. intros Hf. apply pres_modify. intros s. by apply srv_wf_alter. Qed.
Lemma pres_rest f : (forall s, s_heap (f s) = s_heap s /\ s_sessions (f s) = s_sessions s /\ s_byIdentity (f s) = s_byIdentity s /\
  s_written (f s) = s_written s) -> pres srv_ok (modify f).
Proof. intros Hf. apply pres_modify. intros s []. destruct (Hf s) as (H1 & H2 & H3 & H4). by constructor; rewrite ?H1, ?H2, ?H3, ?H4. Qed.
Lemma pres_stat k : pres srv_ok (s_stat k).
Proof. by apply pres_rest. Qed.
Lemma pres_teardown l : pres srv_ok (teardown l).
Proof. by apply pres_rest. Qed.
Lemma pres_call {A} (f : S -> res A * S) : pres srv_ok (s_call f).
Proof. intros s []. unfold s_call. destruct (f (s_hub s)). by constructor. Qed.
Lemma pres_ask {A} (f : S -> res A) : pres srv_ok (s_ask f).
Proof. apply pres_gets. Qed.
Lemma pres_drawing {A} (f : nat -> A * nat) : pres srv_ok (drawing f).
Proof. intros s []. unfold drawing. destruct (f (s_ids s)). by constructor. Qed.
Lemma drawing_post {A} (Q : A -> Prop) (f : nat -> A * nat) (s : Srv S) a s' :
  (forall n, Q (f n).1) -> drawing f s = (Ok a, s') -> Q a.
Proof. intros HQ. unfold drawing. specialize (HQ (s_ids s)). destruct (f (s_ids s)). by intros [= <- _]. Qed.
Lemma pres_ss_get {A} r (f : session -> A) : pres srv_ok (ss_get r f).
Proof. apply pres_gets. Qed.

Lemma quiet_enqueue frame : fits frame -> quiet (fun ss => (enqueue (sc_SendQueue scfg) frame ss).2).
Proof.
  intros Hf ss. unfold enqueue. destruct (ss_stopped ss || ss_closing ss); cbn; [done|].
  destruct (Z.ltb_spec (Z.of_nat (length (ss_out ss))) (sc_SendQueue scfg)); [|done]. split_and!; [done..|]. intros []. constructor; cbn; [|by apply Forall_app_2; [|constructor]|done..].
  rewrite length_app. cbn. lia.
Qed.
Lemma quiet_take t perMinute : quiet (fun ss => (take t perMinute ss).2).
Proof. apply quiet_same. intros ss. unfold take. by case_match. Qed.
Lemma quiet_stop : quiet stop.
Proof. apply quiet_same. intros ss. unfold stop. by case_match. Qed.
Lemma quiet_close : quiet closeAfterFlush.
Proof. apply quiet_same. intros ss. unfold closeAfterFlush. by case_match. Qed.
Lemma quiet_joining g : (forall j, (forall room buf, j !! room = Some buf -> (length buf <= maxBuffered)%nat /\ Forall (fun b => all_fit (bf_frames b)) buf) ->
    forall room buf, g j !! room = Some buf -> (length buf <= maxBuffered)%nat /\ Forall (fun b => all_fit (bf_frames b)) buf) ->
  quiet (fun ss => set_joining (g (ss_joining ss)) ss).
Proof. intros Hg ss. split_and!; [done..|]. intros []. constructor; cbn; [done..|]. by apply Hg. Qed.

(** ** Sending *)
Lemma pres_sendFrame r frame : fits frame -> pres srv_ok (sendFrame scfg r frame).
Proof.
  intros Hf. unfold sendFrame, ss_do. apply pres_bind; [|intros [|]; [apply pres_ret|apply pres_bind; [apply pres_stat|intros; apply pres_ret]]].
  apply pres_bind; [apply pres_ss_get|]. intros b. apply pres_bind; [by apply pres_ss_mod, quiet_enqueue|]. intros _. apply pres_ret.
Qed.
Lemma pres_sendFrames r frames : all_fit frames -> pres srv_ok (sendFrames scfg r frames).
Proof.
  intros Hf. apply pres_foreach_in. intros f Hin. apply pres_bind; [|intros; apply pres_ret]. apply pres_sendFrame.
  unfold all_fit in Hf. rewrite Forall_forall in Hf. by apply Hf.
Qed.
Lemma pres_send r e : pres srv_ok (send scfg r e).
Proof. unfold send. destruct (encode e) as [f|] eqn:He; [|apply pres_ret]. apply pres_sendFrame. by eapply encode_fits. Qed.
Lemma pres_notify t r ty room text : pres srv_ok (notify scfg t r ty room text).
Proof.
  unfold notify. eapply (pres_bind_post srv_ok all_fit); [apply pres_drawing| |apply pres_sendFrames].
  intros s a s'. apply drawing_post. intros n. apply noticeFrames_fit.
Qed.
Lemma pres_sendError t r room text : pres srv_ok (sendError scfg t r room text).
Proof. apply pres_notify. Qed.
Lemma pres_userText e : pres srv_ok (userText e).
Proof. unfold userText. destruct e; try apply pres_ret; (apply pres_bind; [apply pres_stat|intros; apply pres_ret]). Qed.
Lemma pres_offerMessage r room id frames : all_fit frames -> pres srv_ok (offerMessage scfg r room id frames).
Proof.
  intros Hf s Hs. unfold offerMessage. erewrite bind_run by done.
  destruct (ss_joining (deref r s) !! room) as [buf|] eqn:Hj.
  - destruct (Nat.ltb_spec (length buf) maxBuffered) as [Hl|Hl]; [|by apply pres_rest].
    cbn.
    assert (Forall (fun b => all_fit (bf_frames b)) buf) as Hb.
    { unfold deref in Hj. destruct (s_heap s !! r) as [ss|] eqn:Hr; cbn in Hj; [|done].
      pose proof (vw_sessions _ _ Hs) as Hw. rewrite Forall_lookup in Hw. by eapply (sw_held _ _ (Hw _ _ Hr)). }
    apply srv_wf_alter; [|done]. intros ss. split_and!; [done..|]. intros []. constructor; cbn; [done..|].
    intros room' buf'. rewrite lookup_insert. case_decide; [|eauto]. intros [= <-]. rewrite length_app. cbn. split; [lia|].
    apply Forall_app_2; [done|by repeat constructor].
  - apply pres_bind; [apply pres_ss_get| |done]. intros [|]; [by apply pres_sendFrames|apply pres_ret].
Qed.

#[local] Hint Resolve pres_stat pres_teardown pres_call pres_ask pres_drawing pres_ss_get pres_send pres_notify pres_sendError pres_userText : pres.
#[local] Hint Extern 2 (pres _ (ss_mod _ _)) => apply pres_ss_mod; first [apply quiet_stop | apply quiet_close | by apply quiet_same] : pres.
#[local] Hint Extern 2 (pres _ (session_of _)) => apply pres_gets : pres.
#[local] Hint Extern 2 (pres _ (sessionsOf _)) => apply pres_gets : pres.
#[local] Hint Extern 2 (pres _ (sessionsIn _)) => apply pres_gets : pres.
#[local] Hint Extern 2 (pres _ allSessions) => apply pres_gets : pres.

(** ** Links *)
Lemma fresh_link (s : Srv S) link r : srv_ok s -> s_sessions s !! link = Some r -> (r < length (s_heap s))%nat.
Proof. intros Hs Hl. destruct (vw_link _ _ Hs _ _ Hl) as (ss & Hr & _). by eapply lookup_lt_Some. Qed.
Lemma new_session_wf link t n : 0 <= sc_SendQueue scfg -> ss_wf scfg (newSession link t n).
Proof. intros Hq. constructor; cbn; [lia|constructor|lia|]. by intros room buf. Qed.
Lemma srv_wf_establish link t n s : 0 <= sc_SendQueue scfg -> s_sessions s !! link = None -> srv_ok s ->
  srv_ok (set_s_maps (<[link := length (s_heap s)]> (s_sessions s)) (s_byIdentity s) (set_s_heap (s_heap s ++ [newSession link t n]) s)).
Proof.
  intros Hq Hl Hs. pose proof (fresh_link s) as Hfr. destruct Hs as [H1 H2 H3 H4 H5 H6].
  assert (forall r, (r < length (s_heap s))%nat -> (s_heap s ++ [newSession link t n]) !! r = s_heap s !! r) as Hold
    by (intros r Hr; by apply lookup_app_l).
  assert ((s_heap s ++ [newSession link t n]) !! length (s_heap s) = Some (newSession link t n)) as Hnew
    by (rewrite lookup_app_r by done; by rewrite Nat.sub_diag).
  constructor; cbn.
  - apply Forall_app_2; [done|]. constructor; [by apply new_session_wf|constructor].
  - intros link' r. rewrite lookup_insert. case_decide as Hd; [intros [= <-]; subst; by eexists|].
    intros Hr. destruct (H2 _ _ Hr) as (ss & Hss & He). exists ss. split; [|done]. rewrite Hold; [done|by eapply lookup_lt_Some].
  - intros id links link' r Hid Hi Hr. destruct (H3 _ _ _ _ Hid Hi Hr) as (Hs & ss & Hss & He). split.
    + rewrite lookup_insert_ne; [done|]. intros ->. congruence.
    + exists ss. split; [|done]. rewrite Hold; [done|by eapply lookup_lt_Some].
  - intros link' r ss. rewrite lookup_insert. case_decide as Hd.
    + intros [= <-]. rewrite Hnew. by intros [= <-].
    + intros Hr Hss. rewrite Hold in Hss by (eapply Hfr; [by constructor|done]). eauto.
  - done.
  - done.
Qed.
Lemma pres_established link : 0 <= sc_SendQueue scfg -> pres srv_ok (established scfg link).
Proof.
  intros Hq s Hs. unfold established. erewrite bind_run by done. destruct (s_sessions s !! link) as [r|] eqn:Hl; [done|].
  erewrite bind_run by done. apply pres_stat. by apply srv_wf_establish.
Qed.
Lemma pres_sessionFor link : 0 <= sc_SendQueue scfg -> pres srv_ok (sessionFor scfg link).
Proof. intros Hq. unfold sessionFor. pose proof (pres_established link Hq). pres_auto. Qed.

(** The maps when a link is gone. *)
Lemma srv_wf_close link s : srv_ok s ->
  let id := match s_sessions s !! link with Some r => ss_identity (deref r s) | None => "" end in
  srv_ok (set_s_maps (delete link (s_sessions s))
    (if bool_decide (id = "") then s_byIdentity s
     else let links := delete link (default ∅ (s_byIdentity s !! id)) in
          if bool_decide (links = ∅) then delete id (s_byIdentity s) else <[id := links]> (s_byIdentity s)) s).
Proof.
  intros Hs id. assert (forall id' links', id' <> "" ->
    (if bool_decide (id = "") then s_byIdentity s
     else let links := delete link (default ∅ (s_byIdentity s !! id)) in
          if bool_decide (links = ∅) then delete id (s_byIdentity s) else <[id := links]> (s_byIdentity s)) !! id' = Some links' ->
    exists links, s_byIdentity s !! id' = Some links /\ links' = delete link links) as Hby.
  { intros id' links' Hid'. assert (id' <> id -> s_byIdentity s !! id' = Some links' -> delete link links' = links') as Hother.
    { intros Hne Hl. apply delete_id. destruct (links' !! link) as [r|] eqn:Hr; [|done]. exfalso. apply Hne.
      destruct (vw_identity _ _ Hs _ _ _ _ Hid' Hl Hr) as (Hlr & ss & Hss & <-). subst id. rewrite Hlr. unfold deref. by rewrite Hss. }
    case_bool_decide as Hi; [intros Hl; exists links'; split; [done|]; by rewrite Hother by congruence|]. cbn zeta.
    destruct (decide (id' = id)) as [->|Hne].
    - case_bool_decide; [by rewrite lookup_delete_eq|]. rewrite lookup_insert_eq. intros [= <-].
      destruct (s_byIdentity s !! id) as [links|]; [by exists links|]. exfalso. cbn in *. by rewrite delete_empty in *. 
    - case_bool_decide; rewrite ?lookup_delete_ne, ?lookup_insert_ne by done; intros Hl; exists links'; split; [done|by rewrite Hother|done|by rewrite Hother]. }
  destruct Hs as [H1 H2 H3 H4 H5 H6]. constructor; cbn.
  - done.
  - intros link' r [_ Hl]%lookup_delete_Some. eauto.
  - intros id' links' link' r Hid' (links & Hi & ->)%Hby Hl; [|done]. apply lookup_delete_Some in Hl as [Hne Hl].
    destruct (H3 _ _ _ _ Hid' Hi Hl) as [Hs Hh]. by rewrite lookup_delete_ne.
  - clear Hby. intros link' r ss [Hne Hl]%lookup_delete_Some Hss Hid'. destruct (H4 _ _ _ Hl Hss Hid') as (links & Hi & Hr).
    destruct (decide (id = "")) as [He|He]; [rewrite bool_decide_eq_true_2 by done; by exists links|rewrite bool_decide_eq_false_2 by done].
    cbn zeta. destruct (decide (id = ss_identity ss)) as [->|Hd].
    + rewrite Hi. cbn. rewrite bool_decide_eq_false_2.
      * rewrite lookup_insert_eq. eexists. split; [done|]. by rewrite lookup_delete_ne.
      * intros He'. apply (f_equal (lookup link')) in He'. by rewrite lookup_delete_ne, Hr in He'.
    + exists links. split; [|done]. case_bool_decide; [by rewrite lookup_delete_ne|by rewrite lookup_insert_ne].
  - clear Hby. intros id' Hl. destruct (decide (id' = "")) as [->|Hid'].
    + case_bool_decide as He; [by apply (H5 "")|]. cbn zeta in *. revert Hl.
      case_bool_decide; rewrite ?lookup_delete_ne, ?lookup_insert_ne by done; apply H5.
    + revert Hl. case_bool_decide as He; [apply H5|]. cbn zeta. case_bool_decide as Hd.
      * intros [_ Hl]%lookup_delete_Some. by apply (H5 id').
      * rewrite lookup_insert. case_decide; [by intros [= ?]|apply H5].
  - done.
Qed.
Lemma pres_closed link : pres srv_ok (closed link).
Proof.
  intros s Hs. unfold closed. erewrite bind_run by done.
  assert ((match s_sessions s !! link with Some r => ss_get r ss_identity | None => ret "" end) s =
    (Ok match s_sessions s !! link with Some r => ss_identity (deref r s) | None => "" end, s)) as Hid by by case_match.
  erewrite bind_run by exact Hid. erewrite bind_run by done.
  match goal with |- keeps _ (?m _) => enough (pres srv_ok m) as Hm by (apply Hm, (srv_wf_close link s Hs)) end.
  destruct (s_sessions s !! link) as [r|]; [|apply pres_ret]. pres_auto.
Qed.

(** ** Handlers *)
Hypothesis Hqueue : 0 <= sc_SendQueue scfg.
#[local] Hint Extern 2 (pres _ (established _ _)) => by apply pres_established : pres.
#[local] Hint Extern 2 (pres _ (sessionFor _ _)) => by apply pres_sessionFor : pres.
#[local] Hint Resolve pres_closed : pres.
Lemma pres_refuseLink r e : pres srv_ok (refuseLink scfg r e).
Proof. unfold refuseLink, refusal. pres_auto. Qed.
Lemma pres_rrc_whisper r id w : pres srv_ok (send_whisper scfg r id w).
Proof.
  unfold send_whisper. eapply (pres_bind_post srv_ok all_fit); [apply pres_drawing| |apply pres_sendFrames].
  intros s a s'. apply drawing_post. intros n. apply whisperFrames_fit.
Qed.
#[local] Hint Resolve pres_refuseLink pres_rrc_whisper : pres.
Lemma pres_hello r e : pres srv_ok (hello scfg r e).
Proof. unfold hello, restart, hello_nick, welcome, sendMissedWhispers. pres_auto. Qed.
Lemma pres_join_begin r e : pres srv_ok (join_begin scfg r e).
Proof.
  unfold join_begin. destruct (NormalizeRoom _ _) as [|room]; [apply pres_ret|]. pres_auto.
  apply pres_ss_mod, (quiet_joining (<[room:=[]]>)). intros j Hj room' buf'. rewrite lookup_insert. case_decide; [|eauto].
  intros [= <-]. split; [cbn; lia|constructor].
Qed.
Lemma pres_send_messages r ms : pres srv_ok (foreach ms (fun m => sendFrames scfg r (messageFrames scfg m))).
Proof. apply pres_foreach. intros m. apply pres_sendFrames, messageFrames_fit. Qed.
#[local] Hint Resolve pres_send_messages : pres.
Lemma pres_send_history r room note ms : pres srv_ok (send_history scfg r room note ms).
Proof. unfold send_history. destruct ms as [|m ms]; [apply pres_ret|]. generalize (m :: ms). pres_auto. Qed.
#[local] Hint Resolve pres_send_history : pres.
Lemma quiet_drop_joining room f : (forall ss, ss_link (f ss) = ss_link ss /\ ss_identity (f ss) = ss_identity ss /\ ss_out (f ss) = ss_out ss /\
  ss_pending (f ss) = ss_pending ss /\ ss_joining (f ss) = delete room (ss_joining ss)) -> quiet f.
Proof.
  intros Hf ss. destruct (Hf ss) as (H1 & H2 & H3 & H4 & H5). split_and!; [done..|]. intros []. constructor; rewrite ?H3, ?H4, ?H5; [done..|].
  intros room' buf [_ Hl]%lookup_delete_Some. eauto.
Qed.
Lemma pres_finishJoin r room k : pres srv_ok (finishJoin scfg r room k).
Proof.
  intros s Hs. unfold finishJoin. erewrite bind_run by done. eapply (pres_bind srv_ok); [| |exact Hs].
  - by apply pres_ss_mod, (quiet_drop_joining room).
  - intros _. apply pres_foreach_in. intros b Hb. apply pres_sendFrames. apply list_elem_of_In, filter_In in Hb as [Hb _]. apply list_elem_of_In in Hb.
    unfold deref in Hb. destruct (s_heap s !! r) as [ss|] eqn:Hr; [|by apply elem_of_nil in Hb]. cbn in Hb.
    destruct (ss_joining ss !! room) as [buf|] eqn:Hj; [|by apply elem_of_nil in Hb]. cbn in Hb.
    pose proof (vw_sessions _ _ Hs) as Hw. rewrite Forall_lookup in Hw. destruct (sw_held _ _ (Hw _ _ Hr) _ _ Hj) as [_ HF].
    rewrite Forall_forall in HF. by apply HF.
Qed.
#[local] Hint Resolve pres_finishJoin : pres.
Lemma pres_join_answer r e held res : pres srv_ok (join_answer scfg r e held res).
Proof.
  unfold join_answer, join_reply. destruct res; pres_auto. by apply pres_ss_mod, (quiet_drop_joining held).
Qed.
#[local] Hint Resolve pres_join_begin pres_join_answer : pres.
Lemma pres_rrc_join r e : pres srv_ok (join scfg r e).
Proof. unfold join. pres_auto. Qed.
Lemma pres_rrc_part r e : pres srv_ok (part scfg r e).
Proof. unfold part. pres_auto. Qed.
Lemma pres_nameOf id : pres srv_ok (nameOf id).
Proof. unfold nameOf. pres_auto. Qed.
#[local] Hint Resolve pres_rrc_join pres_rrc_part pres_nameOf : pres.
Lemma pres_encoded {A} e (k : string -> SM A) (z : SM A) : pres srv_ok z -> (forall f, fits f -> pres srv_ok (k f)) ->
  pres srv_ok (match encode e with None => z | Some f => k f end).
Proof. intros Hz Hk. destruct (encode e) as [f|] eqn:He; [|done]. apply Hk. by eapply encode_fits. Qed.
#[local] Hint Extern 2 (pres _ (sendFrame _ _ _)) => by apply pres_sendFrame : pres.
Ltac srv_auto := intros; repeat (first [apply pres_encoded; [|intros ? ?] | pres_step]; simpl); try done.
Lemma pres_notice r e : pres srv_ok (notice scfg r e).
Proof. unfold notice, direct_notice, room_notice. srv_auto. Qed.
Lemma pres_command r e text : pres srv_ok (command scfg r e text).
Proof.
  assert (forall reply, pres srv_ok (send_reply scfg r reply)) as Hr.
  { intros reply. unfold send_reply. cbn zeta. destruct (negb (Whole reply)); [apply pres_notify|]. apply pres_bind; [apply pres_drawing|].
    intros x. destruct (if _ <=? _ then _ else _) as [f|] eqn:Hf; [|apply pres_notify].
    apply pres_bind; [|intros; apply pres_ret]. apply pres_sendFrame. destruct (_ <=? _); [|done]. by eapply encode_fits. }
  unfold command. apply pres_bind; [apply pres_ss_get|]. intros id. apply pres_bind; [apply pres_call|]. intros [reply|]; [|pres_auto].
  apply pres_bind; [apply pres_ss_get|]. intros b. apply pres_bind; [pres_auto|]. intros _. apply pres_bind; [apply pres_send_history|].
  intros _. destruct (Lines reply); [apply pres_ret|apply Hr].
Qed.
Lemma pres_message r e : pres srv_ok (message scfg r e).
Proof.
  assert (forall x text, pres srv_ok (post scfg r x text)) as Hpost by (intros; unfold post, maybeClaimNick; pres_auto).
  unfold message. generalize (as_action e) (as_action_text e). intros x text. cbn zeta.
  destruct (_ && _); [apply pres_command|]. destruct (_ =? _); [apply pres_notice|]. case_bool_decide; [apply pres_sendError|].
  destruct text; [|apply pres_sendError]. destruct (_ <? _); [apply pres_sendError|apply Hpost].
Qed.
Lemma pres_dispatch r e : pres srv_ok (dispatch_frame scfg r e).
Proof. pose proof pres_message. pose proof pres_hello. unfold dispatch_frame. pres_auto. Qed.
Lemma quiet_pending frame : quiet (fun ss => if (length (ss_pending ss) <? maxPending)%nat then set_pending (ss_pending ss ++ [frame]) ss else ss).
Proof.
  intros ss. destruct (Nat.ltb_spec (length (ss_pending ss)) maxPending); [|done]. split_and!; [done..|]. intros []. constructor; cbn; [done..| |done].
  rewrite length_app. cbn. lia.
Qed.
Lemma pres_data link frame : pres srv_ok (data scfg link frame).
Proof.
  pose proof pres_dispatch. unfold data, rate_limited, ss_do.
  apply pres_bind; [apply pres_stat|intros _]. apply pres_bind; [by apply pres_sessionFor|intros r]. apply pres_bind; [apply pres_ss_get|intros id].
  case_match; [apply pres_ss_mod, quiet_pending|]. pres_auto. apply pres_ss_mod, quiet_take.
Qed.

(** ** Identities *)
Lemma sessionFor_run link s : srv_ok s -> exists s' r,
  sessionFor scfg link s = (Ok r, s') /\ srv_ok s' /\ s_sessions s' !! link = Some r /\ s_hub s' = s_hub s /\
  (s_sessions s !! link = None -> deref r s' = newSession link now (sc_RatePerMinute scfg)) /\
  (is_Some (s_sessions s !! link) -> s' = s).
Proof.
  intros Hs. unfold sessionFor. erewrite bind_run by done. destruct (s_sessions s !! link) as [r|] eqn:Hl.
  { exists s, r. by split_and!. }
  pose proof (pres_established link Hqueue s Hs) as He. unfold established in *. erewrite bind_run in He by done. rewrite Hl in He.
  erewrite bind_run by (erewrite bind_run by done; rewrite Hl; reflexivity).
  cbn. rewrite lookup_insert_eq. cbn. eexists _, _. split_and!; [done|exact He|cbn; by rewrite lookup_insert_eq|done| |].
  - intros _. unfold deref. cbn. rewrite lookup_app_r by done. by rewrite Nat.sub_diag.
  - by intros [? [=]].
Qed.
Lemma srv_wf_identify link id pk r s : srv_ok s -> s_sessions s !! link = Some r -> ss_identity (deref r s) = "" ->
  let s' := set_s_heap (alter (fun ss => set_pending [] (set_identity id pk ss)) r (s_heap s)) s in
  srv_ok (set_s_maps (s_sessions s') (<[id := <[link := r]> (default ∅ (s_byIdentity s' !! id))]> (s_byIdentity s')) s').
Proof.
  intros Hs Hlr Hid0 s'. subst s'. destruct (vw_link _ _ Hs _ _ Hlr) as (ss & Hr & Hlink). unfold deref in Hid0. rewrite Hr in Hid0. cbn in Hid0.
  destruct Hs as [H1 H2 H3 H4 H5 H6].
  assert (forall link', s_sessions s !! link' = Some r -> link' = link) as Huniq.
  { intros link' Hl'. destruct (H2 _ _ Hl') as (ss' & Hr' & <-). congruence. }
  constructor; cbn.
  - apply Forall_lookup. intros r' ss' (ss1 & Hs & ->)%alter_deref.
    rewrite Forall_lookup in H1. specialize (H1 _ _ Hs). case_decide; [|done]. destruct H1. constructor; cbn; [done..|lia|done].
  - intros link' r' Hl'. destruct (H2 _ _ Hl') as (ss1 & Hs & He). eexists. split; [by apply alter_some|]. by case_decide.
  - intros id' links' link' r' Hid' Hi Hl'. rewrite lookup_insert in Hi. 
    assert (exists ss1, s_sessions s !! link' = Some r' /\ s_heap s !! r' = Some ss1 /\ (r' <> r -> ss_identity ss1 = id') /\ (r' = r -> id' = id)) as (ss1 & Hls & Hss & Hne & Heq).
    { case_decide as Hd.
      - injection Hi as <-. subst id'. rewrite lookup_insert in Hl'. case_decide as Hdl; [injection Hl' as <-; subst link'; exists ss; naive_solver|].
        destruct (s_byIdentity s !! id) as [links|] eqn:Hb; [|done]. cbn in Hl'.
        destruct (H3 _ _ _ _ Hid' Hb Hl') as (Hs1 & ss1 & Hs2 & Hs3). exists ss1. naive_solver.
      - destruct (H3 _ _ _ _ Hid' Hi Hl') as (Hs1 & ss1 & Hs2 & Hs3). exists ss1. split_and!; [done..|]. intros ->. congruence. }
    clear Hi. split; [done|]. eexists. split; [by apply alter_some|]. destruct (decide (r = r')) as [<-|Hr']; [cbn; symmetry; auto|auto].
  - intros link' r' ss' Hl' (ss1 & Hs & ->)%alter_deref Hid'. case_decide as Hd.
    + subst r'. cbn. rewrite lookup_insert_eq. eexists. split; [done|]. rewrite (Huniq _ Hl'). apply lookup_insert_eq.
    + destruct (H4 _ _ _ Hl' Hs Hid') as (links & Hi & Hl''). rewrite lookup_insert. case_decide as Hd'.
      * rewrite Hd', Hi. eexists. split; [done|]. cbn. rewrite lookup_insert_ne; [done|]. intros <-. congruence.
      * by exists links.
  - intros id'. rewrite lookup_insert. case_decide; [|apply H5]. intros [= Hi]. by apply insert_non_empty in Hi.
  - done.
Qed.
Lemma pres_identified link pubKey : pres srv_ok (identified scfg link pubKey).
Proof.
  intros s0 Hs0. unfold identified. destruct (sessionFor_run link s0 Hs0) as (s & r & Hrun & Hs & Hl & _). erewrite bind_run by exact Hrun.
  cbn zeta. erewrite bind_run by done. case_bool_decide as Hid; cbn [negb]; [|done].
  do 3 erewrite bind_run by done. cbn beta. pose proof (srv_wf_identify link (IdentityHashFromPublicKey pubKey) pubKey r s Hs Hl Hid) as Hw.
  pose proof pres_refuseLink. pose proof pres_data.
  match goal with |- keeps _ (?m ?x) => enough (pres srv_ok m) as Hm by (apply Hm, Hw) end.
  generalize (ss_pending (deref r s)). pres_auto.
Qed.

(** ** Events, the keepalive, and the writers *)
Lemma pres_hang_up r : pres srv_ok (hang_up r).
Proof. unfold hang_up. pres_auto. Qed.
Lemma pres_keepalive : pres srv_ok (keepalive scfg).
Proof. pose proof pres_hang_up. unfold keepalive. apply pres_bind; [apply pres_gets|]. intros l. apply pres_foreach. intros r. unfold keepalive_one. pres_auto. Qed.
Lemma pres_closeAll : pres srv_ok closeAll.
Proof. pose proof pres_hang_up. unfold closeAll. pres_auto. Qed.
Lemma pres_notices_then {A} t room text (k : list string -> SM A) : (forall fs, all_fit fs -> pres srv_ok (k fs)) ->
  pres srv_ok (fs <- notices scfg now t room text ;; k fs).
Proof.
  intros Hk. eapply (pres_bind_post srv_ok all_fit); [apply pres_drawing| |done]. intros s a s'. apply drawing_post. intros n. apply noticeFrames_fit.
Qed.
Lemma pres_deliver ev : pres srv_ok (deliver scfg ev).
Proof.
  assert (forall t room id name, pres srv_ok (presenceChange scfg t room id name)) as Hp.
  { intros. unfold presenceChange. case_match; [apply pres_ret|]. apply pres_bind; [apply pres_drawing|]. intros e.
    destruct (SetBody _ _) as [e'|]; [|apply pres_ret]. cbn [option_bind mbind]. srv_auto. }
  destruct ev; cbn [deliver]; auto with pres.
  - apply pres_bind; [apply pres_gets|]. intros all. apply pres_foreach. intros r. apply pres_offerMessage, messageFrames_fit.
  - pres_auto.
  - apply pres_notices_then. intros fs Hfs. pose proof (fun r => pres_sendFrames r fs Hfs). pres_auto.
  - apply pres_notices_then. intros fs Hfs. pose proof (fun r => pres_sendFrames r fs Hfs). unfold to_sessions_of. pres_auto.
  - unfold remove_from. pres_auto.
  - unfold ban_session. pres_auto.
  - apply pres_bind; [|intros l; pres_auto]. apply pres_collect. intros id. unfold whisper_to. pres_auto.
Qed.
Lemma pres_writer_turn r : pres srv_ok (writer_turn r).
Proof.
  intros s Hs. unfold writer_turn. erewrite bind_run by done. unfold id. destruct (ss_writing (deref r s)) eqn:Hw; cbn [negb]; [|done].
  destruct (ss_out (deref r s)) as [|frame rest] eqn:Ho.
  - match goal with |- keeps _ (?m ?x) => enough (pres srv_ok m) as Hm by (by apply Hm) end. pres_auto.
  - assert (all_fit (frame :: rest) /\ Z.of_nat (length (frame :: rest)) <= sc_SendQueue scfg) as [Hf Hl].
    { unfold deref in *. destruct (s_heap s !! r) as [ss|] eqn:Hr; [|done]. cbn in Ho. pose proof (vw_sessions _ _ Hs) as HF.
      rewrite Forall_lookup in HF. destruct (HF _ _ Hr) as [H1 H2 _ _]. by rewrite Ho in *. }
    apply Forall_cons in Hf as [Hf Hrest]. cbn in Hl. do 3 erewrite bind_run by done. cbn beta zeta.
    match goal with |- keeps _ (?m ?x) => assert (srv_ok x) as Hx; [|enough (pres srv_ok m) as Hm by (by apply Hm); pres_auto] end.
    assert (srv_ok (set_s_heap (alter (set_out rest) r (s_heap s)) s)) as [H1 H2 H3 H4 H5 H6].
    { apply srv_wf_alter_at; [|done]. intros ss _. split_and!; [done..|]. intros []. constructor; cbn; [lia|done..]. }
    constructor; [done..|]. apply Forall_app_2; [done|by constructor].
Qed.
Lemma pres_writer_quits r : pres srv_ok (writer_quits r).
Proof. apply pres_ss_mod, quiet_same. intros ss. by case_match. Qed.
Lemma pres_handleJob j : pres srv_ok (handleJob scfg j).
Proof.
  pose proof pres_identified. pose proof pres_data. destruct j; cbn [handleJob]; auto with pres. by apply pres_ret.
Qed.
Lemma pres_s {A} (m : SM A) s : pres srv_ok m -> srv_ok s -> srv_ok (m s).2.
Proof. intros Hm Hs. specialize (Hm s Hs). by destruct (m s) as [[a|e] s']; [|destruct Hm]. Qed.
End inv.

(** ** The server as a state machine

    Workers, the fan-out, the keepalive and the writers take turns in any order,
    at any times; a JOIN may be in progress meanwhile, and the hub changes under
    the server's hands. *)
Section machine.
Context {W : Env} {C : Cbor} {R : RrcEnv} {S : Type} {HS : Z -> RrcHub S} (scfg : SConfig).

Inductive srv_step : Srv S -> Srv S -> Prop :=
  | srv_job t j s : srv_step s (handleJob (E := at_time W t "") (HS := HS t) scfg j s).2
  | srv_event t ev s : srv_step s (deliver (E := at_time W t "") (HS := HS t) scfg ev s).2
  | srv_tick t s : srv_step s (keepalive (E := at_time W t "") scfg s).2
  | srv_close s : srv_step s (closeAll s).2
  | srv_hub h s : srv_step s (set_s_hub h s)
  | srv_join_begin t r e s : srv_step s (join_begin (E := at_time W t "") scfg r e s).2
  | srv_join_answer t r e held res s : srv_step s (join_answer (E := at_time W t "") scfg r e held res s).2
  | srv_writer r s : srv_step s (writer_turn r s).2
  | srv_quits r s : srv_step s (writer_quits r s).2.

Lemma srv_wf_new hub : srv_wf scfg (server_New hub : Srv S).
Proof. constructor; cbn; set_solver || constructor. Qed.
(** C17. Whatever links, frames, events and timers do, in any order: the server's
    two maps agree, each reference under a link being to that link's session, and
    under an identity to a live session of that identity, none left behind when
    a link closes; every queue is within its bound, the frames sent before a link
    identifies, the frames to be sent, and the messages held for a JOIN; and every
    frame queued, held or handed to the transport fits a packet. *)
Theorem rrc_sessions_consistent hub s :
  0 <= sc_SendQueue scfg -> rtc srv_step (server_New hub) s -> srv_wf scfg s.
Proof.
  intros Hq Hst. pose proof (srv_wf_new hub) as H0.
  remember (server_New hub) as s0. clear Heqs0. induction Hst as [s|s s1 s2 H1 _ IH]; [done|]. apply IH.
  destruct H1; try (apply pres_s; [|done]).
  - by apply pres_handleJob.
  - by apply pres_deliver.
  - by apply pres_keepalive.
  - apply pres_closeAll.
  - by destruct H0.
  - apply pres_join_begin.
  - apply pres_join_answer.
  - apply pres_writer_turn.
  - apply pres_writer_quits.
Qed.
End machine.

(** * Before HELLO and after a close

    internal/rrcsrv/handle.go: what a link can do before it has said who it is and
    HELLO, and what its end does. *)
Section hello.
Context {E : Env} {C : Cbor} {R : RrcEnv} {S : Type} {HS : RrcHub S} (scfg : SConfig).
Notation SM := (ST (Srv S)).

(** The hub is as it was, the maps too, and session [r] is not welcomed. *)
Record outside (h : S) (maps : gmap string nat * gmap ident (gmap string nat)) (r : nat) (s : Srv S) : Prop := {
  ou_hub : s_hub s = h;
  ou_maps : (s_sessions s, s_byIdentity s) = maps;
  ou_welcomed : ss_welcomed (deref r s) = false
}.
#[export] Instance outside_weak h ms r : Weakening (outside h ms r) := {| weak := outside h ms r; weakens _ H := H |}.
Context (h : S) (ms : gmap string nat * gmap ident (gmap string nat)) (r : nat).
Notation out := (outside h ms r).

Lemma outside_mod f : (forall ss, ss_welcomed (f ss) = ss_welcomed ss) -> pres out (ss_mod r f).
Proof.
  intros Hf. apply pres_modify. intros s [H1 H2 H3]. constructor; [done..|]. unfold deref in *. cbn.
  rewrite list_lookup_alter_eq. destruct (s_heap s !! r) as [ss|]; [|done]. cbn in *. by rewrite Hf.
Qed.
Lemma outside_rest f : (forall s, s_hub (f s) = s_hub s /\ s_heap (f s) = s_heap s /\ s_sessions (f s) = s_sessions s /\
  s_byIdentity (f s) = s_byIdentity s) -> pres out (modify f).
Proof. intros Hf. apply pres_modify. intros s []. destruct (Hf s) as (H1 & H2 & H3 & H4). constructor; unfold deref in *; by rewrite ?H1, ?H2, ?H3, ?H4. Qed.
Lemma outside_drawing {A} (f : nat -> A * nat) : pres out (drawing f).
Proof. intros s []. unfold drawing. destruct (f (s_ids s)). by constructor. Qed.
Lemma outside_get {A} (f : session -> A) : pres out (ss_get r f).
Proof. apply pres_gets. Qed.
Lemma outside_stat k : pres out (s_stat k).
Proof. by apply outside_rest. Qed.
Lemma outside_frame f : pres out (sendFrame scfg r f).
Proof.
  unfold sendFrame, ss_do. apply pres_bind; [|intros [|]; [apply pres_ret|apply pres_bind; [apply outside_stat|intros; apply pres_ret]]].
  apply pres_bind; [apply outside_get|]. intros b. apply pres_bind; [|intros; apply pres_ret]. apply outside_mod. intros ss.
  unfold enqueue. by repeat case_match.
Qed.
Lemma outside_error t room text : pres out (sendError scfg t r room text).
Proof.
  apply pres_bind; [apply outside_drawing|]. intros fs. apply pres_foreach. intros f. apply pres_bind; [apply outside_frame|].
  intros; apply pres_ret.
Qed.
Lemma outside_send e : pres out (send scfg r e).
Proof. unfold send. case_match; [apply outside_frame|apply pres_ret]. Qed.
#[local] Hint Resolve outside_drawing outside_get outside_stat outside_error outside_send : pres.

(** A frame other than HELLO, from a link that has not been welcomed. *)
Lemma outside_dispatch e : e_Type e <> TypeHello -> pres out (dispatch_frame scfg r e).
Proof.
  intros Hne s Hs. unfold dispatch_frame. erewrite bind_run by done. rewrite (ou_welcomed _ _ _ _ Hs). cbn zeta. cbn [negb].
  match goal with |- keeps _ (?m s) => enough (pres out m) as Hm by by apply Hm end.
  destruct (e_Type e =? TypePong); [apply pres_ret|]. destruct (e_Type e =? TypePing); [pres_auto|].
  destruct (e_Type e =? TypeResourceEnvelope); [pres_auto|].
  destruct (Z.eqb_spec (e_Type e) TypeHello); [done|]. apply outside_error.
Qed.
End hello.

Section theorems.
Context {E : Env} {C : Cbor} {R : RrcEnv} {S : Type} {HS : RrcHub S} (scfg : SConfig).

Definition not_welcomed (link : string) (s : Srv S) : Prop :=
  match s_sessions s !! link with Some r => ss_welcomed (deref r s) = false | None => True end.
(** Nothing comes through a link before it is welcomed but HELLO: any other
    frame leaves the hub and the server's maps as they are, and the link as
    unwelcome as it was; and before the link has identified itself no frame does
    more than wait, if fewer than [maxPending] do. *)
Theorem hello_first link frame s :
  0 <= sc_SendQueue scfg -> srv_wf scfg s -> not_welcomed link s ->
  (forall e, Decode frame frame_limits = inr e -> e_Type e <> TypeHello) ->
  let s' := (data scfg link frame s).2 in
  s_hub s' = s_hub s /\ not_welcomed link s' /\ s_byIdentity s' = s_byIdentity s /\
  (forall l, l <> link -> s_sessions s' !! l = s_sessions s !! l).
Proof.
  intros Hq Hs Hn Hf s'. subst s'. unfold data.
  set (s1 := set_s_stats (rstat_add SFramesIn 1 (s_stats s)) s).
  assert (srv_wf scfg s1) as Hs1 by by destruct Hs.
  destruct (sessionFor_run scfg Hq link s1 Hs1) as (s2 & r & E2 & Hs2 & Hl & Hhub & Hnew & Hold).
  assert (ss_welcomed (deref r s2) = false) as Hw.
  { destruct (s_sessions s1 !! link) as [r0|] eqn:Hl0.
    - rewrite Hold in * by eauto. unfold not_welcomed in Hn. change (s_sessions s) with (s_sessions s1) in Hn. rewrite Hl in Hn. exact Hn.
    - by rewrite Hnew. }
  assert (s_byIdentity s2 = s_byIdentity s /\ forall l, l <> link -> s_sessions s2 !! l = s_sessions s !! l) as Hmaps.
  { unfold sessionFor, established in E2. erewrite bind_run in E2 by done. destruct (s_sessions s1 !! link) as [r0|] eqn:Hl0; [by injection E2 as _ <-|].
    erewrite bind_run in E2 by (erewrite bind_run by done; rewrite Hl0; reflexivity). cbn in E2. injection E2 as _ <-. cbn. split; [done|].
    intros l Hne. by rewrite lookup_insert_ne. }
  erewrite bind_run by done. fold s1. erewrite bind_run by exact E2. erewrite bind_run by done.
  match goal with |- context [(if ?b then ?x else ?y) s2] =>
    enough (pres (outside (s_hub s) (s_sessions s2, s_byIdentity s2) r) (if b then x else y)) as Hm end.
  { assert (outside (s_hub s) (s_sessions s2, s_byIdentity s2) r s2) as Ho by (by constructor).
    specialize (Hm s2 Ho). match goal with |- context [(if ?b then ?x else ?y) s2] => destruct ((if b then x else y) s2) as [[u|e] s3] end; cbn in *;
      [destruct Hm as [H1 [= H2 H3] H4]|destruct Hm as [_ [H1 [= H2 H3] H4]]]; destruct Hmaps as [Hm1 Hm2];
      (split; [done|]; split; [by unfold not_welcomed; rewrite H2, Hl|]; split; [congruence|]; intros l Hne; rewrite H2; auto). }
  case_match; [apply outside_mod; intros ss; by case_match|].
  pose proof (outside_error scfg (s_hub s) (s_sessions s2, s_byIdentity s2) r).
  apply pres_bind; [by apply outside_mod|]. intros _. apply pres_bind.
  { unfold ss_do. apply pres_bind; [apply outside_get|]. intros b. apply pres_bind; [|intros; apply pres_ret].
    apply outside_mod. intros ss. unfold take. by case_match. }
  intros ok. destruct (negb ok).
  - unfold rate_limited. apply pres_bind; [apply outside_stat|]. intros _. apply pres_bind; [apply outside_get|]. intros [|]; [|apply pres_ret].
    apply pres_bind; [by apply outside_mod|]. auto.
  - destruct (Decode frame frame_limits) as [err|e]; [apply pres_bind; [apply outside_stat|auto]|]. apply outside_dispatch. by apply Hf.
Qed.

(** A link that closes leaves nothing behind: no session is found by it any
    more, nor by the identity it had; nothing more is queued for it; and the hub is
    told that the identity has left each room the link was in, and nothing else. *)
Theorem closed_leaves_nothing link s :
  srv_wf scfg s ->
  let s' := (closed link s).2 in
  s_sessions s' !! link = None /\
  (forall id links, id <> "" -> s_byIdentity s' !! id = Some links -> links !! link = None) /\
  match s_sessions s !! link with
  | None => s_hub s' = s_hub s
  | Some r =>
    let ss := deref r s in
    (forall frame, (enqueue (sc_SendQueue scfg) frame (deref r s')).1 = false) /\
    s_hub s' = if bool_decide (ss_identity ss = "") || bool_decide (ss_rooms ss = ∅) then s_hub s
               else (rh_Disconnect (ss_identity ss) (elements (ss_rooms ss)) (s_hub s)).2
  end.
Proof.
  intros Hs s'. pose proof (pres_s scfg _ s (pres_closed scfg link) Hs) as Hs'. fold s' in Hs'.
  assert (s_sessions s' !! link = None /\ match s_sessions s !! link with
    | None => s_hub s' = s_hub s
    | Some r => let ss := deref r s in
      (forall frame, (enqueue (sc_SendQueue scfg) frame (deref r s')).1 = false) /\
      s_hub s' = if bool_decide (ss_identity ss = "") || bool_decide (ss_rooms ss = ∅) then s_hub s
                 else (rh_Disconnect (ss_identity ss) (elements (ss_rooms ss)) (s_hub s)).2
    end) as [H1 H2].
  { subst s'. unfold closed. erewrite bind_run by done. destruct (s_sessions s !! link) as [r|] eqn:Hl.
    - do 4 erewrite bind_run by done. cbn beta iota zeta.
      destruct (vw_link _ _ Hs _ _ Hl) as (ss & Hr & _).
      assert (deref r s = ss) as Hd by (unfold deref; by rewrite Hr). rewrite Hd.
      match goal with |- context [bind (ss_get r _) _ ?s1] => set (s2 := s1) end.
      assert (deref r s2 = stop ss /\ s_hub s2 = s_hub s /\ s_sessions s2 !! link = None) as (H2 & H3 & H4).
      { subst s2. unfold deref. cbn. rewrite list_lookup_alter_eq, Hr. cbn. by rewrite lookup_delete_eq. }
      erewrite bind_run by done. rewrite H2. replace (ss_rooms (stop ss)) with (ss_rooms ss) by (unfold stop; by case_match).
      assert (forall s3 : Srv S, deref r s3 = stop ss -> forall frame, (enqueue (sc_SendQueue scfg) frame (deref r s3)).1 = false) as Hstop.
      { intros s3 ->  frame. unfold enqueue, stop. destruct (ss_stopped ss) eqn:Hst; cbn; by rewrite ?Hst. }
      destruct (bool_decide (ss_identity ss = "")); [cbn; auto|]. destruct (elements (ss_rooms ss)) as [|room rooms] eqn:Hel.
      + apply elements_empty_inv in Hel. rewrite bool_decide_eq_true_2 by (by apply leibniz_equiv). cbn. auto.
      + rewrite bool_decide_eq_false_2 by (intros He; by rewrite He, elements_empty in Hel). cbn [orb]. unfold s_call, bind.
        rewrite H3. destruct (rh_Disconnect _ _ _) as [a h']. cbn. auto.
    - cbn. by rewrite lookup_delete_eq. }
  split; [done|]. split; [|done]. intros id links Hid Hi. destruct (links !! link) as [r|] eqn:Hr; [|done].
  destruct (vw_identity _ _ Hs' _ _ _ _ Hid Hi Hr) as [Hl _]. congruence.
Qed.
End theorems.

(** * The workers' queues

    internal/rrcsrv/server.go: [enqueue] and [work].  What the transport hands over is
    queued, waits for room in its queue, or is dropped; each worker takes its own. *)
Inductive Fate := Queued | Waits | Dropped.
#[export] Instance Fate_eq_dec : EqDecision Fate. Proof. solve_decision. Defined.
Definition fate (j : job) (js : Jobs) : Fate :=
  let q := default [] (jb_queues js !! worker_of (Z.of_nat (length (jb_queues js))) (job_link j)) in
  if (length q <? jobsMax)%nat then Queued else if must_deliver j then Waits else Dropped.
(** The queues with all that has been handed over and all that has been taken. *)
Record JobRun := mkJobRun { jr_jobs : Jobs; jr_in : list (job * Fate); jr_out : list job }.
Inductive job_step : JobRun -> JobRun -> Prop :=
  | job_arrives j js i o : job_step (mkJobRun js i o) (mkJobRun (job_enqueue j js) (i ++ [(j, fate j js)]) o)
  | job_admitted k js i o : job_step (mkJobRun js i o) (mkJobRun (job_admit k js) i o)
  | job_taken w j js js' i o : job_take w js = Some (j, js') -> job_step (mkJobRun js i o) (mkJobRun js' i (o ++ [j])).
Definition job_start (c : SConfig) : JobRun := mkJobRun (jobs_New c) [] [].
(** What was taken in, and what of it is one link's. *)
Definition accepted (l : list (job * Fate)) : list job := (List.filter (fun jf => negb (bool_decide (jf.2 = Dropped))) l).*1.
Definition of_link (link : string) (l : list job) : list job := List.filter (fun j => bool_decide (job_link j = link)) l.
Definition queue_of (js : Jobs) (link : string) : list job := default [] (jb_queues js !! worker_of (Z.of_nat (length (jb_queues js))) link).

Record jobs_inv (n : nat) (r : JobRun) : Prop := {
  ji_workers : length (jb_queues (jr_jobs r)) = n;
  ji_bound : Forall (fun q => (length q <= jobsMax)%nat) (jb_queues (jr_jobs r));
  ji_worker : forall w q j, jb_queues (jr_jobs r) !! w = Some q -> j ∈ q -> worker_of (Z.of_nat n) (job_link j) = w;
  ji_waiting : Forall (fun wj => must_deliver wj.2 = true /\ worker_of (Z.of_nat n) (job_link wj.2) = wj.1 /\ (wj.2, Waits) ∈ jr_in r) (jb_waiting (jr_jobs r));
  ji_kept : accepted (jr_in r) ≡ₚ jr_out r ++ concat (jb_queues (jr_jobs r)) ++ (jb_waiting (jr_jobs r)).*2;
  ji_dropped : jb_dropped (jr_jobs r) = Z.of_nat (length (jr_in r)) - Z.of_nat (length (accepted (jr_in r)));
  ji_fates : Forall (fun jf => jf.2 = Dropped -> must_deliver jf.1 = false) (jr_in r);
  ji_order : forall link, (forall j, (j, Waits) ∈ jr_in r -> job_link j <> link) ->
    of_link link (accepted (jr_in r)) = of_link link (jr_out r) ++ of_link link (queue_of (jr_jobs r) link)
}.

Lemma worker_lt (n : nat) link : (0 < n)%nat -> (worker_of (Z.of_nat n) link < n)%nat.
Proof. intros Hn. unfold worker_of. pose proof (Z.mod_pos_bound (fnv32a link) (Z.of_nat n)). lia. Qed.
Lemma of_link_app link l1 l2 : of_link link (l1 ++ l2) = of_link link l1 ++ of_link link l2.
Proof. apply List.filter_app. Qed.
Lemma of_link_one link j : of_link link [j] = if bool_decide (job_link j = link) then [j] else [].
Proof. unfold of_link. cbn. by case_match. Qed.
Lemma accepted_snoc l j f : accepted (l ++ [(j, f)]) = accepted l ++ match f with Dropped => [] | _ => [j] end.
Proof. unfold accepted. rewrite List.filter_app, fmap_app. cbn. by destruct f. Qed.
(** A queue is changed: what all of them hold. *)
Lemma concat_put (qs : list (list job)) w q q' : qs !! w = Some q -> q ++ concat (<[w := q']> qs) ≡ₚ q' ++ concat qs.
Proof.
  revert w. induction qs as [|p qs IH]; intros [|w] Hw; [done..| |].
  - injection Hw as ->. cbn. rewrite !app_assoc. by rewrite (Permutation_app_comm q q').
  - change (<[S w := q']> (p :: qs)) with (p :: <[w := q']> qs). cbn [concat]. rewrite Permutation_app_swap_app, (IH w Hw). by rewrite Permutation_app_swap_app.
Qed.
(** A queue's jobs are of links that are its worker's: a job put at its end, or taken
    from its front, is one more or one less of its link and of no other. *)
Lemma queue_put qs w q j link : let n := length qs in worker_of (Z.of_nat n) (job_link j) = w -> qs !! w = Some q ->
  of_link link (default [] (<[w := q ++ [j]]> qs !! worker_of (Z.of_nat n) link)) =
  of_link link (default [] (qs !! worker_of (Z.of_nat n) link)) ++ of_link link [j].
Proof.
  intros n Hw Hq. destruct (decide (worker_of (Z.of_nat n) link = w)) as [->|Hne].
  - rewrite list_lookup_insert_eq, Hq by (by eapply lookup_lt_Some). apply of_link_app.
  - rewrite list_lookup_insert_ne, of_link_one, bool_decide_eq_false_2, app_nil_r by congruence. done.
Qed.
Lemma queue_take qs w q j link : let n := length qs in worker_of (Z.of_nat n) (job_link j) = w -> qs !! w = Some (j :: q) ->
  of_link link (default [] (qs !! worker_of (Z.of_nat n) link)) =
  of_link link [j] ++ of_link link (default [] (<[w := q]> qs !! worker_of (Z.of_nat n) link)).
Proof.
  intros n Hw Hq. destruct (decide (worker_of (Z.of_nat n) link = w)) as [->|Hne].
  - rewrite list_lookup_insert_eq, Hq by (by eapply lookup_lt_Some). cbn [default from_option id]. by rewrite <- of_link_app.
  - rewrite list_lookup_insert_ne, of_link_one, bool_decide_eq_false_2 by congruence. done.
Qed.

Section jobs.
Context (n : nat) (Hn : (0 < n)%nat).
Lemma jobs_inv_start c : Z.to_nat (sc_Workers c) = n -> jobs_inv n (job_start c).
Proof.
  intros Hc. constructor; cbn; try done.
  - by rewrite length_replicate.
  - apply Forall_replicate. unfold jobsMax. cbn. lia.
  - intros w q j [-> _]%lookup_replicate Hj. by apply not_elem_of_nil in Hj.
  - rewrite app_nil_r. clear Hc. by induction (Z.to_nat (sc_Workers c)).
  - intros link _. unfold queue_of. cbn. destruct (replicate _ _ !! _) as [q|] eqn:E; [|done]. by apply lookup_replicate in E as [-> _].
Qed.
Lemma its_queue js link : length (jb_queues js) = n -> is_Some (jb_queues js !! worker_of (Z.of_nat n) link).
Proof. intros Hl. apply lookup_lt_is_Some. rewrite Hl. by apply worker_lt. Qed.
Lemma put_bound (qs : list (list job)) w q j : qs !! w = Some q -> (length q < jobsMax)%nat ->
  Forall (fun q => (length q <= jobsMax)%nat) qs -> Forall (fun q => (length q <= jobsMax)%nat) (<[w := q ++ [j]]> qs).
Proof. intros Hq Hl Hb. apply Forall_insert; [done|]. rewrite length_app. cbn. lia. Qed.
Lemma put_worker (qs : list (list job)) w q j : qs !! w = Some q -> worker_of (Z.of_nat n) (job_link j) = w ->
  (forall w q j, qs !! w = Some q -> j ∈ q -> worker_of (Z.of_nat n) (job_link j) = w) ->
  forall w' q' j', <[w := q ++ [j]]> qs !! w' = Some q' -> j' ∈ q' -> worker_of (Z.of_nat n) (job_link j') = w'.
Proof.
  intros Hq Hw Hj w' q' j' [(<- & <- & _)|[_ H]]%list_lookup_insert_Some; [|by eapply Hj].
  intros [H| ->%list_elem_of_singleton]%elem_of_app; [by eapply Hj|done].
Qed.
Lemma concat_snoc (qs : list (list job)) w q j : qs !! w = Some q -> concat (<[w := q ++ [j]]> qs) ≡ₚ j :: concat qs.
Proof. intros Hq. pose proof (concat_put _ _ _ (q ++ [j]) Hq) as H. rewrite <- app_assoc in H. by apply Permutation_app_inv_l in H. Qed.

Lemma jobs_inv_arrives j js i o : jobs_inv n (mkJobRun js i o) -> jobs_inv n (mkJobRun (job_enqueue j js) (i ++ [(j, fate j js)]) o).
Proof.
  intros [Hl Hb Hw Hq Hk Hd Hf Ho]. cbn [jr_jobs jr_in jr_out] in *. destruct (its_queue js (job_link j) Hl) as [q Hq0].
  assert (forall P : list (nat * job), Forall (fun wj => must_deliver wj.2 = true /\ worker_of (Z.of_nat n) (job_link wj.2) = wj.1 /\ (wj.2, Waits) ∈ i) P ->
    forall f, Forall (fun wj => must_deliver wj.2 = true /\ worker_of (Z.of_nat n) (job_link wj.2) = wj.1 /\ (wj.2, Waits) ∈ i ++ [(j, f)]) P) as Hmore.
  { intros P HP f. eapply Forall_impl; [exact HP|]. intros wj (? & ? & ?). split_and!; [done..|set_solver]. }
  unfold job_enqueue, fate. cbv zeta. rewrite Hl, Hq0. cbn [default from_option id]. destruct (Nat.ltb_spec (length q) jobsMax) as [Hlt|Hge].
  - constructor; cbn [jr_jobs jr_in jr_out jb_queues jb_waiting jb_dropped]; rewrite ?accepted_snoc.
    + by rewrite length_insert.
    + by apply put_bound.
    + by eapply put_worker.
    + by apply Hmore.
    + rewrite Hk, (concat_snoc _ _ _ j Hq0). solve_Permutation.
    + rewrite !length_app. cbn. lia.
    + apply Forall_app. split; [done|by repeat constructor].
    + intros link Hnw. rewrite of_link_app, Ho by (intros j' Hj'; apply Hnw; set_solver).
      rewrite <- app_assoc. f_equal. unfold queue_of. cbn [jb_queues]. rewrite length_insert. symmetry. apply queue_put; [by rewrite Hl|done].
  - destruct (must_deliver j) eqn:Em; constructor; cbn [jr_jobs jr_in jr_out jb_queues jb_waiting jb_dropped]; rewrite ?accepted_snoc, ?app_nil_r; try done.
    + apply Forall_app. split; [by apply Hmore|]. repeat constructor; cbn; [done|set_solver].
    + rewrite Hk, fmap_app. cbn. solve_Permutation.
    + rewrite !length_app. cbn. lia.
    + apply Forall_app. split; [done|by repeat constructor].
    + intros link Hnw. rewrite of_link_app, of_link_one. rewrite bool_decide_eq_false_2, app_nil_r by (apply Hnw; set_solver).
      apply Ho. intros j' Hj'. apply Hnw. set_solver.
    + by apply Hmore.
    + rewrite !length_app. cbn. lia.
    + apply Forall_app. split; [done|by repeat constructor].
    + intros link Hnw. apply Ho. intros j' Hj'. apply Hnw. set_solver.
Qed.
Lemma jobs_inv_admitted k js i o : jobs_inv n (mkJobRun js i o) -> jobs_inv n (mkJobRun (job_admit k js) i o).
Proof.
  intros Hi. unfold job_admit. destruct (jb_waiting js !! k) as [[w j]|] eqn:Ek; [|done].
  destruct Hi as [Hl Hb Hw Hq Hk Hd Hf Ho]. cbn [jr_jobs jr_in jr_out] in *.
  pose proof (Forall_lookup_1 _ _ _ _ Hq Ek) as (Hm & Hwj & Hin). cbn in Hm, Hwj, Hin.
  destruct (its_queue js (job_link j) Hl) as [q Hq0]. rewrite Hwj in Hq0. rewrite Hq0. cbn [default from_option id].
  destruct (Nat.ltb_spec (length q) jobsMax) as [Hlt|Hge]; [|by constructor].
  constructor; cbn [jr_jobs jr_in jr_out jb_queues jb_waiting jb_dropped]; try done.
  - by rewrite length_insert.
  - by apply put_bound.
  - by eapply put_worker.
  - by apply Forall_delete.
  - assert ((jb_waiting js).*2 ≡ₚ j :: (delete k (jb_waiting js)).*2) as Hp by (by rewrite (delete_Permutation _ _ _ Ek) at 1).
    rewrite Hk, Hp, (concat_snoc _ _ _ j Hq0). solve_Permutation.
  - intros link Hnw. rewrite Ho by done. f_equal. unfold queue_of. cbn [jb_queues]. rewrite length_insert. rewrite (queue_put _ w q j) by (by rewrite ?Hl).
    rewrite of_link_one, bool_decide_eq_false_2, app_nil_r by (by apply Hnw). done.
Qed.
Lemma jobs_inv_taken w j js js' i o : job_take w js = Some (j, js') -> jobs_inv n (mkJobRun js i o) -> jobs_inv n (mkJobRun js' i (o ++ [j])).
Proof.
  unfold job_take. intros Ht [Hl Hb Hw Hq Hk Hd Hf Ho]. cbn [jr_jobs jr_in jr_out] in *.
  destruct (jb_queues js !! w) as [[|j0 q]|] eqn:Eq; [done| |done]. injection Ht as -> <-.
  assert (worker_of (Z.of_nat n) (job_link j) = w) as Hwj by (eapply Hw; [exact Eq|left]).
  constructor; cbn [jr_jobs jr_in jr_out jb_queues jb_waiting jb_dropped]; try done.
  - by rewrite length_insert.
  - apply Forall_insert; [done|]. pose proof (Forall_lookup_1 _ _ _ _ Hb Eq) as H. cbn in H. lia.
  - intros w' q' j' [(<- & <- & _)|[_ H]]%list_lookup_insert_Some Hj'; [eapply Hw; [exact Eq|by right]|by eapply Hw].
  - rewrite Hk. pose proof (concat_put _ _ _ q Eq) as H. cbn in H. rewrite Permutation_middle in H. apply Permutation_app_inv_l in H.
    rewrite <- H. solve_Permutation.
  - intros link Hnw. rewrite Ho, of_link_app, <- app_assoc by done. f_equal. unfold queue_of. cbn [jb_queues]. rewrite length_insert. apply queue_take; [by rewrite Hl|done].
Qed.
Lemma jobs_inv_steps c r : Z.to_nat (sc_Workers c) = n -> rtc job_step (job_start c) r -> jobs_inv n r.
Proof.
  intros Hc Hr. pose proof (jobs_inv_start c Hc) as H0. revert H0. generalize (job_start c), Hr. clear Hr. intros r0 Hr.
  induction Hr as [r|r1 r2 r3 H12 _ IH]; [done|]. intros H1. apply IH. destruct H12.
  - by apply jobs_inv_arrives.
  - by apply jobs_inv_admitted.
  - by eapply jobs_inv_taken.
Qed.
End jobs.

(** C19. No end of a link is lost, and what is queued is bounded.  Whatever the transport
    hands over and however the workers keep up: what was taken, is queued or waits
    is what came in but for what was dropped, which is data and is counted; no queue
    passes its bound; and the jobs of a link none of which had to wait are handled in
    the order they came, those that were dropped left out. *)
Theorem jobs_kept c r : 0 < sc_Workers c -> rtc job_step (job_start c) r ->
  accepted (jr_in r) ≡ₚ jr_out r ++ concat (jb_queues (jr_jobs r)) ++ (jb_waiting (jr_jobs r)).*2 /\
  (forall j, (j, Dropped) ∈ jr_in r -> must_deliver j = false) /\
  jb_dropped (jr_jobs r) = Z.of_nat (length (jr_in r)) - Z.of_nat (length (accepted (jr_in r))) /\
  Forall (fun q => (length q <= jobsMax)%nat) (jb_queues (jr_jobs r)) /\
  forall link, (forall j, (j, Waits) ∈ jr_in r -> job_link j <> link) ->
    of_link link (accepted (jr_in r)) = of_link link (jr_out r) ++ of_link link (queue_of (jr_jobs r) link).
Proof.
  intros Hc Hr. destruct (jobs_inv_steps (Z.to_nat (sc_Workers c)) ltac:(lia) c r eq_refl Hr) as [_ Hb _ _ Hk Hd Hf Ho].
  split_and!; [done| |done..]. intros j Hj. rewrite Forall_forall in Hf. by apply (Hf _ Hj).
Qed.
