(* ===== verification/RrcJoin.v ===== *)
(** internal/rrcsrv: what a link hears of a room it is joining, however the JOIN
    and the fan-out interleave; and what a link can do before HELLO. *)
From S2P Require Import Prelude Text TextCut Db StoreWf Names HubCore Clock Ranks People Rooms Post Commands Whispers HubWf System RoomSpec PostSpec.
From S2P Require Import Adapters Wire RrcFrames RrcSession RrcHandle RrcFanout RrcSpec.
Local Open Scope Z_scope.

Section session_view.
Context {S : Type}.
Lemma deref_alter f r r' (s : Srv S) : (r < length (s_heap s))%nat ->
  deref r' (set_s_heap (alter f r (s_heap s)) s) = if decide (r = r') then f (deref r' s) else deref r' s.
Proof.
  intros Hr. unfold deref. cbn. case_decide as Hd.
  - subst r'. rewrite list_lookup_alter_eq. destruct (lookup_lt_is_Some_2 _ _ Hr) as [ss ->]. done.
  - by rewrite list_lookup_alter_ne.
Qed.

(** [m] never fails; it does [f] to session [r], nothing to the maps, and keeps
    the sessions there are. *)
Definition acts (r : nat) (f : session -> session) (m : ST (Srv S) unit) : Prop := forall s, exists s',
  m s = (Ok tt, s') /\ s_sessions s' = s_sessions s /\ length (s_heap s') = length (s_heap s) /\
  ((r < length (s_heap s))%nat -> deref r s' = f (deref r s)).
Lemma acts_ret r : acts r id (ret tt).
Proof. intros s. by exists s. Qed.
Lemma acts_bind r f g m k : acts r f m -> acts r g k -> acts r (g ∘ f) (m ;;; k).
Proof.
  intros Hm Hk s. destruct (Hm s) as (s1 & E1 & H1 & H2 & H3). destruct (Hk s1) as (s2 & E2 & H4 & H5 & H6).
  exists s2. split; [by rewrite (bind_run _ _ _ _ _ E1)|]. split; [congruence|]. split; [congruence|].
  intros Hr. cbn. rewrite <- H3 by done. apply H6. by rewrite H2.
Qed.
Lemma acts_ext r f g m : (forall ss, f ss = g ss) -> acts r f m -> acts r g m.
Proof. intros He Hm s. destruct (Hm s) as (s1 & E1 & H1 & H2 & H3). exists s1. split_and!; [done..|]. intros Hr. rewrite <- He. auto. Qed.
Lemma acts_mod r f : acts r f (ss_mod r f).
Proof.
  intros s. eexists. split; [reflexivity|]. split; [done|]. split; [cbn; by rewrite length_alter|]. intros Hr. rewrite deref_alter by done.
  by rewrite decide_True.
Qed.
Lemma acts_mod_other r r' f : r <> r' -> acts r id (ss_mod r' f).
Proof.
  intros Hne s. eexists. split; [reflexivity|]. split; [done|]. split; [cbn; by rewrite length_alter|]. intros Hr.
  unfold deref. cbn. by rewrite list_lookup_alter_ne by done.
Qed.
Lemma acts_stats r f : acts r id (modify (fun s => set_s_stats (f s) s)).
Proof. intros s. by eexists. Qed.
Lemma acts_foreach {A} r (f : A -> session -> session) (l : list A) (m : A -> ST (Srv S) unit) :
  (forall a, acts r (f a) (m a)) -> acts r (fun ss => fold_left (fun ss a => f a ss) l ss) (foreach l m).
Proof.
  intros Hm. induction l as [|a l IH]; [apply acts_ret|]. cbn [foreach fold_left].
  apply (acts_ext r ((fun ss => fold_left (fun ss a => f a ss) l ss) ∘ f a)); [done|]. by apply acts_bind.
Qed.

(** ** Queues *)
Context {C : Cbor} {R : RrcEnv} (scfg : SConfig).
Definition queued (frame : string) (ss : session) : session := (enqueue (sc_SendQueue scfg) frame ss).2.
Definition queued_all (frames : list string) (ss : session) : session := fold_left (fun ss f => queued f ss) frames ss.
Lemma sendFrame_run r frame (s : Srv S) : exists s', sendFrame scfg r frame s = (Ok (enqueue (sc_SendQueue scfg) frame (deref r s)).1, s') /\
  s_sessions s' = s_sessions s /\ length (s_heap s') = length (s_heap s) /\
  ((r < length (s_heap s))%nat -> deref r s' = queued frame (deref r s)) /\
  (forall r', r' <> r -> deref r' s' = deref r' s).
Proof.
  unfold sendFrame, ss_do. erewrite bind_run; [|erewrite bind_run by done; erewrite bind_run by done; reflexivity].
  set (s1 := set_s_heap _ _).
  assert (s_sessions s1 = s_sessions s /\ length (s_heap s1) = length (s_heap s) /\
    ((r < length (s_heap s))%nat -> deref r s1 = queued frame (deref r s)) /\ (forall r', r' <> r -> deref r' s1 = deref r' s)) as H1.
  { subst s1. split_and!; [done|cbn; by rewrite length_alter|intros Hr; rewrite deref_alter by done; by rewrite decide_True|].
    intros r' Hne. unfold deref. cbn. by rewrite list_lookup_alter_ne. }
  clearbody s1. destruct (enqueue _ frame (deref r s)).1.
  - by exists s1.
  - erewrite bind_run by done. eexists. split; [reflexivity|]. done.
Qed.
Lemma acts_sendFrame r frame : acts r (queued frame) (_ <- sendFrame scfg r frame ;; ret tt).
Proof.
  intros s. destruct (sendFrame_run r frame s) as (s1 & E1 & H1 & H2 & H3 & _). exists s1. split; [by rewrite (bind_run _ _ _ _ _ E1)|]. done.
Qed.
Lemma acts_sendFrame_other r r' frame : r <> r' -> acts r id (_ <- sendFrame scfg r' frame ;; ret tt).
Proof.
  intros Hne s. destruct (sendFrame_run r' frame s) as (s1 & E1 & H1 & H2 & _ & H3). exists s1. split; [by rewrite (bind_run _ _ _ _ _ E1)|].
  split_and!; [done..|]. intros _. cbn. auto.
Qed.
Lemma acts_sendFrames r frames : acts r (queued_all frames) (sendFrames scfg r frames).
Proof. apply acts_foreach. intros f. apply acts_sendFrame. Qed.
Lemma fold_id {A B} (l : list A) (x : B) : fold_left (fun y _ => id y) l x = x.
Proof. by induction l. Qed.
Lemma acts_sendFrames_other r r' frames : r <> r' -> acts r id (sendFrames scfg r' frames).
Proof.
  intros Hne. eapply acts_ext; [|apply (acts_foreach r (fun _ => id))]; [intros ss; apply fold_id|]. intros f. by apply acts_sendFrame_other.
Qed.

(** What [offerMessage] does to the session it is offered to. *)
Definition offered (room : string) (id : Z) (frames : list string) (ss : session) : session :=
  match ss_joining ss !! room with
  | Some buf => if (length buf <? maxBuffered)%nat then set_joining (<[room := buf ++ [mkBuffered id frames]]> (ss_joining ss)) ss else ss
  | None => if inRoom room ss then queued_all frames ss else ss
  end.
Lemma acts_offer r room id frames : acts r (offered room id frames) (offerMessage scfg r room id frames).
Proof.
  intros s. unfold offerMessage, offered. erewrite bind_run by done. destruct (ss_joining (deref r s) !! room) as [buf|] eqn:Hj.
  - case_match eqn:Hl.
    + destruct (acts_mod r (fun ss => set_joining (<[room := buf ++ [mkBuffered id frames]]> (ss_joining ss)) ss) s) as (s' & E & H1 & H2 & H3).
      exists s'. split_and!; [done..|]. intros Hr. by rewrite H3.
    + destruct (acts_stats r (fun s => rstat_add SFramesDropped (Z.of_nat (length frames)) (s_stats s)) s) as (s' & E & H1 & H2 & H3).
      exists s'. split_and!; [done..|]. intros Hr. by rewrite H3.
  - erewrite bind_run by done. destruct (inRoom room (deref r s)) eqn:Hi.
    + destruct (acts_sendFrames r frames s) as (s' & E & H1 & H2 & H3). exists s'. split_and!; [done..|]. intros Hr. by rewrite H3.
    + by exists s.
Qed.
Lemma acts_offer_other r r' room id frames : r <> r' -> acts r Datatypes.id (offerMessage scfg r' room id frames).
Proof.
  intros Hne s. unfold offerMessage. erewrite bind_run by done. destruct (ss_joining (deref r' s) !! room) as [buf|].
  - case_match; [by apply acts_mod_other|apply acts_stats].
  - erewrite bind_run by done. destruct (inRoom _ _); [by apply acts_sendFrames_other|apply acts_ret].
Qed.

Lemma acts_once r f (l : list nat) (m : nat -> ST (Srv S) unit) : NoDup l -> r ∈ l ->
  acts r f (m r) -> (forall r', r' <> r -> acts r id (m r')) -> acts r f (foreach l m).
Proof.
  intros Hnd Hin Hr Ho.
  assert (forall l', r ∉ l' -> acts r id (foreach l' m)) as Hnot.
  { induction l' as [|x l' IH]; intros Hx; [apply acts_ret|]. apply (acts_bind r id id); [apply Ho; set_solver|apply IH; set_solver]. }
  induction l as [|x l IH]; [set_solver|]. apply NoDup_cons in Hnd as [Hx Hnd]. cbn [foreach]. destruct (decide (x = r)) as [->|Hne].
  - apply (acts_bind r f id); [done|by apply Hnot].
  - apply (acts_bind r id f); [by apply Ho|]. apply IH; set_solver.
Qed.
(** Every live session is gone through once. *)
Lemma all_sessions_once (s : Srv S) link r : srv_wf scfg s -> s_sessions s !! link = Some r ->
  NoDup (map_to_list (s_sessions s)).*2 /\ r ∈ (map_to_list (s_sessions s)).*2 /\ (r < length (s_heap s))%nat.
Proof.
  intros Hs Hl. split_and!.
  - apply NoDup_fmap_2_strong; [|apply NoDup_map_to_list]. intros [l1 r1] [l2 r2] H1%elem_of_map_to_list H2%elem_of_map_to_list. cbn. intros ->.
    destruct (vw_link _ _ Hs _ _ H1) as (ss1 & Hs1 & <-), (vw_link _ _ Hs _ _ H2) as (ss2 & Hs2 & <-). congruence.
  - apply list_elem_of_fmap. exists (link, r). split; [done|]. by apply elem_of_map_to_list.
  - by eapply fresh_link.
Qed.

(** ** Frames added at the end *)
Definition open (ss : session) : Prop := ss_stopped ss = false /\ ss_closing ss = false.
Lemma queued_all_mono frames ss : (length (ss_out ss) <= length (ss_out (queued_all frames ss)))%nat.
Proof.
  revert ss. induction frames as [|f fs IH]; intros ss; [done|]. cbn [queued_all fold_left]. etransitivity; [|apply IH].
  unfold queued, enqueue. repeat case_match; cbn; rewrite ?length_app; lia.
Qed.
(** What is not full at the end has dropped nothing. *)
Lemma queued_all_out frames ss : open ss -> Z.of_nat (length (ss_out (queued_all frames ss))) < sc_SendQueue scfg ->
  queued_all frames ss = set_out (ss_out ss ++ frames) ss.
Proof.
  revert ss. induction frames as [|f fs IH]; intros ss [Hst Hcl] Hl; [rewrite app_nil_r; by destruct ss|].
  change (queued_all (f :: fs) ss) with (queued_all fs (queued f ss)) in *. pose proof (queued_all_mono fs (queued f ss)) as Hm.
  assert (queued f ss = set_out (ss_out ss ++ [f]) ss) as Hq.
  { unfold queued, enqueue in *. rewrite Hst, Hcl in *. cbn [orb] in *.
    destruct (Z.ltb_spec (Z.of_nat (length (ss_out ss))) (sc_SendQueue scfg)); [done|]. cbn [snd] in *. lia. }
  rewrite IH; [|by rewrite Hq|done]. rewrite Hq. destruct ss. cbn. by rewrite <- app_assoc.
Qed.
Lemma queued_all_app fs fs' ss : queued_all (fs ++ fs') ss = queued_all fs' (queued_all fs ss).
Proof. apply fold_left_app. Qed.

(** [m] queues frames for session [r], the frames [P] says; and does nothing else to it. *)
Definition appends {A} (r : nat) (P : list string -> Prop) (m : ST (Srv S) A) : Prop := forall s, exists a s' fs,
  m s = (Ok a, s') /\ P fs /\ s_sessions s' = s_sessions s /\ length (s_heap s') = length (s_heap s) /\
  ((r < length (s_heap s))%nat -> deref r s' = queued_all fs (deref r s)).
Definition some_frames (_ : list string) : Prop := True.
Lemma appends_bind {A B} r (P Q T : list string -> Prop) (m : ST (Srv S) A) (k : A -> ST (Srv S) B) :
  appends r P m -> (forall a, appends r Q (k a)) -> (forall f1 f2, P f1 -> Q f2 -> T (f1 ++ f2)) -> appends r T (bind m k).
Proof.
  intros Hm Hk HT s. destruct (Hm s) as (a & s1 & f1 & E1 & HP & H1 & H2 & H3). destruct (Hk a s1) as (b & s2 & f2 & E2 & HQ & H4 & H5 & H6).
  exists b, s2, (f1 ++ f2). split; [by rewrite (bind_run _ _ _ _ _ E1)|]. split; [auto|]. split; [congruence|]. split; [congruence|].
  intros Hr. rewrite queued_all_app, <- H3 by done. apply H6. by rewrite H2.
Qed.
Lemma appends_ret {A} r (a : A) : appends r (fun fs => fs = []) (ret a).
Proof. intros s. by exists a, s, []. Qed.
Lemma appends_drawing {A} r (f : nat -> A * nat) : appends r (fun fs => fs = []) (drawing f).
Proof. intros s. unfold drawing. destruct (f (s_ids s)) as [a n]. by eexists _, _, []. Qed.
Lemma appends_frames r frames : appends r (fun fs => fs = frames) (sendFrames scfg r frames).
Proof. intros s. destruct (acts_sendFrames r frames s) as (s' & E & H1 & H2 & H3). by exists tt, s', frames. Qed.
Lemma appends_send r e : appends r some_frames (send scfg r e).
Proof.
  intros s. unfold send. destruct (encode e) as [f|]; [|by exists false, s, []].
  destruct (sendFrame_run r f s) as (s' & E & H1 & H2 & H3 & _). by exists (enqueue (sc_SendQueue scfg) f (deref r s)).1, s', [f].
Qed.
Lemma appends_notify t r ty room text : appends r some_frames (notify scfg t r ty room text).
Proof.
  apply (appends_bind r _ some_frames _ _ _ (appends_drawing r _)); [|done]. intros fs s. destruct (appends_frames r fs s) as (a & s' & fs' & E & -> & H).
  by exists a, s', fs.
Qed.
Lemma appends_messages r (ms : list Message) : appends r (fun fs => fs = flat_map (messageFrames scfg) ms)
  (foreach ms (fun m => sendFrames scfg r (messageFrames scfg m))).
Proof.
  induction ms as [|m ms IH]; [apply appends_ret|]. cbn [foreach flat_map].
  eapply appends_bind; [apply appends_frames|intros _; exact IH|]. by intros f1 f2 -> ->.
Qed.

(** ** Hearing a room *)
Definition hear (m : Message) : session -> session := offered (Message_Room m) (Message_ID m) (messageFrames scfg m).
Definition hear_all (ms : list Message) (ss : session) : session := fold_left (fun ss m => hear m ss) ms ss.
Definition held (m : Message) : buffered := mkBuffered (Message_ID m) (messageFrames scfg m).
Definition of_room (room : string) (ms : list Message) : list Message := List.filter (fun m => bool_decide (Message_Room m = room)) ms.
(** The messages a session gets that is joining [room], and one that joins none. *)
Definition meanwhile (room : string) (ss : session) (ms : list Message) : list Message :=
  List.filter (fun m => negb (bool_decide (Message_Room m = room)) && inRoom (Message_Room m) ss) ms.
Definition in_rooms (ss : session) (ms : list Message) : list Message := List.filter (fun m => inRoom (Message_Room m) ss) ms.

Lemma offered_mono room id frames ss : (length (ss_out ss) <= length (ss_out (offered room id frames ss)))%nat.
Proof. unfold offered. repeat case_match; cbn; auto using queued_all_mono. Qed.
Lemma hear_mono ms ss : (length (ss_out ss) <= length (ss_out (hear_all ms ss)))%nat.
Proof. revert ss. induction ms as [|m ms IH]; intros ss; [done|]. cbn. etransitivity; [|apply IH]. apply offered_mono. Qed.
Lemma hear_joining room buf ms ss :
  ss_joining ss = {[room := buf]} -> open ss -> (length buf + length (of_room room ms) <= maxBuffered)%nat ->
  Z.of_nat (length (ss_out (hear_all ms ss))) < sc_SendQueue scfg ->
  hear_all ms ss = set_joining {[room := buf ++ map held (of_room room ms)]}
    (set_out (ss_out ss ++ flat_map (messageFrames scfg) (meanwhile room ss ms)) ss).
Proof.
  revert buf ss. induction ms as [|m ms IH]; intros buf ss Hj Ho Hb Hl.
  { cbn. rewrite !app_nil_r. destruct ss. cbn in *. by subst. }
  change (hear_all (m :: ms) ss) with (hear_all ms (hear m ss)) in *. cbn [of_room meanwhile List.filter] in *.
  pose proof (hear_mono ms (hear m ss)) as Hm. unfold hear, offered in *. rewrite Hj in *.
  destruct (decide (Message_Room m = room)) as [Hr|Hr].
  - rewrite bool_decide_eq_true_2 in * by done. rewrite Hr, lookup_singleton_eq in *. cbn [negb andb map length] in *.
    assert ((length buf <? maxBuffered)%nat = true) as Hlt by (apply Nat.ltb_lt; unfold of_room in Hb; lia). rewrite Hlt in *.
    rewrite (IH (buf ++ [held m])); [|cbn; by rewrite insert_singleton_eq|done| |done].
    + cbn. rewrite <- app_assoc. unfold meanwhile, inRoom. by destruct ss.
    + rewrite length_app. unfold of_room in *. cbn. lia.
  - rewrite bool_decide_eq_false_2 in * by done. rewrite lookup_singleton_ne in * by done. cbn [negb andb] in *.
    destruct (inRoom (Message_Room m) ss) eqn:Hi; [|by apply IH].
    assert (queued_all (messageFrames scfg m) ss = set_out (ss_out ss ++ messageFrames scfg m) ss) as Hq
      by (apply queued_all_out; [done|lia]).
    rewrite Hq in *. rewrite (IH buf) by done. cbn. rewrite <- app_assoc. unfold meanwhile, inRoom. by destruct ss.
Qed.
Lemma hear_settled ms ss : ss_joining ss = ∅ -> open ss -> Z.of_nat (length (ss_out (hear_all ms ss))) < sc_SendQueue scfg ->
  hear_all ms ss = set_out (ss_out ss ++ flat_map (messageFrames scfg) (in_rooms ss ms)) ss.
Proof.
  revert ss. induction ms as [|m ms IH]; intros ss Hj Ho Hl; [cbn; rewrite app_nil_r; by destruct ss|].
  change (hear_all (m :: ms) ss) with (hear_all ms (hear m ss)) in *. cbn [in_rooms List.filter] in *.
  pose proof (hear_mono ms (hear m ss)) as Hm. unfold hear, offered in *. rewrite Hj, lookup_empty in *.
  destruct (inRoom (Message_Room m) ss) eqn:Hi; [|by apply IH].
  assert (queued_all (messageFrames scfg m) ss = set_out (ss_out ss ++ messageFrames scfg m) ss) as Hq
    by (apply queued_all_out; [done|lia]).
  rewrite Hq in *. rewrite IH by done. cbn. rewrite <- app_assoc. unfold in_rooms, inRoom. by destruct ss.
Qed.
End session_view.

(** ** Joining a room *)
Section joining.
Context {E : Env} {C : Cbor} {R : RrcEnv} {S : Type} {HS : RrcHub S} (scfg : SConfig).
Notation hear_all := (hear_all scfg).
Notation frames_of := (flat_map (messageFrames scfg)).

(** Messages come to the fan-out one after the other. *)
Definition deliver_messages (evs : list (Message * list ident)) : ST (Srv S) unit :=
  foreach evs (fun ev => deliver scfg (MessageEvent ev.1 ev.2)).

Lemma deliver_message_run m to (s : Srv S) link r : srv_wf scfg s -> s_sessions s !! link = Some r -> exists s',
  deliver scfg (MessageEvent m to) s = (Ok tt, s') /\ s_sessions s' = s_sessions s /\ length (s_heap s') = length (s_heap s) /\
  deref r s' = hear scfg m (deref r s).
Proof.
  intros Hs Hl. destruct (all_sessions_once scfg s link r Hs Hl) as (Hnd & Hin & Hr). cbn [deliver].
  destruct (acts_once r (hear scfg m) _ (fun r => offerMessage scfg r (Message_Room m) (Message_ID m) (messageFrames scfg m) : ST (Srv S) unit) Hnd Hin)
    with (s := s) as (s' & E' & H1 & H2 & H3).
  - apply acts_offer.
  - intros r' Hne. by apply acts_offer_other.
  - exists s'. split; [by erewrite bind_run by done|]. auto.
Qed.
Lemma deliver_messages_run evs (s : Srv S) link r : 0 <= sc_SendQueue scfg -> srv_wf scfg s -> s_sessions s !! link = Some r -> exists s',
  deliver_messages evs s = (Ok tt, s') /\ srv_wf scfg s' /\ s_sessions s' = s_sessions s /\ length (s_heap s') = length (s_heap s) /\
  deref r s' = hear_all evs.*1 (deref r s).
Proof.
  intros Hq. revert s. induction evs as [|[m to] evs IH]; intros s Hs Hl; [by exists s|].
  destruct (deliver_message_run m to s link r Hs Hl) as (s1 & E1 & H1 & H2 & H3).
  assert (srv_wf scfg s1) as Hs1 by (pose proof (pres_s scfg _ s (pres_deliver scfg (MessageEvent m to)) Hs) as Hw; by rewrite E1 in Hw).
  destruct (IH s1 Hs1) as (s2 & E2 & Hs2 & H4 & H5 & H6); [by rewrite H1|]. exists s2. unfold deliver_messages. cbn [foreach].
  split; [by erewrite bind_run by exact E1|]. split_and!; [done|congruence|congruence|]. rewrite H6, H3. done.
Qed.

Lemma appends_weaken {A} r (P Q : list string -> Prop) (m : ST (Srv S) A) : (forall fs, P fs -> Q fs) -> appends scfg r P m -> appends scfg r Q m.
Proof. intros HPQ Hm s. destruct (Hm s) as (a & s' & fs & ? & ? & ?). exists a, s', fs. auto. Qed.
(** The frames of the replay, and frames around them. *)
Definition with_replay (ms : list Message) (fs : list string) : Prop := exists pre post, fs = pre ++ frames_of ms ++ post.
Lemma appends_before {A B} r ms (m : ST (Srv S) A) (k : A -> ST (Srv S) B) :
  appends scfg r some_frames m -> (forall a, appends scfg r (with_replay ms) (k a)) -> appends scfg r (with_replay ms) (bind m k).
Proof.
  intros Hm Hk. apply (appends_bind scfg r _ _ _ _ _ Hm Hk). intros f1 f2 _ (pre & post & ->). exists (f1 ++ pre), post.
  by rewrite <- app_assoc.
Qed.
Lemma appends_join_reply r res : appends scfg r (with_replay (jr_Replay res)) (join_reply scfg r res : ST (Srv S) unit).
Proof.
  unfold join_reply. apply appends_before; [eapply appends_weaken; [|apply appends_drawing]; done|]. intros x.
  apply appends_before; [apply appends_send|]. intros _. apply appends_before; [apply appends_notify|]. intros _.
  unfold send_history. destruct (jr_Replay res) as [|m ms].
  - eapply appends_weaken; [|apply appends_ret]. intros fs ->. by exists [], [].
  - generalize (m :: ms). intros l. apply appends_before; [apply appends_notify|]. intros _.
    apply (appends_bind scfg r _ some_frames _ _ _ (appends_messages scfg r l)); [intros _; apply appends_notify|].
    intros f1 f2 -> _. by exists [], f2.
Qed.

Definition finished (room : string) (seen : Z) (ss : session) : session :=
  queued_all scfg (flat_map bf_frames (List.filter (fun b => seen <? bf_id b) (default [] (ss_joining ss !! room))))
    (set_rooms ({[room]} ∪ ss_rooms ss) (set_joining (delete room (ss_joining ss)) ss)).
Lemma appends_foreach_frames r (bs : list buffered) :
  appends scfg r (fun fs => fs = flat_map bf_frames bs) (foreach bs (fun b => sendFrames scfg r (bf_frames b)) : ST (Srv S) unit).
Proof.
  induction bs as [|b bs IH]; [apply appends_ret|]. cbn [foreach flat_map].
  eapply appends_bind; [apply appends_frames|intros _; exact IH|]. by intros f1 f2 -> ->.
Qed.
Lemma acts_finishJoin r room seen : acts r (finished room seen) (finishJoin scfg r room seen : ST (Srv S) unit).
Proof.
  intros s. unfold finishJoin. erewrite bind_run by done. erewrite bind_run by done.
  match goal with |- context [foreach ?bs _ ?x] => destruct (appends_foreach_frames r bs x) as ([] & s' & fs & E' & -> & H1 & H2 & H3) end.
  exists s'. cbn in H2. rewrite length_alter in H2. split_and!; [done..|]. intros Hr. rewrite H3 by (cbn; by rewrite length_alter).
  rewrite deref_alter by done. by rewrite decide_True.
Qed.

Lemma finished_mono room seen ss : (length (ss_out ss) <= length (ss_out (finished room seen ss)))%nat.
Proof. unfold finished. etransitivity; [|apply queued_all_mono]. done. Qed.
Lemma held_frames seen ms : flat_map bf_frames (List.filter (fun b => seen <? bf_id b) (map (held scfg) ms)) = frames_of (List.filter (fun m => seen <? Message_ID m) ms).
Proof. induction ms as [|m ms IH]; [done|]. cbn. destruct (seen <? Message_ID m); cbn; by rewrite IH. Qed.
(** A session that has been joining [room], and hears [evs1] before it is a member
    and [evs2] after. *)
Lemma hear_join room seen ss evs1 evs2 reply :
  let ss1 := hear_all evs1 ss in
  let ss2 := finished room seen (queued_all scfg reply ss1) in
  let ss3 := hear_all evs2 ss2 in
  open ss -> ss_welcomed ss = true -> ss_joining ss = {[room := []]} -> (length (of_room room evs1) <= maxBuffered)%nat ->
  Z.of_nat (length (ss_out ss3)) < sc_SendQueue scfg ->
  ss_rooms ss3 = {[room]} ∪ ss_rooms ss /\ ss_joining ss3 = ∅ /\
  ss_out ss3 = ss_out ss ++ frames_of (meanwhile room ss evs1) ++ reply ++
    frames_of (List.filter (fun m => seen <? Message_ID m) (of_room room evs1)) ++
    frames_of (List.filter (fun m => bool_decide (Message_Room m ∈ {[room]} ∪ ss_rooms ss)) evs2).
Proof.
  intros ss1 ss2 ss3 Ho Hw Hj Hb Hl.
  pose proof (hear_mono scfg evs2 ss2) as M3. pose proof (finished_mono room seen (queued_all scfg reply ss1)) as M2.
  pose proof (queued_all_mono scfg reply ss1) as M1. fold ss2 in M2. fold ss3 in M3.
  assert (ss1 = set_joining {[room := map (held scfg) (of_room room evs1)]}
    (set_out (ss_out ss ++ frames_of (meanwhile room ss evs1)) ss)) as E1 by (apply (hear_joining scfg room []); done || (fold ss1; lia)).
  assert (open ss1) as Ho1 by by rewrite E1.
  assert (queued_all scfg reply ss1 = set_out (ss_out ss1 ++ reply) ss1) as E2 by (apply queued_all_out; [done|lia]).
  assert (ss2 = set_out (ss_out ss ++ frames_of (meanwhile room ss evs1) ++ reply ++
    frames_of (List.filter (fun m => seen <? Message_ID m) (of_room room evs1)))
    (set_rooms ({[room]} ∪ ss_rooms ss) (set_joining ∅ ss))) as E3.
  { subst ss2. unfold finished in *. rewrite E2, E1 in *. cbn [ss_joining ss_rooms ss_out set_out set_joining set_rooms] in *.
    rewrite lookup_singleton_eq, delete_singleton_eq in *. cbn [default id] in *. unfold id in *.
    rewrite held_frames in *. rewrite queued_all_out; [|done|lia]. cbn. by rewrite <- !app_assoc. }
  assert (ss3 = set_out (ss_out ss2 ++ frames_of (in_rooms ss2 evs2)) ss2) as E4 by (apply hear_settled; [by rewrite E3..|done]).
  rewrite E4, E3. cbn [set_out set_rooms set_joining ss_rooms ss_joining ss_out]. split_and!; [done..|].
  unfold in_rooms, inRoom. cbn [set_out set_rooms set_joining ss_rooms ss_welcomed]. rewrite Hw. by rewrite <- !app_assoc.
Qed.

(** A JOIN that goes on to the hub: from here on the room's messages are held. *)
Lemma join_begin_run r e room (s s1 : Srv S) : (r < length (s_heap s))%nat ->
  join_begin scfg r e s = (Ok (Some room), s1) -> room <> "" -> ss_joining (deref r s) = ∅ ->
  s_sessions s1 = s_sessions s /\ deref r s1 = set_joining {[room := []]} (deref r s).
Proof.
  intros Hr Hb Hne Hj. unfold join_begin in Hb. destruct (NormalizeRoom _ _) as [err|room']; [by injection Hb as <- _|].
  apply bind_ok in Hb as (b & s2 & [= <- <-] & Hb). destruct (inRoom room' (deref r s)).
  { by run_ok Hb. }
  apply bind_ok in Hb as (n & s2 & [= <- <-] & Hb). destruct (_ <=? _); [by run_ok Hb|].
  apply bind_ok in Hb as (u & s2 & Hm & [= <- <-]). rewrite bool_decide_eq_false_2 in Hm by done. injection Hm as _ <-. split; [done|].
  rewrite deref_alter by done. rewrite decide_True by done. by rewrite Hj.
Qed.

End joining.
