(* ===== verification/Micron.v ===== *)
(** internal/nomadpage/page.go: the Micron helpers, the banner, the paths, and
    the session tokens.  A page is a list of lines ([builder]); [page_text] is
    the bytes that are served. *)
From S2P Require Import Prelude Text TextCut Db HubCore Clock.
Local Open Scope Z_scope.

(** ** Lines *)
(** [builder.line] ends each line with a newline; [builder.blank] is [""]. *)
Definition page_text (lines : list string) : string := cat (map (fun l => l +:+ newline) lines).

Definition backtick : ascii := "`"%char.
Definition bslash : ascii := chr 92.
(** [strings.NewReplacer] and [strings.ReplaceAll] of single bytes. *)
Fixpoint replace_bytes (f : ascii -> string) (s : string) : string :=
  match s with EmptyString => "" | String c s' => f c +:+ replace_bytes f s' end.
Definition esc (s : string) : string :=
  replace_bytes (fun c => if (c =? bslash)%char then String bslash (String bslash "")
                          else if (c =? backtick)%char then String bslash (String backtick "") else String c "") s.
Definition escLabel (s : string) : string :=
  replace_bytes (fun c => if (c =? backtick)%char then "'" else if (c =? "]")%char then ")" else String c "") s.
Definition nl_to (r : string) (s : string) : string :=
  replace_bytes (fun c => if (c =? chr 10)%char then r else String c "") s.

Definition page_link (label path vars : string) : string :=
  if bool_decide (vars = "") then cat ["`F5af`_`["; escLabel label; "`:"; path; "]`_`f"]
  else cat ["`F5af`_`["; escLabel label; "`:"; path; "`"; vars; "]`_`f"].
(** A link to a page of another node. *)
Definition fullLink (label url : string) : string := cat ["`F5af`_`["; escLabel label; "`"; url; "]`_`f"].
Definition fieldLink (label path field vars : string) : string :=
  cat ["`F5af`_`["; escLabel label; "`:"; path; "`"; field; "|"; vars; "]`_`f"].
(** [with]: joins link variables, leaving out empty ones. *)
Definition with_vars (vars : list string) : string :=
  strings_Join "|" (List.filter (fun v => negb (bool_decide (v = ""))) vars).
Definition b2i (b : bool) : Z := if b then 1 else 0.

(** ** Banners *)
Definition MaxBannerLines : Z := 24.
Definition MaxBannerBytes : Z := 4096.
Definition ParseBanner (raw : string) : string + list string :=
  if MaxBannerBytes <? len raw then inl (cat ["banner: larger than "; itoa MaxBannerBytes; " bytes"]) else
  if negb (valid_string raw) then inl "banner: not valid UTF-8" else
  let text := trim_right_ascii newline (replace2 (chr 13) (chr 10) newline raw) in
  let lines := if bool_decide (text = "") then [] else split (chr 10) text in
  if MaxBannerLines <? Z.of_nat (length lines) then inl (cat ["banner: more than "; itoa MaxBannerLines; " lines"]) else
  if existsb (fun l => has_prefix l "#!") lines then inl "banner: a line starts with #!, which is a page directive" else
  inr lines.
(** banners/saltire.mu *)
Definition saltireBanner : string :=
  strings_Join newline
    ["`B05b`Ffff████            ████`f`b"; "`B05b`Ffff    ████    ████    `f`b"; "`B05b`Ffff        ████        `f`b";
     "`B05b`Ffff    ████    ████    `f`b"; "`B05b`Ffff████            ████`f`b"].
Definition defaultBanner : list string := match ParseBanner saltireBanner with inr l => l | inl _ => [] end.

Example default_banner_parses : length defaultBanner = 5%nat.
Proof. vm_compute. reflexivity. Qed.

(** ** Paths *)
Definition PathIndex : string := "/page/index.mu".
Definition PathOlder : string := "/page/older.mu".
Definition PathMessages : string := "/page/messages.mu".
Definition PathProfile : string := "/page/profile.mu".
Definition PathMe : string := "/page/me.mu".
Definition PathHelp : string := "/page/help.mu".

(** ** Numbers in links *)
(** The digits of [strconv.ParseUint(s, 10, 64)]: it stops where the number gets
    too large; [None] is a syntax error. *)
Definition uint_max : Z := 18446744073709551615.
Fixpoint parse_uint (acc : Z) (s : string) : option (Z * bool) :=
  match s with
  | EmptyString => Some (acc, true)
  | String c s' =>
    if negb (ascii_digit_p (byte c)) then None else
    let v := 10 * acc + (byte c - 48) in
    if uint_max <? v then Some (uint_max, false) else parse_uint v s'
  end.
(** [strconv.ParseInt(s, 10, 64)]: the number, which is the nearest there is if it
    is out of range, and whether there was no error. *)
Definition ParseInt (s : string) : Z * bool :=
  let '(neg, d) := match s with
                   | String "-" d => (true, d)
                   | String "+" d => (false, d)
                   | _ => (false, s)
                   end in
  if bool_decide (d = "") then (0, false) else
  match parse_uint 0 d with
  | None => (0, false)
  | Some (v, ok) =>
    if negb neg && (int_max <? v) then (int_max, false)
    else if neg && (int_max + 1 <? v) then (- (int_max + 1), false)
    else (if neg then - v else v, ok)
  end.
(** strconv.Atoi, of what its callers allow. *)
Definition chosen (s : string) (choices : list Z) : option Z :=
  n ← atoi s; if existsb (Z.eqb n) choices then Some n else None.

(** ** Session tokens *)
Record page_session := mkPageSession { ps_identity : ident; ps_expires : Z }.
Record Sessions := mkSessions { byToken : gmap string page_session; byID : gmap ident string }.
Definition newSessions : Sessions := mkSessions ∅ ∅.
Definition sessionTTL : Z := 2 * Hour.
Definition expired_at (now : Z) (e : page_session) : bool := ps_expires e <? now.
(** The entries that have expired go, and the tokens of their visitors. *)
Definition sweep (now : Z) (s : Sessions) : Sessions :=
  let gone := map_to_list (filter (fun kv => expired_at now kv.2 = true) (byToken s)) in
  mkSessions (filter (fun kv => expired_at now kv.2 = false) (byToken s))
    (foldr (fun kv => delete (ps_identity kv.2)) (byID s) gone).
(** [issue]: the visitor's token, renewed, or [fresh]; and whether [fresh] was
    drawn. *)
Definition issue (now : Z) (fresh : string) (identity : ident) (s : Sessions) : string * bool * Sessions :=
  let s := sweep now s in
  let '(tok, drawn) := match byID s !! identity with Some tok => (tok, false) | None => (fresh, true) end in
  (tok, drawn, mkSessions (<[tok := mkPageSession identity (now + sessionTTL)]> (byToken s))
                 (if drawn then <[identity := tok]> (byID s) else byID s)).
(** [identity]: the visitor a token belongs to. *)
Definition session_identity (now : Z) (token : string) (s : Sessions) : option ident :=
  e ← byToken s !! token; if expired_at now e then None else Some (ps_identity e).

(** page.go's [clock]. *)
Definition page_clock `{Env} (ms : Z) : string :=
  let t := london_seconds ms in
  let n := london_seconds (unix_milli now) in
  if t / day_seconds =? n / day_seconds then fmt_hm t else fmt_dow_hm t.
(** The layout "2 January 2006". *)
Definition month_full : list string :=
  ["January"; "February"; "March"; "April"; "May"; "June"; "July"; "August"; "September"; "October"; "November"; "December"].
Definition fmt_full_date (local : Z) : string :=
  let c := civil_of_days (local / day_seconds) in
  cat [itoa (civ_day c); " "; nth_name month_full (civ_month c - 1); " "; itoa (civ_year c)].
