(* ===== verification/PageCore.v ===== *)
(** internal/nomadpage/page.go: the page, its state and its requests.  [S] is any
    hub that keeps the interface [PageHub]. *)
From S2P Require Import Prelude Text TextCut Db StorePeople StoreMessages Names HubCore Clock Sha256 Ranks People Rooms Post Commands CmdPeople.
From S2P Require Import Links Whispers Profile Adapters Micron.
Local Open Scope Z_scope.

Record PConfig := mkPConfig {
  pc_Title : string;
  pc_GroupRoom : string;
  pc_HubAddress : string;
  pc_GroupAddress : string;
  pc_NodeAddress : string;
  pc_WikiURL : string;
  pc_Banner : option (list string)
}.
(** [New]'s defaults. *)
Definition page_config (c : PConfig) : PConfig :=
  mkPConfig (if bool_decide (pc_Title c = "") then "ScotMesh Chat" else pc_Title c)
    (if bool_decide (pc_GroupRoom c = "") then "scotmesh" else pc_GroupRoom c)
    (pc_HubAddress c) (pc_GroupAddress c) (pc_NodeAddress c) (pc_WikiURL c)
    (Some (default defaultBanner (pc_Banner c))).
Definition banner (c : PConfig) : list string := default [] (pc_Banner c).

(** ** Requests *)
Record Request := mkRequest {
  rq_Path : string;
  rq_Fields : gmap string string;
  rq_Identity : ident;          (* "" if the visitor has not identified *)
  rq_PublicKey : option string;
  rq_RequestID : option string
}.
Definition field (r : Request) (k : string) : string := default "" (rq_Fields r !! k).

(** What a request carries: msgpack values, of which strings and bytes count; a
    map's entries in the order they are gone through. *)
Inductive PAny := PStr (s : string) | PBytes (b : string) | POther.
Definition page_fields (data : option (list (PAny * PAny))) : gmap string string :=
  fold_left (fun out kv =>
    let ks := match kv.1 with PStr s => s | _ => "" end in
    let vs := match kv.2 with PStr s | PBytes s => s | POther => "" end in
    if has_prefix ks "field_" then <[trim_prefix ks "field_" := vs]> out
    else if has_prefix ks "var_" then <[trim_prefix ks "var_" := vs]> out else out) (default [] data) ∅.

(** rns.RequestContext *)
Record RequestContext := mkRequestContext {
  rc_Path : string;
  rc_Data : option (list (PAny * PAny));
  rc_RemoteIdentity : option string;
  rc_LinkID : string;
  rc_Timestamp : Z
}.
Definition request_of (rc : RequestContext) : Request :=
  let fs := page_fields (rc_Data rc) in
  let id := match rc_RemoteIdentity rc with Some pub => IdentityHashFromPublicKey pub | None => "" end in
  let sum := Sum256 (cat [hex_encode (rc_LinkID rc); "|"; itoa (rc_Timestamp rc); "|"; default "" (fs !! "action"); "|";
                          default "" (fs !! "message")]) in
  mkRequest (rc_Path rc) fs id (rc_RemoteIdentity rc) (Some (str_take 16 sum)).

(** ** The page *)
(** crypto/rand's n-th token, 16 bytes. *)
Class PageRand := fresh_token : nat -> string.

Record Page (S : Type) := mkPage { pg_hub : S; pg_sessions : Sessions; pg_drawn : nat }.
Arguments mkPage {S}. Arguments pg_hub {S}. Arguments pg_sessions {S}. Arguments pg_drawn {S}.
Definition page_New {S} (hub : S) : Page S := mkPage hub newSessions O.

Section page.
Context {E : Env} {R : PageRand} {S : Type}.
Notation PM := (ST (Page S)).

Definition pg_call {A} (f : S -> res A * S) : PM (res A) := fun p =>
  let '(r, h) := f (pg_hub p) in (Ok r, mkPage h (pg_sessions p) (pg_drawn p)).
Definition pg_ask {A} (f : S -> res A) : PM (res A) := gets (fun p => f (pg_hub p)).
(** [actionToken] *)
Definition actionToken (identity : ident) : PM string := fun p =>
  let '(tok, drawn, ss) := issue now (hex_encode (fresh_token (pg_drawn p))) identity (pg_sessions p) in
  (Ok tok, mkPage (pg_hub p) ss (if (drawn : bool) then Datatypes.S (pg_drawn p) else pg_drawn p)).
Definition validAction (r : Request) (identity : ident) : PM bool :=
  gets (fun p => negb (bool_decide (field r "tok" = "")) &&
                 bool_decide (default "" (session_identity now (field r "tok") (pg_sessions p)) = identity)).
End page.

Definition page_userText (e : Error) : string :=
  match e with UserError t => t | _ => "something went wrong on the hub; please try again" end.
Definition link_expired : string := "That link has expired; reload the page and try again.".
(** [hub.Reply{Lines: []string{text}, Error: true}] *)
Definition refused_reply (text : string) : Reply := mkReply [text] true false [] "" "".
