(* ===== verification/PageChat.v ===== *)
(** internal/nomadpage/chat.go: the conversation, what is posted on the page, and
    how it looks for a visitor. *)
From S2P Require Import Prelude Text TextCut Db StorePeople StoreMessages Names HubCore Clock Ranks People Rooms Post Commands CmdPeople.
From S2P Require Import Links Whispers Profile Adapters Micron PageCore.
Local Open Scope Z_scope.

Record View := mkView { v_lines : Z; v_flag : bool; v_refresh : Z; v_carried : bool }.
(** The choices in a request's fields, over others. *)
Definition flag_field (r : Request) (old : bool) : bool :=
  let f := field r "flag" in
  if bool_decide (f = "0") || bool_decide (f = "1") then bool_decide (f = "1") else old.
Definition lines_field (r : Request) (old : Z) : Z := default old (chosen (field r "lines") PageLineChoices).
Definition refresh_field (r : Request) (old : Z) : Z := default old (chosen (field r "refresh") PageRefreshChoices).
Definition viewFor (r : Request) (person : option Person) : View :=
  match person with
  | Some p => mkView (PageLines (p_Prefs p)) (PageFlag (p_Prefs p)) (PageRefresh (p_Prefs p)) false
  | None =>
    let d := DefaultPrefs in
    mkView (lines_field r (PageLines d)) (flag_field r (PageFlag d)) (refresh_field r (PageRefresh d)) true
  end.
Definition view_vars (v : View) : string :=
  if negb (v_carried v) then "" else
  cat ["lines="; itoa (v_lines v); "|flag="; itoa (b2i (v_flag v)); "|refresh="; itoa (v_refresh v)].

(** ** Lines of the page *)
Section lines.
Context {E : Env} (pcfg : PConfig).

Definition author_shown (m : Message) (visitor : option Person) (v : View) : string :=
  if match visitor with Some p => Owns p (Message_Author m) | None => false end
  then cat ["`F5d8"; esc (Message_AuthorName m); "`f"]
  else cat ["`!"; page_link (Message_AuthorName m) PathProfile (with_vars ["id=" +:+ hex_encode (Message_Author m); view_vars v]); "`!"].
Definition line_head (m : Message) (visitor : option Person) (v : View) : string :=
  match Message_Kind m with
  | KindAction => cat ["`F9ab"; page_clock (Message_SaidAt m); "`f  * "; author_shown m visitor v; " "]
  | KindMsg => cat ["`F9ab"; page_clock (Message_SaidAt m); "`f  "; author_shown m visitor v; "  "]
  end.
(** Your own messages, and for mods and up anyone's, can be removed. *)
Definition remove_button (m : Message) (visitor : option Person) : string :=
  if match visitor with Some p => Owns p (Message_Author m) || rank_ge (p_Rank p) RankMod | None => false end
  then cat ["  "; "`F667`[×`:"; PathIndex; "`action=delete_confirm|msg="; itoa (Message_ID m); "]`f"] else "".
Definition messageLine (m : Message) (visitor : option Person) (v : View) : string :=
  cat [line_head m visitor v; nl_to (newline +:+ "          ") (esc (Message_Body m)); remove_button m visitor].

(** Your own messages are never news to you: the marker moves past those at the
    start of what is new. *)
Fixpoint move_marker (person : Person) (marker : Z) (msgs : list Message) : Z :=
  match msgs with
  | [] => marker
  | m :: ms =>
    if (marker <? Message_ID m) && Owns person (Message_Author m) then move_marker person (Message_ID m) ms
    else if marker <? Message_ID m then marker else move_marker person marker ms
  end.
Definition new_line : string := "`Fe93── new since your last visit ──────────────`f".
Fixpoint message_lines (person : option Person) (v : View) (marker : Z) (shown first : bool) (msgs : list Message) : list string :=
  match msgs with
  | [] => []
  | m :: ms =>
    let mark := (0 <? marker) && negb shown && (marker <? Message_ID m) && negb first in
    (if mark then [new_line] else []) ++ messageLine m person v :: message_lines person v marker (shown || mark) false ms
  end.
Definition conversation (msgs : list Message) (person : option Person) (marker : Z) (latest : bool) (v : View) : list string :=
  if bool_decide (msgs = []) && latest then ["`F9abNothing said in the last 7 days. Say hello!`f"] else
  let marker := match person with Some p => if 0 <? marker then move_marker p marker msgs else marker | None => marker end in
  message_lines person v marker false true msgs.

(** [viewButtons]: each button sets one choice and keeps the others. *)
Definition choice (label : string) (current : bool) (vars : string) : string :=
  if current then cat ["`!`F2c8["; esc label; "]`f`!"] else page_link label PathIndex vars.
Definition set_view (lines flag refresh : Z) : string :=
  cat ["action=view|lines="; itoa lines; "|flag="; itoa flag; "|refresh="; itoa refresh].
Definition viewButtons (person : option Person) (v : View) : list string :=
  let lines := map (fun n => choice (itoa n) (n =? v_lines v) (set_view n (b2i (v_flag v)) (v_refresh v))) PageLineChoices in
  let refresh := map (fun n => choice (if 0 <? n then itoa n +:+ "s" else "off") (n =? v_refresh v)
                                 (set_view (v_lines v) (b2i (v_flag v)) n)) PageRefreshChoices in
  let hasBanner := negb (bool_decide (banner pcfg = [])) in
  let flag := if v_flag v then page_link "hide" PathIndex (set_view (v_lines v) 0 (v_refresh v))
              else page_link "show" PathIndex (set_view (v_lines v) 1 (v_refresh v)) in
  let changed := negb (v_lines v =? PageLines DefaultPrefs) || negb (v_refresh v =? PageRefresh DefaultPrefs)
                 || (hasBanner && negb (v_flag v)) in
  (if hasBanner
   then cat ["`F9abShow:`f "; strings_Join " " lines; "  `F9abFlag:`f "; flag; "  `F9abRefresh:`f "; strings_Join " " refresh]
   else cat ["`F9abShow:`f "; strings_Join " " lines; "  `F9abRefresh:`f "; strings_Join " " refresh]) ::
  (if bool_decide (person = None) && changed then ["`F9abThese choices last for this visit; identify to keep them.`f"] else []) ++
  [""].

(** A command's reply, which only this visitor sees. *)
Definition replyBox (reply : Reply) : list string :=
  let colour := if Reply_Error reply then "fb3" else "9df" in
  [cat ["`B223`F"; colour; "  Only you see this:`f`b"]] ++
  map (fun l => cat ["`B223`F"; colour; "  "; esc l; "`f`b"]) (Lines reply) ++
  (match Reply_History reply with
   | [] => []
   | ms => cat ["`B223`F9ab  "; esc (HistoryNote reply); "`f`b"] ::
           map (fun m => cat ["`B223  "; messageLine m None (mkView 0 false 0 false); "`b"]) ms
   end) ++
  (match Lines reply, Reply_History reply with
   | [], [] => [cat ["`B223`F"; colour; "  Done.`f`b"]]
   | _, _ => []
   end) ++ [""].
End lines.

(** ** With the hub *)
Section chat.
Context {E : Env} {R : PageRand} {S : Type} {HS : PageHub S} (pcfg : PConfig).
Notation PM := (ST (Page S)).

Definition page_header (person : option Person) (v : View) : PM (list string) :=
  let hasBanner := negb (bool_decide (banner pcfg = [])) in
  members <- pg_ask (nh_Members (pc_GroupRoom pcfg)) ;;
  room <- pg_ask (nh_Room (pc_GroupRoom pcfg)) ;;
  let here := match members with Ok ms => cat [" · "; itoa (Z.of_nat (length ms)); " here now"] | Fail _ => "" end in
  let topic := match room with
               | Ok (Some r) => if bool_decide (Room_Topic r = "") then "" else " · " +:+ Room_Topic r
               | _ => ""
               end in
  let title := cat ["`!`F2c8"; esc (pc_Title pcfg); "`f`!"] in
  let sub := cat ["#"; pc_GroupRoom pcfg; here; topic] in
  ret (["#!c=0"; "`c"] ++
       (if v_flag v && hasBanner then banner pcfg ++ [""] else []) ++
       (if v_flag v && hasBanner then [title; cat ["`F9ab"; esc sub; "`f"]] else [cat [title; "  `F9ab"; esc sub; "`f"]]) ++
       ["`a"; "-"] ++
       match person with
       | Some p => [cat ["You are `F5d8`!"; esc (p_Name p); "`!`f  ·  "; page_link "Change name or settings" PathMe ""]; ""]
       | None => []
       end).
Definition postForm (person : option Person) : PM (list string) :=
  match person with
  | None => ret [cat ["`F9abTo post, identify yourself to this node: the fingerprint button in MeshChatX, or "; dquote;
                      "Identify when connecting"; dquote; " in NomadNet's node settings.`f"]]
  | Some p =>
    tok <- actionToken (p_Identity p) ;;
    ret ([cat ["Say: `B334`<52|message`>`b  "; fieldLink "Send" PathIndex "message" ("action=send|tok=" +:+ tok)];
          "`F9abCommands work here too, starting with / or !: try /help.`f"] ++
         (if negb (p_Claimed p)
          then [cat ["`F9abYou're shown as "; esc (p_Name p); " until you "; page_link "choose a name" PathMe ""; ".`f"]] else []))
  end.

(** [post]: says what the visitor typed, or runs it as their command. *)
Definition page_post (r : Request) (person : option Person) : PM (string * option Reply) :=
  match person with
  | None => ret (cat ["Identify to post: the fingerprint button in MeshChatX, or "; dquote; "Identify when connecting"; dquote;
                      " for this node in NomadNet."], None)
  | Some p =>
    let msg := trim_space (field r "message") in
    if bool_decide (msg = "") then ret ("", None) else
    let say msg action :=
      res <- pg_call (nh_Post (mkPostRequest ViaPage (p_Identity p) "" action msg (rq_RequestID r) 0 None)) ;;
      ret (match res with Ok _ => "" | Fail e => "Not sent: " +:+ page_userText e end, None) in
    match ActionText msg with
    | Some a => say a true
    | None =>
      if IsCommand msg then
        res <- pg_call (nh_Command (mkCommandRequest ViaPage (p_Identity p) "" msg)) ;;
        ret (match res with Ok reply => ("", Some reply) | Fail e => (page_userText e, None) end)
      else say msg false
    end
  end.
(** A view button: saved for an identified visitor. *)
Definition view_prefs (r : Request) (pr : Prefs) : Prefs :=
  mkPrefs (ShareLXMF pr) (Whispers pr) (WhispersLXMF pr) (lines_field r (PageLines pr)) (flag_field r (PageFlag pr))
    (refresh_field r (PageRefresh pr)).
Definition changeView (r : Request) (person : option Person) : PM string :=
  match person with
  | None => ret ""
  | Some p =>
    res <- pg_call (nh_SetPrefs (p_Identity p) (view_prefs r)) ;;
    ret (match res with Ok _ => "" | Fail e => page_userText e end)
  end.
Definition confirmDelete (r : Request) (v : View) (person : option Person) : PM (list string) :=
  match ParseInt (field r "msg"), person with
  | (id, true), Some p =>
    msgs <- pg_ask (nh_Recent (pc_GroupRoom pcfg) 100 0) ;;
    match (match msgs with Ok ms => List.find (fun m => Message_ID m =? id) ms | Fail _ => None end) with
    | None => ret []
    | Some m =>
      let excerpt := if 60 <? len (Message_Body m) then to_valid_utf8 (str_take 60 (Message_Body m)) +:+ "…" else Message_Body m in
      tok <- actionToken (p_Identity p) ;;
      let yes := with_vars [cat ["action=delete|msg="; itoa id; "|tok="; tok]; view_vars v] in
      ret [cat ["`B223`Ffb3  Remove this message from "; esc (Message_AuthorName m); "? "; dquote; esc excerpt; dquote; "`f`b"];
           cat ["`B223  "; page_link "Yes, remove it" PathIndex yes; "  ·  "; page_link "No, keep it" PathIndex (view_vars v); "`b"];
           ""]
    end
  | _, _ => ret []
  end.
Definition page_deleteMessage (r : Request) (person : option Person) : PM (option Reply) :=
  match person with
  | None => ret (Some (refused_reply "Identify first to remove messages."))
  | Some p =>
    match ParseInt (field r "msg") with
    | (_, false) => ret None
    | (id, true) =>
      res <- pg_call (nh_DeleteMessage (p_Identity p) id) ;;
      ret (Some (match res with Ok reply => reply | Fail e => refused_reply (page_userText e) end))
    end
  end.

(** ** [index] *)
(** What the request asks for: a notice, a reply. *)
Definition has_token (r : Request) (person : option Person) : PM bool :=
  match person with None => ret true | Some p => validAction r (p_Identity p) end.
Definition index_action (r : Request) (person : option Person) : PM (string * option Reply) :=
  let action := field r "action" in
  if bool_decide (action = "send") then
    ok <- has_token r person ;;
    if (ok : bool) then page_post r person else ret (link_expired, None)
  else if bool_decide (action = "view") then
    notice <- changeView r person ;; ret (notice, None)
  else if bool_decide (action = "delete") then
    ok <- has_token r person ;;
    if (ok : bool) then reply <- page_deleteMessage r person ;; ret ("", reply)
    else ret ("", Some (refused_reply link_expired))
  else ret ("", None).
(** The person as they are after it. *)
Definition refreshed (person : option Person) : PM (option Person) :=
  match person with
  | None => ret None
  | Some p => fresh <- pg_ask (nh_PersonOf (p_Identity p)) ;; ret (Some (match fresh with Ok f => f | Fail _ => p end))
  end.
(** The marker sits after the last message the visitor had seen here, and moves
    with a full page load. *)
Definition index_marker (person : option Person) (before : Z) (msgs : list Message) : PM Z :=
  match person with
  | Some p =>
    if negb (before =? 0) then ret 0 else
    c <- pg_ask (nh_ReadCursor (p_Identity p) (pc_GroupRoom pcfg) ViaPage) ;;
    let marker := match c with Ok (Some c) => Cursor_MessageID c | _ => 0 end in
    match last msgs with
    | None => ret marker
    | Some m => _ <- pg_call (nh_MarkRead (p_Identity p) (pc_GroupRoom pcfg) ViaPage (Message_ID m)) ;; ret marker
    end
  | None => ret 0
  end.
(** The conversation, or the partial that loads it and again; its address carries
    the visitor's token. *)
Definition index_conversation (person : option Person) (v : View) (before marker : Z) (msgs : list Message) : PM (list string) :=
  if (0 <? v_refresh v) && (before =? 0) then
    token <- (match person with None => ret "" | Some p => tok <- actionToken (p_Identity p) ;; ret ("t=" +:+ tok) end) ;;
    ret [cat ["`{"; pc_NodeAddress pcfg; ":"; PathMessages; "`"; itoa (v_refresh v); "`";
              with_vars ["pid=chat"; "lines=" +:+ itoa (v_lines v); "m=" +:+ itoa marker; token]; "}"]]
  else ret (conversation msgs person marker (before =? 0) v).
Definition index_nav (v : View) (before : Z) (msgs : list Message) : string :=
  strings_Join "  ·  "
    ([page_link "Reload" PathIndex (view_vars v)] ++
     (if (0 <? v_refresh v) && (before =? 0) then ["`F5af`_`[Refresh now`p:chat]`_`f"] else []) ++
     (match msgs with
      | [] => []
      | m :: _ => [page_link "Older" PathOlder (with_vars ["before=" +:+ itoa (Message_ID m); view_vars v])]
      end) ++
     [page_link "Your name & settings" PathMe ""; page_link "How to join" PathHelp (view_vars v)] ++
     (if bool_decide (pc_WikiURL pcfg = "") then [] else [fullLink "About the chat (wiki)" (pc_WikiURL pcfg)])).
Definition index_page (r : Request) (person : option Person) (notice : string) (reply : option Reply) : PM (list string) :=
  let v := viewFor r person in
  let before := if bool_decide (rq_Path r = PathOlder) then (ParseInt (field r "before")).1 else 0 in
  recent <- pg_ask (nh_Recent (pc_GroupRoom pcfg) (v_lines v) before) ;;
  let msgs := match recent with Ok ms => ms | Fail _ => [] end in
  let notice := match recent with Ok _ => notice | Fail _ => "The conversation couldn't be loaded just now. Please reload." end in
  marker <- index_marker person before msgs ;;
  header <- page_header person v ;;
  confirm <- (if bool_decide (field r "action" = "delete_confirm") then confirmDelete r v person else ret []) ;;
  talk <- index_conversation person v before marker msgs ;;
  form <- postForm person ;;
  ret (header ++ viewButtons pcfg person v ++
       (if bool_decide (notice = "") then [] else [cat ["`Ffb3"; esc notice; "`f"]; ""]) ++
       confirm ++ (match reply with Some rep => replyBox rep | None => [] end) ++
       (if 0 <? before then ["`F9ab— older messages —`f"; ""] else []) ++
       talk ++ [""; "-"] ++ form ++ [""; index_nav v before msgs]).
Definition page_index (r : Request) (person : option Person) (refusal : string) : PM (list string) :=
  if negb (bool_decide (refusal = "")) then index_page r person refusal None else
  let! (notice, reply) := index_action r person in
  person <- refreshed person ;;
  index_page r person notice reply.

(** [messages]: the conversation on its own, for the refreshing partial. *)
Definition page_messages (r : Request) : PM string :=
  id <- gets (fun p => session_identity now (field r "t") (pg_sessions p)) ;;
  person <- (match id with
             | None => ret None
             | Some id => pp <- pg_ask (nh_PersonOf id) ;; ret (match pp with Ok pp => Some pp | Fail _ => None end)
             end) ;;
  let v := match person with
           | None => viewFor (mkRequest "" {["lines" := field r "lines"]} "" None None) None
           | Some _ => viewFor r person
           end in
  recent <- pg_ask (nh_Recent (pc_GroupRoom pcfg) (v_lines v) 0) ;;
  match recent with
  | Fail _ => ret "`Ffb3The conversation couldn't be loaded just now.`f"
  | Ok msgs => ret (trim_right_ascii newline (page_text (conversation msgs person (ParseInt (field r "m")).1 true v)))
  end.
End chat.
