(* ===== verification/PageMe.v ===== *)
(** internal/nomadpage/me.go: a visitor's name and settings. *)
From S2P Require Import Prelude Text TextCut Db StorePeople StoreMessages Names HubCore Clock Ranks People Rooms Post Commands CmdPeople.
From S2P Require Import Links Whispers Profile Adapters Micron PageCore PageChat.
Local Open Scope Z_scope.

Definition mode_string (m : LXMFMode) : string := match m with LXMFOn => "on" | LXMFOff => "off" | LXMFAuto => "auto" end.
Definition set_member (b : bool) (p : Person) : Person :=
  mkPerson (p_Identity p) (p_PersonID p) (p_Identities p) (p_Name p) (p_Claimed p) (p_ClaimedAt p) (p_Rank p) (p_PersonRank p)
    (p_RankBy p) (p_RankAt p) b (p_LXMFMode p) (p_LXMFMine p) (p_Prefs p).

(** The command a link, whisper or ignore button or form stands for, or "". *)
Definition linkCommand (r : Request) : string :=
  let app := trim_space (field r "app") in
  let action := field r "action" in
  let how := field r "set" in
  let asks a := bool_decide (action = a) in
  if asks "unignore" then (if bool_decide (app = "") then "" else "/unignore " +:+ app)
  else if asks "whispers" then
    if bool_decide (how = "on") || bool_decide (how = "off") then "/whispers " +:+ how
    else if bool_decide (how = "lxmf-on") || bool_decide (how = "lxmf-off") then "/whispers lxmf " +:+ trim_prefix how "lxmf-" else ""
  else if asks "link" then "/link"
  else if asks "redeem" then
    let code := trim_space (field r "code") in
    if bool_decide (code = "") then "" else
    if bool_decide (field r "confirm" = "1") then cat ["/link "; code; " confirm"] else "/link " +:+ code
  else if asks "unlink" then trim_space ("/unlink " +:+ app)
  else if asks "approve" || asks "deny" then (if bool_decide (app = "") then "" else cat ["/link "; action; " "; app])
  else "".

Section me.
Context {E : Env} {R : PageRand} {S : Type} {HS : PageHub S} (pcfg : PConfig).
Notation PM := (ST (Page S)).

Definition me_link (label action tok : string) : string := page_link label PathMe (cat ["action="; action; "|tok="; tok]).

(** ** What the visitor asks for *)
(** A change of settings: the person as they are after it, and what is said. *)
Definition updated (p : Person) (res : res Person) (text : Person -> string) : Person * string :=
  match res with Ok q => (q, text q) | Fail e => (p, page_userText e) end.
Definition me_forget (p : Person) : PM (Person * string) :=
  res <- pg_call (nh_Forget (p_Identity p)) ;;
  ret (updated p res (fun _ =>
    if p_Claimed p && p_Member p then p_Name p +:+ " is free again and you have left the LXMF group."
    else if p_Claimed p then p_Name p +:+ " is free again."
    else if p_Member p then "You have left the LXMF group." else "There was nothing to forget.")).
Definition me_leave (p : Person) : PM (Person * string) :=
  res <- pg_call (nh_LeaveGroup (p_Identity p)) ;;
  ret (match res with
       | Fail e => (p, page_userText e)
       | Ok true => (set_member false p, "You have left the LXMF group. Your name stays yours.")
       | Ok false => (p, "You weren't in the LXMF group.")
       end).
(** [notice] is what there was to say already. *)
Definition me_change (r : Request) (action notice : string) (p : Person) : PM (Person * string) :=
  let on := bool_decide (field r "on" = "1") in
  let id := p_Identity p in
  if bool_decide (action = "nick") then
    res <- pg_call (nh_ClaimName id (field r "nick")) ;;
    ret (updated p res (fun q => if bool_decide (p_Name q = p_Name p) then notice else
      cat ["You are now "; p_Name q; ". The name is yours on RRC, the LXMF group and this page until you forget it."]))
  else if bool_decide (action = "lxmf") then
    match ParseLXMFMode (field r "mode") with
    | None => ret (p, notice)
    | Some mode =>
      res <- pg_call (nh_SetLXMFMode id mode) ;;
      ret (updated p res (fun _ => cat ["LXMF delivery is now "; mode_string mode; "."]))
    end
  else if bool_decide (action = "mine") then
    res <- pg_call (nh_SetLXMFMine id on) ;;
    ret (updated p res (fun _ => if on then "Your own messages from RRC and this page will come to you by LXMF too."
                                 else "Your own messages won't be sent to you by LXMF any more."))
  else if bool_decide (action = "share") then
    res <- pg_call (nh_SetPrefs id (with_share on)) ;;
    ret (updated p res (fun _ => if on then "Your LXMF address is shown on your profile now, so people can message you."
                                 else "Your LXMF address is hidden from your profile now."))
  else if bool_decide (action = "leave") then me_leave p
  else if bool_decide (action = "forget") then me_forget p
  else ret (p, notice).
(** Linking goes through the same commands as everywhere else. *)
Definition me_command (r : Request) (p : Person) : PM (Person * string * option Reply) :=
  let line := linkCommand r in
  if bool_decide (line = "") then ret (p, "", None) else
  res <- pg_call (nh_Command (mkCommandRequest ViaPage (p_Identity p) "" line)) ;;
  match res with
  | Fail e => ret (p, page_userText e, None)
  | Ok reply =>
    fresh <- pg_ask (nh_PersonOf (p_Identity p)) ;;
    ret (match fresh with Ok f => f | Fail _ => p end, "", Some reply)
  end.
(** Every action but a "..._confirm" needs the token this page issued. *)
Definition me_action (r : Request) (p : Person) : PM (Person * string * option Reply) :=
  let action := field r "action" in
  ok <- validAction r (p_Identity p) ;;
  if negb (bool_decide (action = "")) && negb (has_suffix action "_confirm") && negb ok then ret (p, link_expired, None) else
  if bool_decide (action = "") then ret (p, "", None) else
  let! (p, notice, reply) := me_command r p in
  let! (p, notice) := me_change r action notice p in
  ret (p, notice, reply).

(** ** The sections *)
Definition name_section (p : Person) (tok : string) : list string :=
  [">>Name";
   if p_Claimed p
   then cat ["You are `!"; esc (p_Name p); "`!, yours since "; fmt_full_date (london_seconds (p_ClaimedAt p)); "."]
   else cat ["You haven't claimed a name, so people see you as `!"; esc (p_Name p); "`!."];
   cat ["New name: `B334`<24|nick`>`b  "; fieldLink "Take this name" PathMe "nick" ("action=nick|tok=" +:+ tok)];
   "`F9ab2 to 24 letters, digits, - _ or . with no spaces, starting with a letter. A name is held by one identity, on RRC, the LXMF group and this page; names that look alike (A1ex and Alex) count as the same.`f";
   ""].
Definition mode_line (p : Person) (tok : string) (o : string * string) : string :=
  (if bool_decide (mode_string (p_LXMFMode p) = o.1) then "`F5d8●`f " else "  ") +:+ me_link o.2 ("lxmf|mode=" +:+ o.1) tok.
Definition lxmf_section (p : Person) (tok : string) : list string :=
  [">>LXMF delivery"] ++
  (if p_Member p then
     map (mode_line p tok)
       [("on", "On: every message"); ("auto", "Auto: pause while I'm in the RRC room");
        ("off", "Off: nothing, but keep my name and membership")] ++
     [""; if p_LXMFMine p
          then cat ["`F5d8●`f Your own messages from RRC and this page also come to you by LXMF.  "; me_link "Stop" "mine|on=0" tok]
          else cat ["Your own messages from RRC and this page don't come to you by LXMF.  "; me_link "Send them to me too" "mine|on=1" tok]]
   else [cat ["You're not in the LXMF group. Send `!/join`! from any LXMF messenger to "; esc (pc_GroupAddress pcfg);
              " to get messages there."]]) ++ [""].
Definition sharing_section (p : Person) (tok : string) : list string :=
  [">>Sharing";
   if rank_ge (p_PersonRank p) RankMod
   then cat ["Your LXMF address is always shown on your profile while you're "; Rank_String (p_PersonRank p); ", so people can reach you."]
   else if ShareLXMF (p_Prefs p)
   then cat ["`F5d8●`f Your LXMF address is shown on your profile, so people can message you.  "; me_link "Hide it" "share|on=0" tok]
   else cat ["Your LXMF address is hidden from your profile.  "; me_link "Show it" "share|on=1" tok];
   ""].
Definition view_section (v : View) : list string :=
  let refresh := if 0 <? v_refresh v then cat ["every "; itoa (v_refresh v); "s"] else "off" in
  [">>Chat page view";
   if negb (bool_decide (banner pcfg = []))
   then cat ["Messages shown: "; itoa (v_lines v); "  ·  Flag: "; if v_flag v then "shown" else "hidden"; "  ·  Refresh: "; refresh]
   else cat ["Messages shown: "; itoa (v_lines v); "  ·  Refresh: "; refresh];
   cat ["`F9abChange these with the buttons on the "; page_link "chat page" PathIndex "";
        ", or /page lines|flag|refresh. Refresh off suits a slow link, such as LoRa.`f"];
   ""].
Definition whisper_line (w : Whisper) : string :=
  cat ["`F9ab"; page_clock (Whisper_SaidAt w); "`f  `!"; esc (Whisper_FromName w); "`! whispers: ";
       esc (nl_to " " (Whisper_Body w))].
(** [whisperSection]: seeing them here marks them read. *)
Definition whisperSection (p : Person) (tok : string) : PM (list string) :=
  inbox <- pg_call (nh_Whispers (p_Identity p) 10) ;;
  ret ([">>Whispers"] ++
    match inbox with
    | Fail _ => ["`Ffb3Your whispers couldn't be shown just now.`f"; ""]
    | Ok inb =>
      let newFrom := Z.of_nat (length (wi_Whispers inb)) - wi_Unread inb in
      let setting (on : bool) (key : string) :=
        if on then cat ["on  "; me_link "Turn off" (cat ["whispers|set="; key; "off"]) tok]
        else cat ["off  "; me_link "Turn on" (cat ["whispers|set="; key; "on"]) tok] in
      (if bool_decide (wi_Whispers inb = []) then ["`F9abNo whispers in the last 7 days.`f"] else []) ++
      concat (imap (fun i w => (if (Z.of_nat i =? newFrom) && (0 <? wi_Unread inb) then ["`Fe93── new ──`f"] else []) ++ [whisper_line w])
                (wi_Whispers inb)) ++
      [cat ["Whispers to you: "; setting (Whispers (p_Prefs p)) ""; "  ·  Also to your LXMF app: ";
            setting (WhispersLXMF (p_Prefs p)) "lxmf-"]] ++
      map (fun ig => cat ["Ignoring `!"; esc (Ignored_Name ig); "`!  ";
                          me_link "Unignore" (cat ["unignore|app="; hex_encode (Ignored_Identity ig)]) tok]) (wi_Ignored inb) ++
      ["`F9abTo whisper to someone, open their profile, or send /whisper Name text. /ignore Name blocks someone's whispers.`f"; ""]
    end).
Definition app_line (p : Person) (many : bool) (tok : string) (a : App) : string :=
  let short := short8 (App_Identity a) in
  let notes := (if bool_decide (App_Identity a = p_Identity p) then ["this app"] else []) ++
               (if App_RRC a then ["on RRC now"] else []) ++ (if App_LXMF a then ["LXMF group"] else []) ++
               (if 0 <? App_LastSeen a then ["seen " +:+ page_clock (App_LastSeen a)] else []) in
  cat ["  `!"; short; "`!  "; esc (strings_Join " · " notes);
       if many then "  " +:+ me_link "Unlink" ("unlink|app=" +:+ short) tok else ""].
Definition pending_line (tok : string) (a : App) : string :=
  let short := short8 (App_Identity a) in
  cat ["`Fe93  "; short; " wants to join your name (via "; default "" (via_string <$> App_Via a); ", until ";
       page_clock (App_ExpiresAt a); "):`f  "; me_link "Approve" ("approve|app=" +:+ short) tok; "  ·  ";
       me_link "Deny" ("deny|app=" +:+ short) tok].
Definition linkSection (p : Person) (tok : string) : PM (list string) :=
  apps <- pg_ask (nh_LinkedApps (p_Identity p)) ;;
  ret ([">>Your apps"] ++
    match apps with
    | Fail _ => ["`Ffb3Your apps couldn't be listed just now.`f"; ""]
    | Ok apps =>
      ["One name can be shared by up to 5 apps, such as your phone and your laptop."] ++
      map (app_line p (1 <? Z.of_nat (length (Apps apps))) tok) (Apps apps) ++
      map (pending_line tok) (Pending apps) ++
      [me_link "Get a link code" "link" tok +:+ "  on this app, then enter it on the other one.";
       cat ["Code from your other app: `B334`<12|code`>`b  "; fieldLink "Link this app" PathMe "code" ("action=redeem|tok=" +:+ tok)];
       ""]
    end).
Definition leave_section (r : Request) (p : Person) (tok : string) : list string :=
  let asks a := bool_decide (field r "action" = a) in
  [">>Leave or forget"] ++
  (if p_Member p then
     if asks "leave_confirm"
     then ["This takes you out of the LXMF group, so nothing more comes to you by LXMF. Your name stays yours.";
           cat [me_link "Yes, leave the group" "leave" tok; "  ·  "; page_link "No, stay" PathMe ""]]
     else [page_link "Leave the LXMF group…" PathMe "action=leave_confirm"]
   else []) ++
  (if asks "forget_confirm"
   then ["This frees your name for anyone and takes you out of the LXMF group. Messages you've sent keep your name.";
         cat [me_link "Yes, forget me" "forget" tok; "  ·  "; page_link "No, keep everything" PathMe ""]]
   else [page_link "Free my name and leave everything…" PathMe "action=forget_confirm"]) ++
  [""; cat ["`F9abYour identity: "; hex_encode (p_Identity p); "`f"]; ""; page_link "Back to the chat" PathIndex ""].

(** ** [me] *)
Definition me_unidentified (r : Request) (refusal : string) : PM (list string) :=
  header <- page_header pcfg None (viewFor r None) ;;
  ret (header ++ [">Your name & settings"; ""] ++
       (if bool_decide (refusal = "") then [] else [cat ["`Ffb3"; esc refusal; "`f"]; ""]) ++
       ["Names and settings belong to your Reticulum identity, so this page needs to know who you are.";
        cat ["Identify to this node first: the fingerprint button in MeshChatX, or "; dquote; "Identify when connecting"; dquote;
             " in NomadNet's node settings, then reload."];
        ""; page_link "Back to the chat" PathIndex ""]).
Definition page_me (r : Request) (person : option Person) (refusal : string) : PM (list string) :=
  match person with
  | None => me_unidentified r refusal
  | Some p =>
    tok <- actionToken (p_Identity p) ;;
    let! (p, notice, reply) := me_action r p in
    let v := viewFor r (Some p) in
    header <- page_header pcfg (Some p) v ;;
    whispers <- whisperSection p tok ;;
    links <- linkSection p tok ;;
    ret (header ++ [">Your name & settings"; ""] ++
         (if bool_decide (notice = "") then [] else [cat ["`Ffb3"; esc notice; "`f"]; ""]) ++
         (match reply with Some rep => replyBox rep | None => [] end) ++
         name_section p tok ++ lxmf_section p tok ++ sharing_section p tok ++ view_section v ++ whispers ++ links ++
         leave_section r p tok)
  end.
End me.
