(* ===== verification/PageProfile.v ===== *)
(** internal/nomadpage/profile.go, a person's profile page with its moderation
    buttons; help.go; and page.go's [Serve]. *)
From S2P Require Import Prelude Text TextCut Db StorePeople StoreMessages Names HubCore Clock Ranks People Rooms Post Commands CmdPeople.
From S2P Require Import Links Whispers Profile Adapters Micron PageCore PageChat PageMe.
Local Open Scope Z_scope.

(** The command a profile form stands for, once confirmed, or "". *)
Definition profileCommand (r : Request) (idHex : string) : string :=
  let action := field r "action" in
  let asks a := bool_decide (action = a) in
  let reason := trim_space (field r "reason") in
  if asks "whisper" then
    let text := trim_space (field r "whisper") in
    if bool_decide (text = "") then "" else cat ["/whisper "; idHex; " "; text]
  else if asks "kick" then trim_space (cat ["/kick "; idHex; " "; reason])
  else if asks "ban" then
    let l := field r "len" in
    let length := if bool_decide (l ∈ ["1h"; "1d"; "7d"; "perm"]) then l else "perm" in
    trim_space (cat ["/ban "; idHex; " "; length; " "; reason])
  else if asks "rename" then
    let name := trim_space (field r "newname") in
    if bool_decide (name = "") then "" else cat ["/rename "; idHex; " "; name]
  else if asks "mod" || asks "admin" || asks "demote" then cat ["/"; action; " "; idHex]
  else if asks "deletelast" then "/delete " +:+ idHex
  else "".

Section profile.
Context {E : Env} {R : PageRand} {S : Type} {HS : PageHub S} (pcfg : PConfig).
Notation PM := (ST (Page S)).

(** ** Moderation *)
Definition mod_buttons (allowed : list (Action * bool)) (self : bool) (who : Person) (idHex : string) : list string :=
  let may a := existsb (fun x => bool_decide (x.1 = a) && x.2) allowed in
  let add (a : Action) (label confirm : string) :=
    if may a && (negb self || bool_decide (a = ActDelete))
    then [page_link label PathProfile (cat ["action="; confirm; "|id="; idHex])] else [] in
  add ActKick "Kick" "kick_confirm" ++ add ActBan "Ban" "ban_confirm" ++ add ActRename "Rename" "rename_confirm" ++
  add ActDelete "Remove their last message" "deletelast_confirm" ++
  (if rank_lt (p_PersonRank who) RankMod then add ActMakeMod "Make a mod" "mod_confirm" else []) ++
  (if rank_lt (p_PersonRank who) RankAdmin then add ActMakeAdmin "Make an admin" "admin_confirm" else []) ++
  (if bool_decide (p_PersonRank who = RankMod \/ p_PersonRank who = RankAdmin)
   then add ActDemote "Take their role away" "demote_confirm" else []).
(** [confirm]: a question, with a reason box where one makes sense. *)
Definition confirm_form (idHex tok question yes vars : string) (reason : bool) : list string :=
  let vars := cat [vars; "|tok="; tok; "|id="; idHex] in
  let no := page_link "No" PathProfile ("id=" +:+ idHex) in
  [cat ["`B223`Ffb3  "; question; "`f`b"]] ++
  (if reason
   then ["`B223  Reason (optional): `B334`<40|reason`>`b`b";
         cat ["`B223  "; fieldLink yes PathProfile "reason" vars; "  ·  "; no; "`b"]]
   else [cat ["`B223  "; page_link yes PathProfile vars; "  ·  "; no; "`b"]]) ++ [""].
Definition ban_form (name idHex tok : string) : list string :=
  [cat ["`B223`Ffb3  Ban "; name; "? Every app of theirs is banned and their name is freed.`f`b"];
   "`B223  Reason (optional): `B334`<40|reason`>`b`b";
   cat ["`B223  Ban for: ";
        strings_Join "  " (map (fun l => fieldLink l.1 PathProfile "reason" (cat ["action=ban|len="; l.2; "|id="; idHex; "|tok="; tok]))
          [("1 hour", "1h"); ("1 day", "1d"); ("7 days", "7d"); ("for good", "perm")]);
        "  ·  "; page_link "No" PathProfile ("id=" +:+ idHex); "`b"];
   ""].
Definition rename_form (name idHex tok : string) : list string :=
  [cat ["`B223`Ffb3  Rename "; name; " to:`f `B334`<24|newname`>`b  ";
        fieldLink "Rename" PathProfile "newname" (cat ["action=rename|id="; idHex; "|tok="; tok]); "  ·  ";
        page_link "No" PathProfile ("id=" +:+ idHex); "`b"];
   ""].
Definition mod_form (who : Person) (idHex action tok : string) : list string :=
  let name := esc (p_Name who) in
  let asks a := bool_decide (action = a) in
  let confirm := confirm_form idHex tok in
  if asks "kick_confirm"
  then confirm (cat ["Kick "; name; "? They're put out everywhere and their name is freed."]) "Yes, kick" "action=kick" true
  else if asks "ban_confirm" then ban_form name idHex tok
  else if asks "rename_confirm" then rename_form name idHex tok
  else if asks "deletelast_confirm"
  then confirm (cat ["Remove "; name; "'s last message from the chat?"]) "Yes, remove it" "action=deletelast" false
  else if asks "mod_confirm" then confirm (cat ["Make "; name; " a mod?"]) "Yes, make them a mod" "action=mod" false
  else if asks "admin_confirm" then confirm (cat ["Make "; name; " an admin?"]) "Yes, make them an admin" "action=admin" false
  else if asks "demote_confirm"
  then confirm (cat ["Take "; name; "'s "; Rank_String (p_PersonRank who); " role away?"]) "Yes, take it away" "action=demote" false
  else [].
Definition moderation (viewer who : Person) (idHex action : string) : PM (list string) :=
  allowed <- pg_ask (nh_Permissions (p_Identity viewer) (p_Identity who)) ;;
  match allowed with
  | Fail _ => ret []
  | Ok allowed =>
    match mod_buttons allowed (p_PersonID viewer =? p_PersonID who) who idHex with
    | [] => ret []
    | buttons =>
      tok <- actionToken (p_Identity viewer) ;;
      ret ([">>Moderation"] ++ mod_form who idHex action tok ++ [strings_Join "  ·  " buttons; ""])
    end
  end.

(** ** [profile] *)
(** The command the request stands for, if it carries the viewer's token; and the
    action that is left to confirm. *)
Definition profile_action (r : Request) (viewer : option Person) (idHex : string) : PM (list string * string) :=
  let action := field r "action" in
  let line := profileCommand r idHex in
  match viewer with
  | None => ret ([], action)
  | Some p =>
    if bool_decide (line = "") then ret ([], action) else
    ok <- validAction r (p_Identity p) ;;
    if negb ok then ret (replyBox (refused_reply link_expired), "") else
    got <- pg_call (nh_Command (mkCommandRequest ViaPage (p_Identity p) "" line)) ;;
    ret (replyBox (match got with Ok reply => reply | Fail e => refused_reply (page_userText e) end), "")
  end.
Definition profile_facts (prof : Profile) : list string :=
  let who := pf_Person prof in
  let t := Title (p_PersonRank who) in
  [cat [">"; esc (p_Name who); if bool_decide (t = "") then "" else cat ["  `F9ab·`f `Fe93"; esc t; "`f"]]; "";
   if p_Claimed who then cat ["Name held since "; fmt_full_date (london_seconds (p_ClaimedAt who)); "."]
   else "No name claimed; shown by the start of their identity."] ++
  (match pf_Here prof with
   | [] => if 0 <? pf_LastSeen prof then [cat ["Last seen "; page_clock (pf_LastSeen prof); "."]] else []
   | here => [cat ["Here now: "; esc (strings_Join " and " here); "."]]
   end) ++ [""].
Definition message_them (prof : Profile) : list string :=
  [">>Message them"] ++
  (if pf_Shared prof then
     map (fun a => let addr := hex_encode a in
       cat [fullLink "Message on LXMF" ("lxmf@" +:+ addr); "  `F9ab"; addr; "`f";
            if pf_Derived prof then "  `F9ab(if they use LXMF with this identity)`f" else ""]) (pf_Addresses prof)
   else ["`F9abTheir LXMF address isn't shared.`f"]).
Definition whisper_form (viewer : option Person) (who : Person) (idHex : string) : PM (list string) :=
  match viewer with
  | None => ret []
  | Some p =>
    if p_PersonID p =? p_PersonID who then ret [] else
    tok <- actionToken (p_Identity p) ;;
    ret [cat ["Whisper: `B334`<44|whisper`>`b  ";
              fieldLink "Whisper" PathProfile "whisper" (cat ["action=whisper|id="; idHex; "|tok="; tok])];
         "`F9abOnly they see a whisper: on RRC, in their LXMF app and on this page.`f"]
  end.
Definition lately (prof : Profile) (viewer : option Person) (v : View) : list string :=
  match pf_Recent prof with
  | [] => []
  | ms => [">>Lately"] ++ map (fun m => messageLine m viewer v) ms ++ [""]
  end.
Definition profile_page (r : Request) (viewer : option Person) (v : View) (idHex action : string) (prof : Profile) : PM (list string) :=
  form <- whisper_form viewer (pf_Person prof) idHex ;;
  mods <- (match viewer with Some p => moderation p (pf_Person prof) idHex action | None => ret [] end) ;;
  ret (profile_facts prof ++ message_them prof ++ form ++ [""] ++ lately prof viewer v ++ mods ++
       [page_link "Back to the chat" PathIndex (view_vars v)]).
Definition page_profile (r : Request) (viewer : option Person) (refusal : string) : PM (list string) :=
  let v := viewFor r viewer in
  header <- page_header pcfg viewer v ;;
  match hex_decode (field r "id") with
  | Some target =>
    if negb (len target =? 16) then
      ret (header ++ ["`Ffb3There's nobody here by that link.`f"; ""; page_link "Back to the chat" PathIndex (view_vars v)])
    else
    let idHex := hex_encode target in
    let! (reply, action) := profile_action r viewer idHex in
    prof <- pg_ask (nh_ProfileOf target) ;;
    rest <- (match prof with
             | Fail _ => ret ["`Ffb3This profile couldn't be loaded just now. Please reload.`f"]
             | Ok prof => profile_page r viewer v idHex action prof
             end) ;;
    ret (header ++ (if bool_decide (refusal = "") then [] else [cat ["`Ffb3"; esc refusal; "`f"]; ""]) ++ reply ++ rest)
  | None => ret (header ++ ["`Ffb3There's nobody here by that link.`f"; ""; page_link "Back to the chat" PathIndex (view_vars v)])
  end.

(** ** help.go *)
Definition page_help (v : View) : list string :=
  ["#!c=3600"; cat ["`c`!`F2c8How to join "; esc (pc_Title pcfg); "`f`!"]; "`a"; "-";
   cat ["There's one conversation, #"; esc (pc_GroupRoom pcfg);
        ", and three ways into it. Everyone sees the same messages whichever they use."]; "";
   ">This page";
   cat ["Read without doing anything. To post, identify yourself to this node (the fingerprint button in MeshChatX, or "; dquote;
        "Identify when connecting"; dquote; " in NomadNet), then reload."]; "";
   ">An LXMF messenger";
   cat ["From Sideband, MeshChatX, NomadNet or Columba, send `!/join`! to `!"; esc (pc_GroupAddress pcfg);
        "`!. Messages arrive like any conversation, as "; dquote; "Name: message"; dquote; ". Send /help there for commands."]; "";
   ">An RRC client";
   cat ["In MeshChatX, NomadNet, rrc-tui or WeeChat, connect to hub `!"; esc (pc_HubAddress pcfg); "`! and join `!";
        esc (pc_GroupRoom pcfg); "`!. When you reconnect you get what was said since you left."]; "";
   ">Names";
   cat ["Your name is tied to your Reticulum identity and is the same everywhere. Nobody else can take it or a lookalike of it. Free it with /forget, or on ";
        page_link "Your name & settings" PathMe ""; "."]; "";
   ">Commands";
   "The same commands work everywhere: here in Say, in the LXMF group and in the RRC room. Start them with / or !, which also works in NomadNet's RRC screen. Type /help to see them.";
   "";
   strings_Join "  ·  "
     ([page_link "Back to the chat" PathIndex (view_vars v)] ++
      (if bool_decide (pc_WikiURL pcfg = "") then []
       else [fullLink "Everything about the chat, on the wiki" (pc_WikiURL pcfg)]))].

(** ** [Serve] *)
(** The visitor, or why the hub will not have them. *)
Definition visitor (r : Request) : PM (option Person * string) :=
  if bool_decide (rq_Identity r = "") then ret (None, "") else
  p <- pg_call (nh_Identify (rq_Identity r) (rq_PublicKey r)) ;;
  ret (match p with Ok p => (Some p, "") | Fail e => (None, page_userText e) end).
Definition Serve (r : Request) : PM string :=
  let! (person, refusal) := visitor r in
  let at_ p := bool_decide (rq_Path r = p) in
  let lines (m : PM (list string)) : PM string := ls <- m ;; ret (page_text ls) in
  if at_ PathMe then lines (page_me pcfg r person refusal)
  else if at_ PathHelp then ret (page_text (page_help (viewFor r person)))
  else if at_ PathMessages then page_messages pcfg r
  else if at_ PathProfile then lines (page_profile r person refusal)
  else lines (page_index pcfg r person refusal).
(** [Handler] *)
Definition Handler (rc : RequestContext) : PM string := Serve (request_of rc).
End profile.
