(* ===== verification/PageSpec.v ===== *)
(** internal/nomadpage/page.go: the session tokens.  What a page hands out, to
    whom, and what a request that brings none can do; and a request step by step. *)
From S2P Require Import Prelude Text TextCut Db StorePeople StoreMessages Names HubCore Clock Ranks People Rooms Post Commands CmdPeople Links Whispers.
From S2P Require Import Profile System Adapters Micron PageCore PageChat PageMe PageProfile.
Local Open Scope Z_scope.

(** What the page relies on: that the hub answers with the person it was asked
    about. *)
Class PageHubLaws (S : Type) {HS : PageHub S} : Prop := {
  law_Identify id pk (s : S) p s' : nh_Identify id pk s = (Ok p, s') -> p_Identity p = id;
  law_PersonOf id (s : S) p : nh_PersonOf id s = Ok p -> p_Identity p = id
}.

(** ** Tokens *)
Section tokens.
Context {R : PageRand}.
Definition token (n : nat) : string := hex_encode (fresh_token n).
(** The two maps agree, and every token is one of the first [n] drawn. *)
Record tokens_wf (n : nat) (s : Sessions) : Prop := {
  tw_id id tok : byID s !! id = Some tok -> exists e, byToken s !! tok = Some e /\ ps_identity e = id;
  tw_token tok e : byToken s !! tok = Some e -> byID s !! ps_identity e = Some tok;
  tw_drawn tok e : byToken s !! tok = Some e -> exists k, (k < n)%nat /\ tok = token k
}.
Lemma tokens_wf_new : tokens_wf O newSessions.
Proof. by constructor. Qed.

Lemma sweep_token t s tok e : byToken (sweep t s) !! tok = Some e <-> byToken s !! tok = Some e /\ expired_at t e = false.
Proof. cbn. by rewrite map_lookup_filter_Some. Qed.
Lemma sweep_id n t s id tok : tokens_wf n s ->
  byID (sweep t s) !! id = Some tok <-> exists e, byToken s !! tok = Some e /\ ps_identity e = id /\ expired_at t e = false.
Proof.
  intros [Hi Ht _]. cbn.
  assert (forall (l : list (string * page_session)) (m : gmap ident string), foldr (fun kv => delete (ps_identity kv.2)) m l !! id = Some tok <->
    m !! id = Some tok /\ id ∉ map (fun kv => ps_identity kv.2) l) as Hf.
  { induction l as [|kv l IH]; intros m; cbn; [set_solver|]. rewrite lookup_delete_Some, IH. set_solver. }
  rewrite Hf, list_elem_of_fmap. split.
  - intros [Hid Hno]. destruct (Hi _ _ Hid) as (e & He & <-). exists e. split_and!; [done..|]. destruct (expired_at t e) eqn:Hx; [|done].
    exfalso. apply Hno. exists (tok, e). split; [done|]. by apply elem_of_map_to_list, map_lookup_filter_Some.
  - intros (e & He & <- & Hx). split; [by apply Ht|]. intros ([tok' e'] & Heq & [He' Hx']%elem_of_map_to_list%map_lookup_filter_Some).
    cbn in *. apply Ht in He as H1. apply Ht in He' as H2. rewrite <- Heq, H1 in H2. congruence.
Qed.
Lemma tokens_wf_sweep n t s : tokens_wf n s -> tokens_wf n (sweep t s).
Proof.
  intros Hs. constructor.
  - intros id tok (e & He & <- & Hx)%(sweep_id n t); [|done]. exists e. by rewrite sweep_token.
  - intros tok e [He Hx]%sweep_token. apply (sweep_id n t); [done|]. by exists e.
  - intros tok e [He _]%sweep_token. by eapply tw_drawn.
Qed.

Context (fresh_once : forall j k, token j = token k -> j = k).
(** What [issue] does: the visitor's token lasts two hours from now. *)
Lemma issue_spec n t id s tok drawn s' : tokens_wf n s -> issue t (token n) id s = (tok, drawn, s') ->
  tokens_wf (if drawn : bool then S n else n) s' /\
  (if drawn then tok = token n else exists e, byToken s !! tok = Some e /\ ps_identity e = id /\ expired_at t e = false) /\
  (forall tok' e, byToken s' !! tok' = Some e -> byToken s !! tok' = Some e \/ (tok' = tok /\ e = mkPageSession id (t + sessionTTL))).
Proof.
  intros Hs. pose proof (tokens_wf_sweep n t s Hs) as Hw. unfold issue.
  destruct (byID (sweep t s) !! id) as [known|] eqn:Hk; intros [= <- <- <-].
  - apply (sweep_id n t) in Hk as Hold; [|done]. split; [|split; [done|]].
    + destruct (tw_id _ _ Hw _ _ Hk) as (e0 & He0 & Hi0). constructor; cbn [byToken byID].
      * intros id' tok' Hid. destruct (decide (tok' = known)) as [->|Hne].
        -- rewrite lookup_insert_eq. eexists; split; [done|]. cbn. destruct (tw_id _ _ Hw _ _ Hid) as (e' & He' & <-). congruence.
        -- rewrite lookup_insert_ne by done. by apply (tw_id _ _ Hw).
      * intros tok' e [[<- <-]|[_ He]]%lookup_insert_Some; [done|]. by apply (tw_token _ _ Hw).
      * intros tok' e [[<- <-]|[_ He]]%lookup_insert_Some; [|by apply (tw_drawn _ _ Hw tok' e)].
        by apply (tw_drawn _ _ Hw _ e0).
    + intros tok' e He. cbn [byToken] in He. apply lookup_insert_Some in He as [[<- <-]|[_ [He _]%sweep_token]]; auto.
  - assert (byToken (sweep t s) !! token n = None) as Hn.
    { apply eq_None_not_Some. intros [e He]. destruct (tw_drawn _ _ Hw _ _ He) as (k & Hlt & Heq%fresh_once). lia. }
    split; [|split; [done|]].
    + constructor; cbn [byToken byID].
      * intros id' tok' [[<- <-]|[Hne Hid]]%lookup_insert_Some; [rewrite lookup_insert_eq; by eexists|].
        destruct (tw_id _ _ Hw _ _ Hid) as (e & He & Hie). exists e. rewrite lookup_insert_ne; [done|]. intros <-. congruence.
      * intros tok' e [[<- <-]|[Hne He]]%lookup_insert_Some; cbn; [by rewrite lookup_insert_eq|].
        apply (tw_token _ _ Hw) in He as Hid. rewrite lookup_insert_ne; [done|]. intros ->. congruence.
      * intros tok' e [[<- <-]|[_ He]]%lookup_insert_Some; [exists n; split; [lia|done]|].
        destruct (tw_drawn _ _ Hw _ _ He) as (k & ? & ?). exists k. split; [lia|done].
    + intros tok' e He. cbn [byToken] in He. apply lookup_insert_Some in He as [[<- <-]|[_ [He _]%sweep_token]]; auto.
Qed.
End tokens.

(** * Requests

    internal/nomadpage: what a request can do to the hub and to the tokens, with
    the visitor's token and without it. *)
(** The rest of a computation may count on what [m] has established from the
    invariant. *)
Lemma pres_bind_from {T A B} {I : T -> Prop} `{!Weakening I} (Q : A -> Prop) (m : ST T A) (k : A -> ST T B) :
  pres I m -> (forall s a s', I s -> m s = (Ok a, s') -> Q a) -> (forall a, Q a -> pres I (k a)) -> pres I (bind m k).
Proof.
  intros Hm HQ Hk s Hs. specialize (Hm s Hs). unfold bind. destruct (m s) as [[a|e] s'] eqn:Hr; cbn in *; [|done].
  by apply Hk; [eapply HQ|].
Qed.

(** ** A request, step by step *)
(** What a page asks of the hub for a visitor it knows. *)
Inductive page_op {S} {HS : PageHub S} : forall {A}, (S -> res A * S) -> Prop :=
  | op_ClaimName id n : page_op (nh_ClaimName id n)
  | op_Forget id : page_op (nh_Forget id)
  | op_LeaveGroup id : page_op (nh_LeaveGroup id)
  | op_Command req : page_op (nh_Command req)
  | op_SetPrefs id f : page_op (nh_SetPrefs id f)
  | op_Whispers id n : page_op (nh_Whispers id n)
  | op_SetLXMFMode id m : page_op (nh_SetLXMFMode id m)
  | op_SetLXMFMine id b : page_op (nh_SetLXMFMine id b)
  | op_Post req : page_op (nh_Post req)
  | op_DeleteMessage id k : page_op (nh_DeleteMessage id k).
#[export] Hint Constructors page_op : pres.

Section walk.
Context {E : Env} {R : PageRand} {S : Type} {HS : PageHub S} {HL : PageHubLaws S} (pcfg : PConfig).
(** An invariant of the page that the visitor's token being issued keeps, and
    what may be asked of the hub without it; and anything else, given it. *)
Context (J : Page S -> Prop) (r : Request).
#[local] Instance J_weak : Weakening J := {| weak := J; weakens _ H := H |}.
Notation vid := (rq_Identity r).
Context (J_issue : vid <> "" -> pres J (actionToken vid : ST (Page S) string)).
Context (J_Identify : vid <> "" -> pres J (pg_call (nh_Identify vid (rq_PublicKey r)))).
Context (J_MarkRead : forall k, vid <> "" -> pres J (pg_call (nh_MarkRead vid (pc_GroupRoom pcfg) ViaPage k))).
Context (J_SetPrefs : vid <> "" -> pres J (pg_call (nh_SetPrefs vid (view_prefs r)))).
Context (J_Whispers : vid <> "" -> pres J (pg_call (nh_Whispers vid 10))).
Context (J_acting : forall p, J p -> vid <> "" -> (validAction r vid p).1 = Ok true ->
  forall A (f : S -> res A * S), page_op f -> pres J (pg_call f)).
Notation acting := (forall B (f : S -> res B * S), page_op f -> pres J (pg_call f)).

(** The visitor, if there is one, is who the request identifies. *)
Definition visiting (person : option Person) : Prop :=
  match person with Some p => p_Identity p = vid /\ vid <> "" | None => True end.

Lemma pres_pg_ask {A} (f : S -> res A) : pres J (pg_ask f).
Proof. apply pres_gets. Qed.
Lemma pres_issue p : visiting (Some p) -> pres J (actionToken (p_Identity p) : ST (Page S) string).
Proof. intros [-> Hv]. by apply J_issue. Qed.
(** With the token anything may be asked of the hub. *)
Lemma pres_checked {A} p (k : bool -> ST (Page S) A) : visiting (Some p) ->
  (forall b, (b = true -> acting) -> pres J (k b)) ->
  pres J (bind (validAction r (p_Identity p)) k).
Proof.
  intros [-> Hv] Hk s Hs. unfold validAction. erewrite bind_run by done.
  match goal with |- keeps _ (k ?b s) => apply (Hk b); [|done] end.
  intros Hb. apply (J_acting s Hs Hv). unfold validAction, gets. cbn. by rewrite Hb.
Qed.
#[local] Hint Resolve pres_pg_ask : pres.

Lemma pres_visitor : pres J (visitor r).
Proof. unfold visitor. case_bool_decide; [apply pres_ret|]. apply pres_bind; [by apply J_Identify|]. intros; apply pres_ret. Qed.
Lemma visitor_is s person refusal s' : visitor r s = (Ok (person, refusal), s') -> visiting person.
Proof.
  unfold visitor. case_bool_decide; [by intros [= <- <- <-]|]. intros (res & s1 & Hc & Hr)%bind_ok.
  unfold pg_call in Hc. destruct (nh_Identify _ _ _) as [[p|e] h] eqn:Hi; injection Hc as <- <-; injection Hr as <- <- <-; [|done].
  by apply law_Identify in Hi.
Qed.
Lemma refreshed_is person s q s' : visiting person -> refreshed person s = (Ok q, s') -> visiting q.
Proof.
  destruct person as [p|]; [|by intros _ [= <- <-]]. intros [Hp Hv] (f & s1 & Ha & Hr)%bind_ok. injection Ha as <- <-.
  destruct (nh_PersonOf _ _) as [f|e] eqn:Hf; injection Hr as <- <-; [|done]. apply law_PersonOf in Hf. cbn. by rewrite Hf.
Qed.
Lemma pres_refreshed person : pres J (refreshed person).
Proof. unfold refreshed. pres_auto. Qed.

(** *** The chat page *)
Lemma pres_header person v : pres J (page_header pcfg person v).
Proof. unfold page_header. pres_auto. Qed.
Lemma pres_postForm person : visiting person -> pres J (postForm person).
Proof. intros Hv. destruct person as [p|]; [|apply pres_ret]. apply pres_bind; [by apply pres_issue|]. intros; apply pres_ret. Qed.
Lemma pres_page_post person : acting \/ person = None -> pres J (page_post r person).
Proof. intros [Hf| ->]; [|apply pres_ret]. unfold page_post. pres_auto. Qed.
Lemma pres_deleteMessage person : acting \/ person = None -> pres J (page_deleteMessage r person).
Proof. intros [Hf| ->]; [|apply pres_ret]. unfold page_deleteMessage. pres_auto. Qed.
Lemma pres_confirmDelete v person : visiting person -> pres J (confirmDelete pcfg r v person).
Proof.
  intros Hv. unfold confirmDelete. destruct (ParseInt _) as [id []]; [|apply pres_ret]. destruct person as [p|]; [|apply pres_ret].
  apply pres_bind; [apply pres_pg_ask|]. intros ms. destruct (match ms with Ok _ => _ | Fail _ => _ end); [|apply pres_ret].
  apply pres_bind; [by apply pres_issue|]. intros; apply pres_ret.
Qed.
Lemma pres_index_action person : visiting person -> pres J (index_action r person).
Proof.
  intros Hv. unfold index_action, has_token. destruct person as [p|].
  - repeat case_bool_decide.
    + apply pres_checked; [done|]. intros b Hb. destruct b; [apply pres_page_post; auto|apply pres_ret].
    + apply pres_bind; [|intros; apply pres_ret]. apply pres_bind; [|intros; apply pres_ret]. destruct Hv as [-> Hv]. by apply J_SetPrefs.
    + apply pres_checked; [done|]. intros b Hb. destruct b; [|apply pres_ret].
      apply pres_bind; [apply pres_deleteMessage; auto|]. intros; apply pres_ret.
    + apply pres_ret.
  - repeat case_bool_decide; apply pres_pure; intros; by repeat case_match.
Qed.
Lemma pres_index_page person notice reply : visiting person -> pres J (index_page pcfg r person notice reply).
Proof.
  intros Hv. unfold index_page. apply pres_bind; [apply pres_pg_ask|]. intros recent.
  apply pres_bind.
  { unfold index_marker. destruct person as [p|]; [|apply pres_ret]. destruct Hv as [-> Hv]. destruct (negb _); [apply pres_ret|].
    apply pres_bind; [apply pres_pg_ask|]. intros c. destruct (last _); [|apply pres_ret].
    apply pres_bind; [by apply J_MarkRead|]. intros; apply pres_ret. }
  intros marker. apply pres_bind; [apply pres_header|]. intros header.
  apply pres_bind; [case_bool_decide; [by apply pres_confirmDelete|apply pres_ret]|]. intros confirm.
  apply pres_bind.
  { unfold index_conversation. destruct (_ && _); [|apply pres_ret]. apply pres_bind; [|intros; apply pres_ret].
    destruct person as [p|]; [|apply pres_ret]. apply pres_bind; [by apply pres_issue|]. intros; apply pres_ret. }
  intros talk. apply pres_bind; [by apply pres_postForm|]. intros; apply pres_ret.
Qed.
Lemma pres_index person refusal : visiting person -> pres J (page_index pcfg r person refusal).
Proof.
  intros Hv. unfold page_index. destruct (negb _); [by apply pres_index_page|]. apply pres_bind; [by apply pres_index_action|].
  intros [notice reply]. eapply (pres_bind_post _ visiting); [apply pres_refreshed|intros ???; by apply refreshed_is|].
  intros q Hq. by apply pres_index_page.
Qed.
Lemma pres_messages : pres J (page_messages pcfg r).
Proof. unfold page_messages. pres_auto. Qed.

(** *** Name and settings *)
Lemma no_command : has_suffix (field r "action") "_confirm" = true -> linkCommand r = "".
Proof.
  intros Hs. unfold linkCommand. cbv zeta.
  repeat match goal with |- context [bool_decide (field r "action" = ?a)] => destruct (bool_decide_reflect (field r "action" = a)) as [He|_];
    [rewrite He in Hs; vm_compute in Hs; discriminate Hs|] end.
  done.
Qed.
Lemma no_change notice p : has_suffix (field r "action") "_confirm" = true ->
  me_change r (field r "action") notice p = (ret (p, notice) : ST (Page S) _).
Proof.
  intros Hs. unfold me_change. cbv zeta.
  repeat match goal with |- context [bool_decide (field r "action" = ?a)] => destruct (bool_decide_reflect (field r "action" = a)) as [He|_];
    [rewrite He in Hs; vm_compute in Hs; discriminate Hs|] end.
  done.
Qed.
Lemma no_me_command p : has_suffix (field r "action") "_confirm" = true -> me_command r p = (ret (p, "", None) : ST (Page S) _).
Proof. intros Hs. unfold me_command. by rewrite no_command. Qed.
Lemma pres_me_action p : visiting (Some p) -> pres J (me_action r p).
Proof.
  intros Hv. unfold me_action. cbv zeta. apply pres_checked; [done|]. intros b Hb. destruct b.
  - specialize (Hb eq_refl). rewrite andb_false_r. case_bool_decide; [apply pres_ret|]. unfold me_command, me_change, me_leave, me_forget. pres_auto.
  - rewrite andb_true_r. destruct (bool_decide (field r "action" = "")); [apply pres_ret|]. cbn [negb andb].
    destruct (has_suffix _ _) eqn:Hs; cbn [negb]; [|apply pres_ret]. rewrite no_me_command by done.
    match goal with |- pres _ (bind (ret ?a) ?k) => change (pres J (k a)) end. cbv beta iota. rewrite no_change by done. apply pres_ret.
Qed.
(** Who the page goes on with, after an action: the visitor, or whom the hub has
    answered with, to a request it was asked with the token. *)
Lemma me_action_is p s q notice reply s' : J s -> visiting (Some p) -> me_action r p s = (Ok (q, notice, reply), s') ->
  visiting (Some q) \/ acting.
Proof.
  intros Hs Hv. unfold me_action. cbv zeta. intros (b & s1 & Hb & Hm)%bind_ok. injection Hb as Hb <-. destruct b.
  - right. apply (J_acting s Hs); [apply Hv|]. destruct Hv as [<- _]. unfold validAction, gets. by rewrite Hb.
  - left. rewrite andb_true_r in Hm. destruct (bool_decide (field r "action" = "")); [by injection Hm as <- _ _ _|]. cbn [negb andb] in Hm.
    destruct (has_suffix _ _) eqn:Hx; cbn [negb] in Hm; [|by injection Hm as <- _ _ _]. rewrite no_me_command in Hm by done.
    unfold bind at 1 in Hm. cbv beta iota in Hm. unfold ret at 1 in Hm. cbv beta iota in Hm. rewrite no_change in Hm by done.
    by injection Hm as <- _ _ _.
Qed.
Lemma pres_whispers p tok : visiting (Some p) \/ acting -> pres J (whisperSection p tok).
Proof. intros Hv. apply pres_bind; [|intros; apply pres_ret]. destruct Hv as [[-> Hv]|Hf]; [by apply J_Whispers|]. apply Hf. constructor. Qed.
Lemma pres_links p tok : pres J (linkSection p tok).
Proof. unfold linkSection. pres_auto. Qed.
Lemma pres_me person refusal : visiting person -> pres J (page_me pcfg r person refusal).
Proof.
  intros Hv. destruct person as [p|]; cbn [page_me].
  - apply pres_bind; [by apply pres_issue|]. intros tok.
    apply (pres_bind_from (fun x : Person * string * option Reply => visiting (Some x.1.1) \/ acting));
      [by apply pres_me_action| |].
    { intros s [[q notice] reply] s' Hs Hm. by eapply me_action_is. }
    intros [[q notice] reply] Hq. apply pres_bind; [apply pres_header|]. intros header.
    apply pres_bind; [by apply pres_whispers|]. intros ws. apply pres_bind; [apply pres_links|]. intros; apply pres_ret.
  - unfold me_unidentified. apply pres_bind; [apply pres_header|]. intros; apply pres_ret.
Qed.

(** *** Profiles, and the request *)
Lemma pres_moderation p who idHex action : visiting (Some p) -> pres J (moderation p who idHex action).
Proof.
  intros Hv. unfold moderation. apply pres_bind; [apply pres_pg_ask|]. intros [allowed|e]; [|apply pres_ret].
  destruct (mod_buttons _ _ _ _); [apply pres_ret|]. apply pres_bind; [by apply pres_issue|]. intros; apply pres_ret.
Qed.
Lemma pres_profile_action person idHex : visiting person -> pres J (profile_action r person idHex).
Proof.
  intros Hv. unfold profile_action. cbv zeta. destruct person as [p|]; [|apply pres_ret]. case_bool_decide; [apply pres_ret|].
  apply pres_checked; [done|]. intros b Hb. destruct b; cbn [negb]; [|apply pres_ret]. apply pres_bind; [apply Hb; [done|constructor]|]. intros; apply pres_ret.
Qed.
Lemma pres_profile_page person v idHex action prof : visiting person -> pres J (profile_page r person v idHex action prof).
Proof.
  intros Hv. unfold profile_page. apply pres_bind.
  { unfold whisper_form. destruct person as [p|]; [|apply pres_ret]. destruct (_ =? _); [apply pres_ret|].
    apply pres_bind; [by apply pres_issue|]. intros; apply pres_ret. }
  intros form. apply pres_bind; [|intros; apply pres_ret]. destruct person as [p|]; [by apply pres_moderation|apply pres_ret].
Qed.
Lemma pres_profile person refusal : visiting person -> pres J (page_profile pcfg r person refusal).
Proof.
  intros Hv. unfold page_profile. cbv zeta. apply pres_bind; [apply pres_header|]. intros header.
  destruct (hex_decode _) as [target|]; [|apply pres_ret]. destruct (negb _); [apply pres_ret|].
  apply pres_bind; [by apply pres_profile_action|]. intros [reply action]. apply pres_bind; [apply pres_pg_ask|]. intros prof.
  apply pres_bind; [|intros; apply pres_ret]. destruct prof; [by apply pres_profile_page|apply pres_ret].
Qed.
Lemma pres_Serve : pres J (Serve pcfg r).
Proof.
  unfold Serve. cbv zeta.
  eapply (pres_bind_post _ (fun x : option Person * string => visiting x.1)); [apply pres_visitor|intros s [q t] s'; apply visitor_is|].
  intros [person refusal] Hv. repeat case_bool_decide.
  - apply pres_bind; [by apply pres_me|]. intros; apply pres_ret.
  - apply pres_ret.
  - apply pres_messages.
  - apply pres_bind; [by apply pres_profile|]. intros; apply pres_ret.
  - apply pres_bind; [by apply pres_index|]. intros; apply pres_ret.
Qed.
End walk.
