(* ===== verification/PageSafety.v ===== *)
(** internal/nomadpage: links built elsewhere do nothing, and a token is its
    visitor's alone. *)
From S2P Require Import Prelude Text TextCut Db StorePeople StoreRooms StoreMessages StoreGroup StoreInv StoreWf Names HubCore Clock.
From S2P Require Import Ranks People Rooms Post Commands CmdPeople Links Whispers Profile HubWf System Frame Adapters Micron PageCore.
From S2P Require Import PageChat PageMe PageProfile PageSpec.
Local Open Scope Z_scope.

(** ** What the hub keeps *)
Definition unread (w : Whisper) : Whisper := with_read_at 0 w.
(** Nothing but when someone was last seen, what they have read, and how their
    page looks. *)
Record untouched (d0 d : DB) : Prop := {
  un_tables : (names d, link_codes d, rooms d, room_roles d, invites d, messages d, members d, deliveries d, bans d,
               whisper_deliveries d, ignores d, audit d) =
              (names d0, link_codes d0, rooms d0, room_roles d0, invites d0, messages d0, members d0, deliveries d0, bans d0,
               whisper_deliveries d0, ignores d0, audit d0);
  un_whispers : unread <$> whispers d = unread <$> whispers d0;
  un_identity id i : identities d0 !! id = Some i -> exists i', identities d !! id = Some i' /\
    (Identity_Person i', Identity_LXMFMode i', Identity_LXMFMine i') = (Identity_Person i, Identity_LXMFMode i, Identity_LXMFMine i);
  un_rank k p : people d0 !! k = Some p -> exists p', people d !! k = Some p' /\ SPerson_Rank p' = SPerson_Rank p
}.
#[export] Instance untouched_preorder : PreOrder untouched.
Proof.
  split; [constructor; eauto|]. intros d1 d2 d3 [A1 A2 A3 A4] [B1 B2 B3 B4]. constructor; [congruence..| |].
  - intros id i Hi. destruct (A3 _ _ Hi) as (j & Hj & Hij). destruct (B3 _ _ Hj) as (k & Hk & Hjk). exists k. split; [done|congruence].
  - intros k p Hp. destruct (A4 _ _ Hp) as (q & Hq & Hpq). destruct (B4 _ _ Hq) as (x & Hx & Hqx). exists x. split; [done|congruence].
Qed.

Section store.
Context (d0 : DB).
#[local] Instance untouched_weak : Weakening (untouched d0) := {| weak _ := True; weakens _ _ := I |}.
Notation kept := (pres (untouched d0)).
Lemma kept_put d1 : untouched d0 d1 -> kept (put d1).
Proof. by intros H d _. Qed.
(** The rest of an operation that has read the database. *)
Lemma kept_get {A} (k : DB -> Tx A) : (forall d, untouched d0 d -> keeps (untouched d0) (k d d)) -> kept (bind get k).
Proof. intros Hk d Hd. by apply Hk. Qed.
Lemma untouched_people d p k : untouched d0 d ->
  (forall q, people d !! k = Some q -> SPerson_Rank q = SPerson_Rank p) -> untouched d0 (set_people (<[k := p]> (people d)) d).
Proof.
  intros Hd Hr. etrans; [exact Hd|]. constructor; cbn; [done..|eauto|]. intros j q Hq. destruct (decide (k = j)) as [<-|].
  - exists p. rewrite lookup_insert_eq. split; [done|]. symmetry. by apply Hr.
  - exists q. by rewrite lookup_insert_ne.
Qed.
Lemma untouched_identity d i : untouched d0 d ->
  (forall j, identities d !! Identity_ID i = Some j ->
    (Identity_Person i, Identity_LXMFMode i, Identity_LXMFMine i) = (Identity_Person j, Identity_LXMFMode j, Identity_LXMFMine j)) ->
  untouched d0 (set_identities (<[Identity_ID i := i]> (identities d)) d).
Proof.
  intros Hd Hi. etrans; [exact Hd|]. constructor; cbn; [done..| |eauto]. intros id j Hj. destruct (decide (Identity_ID i = id)) as [<-|].
  - exists i. rewrite lookup_insert_eq. auto.
  - exists j. by rewrite lookup_insert_ne.
Qed.
Lemma kept_Touch id pk t : kept (tx_TouchIdentity id pk t).
Proof.
  apply pres_bind; [apply pres_assert|]. intros _. apply kept_get. intros d Hd. destruct (identities d !! id) as [i|] eqn:Hi.
  - unfold bind, assert. destruct (public_key_ok _); cbn; [|done]. apply (untouched_identity d); [done|]. cbn. rewrite Hi. by intros j [= <-].
  - unfold newPerson, bind, assert, get, put, ret. destruct (public_key_ok _); cbn; [|done].
    refine (untouched_identity (set_people _ d) (mkIdentity _ _ _ _ _ _ _ _) _ _); cbn; [|by rewrite Hi].
    apply untouched_people; [done|]. intros q Hq. by rewrite next_id_fresh in Hq.
Qed.
Lemma kept_SetCursor id room via k t : kept (tx_SetCursor id room via k t).
Proof.
  apply pres_bind; [apply pres_assert|]. intros _. apply pres_bind; [apply pres_assert|]. intros _. apply pres_modify. intros d Hd.
  etrans; [exact Hd|]. constructor; cbn; eauto.
Qed.
Lemma kept_SetPrefs id p : kept (tx_SetPrefs id p).
Proof.
  apply pres_bind; [apply pres_assert|]. intros _. apply pres_bind.
  { apply kept_get. intros d Hd. by destruct (identities d !! id). }
  intros k. apply pres_bind; [apply pres_assert|]. intros _. apply kept_get. intros d Hd.
  destruct (people d !! k) as [sp|] eqn:Hk; [|done]. cbn. apply untouched_people; [done|]. rewrite Hk. by intros q [= <-].
Qed.
Lemma kept_MarkRead k upTo t : kept (tx_MarkWhispersRead k upTo t).
Proof.
  apply kept_get. intros d Hd. cbn. etrans; [exact Hd|]. constructor; cbn; [done| |eauto..].
  rewrite <- map_fmap_compose. apply map_fmap_ext. intros j w _. cbn. by destruct (unread_upto k upTo w).
Qed.
End store.

(** ** Requests that keep it *)
(** The hub's memory but for its counters. *)
Definition in_memory (m : Mem) := (presence m, rate m, historyAt m, linkIssued m, linkFailures m).
(** The hub as it was: no one has joined or left, no one may post less or more,
    and there is nothing new for the adapters. *)
Record hub_same (h0 h : Hub) : Prop := {
  hs_db : untouched (h_db h0) (h_db h);
  hs_mem : in_memory (h_mem h) = in_memory (h_mem h0);
  hs_subs : h_subs h = h_subs h0
}.
#[export] Instance hub_same_preorder : PreOrder hub_same.
Proof. split; [by constructor|]. intros ??? [] []. constructor; [by etrans|congruence..]. Qed.

Section requests.
Context {E : Env} (d0 : DB) (m0 : Mem).
Definition req_same (q : Req) : Prop := untouched d0 (q_db q) /\ q_mem q = m0 /\ q_events q = [] /\ q_after q = [].
#[local] Instance req_same_weak : Weakening req_same := {| weak q := q_mem q = m0; weakens _ H := proj1 (proj2 H) |}.
Notation same := (pres req_same).
Lemma same_tx {A} (m : Tx A) : pres (untouched d0) (Weakening0 := untouched_weak d0) m -> same (tx m).
Proof.
  intros Hm q (Hd & Hq). specialize (Hm _ Hd). unfold tx. destruct (m (q_db q)) as [[a|e] d]; cbn in *; [done|].
  destruct Hm as [Hm _]. split; [|by destruct Hq]. intros He. split; auto.
Qed.
#[local] Hint Resolve same_tx kept_Touch kept_SetCursor kept_SetPrefs kept_MarkRead : pres.
Lemma same_reads {A} (m : H A) : reads m -> same m.
Proof. apply reads_pres. Qed.
Lemma same_identify id pk : same (identify id pk).
Proof.
  apply pres_bind; [apply same_reads, reads_checkHubBan|]. intros _. apply pres_bind; [apply same_tx, kept_Touch|]. intros _.
  apply same_reads, reads_person.
Qed.
Lemma same_markRead id room via k : same (markRead id room via k).
Proof. apply pres_bind; [apply same_tx, kept_Touch|]. intros _. apply same_tx, kept_SetCursor. Qed.
Lemma same_set_prefs id f : same (set_prefs id f).
Proof.
  apply pres_bind; [apply same_tx, kept_Touch|]. intros _. apply pres_bind; [apply same_reads, reads_person|]. intros p. cbv zeta.
  destruct (Prefs_error _); [apply pres_fail|]. apply pres_bind; [apply same_tx, kept_SetPrefs|]. intros _. apply same_reads, reads_person.
Qed.
Lemma same_whispers id n : same (whisper_inbox id n).
Proof.
  unfold whisper_inbox. apply pres_bind; [apply same_reads; reads_auto|]. intros [p|]; [|apply pres_ret].
  apply pres_bind; [apply same_reads; reads_auto|]. intros u. apply pres_bind; [apply same_reads; reads_auto|]. intros pids.
  apply pres_bind; [apply same_reads; reads_auto|]. intros ig. apply pres_bind; [apply same_reads; reads_auto|]. intros ws.
  apply pres_bind; [|intros; apply pres_ret]. destruct (last ws); [|apply pres_ret].
  apply pres_bind; [apply same_tx, kept_MarkRead|]. intros; apply pres_ret.
Qed.
End requests.
Lemma same_update {A} (m : H A) h0 h : (forall d x, pres (req_same d x) (Weakening0 := req_same_weak d x) m) -> hub_same h0 h ->
  hub_same h0 (update m h).2.
Proof.
  intros Hm Hh. etrans; [exact Hh|]. unfold update.
  assert (req_same (h_db h) (h_mem h) (mkReq (h_db h) (h_mem h) [] [])) as H0 by done.
  specialize (Hm _ _ _ H0). destruct (m _) as [[a|e] q]; cbn in *.
  - destruct Hm as (Hd & Hq & -> & ->). rewrite Hq. by constructor.
  - destruct Hm as [_ Hq]. rewrite Hq. constructor; cbn; [done| |done]. by destruct (user_error e).
Qed.

(** ** Requests without the token *)
Section forged.
Context {E : Env} {R : PageRand} {S : Type} {HS : PageHub S} {HL : PageHubLaws S} (pcfg : PConfig).
Context (fresh_once : forall j k, token j = token k -> j = k).
(** The token a request brings is not its visitor's, and no guess of one to come. *)
Record no_token (r : Request) (p : Page S) : Prop := {
  nt_wf : tokens_wf (pg_drawn p) (pg_sessions p);
  nt_guess : forall n, (pg_drawn p <= n)%nat -> field r "tok" <> token n;
  nt_other : session_identity now (field r "tok") (pg_sessions p) <> Some (rq_Identity r)
}.
Lemma no_token_issue r p tok p' : no_token r p -> actionToken (rq_Identity r) p = (Ok tok, p') -> no_token r p' /\ pg_hub p' = pg_hub p.
Proof.
  intros [Hw Hg Ho]. unfold actionToken. destruct (issue _ _ _ _) as [[tok' drawn] s'] eqn:Hi. intros [= <- <-].
  apply issue_spec in Hi as (Hw' & Hd & He); [|done..]. split; [|done]. constructor; cbn; [by destruct drawn| |].
  - intros n Hn. apply Hg. destruct drawn; lia.
  - unfold session_identity. destruct (byToken s' !! field r "tok") as [e|] eqn:Hf; cbn; [|done].
    destruct (expired_at now e) eqn:Hx; [done|]. intros [= Hid]. apply Ho. unfold session_identity.
    destruct (He _ _ Hf) as [->|[Heq ->]]; [cbn; by rewrite Hx, Hid|]. destruct drawn.
    + exfalso. apply (Hg (pg_drawn p)); [lia|congruence].
    + destruct Hd as (e0 & He0 & Hi0 & Hx0). rewrite Heq, He0. cbn. by rewrite Hx0, Hi0.
Qed.
(** Whatever of the hub its harmless methods keep, such a request keeps. *)
Lemma forged_request_keeps (I : S -> Prop) r p :
  (forall id pk s, I s -> I (nh_Identify id pk s).2) ->
  (forall id room k s, I s -> I (nh_MarkRead id room ViaPage k s).2) ->
  (forall id s, I s -> I (nh_SetPrefs id (view_prefs r) s).2) ->
  (forall id n s, I s -> I (nh_Whispers id n s).2) ->
  no_token r p -> I (pg_hub p) -> I (pg_hub (Serve pcfg r p).2).
Proof.
  intros H1 H2 H3 H4 Hn Hp. pose (J := fun p => no_token r p /\ I (pg_hub p)).
  assert (forall {A} (f : S -> res A * S), (forall s, I s -> I (f s).2) -> pres J (Weakening0 := J_weak J) (pg_call f)) as Hcall.
  { intros A f Hf q [[] Hq]. specialize (Hf _ Hq). unfold pg_call. destruct (f (pg_hub q)) as [x h]. by split. }
  assert (keeps J (Weakening0 := J_weak J) (Serve pcfg r p)) as Hk.
  { apply pres_Serve; [|intros; apply Hcall; auto..| |by split].
    - intros _ q [Hq Hi]. destruct (actionToken (rq_Identity r) q) as [x q'] eqn:Ha.
      assert (exists tok, x = Ok tok) as [tok ->]. { unfold actionToken in Ha. destruct (issue _ _ _ _) as [[] ]. injection Ha as <- _. eauto. }
      apply no_token_issue in Ha as [Hq' Hh]; [|done]. cbn. split; [done|]. by rewrite Hh.
    - intros q [Hq _] Hv Hok. exfalso. unfold validAction, gets in Hok. cbn in Hok. injection Hok as Hok.
      apply andb_true_iff in Hok as [_ Hok%bool_decide_eq_true]. apply (nt_other _ _ Hq).
      destruct (session_identity _ _ _); cbn in Hok; [by rewrite Hok|]. by destruct Hv. }
  destruct (Serve pcfg r p) as [[x|e] q]; cbn in *; apply Hk.
Qed.
End forged.


Lemma person_identity {E : Env} id q p q' : person id q = (Ok p, q') -> p_Identity p = id.
Proof.
  intros (i & q1 & _ & H)%bind_ok. destruct i as [i|]; [|by injection H as <- _].
  apply bind_ok in H as (sp & q2 & _ & H). apply bind_ok in H as (p0 & q3 & _ & H).
  apply bind_ok in H as (n & q4 & _ & H). apply bind_ok in H as (mem & q5 & _ & H).
  destruct n; by injection H as <- _.
Qed.
#[export] Instance hub_page_laws {E : Env} : PageHubLaws Hub.
Proof.
  constructor.
  - intros id pk s p s' H. cbn in H. unfold Identify, update in H. destruct (identify _ _ _) as [[x|e] q] eqn:Hi; [|done].
    injection H as <- _. apply bind_ok in Hi as (u & q1 & _ & Hi). apply bind_ok in Hi as (v & q2 & _ & Hi).
    by apply person_identity in Hi.
  - intros id s p H. cbn in H. unfold PersonOf, view in H. destruct (person _ _) as [[x|e] q] eqn:Hi; cbn in H; [|done].
    injection H as <-. by apply person_identity in Hi.
Qed.


(** ** Tokens over time *)
Section history.
Context {W : Env} {R : PageRand} {S : Type} {HS : forall E : Env, PageHub S} {HL : forall E : Env, PageHubLaws S} (pcfg : PConfig).
Context (fresh_once : forall j k, token j = token k -> j = k).
Notation at_ t rnd := (at_time W t rnd).

(** The page at work: the requests it has served, with when; the hub may change
    in between. *)
Inductive served : list (Z * Request) -> Page S -> Page S -> Prop :=
  | served_none p : served [] p p
  | served_one l p q t rnd r : served l p q -> served (l ++ [(t, r)]) p (Serve (E := at_ t rnd) (HS := HS (at_ t rnd)) pcfg r q).2
  | served_hub l p q h : served l p q -> served l p (mkPage h (pg_sessions q) (pg_drawn q)).

(** What a page's sessions are, after what sessions [p0] has served. *)
Record since (p0 : Page S) (l : list (Z * Request)) (p : Page S) : Prop := {
  si_wf : tokens_wf (pg_drawn p) (pg_sessions p);
  si_drawn : (pg_drawn p0 <= pg_drawn p)%nat;
  si_old tok e : byToken (pg_sessions p) !! tok = Some e ->
    (exists k, (pg_drawn p0 <= k)%nat /\ tok = token k) \/
    (exists e0, byToken (pg_sessions p0) !! tok = Some e0 /\ ps_identity e0 = ps_identity e);
  si_asked tok e : byToken (pg_sessions p) !! tok = Some e -> byToken (pg_sessions p0) !! tok = Some e \/
    exists t r, (t, r) ∈ l /\ rq_Identity r = ps_identity e /\ rq_Identity r <> "" /\ ps_expires e = t + sessionTTL
}.
Lemma since_call {E : Env} p0 l {A} (f : S -> res A * S) : pres (since p0 l) (Weakening0 := J_weak (since p0 l)) (pg_call f).
Proof. intros p Hp. unfold pg_call. destruct (f (pg_hub p)). destruct Hp. by constructor. Qed.
Lemma since_issue {E : Env} p0 l r : rq_Identity r <> "" -> (now, r) ∈ l ->
  pres (since p0 l) (Weakening0 := J_weak (since p0 l)) (actionToken (rq_Identity r)).
Proof.
  intros Hv Hin p [Hw Hd Ho Ha]. unfold actionToken. destruct (issue _ _ _ _) as [[tok drawn] s'] eqn:Hi.
  apply issue_spec in Hi as (Hw' & Htok & He); [|done..]. constructor; cbn.
  - by destruct drawn.
  - destruct drawn; lia.
  - intros tok' e [Hold|[-> ->]]%He; [by apply Ho|]. cbn. destruct drawn; [left; exists (pg_drawn p); split; [done|done]|].
    destruct Htok as (e0 & He0 & Hi0 & _). destruct (Ho _ _ He0) as [?|(e1 & He1 & Hi1)]; [by left|right; exists e1; split; [done|congruence]].
  - intros tok' e [Hold|[-> ->]]%He; [by apply Ha|]. right. by exists now, r.
Qed.
Lemma since_more p0 l l' p : since p0 l p -> since p0 (l ++ l') p.
Proof. intros [Hw Hd Ho Ha]. constructor; [done..|]. intros tok e He. destruct (Ha _ _ He) as [?|(t & r & ? & ?)]; [by left|right; exists t, r; set_solver]. Qed.
Lemma since_Serve p0 l p t rnd r : since p0 l p -> since p0 (l ++ [(t, r)]) (Serve (E := at_ t rnd) (HS := HS (at_ t rnd)) pcfg r p).2.
Proof.
  intros Hp%(since_more _ _ [(t, r)]). pose (J := since p0 (l ++ [(t, r)])).
  assert (keeps J (Weakening0 := J_weak J) (Serve (E := at_ t rnd) (HS := HS (at_ t rnd)) pcfg r p)) as Hk.
  { apply pres_Serve; [|intros; apply since_call..|done]. intros Hv. apply since_issue; [done|]. set_solver. }
  destruct (Serve _ _ _) as [[x|e] q]; cbn in *; apply Hk.
Qed.
Lemma served_since l p0 p : tokens_wf (pg_drawn p0) (pg_sessions p0) -> served l p0 p -> since p0 l p.
Proof.
  intros Hw Hs. induction Hs as [p|l p q t rnd r Hs IH|l p q h Hs IH].
  - constructor; [done..|eauto|auto].
  - by apply since_Serve, IH.
  - destruct (IH Hw). by constructor.
Qed.

(** C23. A token that works for someone has been handed out on a page they asked
    for, as themselves, within the two hours before; and one that has worked for
    someone never works for anyone else, however many requests come, from
    whomever and whenever. *)
Theorem tokens_are_ones_own hub l p l' p' tok id t :
  served l (page_New hub) p -> served l' p p' -> session_identity t tok (pg_sessions p) = Some id ->
  (exists t0 r, (t0, r) ∈ l /\ rq_Identity r = id /\ id <> "" /\ t <= t0 + sessionTTL) /\
  (forall t' id', session_identity t' tok (pg_sessions p') = Some id' -> id' = id).
Proof.
  intros H1%served_since H2 Hs; [|apply tokens_wf_new]. apply served_since in H2; [|apply H1].
  unfold session_identity in Hs. destruct (byToken (pg_sessions p) !! tok) as [e|] eqn:He; [|done]. cbn in Hs.
  destruct (expired_at t e) eqn:Hx; [done|]. injection Hs as <-. split.
  - destruct (si_asked _ _ _ H1 _ _ He) as [Hn|(t0 & r & Hin & Hr & Hne & Ht)]; [done|]. exists t0, r. rewrite <- Hr.
    split_and!; [done..|]. unfold expired_at in Hx. apply Z.ltb_ge in Hx. lia.
  - intros t' id' Hs'. unfold session_identity in Hs'. destruct (byToken (pg_sessions p') !! tok) as [e'|] eqn:He'; [|done]. cbn in Hs'.
    destruct (expired_at t' e'); [done|]. injection Hs' as <-.
    destruct (tw_drawn _ _ (si_wf _ _ _ H1) _ _ He) as (k & Hk & ->).
    destruct (si_old _ _ _ H2 _ _ He') as [(j & Hj & Heq%fresh_once)|(e0 & He0 & Hi)]; [lia|congruence].
Qed.
End history.
