(* ===== verification/PageText.v ===== *)
(** internal/nomadpage: what people write stays text on a page, and what a visitor
    is shown as new. *)
From S2P Require Import Prelude Text TextCut Db StorePeople StoreMessages Names HubCore Clock Ranks People Rooms Post Commands.
From S2P Require Import CmdPeople Links Whispers Profile Adapters Micron PageCore PageChat.
Local Open Scope Z_scope.

(** ** Micron, as far as text goes *)
(** A backslash makes the next character text; a backtick that is not text starts
    markup. *)
Inductive mark := Lit (c : ascii) | Tick.
Fixpoint read_micron (escaped : bool) (s : string) : list mark :=
  match s with
  | EmptyString => []
  | String c s' =>
    if escaped then Lit c :: read_micron false s'
    else if (c =? bslash)%char then read_micron true s'
    else if (c =? backtick)%char then Tick :: read_micron false s'
    else Lit c :: read_micron false s'
  end.
(** Whether a text ends in the middle of an escape. *)
Fixpoint ends_escaped (escaped : bool) (s : string) : bool :=
  match s with
  | EmptyString => escaped
  | String c s' => ends_escaped (negb escaped && (c =? bslash)%char) s'
  end.
Fixpoint literally (s : string) : list mark :=
  match s with EmptyString => [] | String c s' => Lit c :: literally s' end.

Lemma read_app b s t : read_micron b (s +:+ t) = read_micron b s ++ read_micron (ends_escaped b s) t.
Proof.
  revert b. induction s as [|c s IH]; intros b; [done|]. rewrite str_app_cons. cbn [read_micron ends_escaped].
  destruct b; cbn [negb andb]; [by rewrite IH|]. destruct (c =? bslash)%char; [by rewrite IH|].
  destruct (c =? backtick)%char; by rewrite IH.
Qed.
Lemma ends_app b s t : ends_escaped b (s +:+ t) = ends_escaped (ends_escaped b s) t.
Proof. revert b. induction s as [|c s IH]; intros b; [done|]. rewrite str_app_cons. cbn [ends_escaped]. apply IH. Qed.
(** After a space no escape is under way. *)
Lemma ends_space b s : ends_escaped b (s +:+ " ") = false.
Proof. rewrite ends_app. cbn. by destruct (ends_escaped b s). Qed.
Lemma literally_app s t : literally (s +:+ t) = literally s ++ literally t.
Proof. induction s as [|c s IH]; [done|]. rewrite str_app_cons. cbn. by rewrite IH. Qed.

Definition esc_char (c : ascii) : string :=
  if (c =? bslash)%char then String bslash (String bslash "")
  else if (c =? backtick)%char then String bslash (String backtick "") else String c "".
Lemma esc_cons c s : esc (String c s) = esc_char c +:+ esc s.
Proof. done. Qed.
Lemma read_esc_char c : read_micron false (esc_char c) = [Lit c] /\ ends_escaped false (esc_char c) = false.
Proof.
  unfold esc_char. destruct (c =? bslash)%char eqn:Hb; [by apply Ascii.eqb_eq in Hb as ->|].
  destruct (c =? backtick)%char eqn:Ht; [by apply Ascii.eqb_eq in Ht as ->|]. cbn [read_micron ends_escaped negb andb]. by rewrite Hb, Ht.
Qed.
(** What [esc] makes of a text reads as the text. *)
Lemma read_esc s : read_micron false (esc s) = literally s /\ ends_escaped false (esc s) = false.
Proof.
  induction s as [|c s [IH1 IH2]]; [done|]. rewrite esc_cons, read_app, ends_app. destruct (read_esc_char c) as [-> ->].
  by rewrite IH1, IH2.
Qed.
Lemma replace_app f s t : replace_bytes f (s +:+ t) = replace_bytes f s +:+ replace_bytes f t.
Proof. induction s as [|c s IH]; [done|]. rewrite str_app_cons. cbn. by rewrite IH, str_app_assoc. Qed.
Lemma esc_app s t : esc (s +:+ t) = esc s +:+ esc t.
Proof. apply replace_app. Qed.
(** Line breaks may be replaced after escaping as well as before. *)
Lemma nl_esc r s : esc r = r -> nl_to r (esc s) = esc (nl_to r s).
Proof.
  intros Hr. induction s as [|c s IH]; [done|]. rewrite esc_cons. unfold nl_to in *. cbn [replace_bytes]. rewrite replace_app, IH.
  rewrite esc_app. unfold esc_char.
  destruct (c =? bslash)%char eqn:Hb; [by apply Ascii.eqb_eq in Hb as ->|].
  destruct (c =? backtick)%char eqn:Ht; [by apply Ascii.eqb_eq in Ht as ->|]. cbn [replace_bytes]. rewrite str_app_nil.
  destruct (c =? chr 10)%char; [by rewrite Hr|]. rewrite esc_cons. unfold esc_char. by rewrite Hb, Ht, str_app_nil.
Qed.

Lemma contains_byte_cons c x s : contains_byte (String x s) c = (byte x =? byte c) || contains_byte s c.
Proof. done. Qed.
Lemma contains_byte_app c s t : contains_byte (s +:+ t) c = contains_byte s c || contains_byte t c.
Proof. induction s as [|x s IH]; [done|]. rewrite str_app_cons, !contains_byte_cons, IH. apply orb_assoc. Qed.
Lemma byte_eqb x c : (byte x =? byte c) = (x =? c)%char.
Proof.
  destruct (x =? c)%char eqn:Hx; [apply Ascii.eqb_eq in Hx as ->; apply Z.eqb_refl|]. apply Z.eqb_neq. intros Heq.
  apply Ascii.eqb_neq in Hx. destruct Hx. unfold byte in Heq. apply N2Z.inj in Heq.
  by rewrite <- (ascii_N_embedding x), <- (ascii_N_embedding c), Heq.
Qed.
Lemma label_char c x : c = backtick \/ c = "]"%char ->
  contains_byte (if (x =? backtick)%char then "'" else if (x =? "]")%char then ")" else String x "") c = false.
Proof.
  intros [-> | ->]; (destruct (x =? backtick)%char eqn:H1; [done|]); (destruct (x =? "]")%char eqn:H2; [done|]);
    rewrite contains_byte_cons, byte_eqb; by rewrite ?H1, ?H2.
Qed.
Lemma label_plain s c : c = backtick \/ c = "]"%char -> contains_byte (escLabel s) c = false.
Proof.
  intros Hc. unfold escLabel. induction s as [|x s IH]; [done|]. cbn [replace_bytes]. by rewrite contains_byte_app, label_char, IH.
Qed.

Definition saying (body : string) (m : Message) : Message :=
  mkMessage (Message_ID m) (Message_Room m) (Message_Kind m) (Message_Author m) (Message_AuthorName m) body (Message_Via m)
    (Message_OriginID m) (Message_SaidAt m) (Message_HubAt m) (Message_Ext m).
(** Before a message's text comes a space. *)
Lemma line_head_space {E : Env} m visitor v : exists h, line_head m visitor v = h +:+ " ".
Proof.
  unfold line_head. destruct (Message_Kind m).
  - exists (cat ["`F9ab"; page_clock (Message_SaidAt m); "`f  "; author_shown m visitor v; " "]).
    rewrite !cat_cons. unfold cat. cbn [String.concat]. by rewrite !str_app_nil, <- !str_app_assoc.
  - exists (cat ["`F9ab"; page_clock (Message_SaidAt m); "`f  * "; author_shown m visitor v]).
    rewrite !cat_cons. unfold cat. cbn [String.concat]. by rewrite !str_app_nil, <- !str_app_assoc.
Qed.

(** C24. What is said is text.  On a message's line everything but what was said is
    the same whatever was said, and what was said reads, character by character,
    as itself, its lines after the first indented: it can neither start markup nor
    end what it stands in.  And no label of a link can end the link early. *)
Theorem what_is_said_is_text {E : Env} m visitor v :
  (exists before after, forall body,
    read_micron false (messageLine (saying body m) visitor v) =
    before ++ literally (nl_to (newline +:+ "          ") body) ++ after) /\
  (forall label, contains_byte (escLabel label) backtick = false /\ contains_byte (escLabel label) "]" = false).
Proof.
  split; [|intros label; split; apply label_plain; auto].
  exists (read_micron false (line_head m visitor v)), (read_micron false (remove_button m visitor)). intros body.
  unfold messageLine. rewrite !cat_cons. unfold cat. cbn [String.concat]. rewrite str_app_nil.
  change (line_head (saying body m) visitor v) with (line_head m visitor v). change (remove_button (saying body m) visitor) with (remove_button m visitor).
  cbn [saying Message_Body]. rewrite nl_esc by done. rewrite !read_app. f_equal.
  destruct (line_head_space m visitor v) as [h ->]. rewrite ends_space. destruct (read_esc (nl_to (newline +:+ "          ") body)) as [-> ->]. done.
Qed.

(** ** What is new *)
Definition not_new (person : Person) (marker : Z) (m : Message) : bool := (Message_ID m <=? marker) || Owns person (Message_Author m).
(** How many messages from the front are not news to [person]: those up to the
    marker, and their own that follow. *)
Fixpoint seen_before (person : Person) (marker : Z) (msgs : list Message) : nat :=
  match msgs with [] => O | m :: ms => if not_new person marker m then S (seen_before person marker ms) else O end.
Notation in_order := (StronglySorted (fun a b => Message_ID a < Message_ID b)).

Lemma seen_ext p k k' ms : Forall (fun m => k < Message_ID m /\ k' < Message_ID m) ms -> seen_before p k ms = seen_before p k' ms.
Proof.
  induction 1 as [|m ms [H1 H2] _ IH]; [done|]. cbn [seen_before]. unfold not_new.
  rewrite (proj2 (Z.leb_gt _ _) H1), (proj2 (Z.leb_gt _ _) H2), IH. done.
Qed.
Lemma move_marker_spec p k ms : in_order ms -> let k' := move_marker p k ms in let n := seen_before p k ms in
  k <= k' /\ Forall (fun m => Message_ID m <= k') (take n ms) /\ Forall (fun m => k' < Message_ID m) (drop n ms).
Proof.
  revert k. induction ms as [|m ms IH]; intros k Hs; cbn zeta; cbn [move_marker seen_before take drop]; [split_and!; [done|constructor..]|].
  apply StronglySorted_inv in Hs as [Hs Hm]. unfold not_new. destruct (Z.ltb_spec k (Message_ID m)) as [Hlt|Hle]; cbn [andb].
  - rewrite (proj2 (Z.leb_gt _ _) Hlt). cbn [orb]. destruct (Owns p (Message_Author m)); cbn [take drop].
    + rewrite (seen_ext p k (Message_ID m)) by (eapply Forall_impl; [exact Hm|]; cbn; intros; lia).
      destruct (IH (Message_ID m) Hs) as (H1 & H2 & H3). split_and!; [lia|by constructor|done].
    + split_and!; [done|constructor|]. constructor; [done|]. eapply Forall_impl; [exact Hm|]. cbn. intros; lia.
  - rewrite (proj2 (Z.leb_le _ _)) by lia. cbn [orb take drop]. destruct (IH k Hs) as (H1 & H2 & H3). split_and!; [done|constructor; [lia|done]|done].
Qed.

Section shown.
Context {E : Env}.
Notation shown p v := (map (fun m => messageLine m p v)).
Lemma lines_after_mark p v k first ms : message_lines p v k true first ms = shown p v ms.
Proof.
  revert first. induction ms as [|m ms IH]; intros first; [done|]. cbn [message_lines map negb]. rewrite andb_false_r. cbn [andb orb app].
  by rewrite IH.
Qed.
Lemma lines_before_mark p v k first ms l : Forall (fun m => Message_ID m <= k) ms ->
  message_lines p v k false first (ms ++ l) = shown p v ms ++ message_lines p v k false (first && bool_decide (ms = [])) l.
Proof.
  intros Hms. revert first. induction Hms as [|m ms Hm _ IH]; intros first; cbn [app message_lines map]; [by rewrite andb_true_r|].
  rewrite (proj2 (Z.ltb_ge _ _) Hm), !andb_false_r. cbn [andb orb app]. rewrite IH. done.
Qed.
Lemma lines_new p v k ms : 0 < k -> Forall (fun m => k < Message_ID m) ms ->
  message_lines p v k false false ms = (match ms with [] => [] | _ => [new_line] end) ++ shown p v ms.
Proof.
  intros Hk [|m ms' Hm _]; [done|]. cbn [message_lines negb]. rewrite (proj2 (Z.ltb_lt _ _) Hk), (proj2 (Z.ltb_lt _ _) Hm). cbn [andb orb app map].
  by rewrite lines_after_mark.
Qed.

(** What a visitor who has been here before is shown: every message once and in
    order, and between what they had seen, their own messages that followed
    included, and what is new, one line that says so; but if nothing shown had
    been seen, that line comes after the first message. *)
Theorem new_line_where p v marker latest msgs : in_order msgs -> msgs <> [] -> 0 < marker ->
  let n := Nat.max 1 (seen_before p marker msgs) in
  conversation msgs (Some p) marker latest v =
  shown (Some p) v (take n msgs) ++ (match drop n msgs with [] => [] | _ => [new_line] end) ++ shown (Some p) v (drop n msgs).
Proof.
  intros Hs Hne Hk. cbn zeta. unfold conversation. rewrite bool_decide_eq_false_2 by done. cbn [andb].
  rewrite (proj2 (Z.ltb_lt _ _) Hk). destruct (move_marker_spec p marker msgs Hs) as (Hle & Hold & Hnew).
  set (k := move_marker p marker msgs) in *. destruct (seen_before p marker msgs) as [|n] eqn:Hn.
  - destruct msgs as [|m ms]; [done|]. cbn [Nat.max take drop] in *. apply Forall_cons in Hnew as [_ Hnew].
    cbn [message_lines negb]. rewrite andb_false_r. cbn [orb app map]. rewrite lines_new; [done|lia|done].
  - rewrite Nat.max_r by lia. rewrite <- (firstn_skipn (S n) msgs) at 1. rewrite lines_before_mark by done.
    rewrite bool_decide_eq_false_2 by (by destruct msgs). rewrite andb_false_r. rewrite lines_new; [done|lia|done].
Qed.
End shown.
