(* ===== verification/Node.v ===== *)
(** The program put together: one hub, and the RRC server, the LXMF group and the
    chat page on it (internal/app wires them).  Whatever the adapters do is, for
    the hub, a run of the steps of [System]. *)
From S2P Require Import Prelude Text TextCut Db StorePeople StoreRooms StoreMessages StoreGroup StoreInv StoreWf StorePolicy Names HubCore Clock.
From S2P Require Import Ranks People Rooms Post Commands CmdPeople Links Whispers Profile Dispatch Maintain HubWf System Adapters.
From S2P Require Import LxmfGroup LxmfDeliver Wire RrcFrames RrcSession RrcHandle RrcFanout RrcSpec.
From S2P Require Import Micron PageCore PageChat PageMe PageProfile PageSpec PageSafety.
Local Open Scope Z_scope.

(** ** The adapters on the hub, at a time and with some random bytes *)
Section adapters.
Context {W : Env} (t : Z) (rnd_ : string).
#[local] Instance E : Env := at_time W t rnd_.
Lemma method_step (c : Call) h : rtc (step (W := W)) h (perform c h).
Proof. apply rtc_once. apply (step_call t rnd_). Qed.

(** *** The page *)
Section page.
Context {R : PageRand} (pcfg : PConfig).
Lemma page_op_step {A} (f : Hub -> res A * Hub) : page_op f -> forall h, rtc (step (W := W)) h (f h).2.
Proof.
  intros Hf h. destruct Hf.
  - apply (method_step (CallClaimName id n)).
  - apply (method_step (CallForget id)).
  - apply (method_step (CallLeaveGroup id)).
  - apply (method_step (CallCommand req)).
  - apply (method_step (CallSetPrefs id f)).
  - apply (method_step (CallWhispers id n)).
  - apply (method_step (CallSetLXMFMode id m)).
  - apply (method_step (CallSetLXMFMine id b)).
  - apply (method_step (CallPost req)).
  - apply (method_step (CallDeleteMessage id k)).
Qed.
Lemma page_steps r (p : Page Hub) : rtc (step (W := W)) (pg_hub p) (pg_hub (Serve pcfg r p).2).
Proof.
  pose (J := fun q : Page Hub => rtc (step (W := W)) (pg_hub p) (pg_hub q)).
  assert (forall {A} (f : Hub -> res A * Hub), (forall h, rtc (step (W := W)) h (f h).2) -> pres J (Weakening0 := J_weak J) (pg_call f)) as Hcall.
  { intros A f Hf q Hq. specialize (Hf (pg_hub q)). unfold pg_call. destruct (f (pg_hub q)) as [x h]. unfold J. cbn in *. etrans; [exact Hq|exact Hf]. }
  assert (keeps J (Weakening0 := J_weak J) (Serve pcfg r p)) as Hk.
  { apply pres_Serve; [..|by unfold J].
    - intros _ q Hq. unfold actionToken. by destruct (issue _ _ _ _) as [[] ].
    - intros _. apply Hcall. intros h. apply (method_step (CallIdentify _ _)).
    - intros k _. apply Hcall. intros h. apply (method_step (CallMarkRead _ _ _ _)).
    - intros _. apply Hcall. intros h. apply (method_step (CallSetPrefs _ _)).
    - intros _. apply Hcall. intros h. apply (method_step (CallWhispers _ _)).
    - intros q _ _ _ A f Hf. apply Hcall. by apply page_op_step. }
  destruct (Serve pcfg r p) as [[x|e] q]; cbn in *; apply Hk.
Qed.
End page.

(** *** The LXMF group *)
Section group.
Context {N : LxmfNet} (gcfg : GConfig).
(** A step of the group is a run of the hub's, and keeps its queues within their
    bounds. *)
Definition queues_bounded (g : Grp Hub) : Prop := (length (g_inbox g) <= inboxMax)%nat /\ (length (g_replies g) <= repliesMax)%nat.
Definition group_moves (g g' : Grp Hub) : Prop := rtc (step (W := W)) (g_hub g) (g_hub g') /\ (queues_bounded g -> queues_bounded g').
#[local] Instance group_moves_preorder : PreOrder group_moves.
Proof. split; [by split|]. intros ??? [] []. split; [by etrans|auto]. Qed.
Notation stepping := (stepping group_moves).
Lemma g_call_steps {A} (f : Hub -> res A * Hub) : (forall h, rtc (step (W := W)) h (f h).2) -> stepping (g_call f).
Proof. intros Hf g. specialize (Hf (g_hub g)). unfold g_call. by destruct (f (g_hub g)). Qed.
Lemma g_ask_steps {A} (f : Hub -> res A) : stepping (g_ask f).
Proof. by intros ?. Qed.
Lemma group_post_steps req : stepping (g_call (gh_Post req)).
Proof. apply g_call_steps. intros h. apply (method_step (CallPost req)). Qed.
Lemma group_command_steps req : stepping (g_call (gh_Command req)).
Proof. apply g_call_steps. intros h. apply (method_step (CallCommand req)). Qed.
Lemma group_identify_steps id pk : stepping (g_call (gh_Identify id pk)).
Proof. apply g_call_steps. intros h. apply (method_step (CallIdentify id pk)). Qed.
Lemma group_record_steps d o p r a : stepping (g_call (gh_RecordDelivery d o p r a)).
Proof. apply g_call_steps. intros h. apply (method_step (CallRecordDelivery d o p r a)). Qed.
Lemma send_one_steps x : stepping (send_one x).
Proof. by intros g. Qed.
Hint Resolve g_ask_steps group_post_steps group_command_steps group_identify_steps group_record_steps send_one_steps : stepping.
Lemma nudge_steps : stepping nudge.
Proof. by intros g. Qed.
Lemma g_stat_steps k : stepping (g_stat k).
Proof. by intros g. Qed.
Lemma request_path_steps d : stepping (request_path d).
Proof. by intros g. Qed.
Hint Resolve nudge_steps g_stat_steps request_path_steps : stepping.
Lemma reply_steps id text : stepping (reply id text).
Proof.
  intros g. unfold reply. erewrite bind_run by done. destruct (length (g_replies g) <? repliesMax)%nat eqn:Hl; cbn; [|done].
  apply Nat.ltb_lt in Hl. split; [done|]. intros [? _]. split; [done|]. cbn. rewrite length_app. cbn. lia.
Qed.
Hint Resolve reply_steps : stepping.
Lemma group_handle_steps m : stepping (group_handle gcfg m).
Proof.
  unfold group_handle, group_said, group_command, command_answer, group_post. stepping_auto.
Qed.
Lemma group_event_steps e : stepping (group_event e).
Proof. unfold group_event, replyIfMember. stepping_auto. Qed.
Lemma send_parts_steps node addr parts : stepping (send_parts node addr parts).
Proof. induction parts as [|p ps IH]; cbn [send_parts]; stepping_auto. Qed.
Lemma propagate_all_steps node addr parts : stepping (propagate_all node addr parts).
Proof. induction parts as [|p ps IH]; cbn [propagate_all]; stepping_auto. Qed.
Hint Resolve send_parts_steps propagate_all_steps : stepping.
Lemma send_reply_steps addr parts : stepping (send_reply_parts gcfg addr parts).
Proof. induction parts as [|p ps IH]; cbn [send_reply_parts]; stepping_auto. Qed.
Hint Resolve send_reply_steps : stepping.
Lemma run_job_steps pd : stepping (run_job gcfg pd).
Proof. unfold run_job, LxmfDeliver.deliver, record, ask_path. stepping_auto. Qed.
Lemma drain_steps l : stepping (drain_replies gcfg l).
Proof. induction l as [|r l IH]; cbn [drain_replies]; unfold sendReply; stepping_auto. Qed.
Lemma dispatch_hub idle snap due : stepping (dispatch idle snap due).
Proof. revert idle. induction due as [|d due IH]; intros idle; cbn [dispatch]; stepping_auto. Qed.
Hint Resolve drain_steps dispatch_hub : stepping.
Lemma schedule_steps idle : stepping (schedule_turn gcfg idle).
Proof. unfold schedule_turn. stepping_auto. Qed.
Lemma OnMessage_steps m : stepping (OnMessage m).
Proof.
  intros g. unfold OnMessage. erewrite bind_run by done. destruct (length (g_inbox g) <? inboxMax)%nat eqn:Hl; cbn; [|done].
  apply Nat.ltb_lt in Hl. split; [done|]. intros [_ ?]. split; [|done]. cbn. rewrite length_app. cbn. lia.
Qed.
Lemma group_receive_steps : stepping (group_receive gcfg).
Proof.
  intros g. unfold group_receive. erewrite bind_run by done. destruct (g_inbox g) as [|m rest] eqn:Hi; [done|].
  erewrite bind_run by done. etrans; [|apply group_handle_steps]. split; [done|]. unfold queues_bounded. rewrite Hi. cbn. lia.
Qed.
End group.

(** *** The RRC server *)
Section rrc.
Context {C : Cbor} {R : RrcEnv} (scfg : SConfig).
(** A step of the server is a run of the hub's. *)
Definition rrc_moves (s s' : Srv Hub) : Prop := rtc (step (W := W)) (s_hub s) (s_hub s').
#[local] Instance rrc_moves_preorder : PreOrder rrc_moves.
Proof. split; [intros s; by unfold rrc_moves|]. intros s1 s2 s3 H1 H2. unfold rrc_moves in *. by etrans. Qed.
Notation stepping := (stepping rrc_moves).
Lemma s_call_steps {A} (f : Hub -> res A * Hub) : (forall h, rtc (step (W := W)) h (f h).2) -> stepping (s_call f).
Proof. intros Hf s. specialize (Hf (s_hub s)). unfold s_call. by destruct (f (s_hub s)). Qed.
Lemma s_ask_steps {A} (f : Hub -> res A) : stepping (s_ask f).
Proof. by intros ?. Qed.
Lemma rrc_identify_steps id pk : stepping (s_call (rh_Identify id pk)).
Proof. apply s_call_steps. intros h. apply (method_step (CallIdentify id pk)). Qed.
Lemma rrc_claim_steps id n : stepping (s_call (rh_ClaimName id n)).
Proof. apply s_call_steps. intros h. apply (method_step (CallClaimName id n)). Qed.
Lemma rrc_join_steps req : stepping (s_call (rh_Join req)).
Proof. apply s_call_steps. intros h. apply (method_step (CallJoin req)). Qed.
Lemma rrc_part_steps id room : stepping (s_call (rh_Part id room)).
Proof. apply s_call_steps. intros h. apply (method_step (CallPart id room)). Qed.
Lemma rrc_disconnect_steps id rooms : stepping (s_call (rh_Disconnect id rooms)).
Proof. apply s_call_steps. intros h. apply (method_step (CallDisconnect id rooms)). Qed.
Lemma rrc_post_steps req : stepping (s_call (rh_Post req)).
Proof. apply s_call_steps. intros h. apply (method_step (CallPost req)). Qed.
Lemma rrc_command_steps req : stepping (s_call (rh_Command req)).
Proof. apply s_call_steps. intros h. apply (method_step (CallCommand req)). Qed.
Lemma rrc_notice_steps id room : stepping (s_call (rh_MayNotice id room)).
Proof. apply s_call_steps. intros h. apply (method_step (CallMayNotice id room)). Qed.
Lemma rrc_direct_steps a b : stepping (s_call (rh_MayNotifyDirect a b)).
Proof. apply s_call_steps. intros h. apply (method_step (CallMayNotifyDirect a b)). Qed.
Lemma rrc_sent_steps k : stepping (s_call (rh_WhisperSentRRC k)).
Proof. apply s_call_steps. intros h. apply (method_step (CallWhisperSentRRC k)). Qed.
Hint Resolve s_ask_steps rrc_identify_steps rrc_claim_steps rrc_join_steps rrc_part_steps rrc_disconnect_steps rrc_post_steps
  rrc_command_steps rrc_notice_steps rrc_direct_steps rrc_sent_steps : stepping.
Lemma drawing_steps {A} (f : nat -> A * nat) : stepping (drawing f).
Proof. intros s. red. unfold drawing. by destruct (f (s_ids s)). Qed.
Lemma ss_get_steps {A} r (f : session -> A) : stepping (ss_get r f).
Proof. by intros ?. Qed.
Lemma ss_mod_steps r f : stepping (ss_mod r f).
Proof. intros s. by red. Qed.
Lemma s_stat_steps k : stepping (s_stat k).
Proof. intros s. by red. Qed.
Lemma teardown_steps l : stepping (teardown l).
Proof. intros s. by red. Qed.
Hint Resolve @drawing_steps @ss_get_steps ss_mod_steps s_stat_steps teardown_steps : stepping.
Lemma ss_do_steps {A} r (f : session -> A * session) : stepping (ss_do r f).
Proof. unfold ss_do. stepping_auto. Qed.
Hint Resolve @ss_do_steps : stepping.
Lemma sendFrame_steps r f : stepping (sendFrame scfg r f).
Proof. unfold sendFrame. stepping_auto. Qed.
Hint Resolve sendFrame_steps : stepping.
Lemma sendFrames_steps r fs : stepping (sendFrames scfg r fs).
Proof. unfold sendFrames. stepping_auto. Qed.
Lemma send_steps r e : stepping (send scfg r e).
Proof. unfold send. stepping_auto. Qed.
Hint Resolve sendFrames_steps send_steps : stepping.
Lemma notices_steps u ty room text : stepping (notices scfg u ty room text).
Proof. apply drawing_steps. Qed.
Lemma hub_envelope_steps u ty room : stepping (hub_envelope u ty room).
Proof. apply drawing_steps. Qed.
Hint Resolve notices_steps hub_envelope_steps : stepping.
Lemma notify_steps u r ty room text : stepping (notify scfg u r ty room text).
Proof. unfold notify. stepping_auto. Qed.
Hint Resolve notify_steps : stepping.
Lemma sendError_steps u r room text : stepping (sendError scfg u r room text).
Proof. apply notify_steps. Qed.
Lemma s_userText_steps e : stepping (userText e).
Proof. unfold userText. stepping_auto. Qed.
Hint Resolve sendError_steps s_userText_steps : stepping.
Lemma offerMessage_steps r room k fs : stepping (offerMessage scfg r room k fs).
Proof. unfold offerMessage. stepping_auto. Qed.
Lemma send_whisper_steps r id w : stepping (send_whisper scfg r id w).
Proof. unfold send_whisper. stepping_auto. Qed.
Hint Resolve offerMessage_steps send_whisper_steps : stepping.
Lemma established_steps link : stepping (established scfg link).
Proof. unfold established, session_of. stepping_auto. Qed.
Hint Resolve established_steps : stepping.
Lemma sessionFor_steps link : stepping (sessionFor scfg link).
Proof. unfold sessionFor, session_of. stepping_auto. Qed.
Lemma refuseLink_steps r e : stepping (refuseLink scfg r e).
Proof. unfold refuseLink, refusal. stepping_auto. Qed.
Lemma closed_steps link : stepping (closed link).
Proof. unfold closed, session_of. stepping_auto. Qed.
Hint Resolve sessionFor_steps refuseLink_steps closed_steps : stepping.
Lemma restart_steps r caps id : stepping (restart r caps id).
Proof. unfold restart. stepping_auto. Qed.
Lemma hello_nick_steps r id nick p : stepping (hello_nick scfg r id nick p).
Proof. unfold hello_nick. stepping_auto. Qed.
Lemma missed_steps r : stepping (sendMissedWhispers scfg r).
Proof. unfold sendMissedWhispers. stepping_auto. Qed.
Hint Resolve restart_steps hello_nick_steps missed_steps : stepping.
Lemma welcome_steps r p note : stepping (welcome scfg r p note).
Proof. unfold welcome. stepping_auto. Qed.
Hint Resolve welcome_steps : stepping.
Lemma hello_steps r e : stepping (hello scfg r e).
Proof.
  unfold hello. cbv zeta. apply (stepping_bind _); [apply ss_get_steps|]. intros id. apply (stepping_bind _); [apply restart_steps|]. intros _.
  apply (stepping_bind _); [apply ss_get_steps|]. intros pk. apply (stepping_bind _); [apply rrc_identify_steps|]. intros [p|err]; [|apply refuseLink_steps].
  apply (stepping_bind _); [apply hello_nick_steps|]. intros [q note]. apply welcome_steps.
Qed.
Lemma join_begin_steps r e : stepping (join_begin scfg r e).
Proof. unfold join_begin. stepping_auto. Qed.
Lemma send_history_steps r room note ms : stepping (send_history scfg r room note ms).
Proof. unfold send_history. stepping_auto. Qed.
Hint Resolve hello_steps join_begin_steps send_history_steps : stepping.
Lemma join_answer_steps r e held res : stepping (join_answer scfg r e held res).
Proof. unfold join_answer, join_reply, finishJoin. stepping_auto. Qed.
Hint Resolve join_answer_steps : stepping.
Lemma join_steps r e : stepping (join scfg r e).
Proof. unfold join. stepping_auto. Qed.
Lemma part_steps r e : stepping (part scfg r e).
Proof. unfold part. stepping_auto. Qed.
Hint Resolve join_steps part_steps : stepping.
Lemma notice_steps r e : stepping (notice scfg r e).
Proof. unfold notice, direct_notice, room_notice, nameOf, sessionsOf, sessionsIn. stepping_auto. Qed.
Lemma command_steps r e text : stepping (command scfg r e text).
Proof. unfold command, send_reply. stepping_auto. Qed.
Hint Resolve notice_steps command_steps : stepping.
Lemma message_steps r e : stepping (message scfg r e).
Proof. unfold message, post, maybeClaimNick. stepping_auto. Qed.
Hint Resolve message_steps : stepping.
Lemma data_steps link frame : stepping (data scfg link frame).
Proof. unfold data, rate_limited, dispatch_frame. stepping_auto. Qed.
Hint Resolve data_steps : stepping.
Lemma identified_steps link pk : stepping (identified scfg link pk).
Proof. unfold identified. stepping_auto. Qed.
Hint Resolve identified_steps : stepping.
Lemma job_steps j : stepping (handleJob scfg j).
Proof. destruct j; cbn [handleJob]; unfold resource; stepping_auto. Qed.
Lemma keepalive_steps : stepping (keepalive scfg).
Proof. unfold keepalive, keepalive_one, hang_up, allSessions. stepping_auto. Qed.
Lemma closeAll_steps : stepping closeAll.
Proof. unfold closeAll, hang_up, allSessions. stepping_auto. Qed.
Lemma event_steps ev : stepping (deliver scfg ev).
Proof.
  unfold deliver, whisper_to, presenceChange, to_sessions_of, remove_from, ban_session, sessionsOf, sessionsIn, allSessions. stepping_auto.
Qed.
Lemma writer_turn_steps r : stepping (writer_turn r).
Proof. unfold writer_turn. stepping_auto. Qed.
Lemma writer_quits_steps r : stepping (writer_quits r).
Proof. apply ss_mod_steps. Qed.
End rrc.
End adapters.

(** ** The node *)
(** One hub, and each adapter's own state; the hub an adapter's state holds is the
    one it last saw. *)
Record Node := mkNode { nd_hub : Hub; nd_rrc : Srv Hub; nd_group : Grp Hub; nd_page : Page Hub }.
Definition node_New (h : Hub) : Node := mkNode h (server_New h) (group_New h) (page_New h).
Definition at_hub_ (h : Hub) (n : Node) : Node := mkNode h (nd_rrc n) (nd_group n) (nd_page n).
Definition on_rrc {A} (m : ST (Srv Hub) A) (n : Node) : Node :=
  let s := (m (set_s_hub (nd_hub n) (nd_rrc n))).2 in mkNode (s_hub s) s (nd_group n) (nd_page n).
Definition on_group {A} (m : ST (Grp Hub) A) (n : Node) : Node :=
  let g := (m (set_g_hub (nd_hub n) (nd_group n))).2 in mkNode (g_hub g) (nd_rrc n) g (nd_page n).
Definition on_page {A} (m : ST (Page Hub) A) (n : Node) : Node :=
  let p := (m (mkPage (nd_hub n) (pg_sessions (nd_page n)) (pg_drawn (nd_page n)))).2 in mkNode (pg_hub p) (nd_rrc n) (nd_group n) p.

Section node.
Context {W : Env} {C : Cbor} {RR : RrcEnv} {N : LxmfNet} {R : PageRand} (scfg : SConfig) (gcfg : GConfig) (pcfg : PConfig).
Notation at_ t r := (at_time W t r).

(** What can happen next, at any time and with any random bytes: the minute's
    maintenance; a job of the RRC server, or the parts of a JOIN; its keepalive,
    its writers and its end; an event an adapter takes from its queue; a message
    for the group, a round of its scheduler, an attempt at a delivery; a page. *)
Inductive node_step : Node -> Node -> Prop :=
  | n_maintain t r n : node_step n (at_hub_ (maintain (E := at_ t r) (nd_hub n)) n)
  | n_job t r j n : node_step n (on_rrc (handleJob (HS := hub_rrc (E := at_ t r)) (E := at_ t r) scfg j) n)
  | n_join_begin t r s e n : node_step n (on_rrc (join_begin (E := at_ t r) scfg s e) n)
  | n_join t r req n : node_step n (on_rrc (s_call (rh_Join (RrcHub := hub_rrc (E := at_ t r)) req)) n)
  | n_join_answer t r s e held res n : node_step n (on_rrc (join_answer (E := at_ t r) scfg s e held res) n)
  | n_rrc_event t r i ev h n : receive_at i (nd_hub n) = Some (ev, h) ->
      node_step n (on_rrc (deliver (HS := hub_rrc (E := at_ t r)) (E := at_ t r) scfg ev) (at_hub_ h n))
  | n_tick t r n : node_step n (on_rrc (keepalive (E := at_ t r) scfg) n)
  | n_writer s n : node_step n (on_rrc (writer_turn s) n)
  | n_quits s n : node_step n (on_rrc (writer_quits s) n)
  | n_close n : node_step n (on_rrc closeAll n)
  | n_message m n : node_step n (on_group (OnMessage m) n)
  | n_receive t r n : node_step n (on_group (group_receive (HS := hub_group (E := at_ t r)) (E := at_ t r) gcfg) n)
  | n_group_event t r i ev h n : receive_at i (nd_hub n) = Some (ev, h) ->
      node_step n (on_group (group_event (HS := hub_group (E := at_ t r)) ev) (at_hub_ h n))
  | n_schedule t r idle n : node_step n (on_group (schedule_turn (HS := hub_group (E := at_ t r)) gcfg idle) n)
  | n_run t r pd n : node_step n (on_group (run_job (HS := hub_group (E := at_ t r)) (E := at_ t r) gcfg pd) n)
  | n_serve t r rq n : node_step n (on_page (Serve (HS := hub_page (E := at_ t r)) (E := at_ t r) pcfg rq) n).

Lemma on_rrc_steps {A} (m : ST (Srv Hub) A) n : stepping rrc_moves m -> rtc step (nd_hub n) (nd_hub (on_rrc m n)).
Proof. intros Hm. apply (Hm (set_s_hub (nd_hub n) (nd_rrc n))). Qed.
Lemma on_group_steps {A} (m : ST (Grp Hub) A) n : stepping group_moves m -> rtc step (nd_hub n) (nd_hub (on_group m n)).
Proof. intros Hm. apply (Hm (set_g_hub (nd_hub n) (nd_group n))). Qed.
Lemma received_step i ev h n : receive_at i (nd_hub n) = Some (ev, h) -> rtc step (nd_hub n) (nd_hub (at_hub_ h n)).
Proof. intros Hr. apply rtc_once. by apply (step_receive i ev). Qed.

(** Seen from the hub, a step of the node is a run of its own. *)
Lemma node_step_hub n n' : node_step n n' -> rtc step (nd_hub n) (nd_hub n').
Proof.
  intros H. destruct H.
  - apply rtc_once, (step_maintain t r).
  - apply on_rrc_steps, job_steps.
  - apply on_rrc_steps, join_begin_steps.
  - apply on_rrc_steps, rrc_join_steps.
  - apply on_rrc_steps, join_answer_steps.
  - etrans; [by eapply received_step|]. apply on_rrc_steps, event_steps.
  - apply on_rrc_steps, keepalive_steps.
  - apply on_rrc_steps, writer_turn_steps; done.
  - apply on_rrc_steps, writer_quits_steps; done.
  - apply on_rrc_steps, closeAll_steps; done.
  - apply on_group_steps, OnMessage_steps; done.
  - apply on_group_steps, group_receive_steps.
  - etrans; [by eapply received_step|]. apply on_group_steps, group_event_steps.
  - apply on_group_steps, schedule_steps.
  - apply on_group_steps, run_job_steps.
  - exact (page_steps t r pcfg rq (mkPage (nd_hub n) (pg_sessions (nd_page n)) (pg_drawn (nd_page n)))).
Qed.

(** *** The node over time *)
Context (queue_size : 0 <= sc_SendQueue scfg).
Context (fresh_once : forall j k, token j = token k -> j = k).
(** The node's own state: the server's sessions agree, the group's queues are
    within their bounds, and each of the page's tokens is one visitor's. *)
Record adapters_wf (n : Node) : Prop := {
  aw_rrc : srv_wf scfg (nd_rrc n);
  aw_group : queues_bounded (nd_group n);
  aw_page : tokens_wf (pg_drawn (nd_page n)) (pg_sessions (nd_page n))
}.
Lemma adapters_wf_new h : adapters_wf (node_New h).
Proof. constructor; cbn; [apply srv_wf_new|split; cbn; lia|apply tokens_wf_new]. Qed.
Lemma srv_wf_hub h s : srv_wf scfg s -> srv_wf scfg (set_s_hub (S := Hub) h s).
Proof. by intros []. Qed.
Lemma adapters_rrc {A} (m : ST (Srv Hub) A) n : (forall s, srv_wf scfg s -> srv_wf scfg (m s).2) ->
  adapters_wf n -> adapters_wf (on_rrc m n).
Proof. intros Hm []. constructor; cbn; [|done..]. by apply Hm, srv_wf_hub. Qed.
Lemma adapters_group {A} (m : ST (Grp Hub) A) n : stepping group_moves m -> adapters_wf n -> adapters_wf (on_group m n).
Proof. intros Hm []. constructor; cbn; [done| |done]. by apply Hm. Qed.
Lemma adapters_at_hub h n : adapters_wf n -> adapters_wf (at_hub_ h n).
Proof. by intros []. Qed.
Lemma adapters_serve t rnd_ rq n : adapters_wf n ->
  adapters_wf (on_page (Serve (HS := hub_page (E := at_ t rnd_)) (E := at_ t rnd_) pcfg rq) n).
Proof.
  intros []. constructor; cbn; [done..|]. set (p := mkPage _ _ _).
  assert (since p [] p) as Hp by (constructor; cbn; eauto).
  apply (si_wf _ _ _ (since_Serve (HS := @hub_page) (HL := @hub_page_laws) pcfg fresh_once p [] p t rnd_ rq Hp)).
Qed.
Lemma node_step_adapters n n' : adapters_wf n -> node_step n n' -> adapters_wf n'.
Proof.
  intros Hn H. destruct H; try apply adapters_rrc; try done; try apply adapters_at_hub; try done.
  all: try (intros s' Hs'; apply pres_s; [|done]).
  - by apply pres_handleJob.
  - apply pres_join_begin.
  - apply pres_call.
  - apply pres_join_answer.
  - by apply pres_deliver.
  - by apply pres_keepalive.
  - apply pres_writer_turn.
  - apply pres_writer_quits.
  - apply pres_closeAll.
  - apply adapters_group; [apply OnMessage_steps; done|done].
  - apply adapters_group; [apply group_receive_steps|done].
  - apply adapters_group; [apply group_event_steps|by apply adapters_at_hub].
  - apply adapters_group; [apply schedule_steps|done].
  - apply adapters_group; [apply run_job_steps|done].
  - by apply adapters_serve.
Qed.

(** C6. The program put together keeps what its parts promise.  From a hub as it
    starts, and with each adapter as it is made, let workers, events, timers,
    deliveries and pages take their turns in any order: the hub is as the hub's
    own steps alone could have left it, its tables and its memory consistent; the
    RRC server's maps agree and its queues and frames are within their bounds;
    the group's inbox and replies hold no more than 512; and every token of the
    page is one visitor's. *)
Theorem node_keeps_invariants h0 n : started h0 -> rtc node_step (node_New h0) n ->
  reachable (nd_hub n) /\ hub_wf (nd_hub n) /\ adapters_wf n.
Proof.
  intros H0 Hn. assert (rtc step h0 (nd_hub n) /\ adapters_wf n) as [Hh Ha].
  { change h0 with (nd_hub (node_New h0)). pose proof (adapters_wf_new h0) as Ha. induction Hn as [m|m1 m2 m3 H1 _ IH]; [by split|].
    pose proof (node_step_hub _ _ H1). apply (node_step_adapters _ _ Ha) in H1. destruct (IH H1). split; [by etrans|done]. }
  assert (reachable (nd_hub n)) as Hr by by exists h0.
  split_and!; [done|by apply (hub_inv_reachable (I := db_wf) _ db_wf_empty)|done].
Qed.
End node.
