(* ===== verification/Importer.v ===== *)
(** internal/importer: rrc-hub's and bridge 0.1's state into the hub's store.

    What the two data directories hold is data ([RRCHubDir], [BridgeDir]); the
    decoders of TOML (github.com/BurntSushi/toml), CBOR (github.com/fxamacker/cbor)
    and JSON give what they read into the code's structs ([ImportCodecs]).  A Go
    map is the list of its entries in the order they are gone through, which
    Go leaves open.  Then: what the readers give. *)
From Stdlib Require Import SpecFloat.
From S2P Require Import Prelude Text TextCut Db StorePeople StoreRooms StoreMessages StoreGroup StoreInv StoreWf StoreHistory Names HubCore Frame.
From S2P Require Import NamesSpec GoStd.
Local Open Scope Z_scope.

(** ** Numbers *)
(** [int64(ts * 1000)] *)
Definition float_ms (ts : float64) : Z := float_to_int64 (float_mul ts (float_of 1000)).
Example float_ms_half : float_ms (S754_finite false (7 * 2 ^ 50) (-51)) = 3500.
Proof. vm_compute. reflexivity. Qed.

(** ** The directories *)
Inductive file := NoFile | Unreadable (err : string) | File (content : string).
Record RRCHubDir := mkRRCHubDir {
  rd_path : string;
  rd_peers : file;
  rd_rooms : file;
  rd_klines : file;
  rd_logs : list (string * string * file)   (* history/<room>/<name>.log *)
}.
Record BridgeDir := mkBridgeDir { bd_state : file; bd_messages : file }.
Record Sources := mkSources { src_RRCHub : option RRCHubDir; src_Bridge : option BridgeDir; src_Skip : list ident }.

(** What the decoders give. *)
Record PeerEntry := mkPeerEntry { pr_PublicKey : string; pr_Nick : string; pr_LastSeenTS : float64 }.
Record RoomEntry := mkRoomEntry {
  rm_Founder : string; rm_Topic : string; rm_Moderated : bool; rm_InviteOnly : bool; rm_TopicOpsOnly : bool;
  rm_NoOutsideMsgs : bool; rm_Private : bool; rm_Operators : list string; rm_Voiced : list string; rm_Bans : list string;
  rm_LastUsedTS : float64
}.
Inductive HVal := HUint (n : Z) | HText (s : string) | HBytes (s : string) | HOther.
Record BridgeMember := mkBridgeMember {
  bm_Identity : string; bm_Nick : string; bm_Paused : bool; bm_JoinedAt : Z; bm_LastSeen : Z
}.
Record BridgeState := mkBridgeState { bs_Members : list (string * BridgeMember); bs_Bans : list string }.
Record BridgeLine := mkBridgeLine {
  bl_SaidAt : Z; bl_ReceivedAt : Z; bl_Source : string; bl_OriginID : string; bl_AuthorIdentity : string;
  bl_AuthorName : string; bl_Body : string
}.
Class ImportCodecs := {
  toml_peers : string -> string + list (string * PeerEntry);
  toml_rooms : string -> string + list (string * RoomEntry);
  toml_klines : string -> string + list string;
  cbor_record : string -> option (gmap Z HVal);
  json_state : string -> string + BridgeState;
  json_line : string -> option BridgeLine
}.

(** ** What is read *)
Record peer := mkPeer { peer_id : ident; peer_publicKey : option string; peer_nick : string; peer_lastSeen : Z }.
Record member := mkMember_ { mb_id : ident; mb_nick : string; mb_joinedAt : Z; mb_lastSeen : Z; mb_paused : bool }.
Record roomData := mkRoomData {
  ro_name : string; ro_founder : option ident; ro_topic : string; ro_modes : string;
  ro_ops : list ident; ro_voiced : list ident; ro_bans : list ident; ro_lastUsed : Z
}.
Record imported := mkImported {
  im_room : string; im_action : bool; im_author : ident; im_name : string; im_body : string; im_origin : string;
  im_saidAt : Z; im_hubAt : Z
}.
Record sourceData := mkSourceData {
  sd_peers : list peer; sd_members : list member; sd_rooms : list roomData; sd_bans : list ident; sd_messages : list imported
}.
Definition no_data : sourceData := mkSourceData [] [] [] [] [].

Record Report := mkReport {
  rep_Identities : Z; rep_Names : Z; rep_Members : Z; rep_Rooms : Z; rep_Bans : Z; rep_Messages : Z; rep_Duplicates : Z;
  rep_Old : Z; rep_Notes : list string
}.
Definition no_report : Report := mkReport 0 0 0 0 0 0 0 0 [].
Inductive Tally := TIdentities | TNames | TMembers | TRooms | TBans | TMessages | TDuplicates | TOld.
Definition rep_add (k : Tally) (r : Report) : Report :=
  let i t := match k, t with
             | TIdentities, TIdentities | TNames, TNames | TMembers, TMembers | TRooms, TRooms | TBans, TBans
             | TMessages, TMessages | TDuplicates, TDuplicates | TOld, TOld => 1
             | _, _ => 0
             end in
  mkReport (rep_Identities r + i TIdentities) (rep_Names r + i TNames) (rep_Members r + i TMembers) (rep_Rooms r + i TRooms)
    (rep_Bans r + i TBans) (rep_Messages r + i TMessages) (rep_Duplicates r + i TDuplicates) (rep_Old r + i TOld) (rep_Notes r).
Definition rep_note (text : string) (r : Report) : Report :=
  mkReport (rep_Identities r) (rep_Names r) (rep_Members r) (rep_Rooms r) (rep_Bans r) (rep_Messages r) (rep_Duplicates r)
    (rep_Old r) (rep_Notes r ++ [text]).
Definition Report_String (r : Report) : string :=
  cat (["identities "; itoa (rep_Identities r); ", names "; itoa (rep_Names r); ", group members "; itoa (rep_Members r);
        ", rooms "; itoa (rep_Rooms r); ", bans "; itoa (rep_Bans r); newline;
        "messages "; itoa (rep_Messages r); " imported, "; itoa (rep_Duplicates r); " already there, "; itoa (rep_Old r);
        " past retention"; newline] ++
       map (fun n => cat ["  - "; n; newline]) (rep_Notes r)).

(** ** Reading *)
Definition hashOrNil (s : string) : option ident :=
  match hex_decode (trim_space (trim_prefix s "0x")) with
  | Some b => if len b =? IdentityLen then Some b else None
  | None => None
  end.

Section importer.
Context {U : Unicode} {N : Norm} {IC : ImportCodecs}.

(** A reading: the data so far and the report. *)
Record RState := mkRState { rs_data : sourceData; rs_rep : Report }.
Notation Reading := (ST RState).
Definition r_note (text : string) : Reading unit := modify (fun s => mkRState (rs_data s) (rep_note text (rs_rep s))).
Definition r_data (f : sourceData -> sourceData) : Reading unit := modify (fun s => mkRState (f (rs_data s)) (rs_rep s)).
Definition add_peer p (d : sourceData) := mkSourceData (sd_peers d ++ [p]) (sd_members d) (sd_rooms d) (sd_bans d) (sd_messages d).
Definition add_member m (d : sourceData) := mkSourceData (sd_peers d) (sd_members d ++ [m]) (sd_rooms d) (sd_bans d) (sd_messages d).
Definition add_room r (d : sourceData) := mkSourceData (sd_peers d) (sd_members d) (sd_rooms d ++ [r]) (sd_bans d) (sd_messages d).
Definition add_bans l (d : sourceData) := mkSourceData (sd_peers d) (sd_members d) (sd_rooms d) (sd_bans d ++ l) (sd_messages d).
Definition add_message m (d : sourceData) := mkSourceData (sd_peers d) (sd_members d) (sd_rooms d) (sd_bans d) (sd_messages d ++ [m]).

Fixpoint hashes (l : list string) (where_ : string) : Reading (list ident) :=
  match l with
  | [] => ret []
  | s :: l =>
    match hashOrNil s with
    | Some b => rest <- hashes l where_ ;; ret (b :: rest)
    | None => r_note (cat [where_; ": "; quote s; " is not an identity hash; skipped"]) ;;; hashes l where_
    end
  end.
(** [toml.DecodeFile]: a file that is not there leaves what it was to fill empty. *)
Definition decode_file {A} (what : string) (empty : A) (decode : string -> string + A) (f : file) : Reading A :=
  match f with
  | NoFile => ret empty
  | Unreadable e => fail (ErrInternal (cat [what; ": "; e]))
  | File s => match decode s with inl e => fail (ErrInternal (cat [what; ": "; e])) | inr a => ret a end
  end.

(** *** rrc-hub *)
Definition read_peer (kv : string * PeerEntry) : Reading unit :=
  let '(k, p) := kv in
  match hex_decode k with
  | Some id =>
    if len id =? IdentityLen then
      let pk := match hex_decode (pr_PublicKey p) with Some b => if len b =? 64 then Some b else None | None => None end in
      r_data (add_peer (mkPeer id pk (pr_Nick p) (float_ms (pr_LastSeenTS p))))
    else r_note (cat ["rrc-hub peer "; quote k; " skipped: not an identity hash"])
  | None => r_note (cat ["rrc-hub peer "; quote k; " skipped: not an identity hash"])
  end.
(** The letters of the modes, in the order of the code; Go goes through them in
    any order, and [SetMode] sorts them. *)
Definition room_modes (r : RoomEntry) : string :=
  cat [if rm_Moderated r then "m" else ""; if rm_InviteOnly r then "i" else ""; if rm_TopicOpsOnly r then "t" else "";
       if rm_NoOutsideMsgs r then "n" else ""; if rm_Private r then "p" else ""].
Definition read_room (kv : string * RoomEntry) : Reading unit :=
  let '(name, r) := kv in
  ops <- hashes (rm_Operators r) name ;;
  voiced <- hashes (rm_Voiced r) name ;;
  bans <- hashes (rm_Bans r) name ;;
  r_data (add_room (mkRoomData (to_lower (trim_space name)) (hashOrNil (rm_Founder r)) (rm_Topic r) (room_modes r) ops voiced bans
                      (float_ms (rm_LastUsedTS r)))).

(** A record of a history file: what is not a message, has no text or no author
    is left out. *)
Definition read_record (room : string) (rec : gmap Z HVal) : option imported :=
  let uint k := match rec !! k with Some (HUint n) => n | _ => 0 end in
  let text k := match rec !! k with Some (HText s) => s | _ => "" end in
  let blob k := match rec !! k with Some (HBytes s) => s | _ => "" end in
  let typ := uint 5 in
  if (negb (typ =? 20) && negb (typ =? 22)) || bool_decide (text 6 = "") || negb (len (blob 3) =? IdentityLen) then None else
  let hubAt := uint 1 in
  let saidAt := if uint 7 =? 0 then hubAt else uint 7 in
  Some (mkImported room (typ =? 22) (blob 3) (text 4) (text 6) ("rrc-hub:" +:+ hex_encode (blob 2)) (to_int64 saidAt) (to_int64 hubAt)).
(** A 4-byte big-endian length. *)
Definition be32 (s : string) : Z := fold_left (fun acc b => 256 * acc + b) (bytes (str_take 4 s)) 0.
(** Records of a length and a CBOR map, as many as there are; [fuel] is the
    length of the file. *)
Fixpoint read_records (fuel : nat) (base room raw : string) : Reading unit :=
  match fuel with
  | O => ret tt
  | S fuel =>
    if bool_decide (raw = "") then ret tt
    else if len raw <? 4 then r_note (cat ["history "; base; ": torn length at the end, ignored"]) else
    let n := be32 raw in
    let rest := str_drop 4 raw in
    if (1048576 <? n) || (len rest <? n) then r_note (cat ["history "; base; ": torn or oversized record at the end, ignored"]) else
    (match cbor_record (str_take (Z.to_nat n) rest) with
     | None => r_note (cat ["history "; base; ": unreadable record skipped"])
     | Some rec => match read_record room rec with Some m => r_data (add_message m) | None => ret tt end
     end) ;;;
    read_records fuel base room (str_drop (Z.to_nat n) rest)
  end.
Definition readHistory (path base room : string) (f : file) : Reading unit :=
  match f with
  | NoFile => fail (ErrInternal (cat ["history "; path; ": file does not exist"]))
  | Unreadable e => fail (ErrInternal (cat ["history "; path; ": "; e]))
  | File raw => read_records (S (String.length raw)) base room raw
  end.
Definition log_path (path : string) (x : string * string * file) : string := cat [path; "/history/"; x.1.1; "/"; x.1.2].
Definition read_log (path : string) (x : string * string * file) : Reading unit :=
  match hex_decode x.1.1 with
  | None => r_note (cat ["history "; log_path path x; " skipped: room directory is not hex"])
  | Some room => readHistory (log_path path x) x.1.2 room x.2
  end.
Definition readRRCHub (dir : RRCHubDir) : Reading unit :=
  peers <- decode_file "rrc-hub peers.toml" [] toml_peers (rd_peers dir) ;;
  foreach peers read_peer ;;;
  rooms <- decode_file "rrc-hub rooms.toml" [] toml_rooms (rd_rooms dir) ;;
  foreach rooms read_room ;;;
  klines <- decode_file "rrc-hub klines.txt" [] toml_klines (rd_klines dir) ;;
  bans <- hashes klines "klines" ;;
  r_data (add_bans bans) ;;;
  (* sort.Strings *)
  foreach (order_by (fun a b => String.leb (log_path (rd_path dir) a) (log_path (rd_path dir) b)) (rd_logs dir)) (read_log (rd_path dir)).

(** *** Bridge 0.1 *)
Definition read_bridge_member (kv : string * BridgeMember) : Reading unit :=
  let '(addr, m) := kv in
  match hashOrNil (bm_Identity m) with
  | None => r_note (cat ["bridge member "; addr; " skipped: its identity was never learned"])
  | Some id => r_data (add_member (mkMember_ id (bm_Nick m) (bm_JoinedAt m) (bm_LastSeen m) (bm_Paused m)))
  end.
Definition read_bridge_line (line : string) : Reading unit :=
  match json_line line with
  | None => r_note "bridge messages.jsonl: unreadable line skipped"
  | Some m =>
    (* messages from RRC are in rrc-hub's own history *)
    if bool_decide (bl_Source m = "rrc") || bool_decide (bl_Body m = "") then ret tt else
    match hashOrNil (bl_AuthorIdentity m) with
    | None => r_note (cat ["bridge message from "; quote (bl_AuthorName m); " skipped: no identity"])
    | Some id =>
      r_data (add_message (mkImported "" (has_prefix (bl_Body m) "* ") id (bl_AuthorName m) (trim_prefix (bl_Body m) "* ")
                             (cat ["bridge:"; bl_Source m; ":"; bl_OriginID m]) (bl_SaidAt m) (bl_ReceivedAt m)))
    end
  end.
(** [bufio.Scanner] with a buffer of a megabyte: the lines without their ends; a
    line that fills the buffer is an error. *)
Definition scan_max : Z := 1048576.
Definition scan_lines (s : string) : list string :=
  let ls := split (chr 10) s in
  let ls := match last ls with Some "" => removelast ls | _ => ls end in
  map (fun l => trim_suffix l (String (chr 13) "")) ls.
Definition read_lines (s : string) : Reading unit :=
  if existsb (fun l => scan_max <=? len l) (split (chr 10) s) then fail (ErrInternal "bufio.Scanner: token too long") else
  foreach (scan_lines s) read_bridge_line.
Definition readBridge (dir : BridgeDir) : Reading unit :=
  state <- decode_file "bridge state.json" (mkBridgeState [] [])
             (fun s => if bool_decide (s = "") then inr (mkBridgeState [] []) else json_state s) (bd_state dir) ;;
  foreach (bs_Members state) read_bridge_member ;;;
  r_data (add_bans (omap hashOrNil (bs_Bans state))) ;;;
  match bd_messages dir with
  | NoFile => ret tt
  | Unreadable e => fail (ErrInternal ("bridge messages.jsonl: " +:+ e))
  | File s => read_lines s
  end.

(** ** Writing *)
Record IState := mkIState { is_db : DB; is_rep : Report }.
Notation Imp := (ST IState).
Definition itx {A} (m : Tx A) : Imp A := fun s => let '(r, d) := m (is_db s) in (r, mkIState d (is_rep s)).
Definition tally (k : Tally) : Imp unit := modify (fun s => mkIState (is_db s) (rep_add k (is_rep s))).
Definition note (text : string) : Imp unit := modify (fun s => mkIState (is_db s) (rep_note text (is_rep s))).

(** A stable sort. *)
Fixpoint insert_sorted {A} (le : A -> A -> bool) (x : A) (l : list A) : list A :=
  match l with
  | [] => [x]
  | y :: l' => if le x y then x :: l else y :: insert_sorted le x l'
  end.
Definition SliceStable {A} (le : A -> A -> bool) (l : list A) : list A := foldr (insert_sorted le) [] l.

Context (nowMS cutoff : Z) (skip : gset ident).

Definition import_touch (id : ident) (pk : option string) (seen : Z) : Imp unit :=
  let seen := if seen <=? 0 then nowMS else seen in
  i <- itx (tx_Identity id) ;;
  (if bool_decide (i = None) then tally TIdentities else ret tt) ;;;
  itx (tx_TouchIdentity id pk seen).

(** *** Names *)
Record claim := mkClaim { cl_id : ident; cl_name : string; cl_lastSeen : Z; cl_source : string }.
Definition claim_of (id : ident) (nick : string) (seen : Z) (source : string) : list claim :=
  if bool_decide (nick = "") then [] else [mkClaim id nick seen source].
Definition skipped (id : ident) : bool := bool_decide (id ∈ skip).
Definition kept_peers (d : sourceData) : list peer := List.filter (fun p => negb (skipped (peer_id p))) (sd_peers d).
Definition claims_of (d : sourceData) : list claim :=
  concat (map (fun p => claim_of (peer_id p) (peer_nick p) (peer_lastSeen p) "rrc-hub") (kept_peers d)) ++
  concat (map (fun m => claim_of (mb_id m) (mb_nick m) (mb_lastSeen m) "bridge") (sd_members d)).
Definition short (id : ident) : string := str_take 8 (hex_encode id).
(** The name a claim is for, tidied or the nearest that can be held. *)
Definition import_clean (c : claim) : Imp (option (string * string)) :=
  match CleanName (strings_Join "_" (fields (cl_name c))) with
  | inr ns => ret (Some ns)
  | inl err =>
    let suggested := SuggestName (cl_name c) in
    if bool_decide (suggested = "") then
      note (cat [cl_source c; " name "; quote (cl_name c); " for "; short (cl_id c); " not imported: "; ne_Reason err]) ;;; ret None
    else
      note (cat [cl_source c; " name "; quote (cl_name c); " for "; short (cl_id c); " imported as "; quote suggested]) ;;;
      ret (Some (match CleanName suggested with inr ns => ns | inl _ => ("", "") end))
  end.
(** One claim; whether the identity holds the name now. *)
Definition import_claim (c : claim) : Imp bool :=
  ns <- import_clean c ;;
  match ns with
  | None => ret false
  | Some (clean, sk) =>
    holder <- itx (tx_NameBySkeleton sk) ;;
    match (h ← holder; if bool_decide (Name_Identity h = cl_id c) then None else Some h) with
    | Some h =>
      note (cat [cl_source c; " name "; quote clean; " for "; short (cl_id c); " not imported: "; short (Name_Identity h);
                 " already holds "; quote (Name_Name h)]) ;;; ret false
    | None => itx (tx_ClaimName (cl_id c) clean sk nowMS) ;;; tally TNames ;;; ret true
    end
  end.
Fixpoint import_claims (named : gset ident) (cs : list claim) : Imp unit :=
  match cs with
  | [] => ret tt
  | c :: cs =>
    if bool_decide (cl_id c ∈ named) then import_claims named cs else
    ok <- import_claim c ;;
    import_claims (if ok : bool then {[cl_id c]} ∪ named else named) cs
  end.
Definition import_people (d : sourceData) : Imp unit :=
  foreach (kept_peers d) (fun p => import_touch (peer_id p) (peer_publicKey p) (peer_lastSeen p)) ;;;
  foreach (sd_members d) (fun m => import_touch (mb_id m) None (mb_lastSeen m)) ;;;
  import_claims ∅ (SliceStable (fun a b => cl_lastSeen b <=? cl_lastSeen a) (claims_of d)).

(** *** Members, rooms and bans *)
Definition import_member (m : member) : Imp unit :=
  added <- itx (tx_AddMember (mb_id m) (Z.max (mb_joinedAt m) 1)) ;;
  (if added : bool then tally TMembers else ret tt) ;;;
  if mb_paused m then itx (tx_SetLXMFMode (mb_id m) LXMFOff) else ret tt.
Definition set_modes (modes : string) (r : Room) : Room := fold_left (fun r b => SetMode r (chr b) true) (bytes modes) r.
Definition import_roles (room : string) (ids : list ident) (role : Role) : Imp unit :=
  foreach ids (fun id => import_touch id None 0 ;;; itx (tx_SetRole room id role true None nowMS)).
Definition import_room (r : roomData) : Imp unit :=
  existing <- itx (tx_Room (ro_name r)) ;;
  let created := match existing with Some e => Room_CreatedAt e | None => nowMS end in
  let room := set_modes (ro_modes r)
    (mkRoom (ro_name r) (ro_topic r) (ro_founder r) true "" "" created (Z.max (ro_lastUsed r) 1)) in
  (match ro_founder r with Some f => import_touch f None 0 | None => ret tt end) ;;;
  itx (tx_PutRoom room) ;;;
  import_roles (ro_name r) (ro_ops r) RoleOp ;;;
  import_roles (ro_name r) (ro_voiced r) RoleVoice ;;;
  import_roles (ro_name r) (ro_bans r) RoleBan ;;;
  tally TRooms.
Definition import_ban (id : ident) : Imp unit :=
  itx (tx_AddBan (mkBan id "" "imported" None nowMS 0)) ;;; tally TBans.

(** *** Messages *)
Definition import_room_of (m : imported) : string := if bool_decide (im_room m = "") then "scotmesh" else im_room m.
Definition import_row (room : string) (m : imported) : Message :=
  mkMessage 0 room (if im_action m then KindAction else KindMsg) (im_author m)
    (if bool_decide (im_name m = "") then GuestName (im_author m) else im_name m) (im_body m) ViaImport (Some (im_origin m))
    (im_saidAt m) (im_hubAt m) None.
(** The newest message of each room. *)
Definition import_message (last : gmap string Z) (m : imported) : Imp (gmap string Z) :=
  if skipped (im_author m) then ret last else
  if im_hubAt m <? cutoff then tally TOld ;;; ret last else
  match NormalizeRoom (import_room_of m) 64 with
  | inl err => note (cat ["messages in room "; quote (import_room_of m); " not imported: "; err]) ;;; ret last
  | inr room =>
    import_touch (im_author m) None (im_hubAt m) ;;;
    let! (id, dup) := itx (tx_AddMessage (import_row room m)) in
    tally (if dup : bool then TDuplicates else TMessages) ;;;
    ret (<[room := Z.max (default 0 (last !! room)) id]> last)
  end.
Fixpoint import_messages (last : gmap string Z) (ms : list imported) : Imp (gmap string Z) :=
  match ms with
  | [] => ret last
  | m :: ms => last <- import_message last m ;; import_messages last ms
  end.
Definition by_hub_time (ms : list imported) : list imported := SliceStable (fun a b => im_hubAt a <=? im_hubAt b) ms.
(** People who used rrc-hub have seen its history: their catch-up starts after it. *)
Definition import_cursors (last : gmap string Z) (ps : list peer) : Imp unit :=
  foreach ps (fun p => foreach (map_to_list last) (fun rl => itx (tx_SetCursor (peer_id p) rl.1 ViaRRC rl.2 nowMS))).

Definition import_write (d : sourceData) : Imp unit :=
  import_people d ;;;
  foreach (sd_members d) import_member ;;;
  foreach (sd_rooms d) import_room ;;;
  foreach (sd_bans d) import_ban ;;;
  last <- import_messages ∅ (by_hub_time (sd_messages d)) ;;
  import_cursors last (kept_peers d).
End importer.

(** ** [Import] *)
Section import.
Context {U : Unicode} {N : Norm} {IC : ImportCodecs}.
Definition read_sources (src : Sources) : ST RState unit :=
  (match src_RRCHub src with Some dir => readRRCHub dir | None => ret tt end) ;;;
  match src_Bridge src with Some dir => readBridge dir | None => ret tt end.
(** The transaction.  [errDryRun] rolls a dry run back. *)
Definition errDryRun : Error := ErrInternal "dry run".
Definition import_tx (src : Sources) (now retention : Z) (dryRun : bool) (d : sourceData) : ST IState unit :=
  import_write (unix_milli now) (unix_milli (now - retention)) (list_to_set (src_Skip src)) d ;;;
  if dryRun then fail errDryRun else
  rep <- gets is_rep ;;
  itx (tx_Audit (unix_milli now) None "import" "" (trim_space (Report_String rep))).
(** The report and the error, and the database. *)
Definition Import (src : Sources) (now retention : Z) (dryRun : bool) (d : DB) : option Report * option Error * DB :=
  match read_sources src (mkRState no_data no_report) with
  | (Fail e, _) => (None, Some e, d)
  | (Ok _, rs) =>
    match import_tx src now retention dryRun (rs_data rs) (mkIState d (rs_rep rs)) with
    | (Ok _, s) => (Some (is_rep s), None, is_db s)
    | (Fail e, s) => (Some (is_rep s), if bool_decide (e = errDryRun) then None else Some e, d)
    end
  end.
End import.

(** * What is read

    internal/importer: what the two sources give is well formed, writing it
    never fails, and what the store holds after. *)
(** ** What is read *)
Definition ids_ok (l : list ident) : Prop := Forall (fun id => checkID id = true) l.
Record room_ok (r : roomData) : Prop := {
  rk_founder : forall f, ro_founder r = Some f -> checkID f = true;
  rk_ops : ids_ok (ro_ops r);
  rk_voiced : ids_ok (ro_voiced r);
  rk_bans : ids_ok (ro_bans r);
  rk_modes : mode_letters_ok (ro_modes r) = true
}.
Record data_ok (d : sourceData) : Prop := {
  dk_peers : Forall (fun p => checkID (peer_id p) = true /\ public_key_ok (peer_publicKey p) = true) (sd_peers d);
  dk_members : Forall (fun m => checkID (mb_id m) = true) (sd_members d);
  dk_rooms : Forall room_ok (sd_rooms d);
  dk_bans : ids_ok (sd_bans d);
  dk_messages : Forall (fun m => checkID (im_author m) = true) (sd_messages d)
}.
(** A reading has counted nothing yet. *)
Definition uncounted (r : Report) : Prop := r = mkReport 0 0 0 0 0 0 0 0 (rep_Notes r).
Definition reading (s : RState) : Prop := data_ok (rs_data s) /\ uncounted (rs_rep s).
#[local] Instance reading_weak : Weakening reading := {| weak _ := True; weakens _ _ := Logic.I |}.

Lemma hashOrNil_ok s id : hashOrNil s = Some id -> checkID id = true.
Proof. unfold hashOrNil, checkID. case_match; [|done]. case_match; [|done]. by intros [= <-]. Qed.

Section reading.
Context {U : Unicode} {N : Norm} {IC : ImportCodecs}.

Lemma read_note text : pres reading (r_note text).
Proof. apply pres_modify. intros [d r] [Hd Hr]. split; [done|]. unfold uncounted in *. cbn in *. by rewrite Hr. Qed.
Lemma read_data f : (forall d, data_ok d -> data_ok (f d)) -> pres reading (r_data f).
Proof. intros Hf. apply pres_modify. intros [d r] [Hd Hr]. split; [by apply Hf|done]. Qed.
Hint Resolve read_note : pres.
Lemma read_hashes l where_ : pres reading (hashes l where_) /\
  forall s ids s', hashes l where_ s = (Ok ids, s') -> ids_ok ids.
Proof.
  induction l as [|x l [IH IHok]]; cbn [hashes].
  { split; [apply pres_ret|]. intros s ids s' [= <- _]. constructor. }
  destruct (hashOrNil x) as [b|] eqn:Hb; (split; [|intros s ids s' Hr; apply bind_ok in Hr as (a & s1 & Ha & Hr)]).
  - apply pres_bind; [done|]. intros; apply pres_ret.
  - injection Hr as <- _. constructor; [by eapply hashOrNil_ok|by eapply IHok].
  - apply pres_bind; [apply read_note|done].
  - eauto.
Qed.
Lemma read_file {A} what (empty : A) dec f : pres reading (decode_file what empty dec f).
Proof. unfold decode_file. repeat case_match; auto using pres_ret, pres_fail. Qed.

Lemma read_peer_ok kv : pres reading (read_peer kv).
Proof.
  destruct kv as [k p]. unfold read_peer. destruct (hex_decode k) as [id|]; [|apply read_note].
  destruct (len id =? IdentityLen) eqn:Hid; [|apply read_note]. apply read_data. intros d []. constructor; try done.
  apply Forall_app. split; [done|]. constructor; [|constructor]. split; [done|]. cbn. repeat case_match; done.
Qed.
Lemma room_modes_ok r : mode_letters_ok (room_modes r) = true.
Proof.
  destruct r as [? ? m i t n p ? ? ? ?]. unfold room_modes. cbn. by destruct m, i, t, n, p.
Qed.
Lemma read_room_ok kv : pres reading (read_room kv).
Proof.
  destruct kv as [name r]. unfold read_room.
  do 3 (eapply pres_bind_post; [apply read_hashes|intros ???; apply (proj2 (read_hashes _ _))|]; intros ? ?).
  apply read_data. intros d []. constructor; try done. apply Forall_app. split; [done|]. constructor; [|constructor].
  constructor; cbn; [by intros f ?%hashOrNil_ok|done..|apply room_modes_ok].
Qed.
Lemma read_record_ok room rec m : read_record room rec = Some m -> checkID (im_author m) = true.
Proof.
  unfold read_record. case_match eqn:Hc; [done|]. intros [= <-]. cbn. unfold checkID.
  apply orb_false_iff in Hc as [_ Hc]. by apply negb_false_iff in Hc.
Qed.
Lemma read_message_ok m : checkID (im_author m) = true -> pres reading (r_data (add_message m)).
Proof. intros Hm. apply read_data. intros d []. constructor; try done. apply Forall_app. auto. Qed.
Lemma read_records_ok fuel base room : forall raw, pres reading (read_records fuel base room raw).
Proof.
  induction fuel as [|fuel IH]; intros raw; cbn [read_records]; [apply pres_ret|].
  case_bool_decide; [apply pres_ret|]. destruct (len raw <? 4); [apply read_note|]. cbv zeta. case_match; [apply read_note|].
  apply pres_bind; [|done]. destruct (cbor_record _) as [rec|]; [|apply read_note].
  destruct (read_record room rec) eqn:Hm; [|apply pres_ret]. by eapply read_message_ok, read_record_ok.
Qed.
Lemma read_log_ok path x : pres reading (read_log path x).
Proof.
  unfold read_log, readHistory. repeat case_match; auto using read_note, pres_fail, read_records_ok.
Qed.
Lemma read_bans_ok l : ids_ok l -> pres reading (r_data (add_bans l)).
Proof. intros Hl. apply read_data. intros d []. constructor; try done. by apply Forall_app. Qed.
Lemma readRRCHub_ok dir : pres reading (readRRCHub dir).
Proof.
  unfold readRRCHub. apply pres_bind; [apply read_file|]. intros ps.
  apply pres_bind; [apply pres_foreach, read_peer_ok|]. intros _. apply pres_bind; [apply read_file|]. intros rs.
  apply pres_bind; [apply pres_foreach, read_room_ok|]. intros _. apply pres_bind; [apply read_file|]. intros ks.
  eapply pres_bind_post; [apply read_hashes|intros s a s'; apply (proj2 (read_hashes _ _))|]. intros bans Hbans.
  apply pres_bind; [by apply read_bans_ok|]. intros _. apply pres_foreach, read_log_ok.
Qed.
Lemma read_bridge_member_ok kv : pres reading (read_bridge_member kv).
Proof.
  destruct kv as [addr m]. unfold read_bridge_member. destruct (hashOrNil _) as [id|] eqn:Hid; [|apply read_note].
  apply read_data. intros d []. constructor; try done. apply Forall_app. split; [done|]. constructor; [|constructor].
  by eapply hashOrNil_ok.
Qed.
Lemma read_bridge_line_ok line : pres reading (read_bridge_line line).
Proof.
  unfold read_bridge_line. destruct (json_line line) as [m|]; [|apply read_note]. case_match; [apply pres_ret|].
  destruct (hashOrNil _) as [id|] eqn:Hid; [|apply read_note]. apply read_message_ok. cbn. by eapply hashOrNil_ok.
Qed.
Lemma readBridge_ok dir : pres reading (readBridge dir).
Proof.
  unfold readBridge. apply pres_bind; [apply read_file|]. intros st.
  apply pres_bind; [apply pres_foreach, read_bridge_member_ok|]. intros _. apply pres_bind.
  { apply read_bans_ok, Forall_forall. intros id (s & _ & Hs)%list_elem_of_omap. by eapply hashOrNil_ok. }
  intros _. destruct (bd_messages dir); [apply pres_ret|apply pres_fail|]. unfold read_lines.
  case_match; [apply pres_fail|]. apply pres_foreach, read_bridge_line_ok.
Qed.
Lemma read_sources_ok src u s :
  read_sources src (mkRState no_data no_report) = (Ok u, s) -> reading s.
Proof.
  intros E. eapply pres_ok; [|  |exact E].
  - unfold read_sources. apply pres_bind; [destruct (src_RRCHub src); [apply readRRCHub_ok|apply pres_ret]|]. intros _.
    destruct (src_Bridge src); [apply readBridge_ok|apply pres_ret].
  - split; [|done]. constructor; constructor.
Qed.
End reading.
