(* ===== verification/ImportWrite.v ===== *)
(** internal/importer: everything but the messages is written without fail, and
    leaves the messages alone. *)
From S2P Require Import Prelude Text TextCut Db StorePeople StoreRooms StoreMessages StoreGroup StoreInv StoreWf StoreHistory Names NamesSpec HubCore Frame Importer.
Local Open Scope Z_scope.

(** ** Computations that succeed *)
Definition does {S A} (m : ST S A) (s : S) (Q : A -> S -> Prop) : Prop :=
  match m s with (Ok a, s') => Q a s' | (Fail _, _) => False end.
Section does.
Context {S : Type}.
Lemma does_mono {A} (m : ST S A) s (Q R : A -> S -> Prop) : does m s Q -> (forall a s', Q a s' -> R a s') -> does m s R.
Proof. unfold does. destruct (m s) as [[a|e] s']; auto. Qed.
Lemma does_bind {A B} (m : ST S A) (k : A -> ST S B) s Q : does m s (fun a s' => does (k a) s' Q) -> does (bind m k) s Q.
Proof. unfold does, bind. by destruct (m s) as [[a|e] s']. Qed.
Lemma does_ret {A} (a : A) s (Q : A -> S -> Prop) : Q a s -> does (ret a) s Q.
Proof. done. Qed.
Lemma does_ok {A} (m : ST S A) s a s' (Q : A -> S -> Prop) : does m s Q -> m s = (Ok a, s') -> Q a s'.
Proof. unfold does. by intros H E; rewrite E in H. Qed.

(** A loop each turn of which moves along a preorder, does not end for want of
    what held at its start, and leaves behind what no later turn takes back. *)
Lemma does_foreach {A} (R : S -> S -> Prop) `{!PreOrder R} (l : list A) (f : A -> ST S unit) (Pre : S -> Prop) (P : A -> S -> Prop) s :
  Pre s -> (forall s1 s2, R s1 s2 -> Pre s1 -> Pre s2) -> (forall a s1 s2, R s1 s2 -> P a s1 -> P a s2) ->
  (forall a s1, a ∈ l -> Pre s1 -> does (f a) s1 (fun _ s2 => R s1 s2 /\ P a s2)) ->
  does (foreach l f) s (fun _ s' => R s s' /\ forall a, a ∈ l -> P a s').
Proof.
  intros Hs Hpre HP Hf. revert s Hs. induction l as [|a l IH]; intros s Hs; cbn [foreach].
  { apply does_ret. split; [reflexivity|]. intros a Ha. by apply not_elem_of_nil in Ha. }
  apply does_bind. eapply does_mono; [apply Hf; [constructor|done]|]. cbn. intros _ s1 [H1 Ha].
  eapply does_mono; [apply IH; [intros; apply Hf; [by constructor|done]|by eapply Hpre]|]. cbn. intros _ s2 [H2 Hl].
  split; [by etrans|]. intros b [->|Hb]%elem_of_cons; [by eapply HP|auto].
Qed.
End does.

(** ** Steps of an import *)
(** The CHECK on identities.public_key holds of every row. *)
Definition keys_ok (d : DB) : Prop := forall id i, identities d !! id = Some i -> public_key_ok (Identity_PublicKey i) = true.
Record ready (d : DB) : Prop := { rd_wf : db_wf d; rd_keys : keys_ok d }.
(** What a step that is not about messages does. *)
Record step (s s' : IState) : Prop := {
  sp_ready : ready (is_db s) -> ready (is_db s');
  sp_later : later (is_db s) (is_db s');
  sp_messages : messages (is_db s') = messages (is_db s);
  sp_rooms : forall n, is_Some (rooms (is_db s) !! n) -> is_Some (rooms (is_db s') !! n);
  sp_counts : rep_Messages (is_rep s') = rep_Messages (is_rep s) /\ rep_Duplicates (is_rep s') = rep_Duplicates (is_rep s)
}.
#[export] Instance step_preorder : PreOrder step.
Proof.
  split.
  - intros s. constructor; [done|reflexivity|done|done|done].
  - intros s1 s2 s3 [? ? ? ? [? ?]] [? ? ? ? [? ?]]. constructor; [auto|by etrans|congruence|auto|split; congruence].
Qed.
Lemma step_rep d r r' : rep_Messages r' = rep_Messages r -> rep_Duplicates r' = rep_Duplicates r -> step (mkIState d r) (mkIState d r').
Proof. intros. constructor; [done|reflexivity|done|done|done]. Qed.
Definition known (id : ident) (s : IState) : Prop := is_Some (identities (is_db s) !! id).
Lemma known_step id s s' : step s s' -> known id s -> known id s'.
Proof. intros [_ [_ Hi _] _ _ _] [i Hk]. destruct (Hi _ _ Hk) as (j & Hj & _). by exists j. Qed.

Lemma room_step n s s' : step s s' -> is_Some (rooms (is_db s) !! n) -> is_Some (rooms (is_db s') !! n).
Proof. intros Hs. apply (sp_rooms _ _ Hs). Qed.

(** What an operation of the store that is not about messages leaves. *)
Record kept (d d' : DB) : Prop := {
  kp_messages : messages d' = messages d;
  kp_rooms : forall n, is_Some (rooms d !! n) -> is_Some (rooms d' !! n);
  kp_keys : keys_ok d -> keys_ok d'
}.
(** An operation of the store as a step. *)
Lemma does_itx {A} (op : Tx A) s (Q : A -> IState -> Prop) :
  ready (is_db s) -> pres db_wf op -> forward op ->
  (exists a d', op (is_db s) = (Ok a, d') /\ kept (is_db s) d' /\
     (step s (mkIState d' (is_rep s)) -> Q a (mkIState d' (is_rep s)))) ->
  does (itx op) s Q.
Proof.
  intros [Hwf Hk] Hp Hf (a & d' & E & [Hm Hrm Hk'] & HQ). unfold does, itx. rewrite E. apply HQ.
  constructor; cbn; [|specialize (Hf (is_db s)); by rewrite E in Hf|done|done|done].
  intros _. split; [|by apply Hk']. by eapply pres_ok.
Qed.
Lemma does_itx_reads {A} (op : Tx A) s (Q : A -> IState -> Prop) a : op (is_db s) = (Ok a, is_db s) -> Q a s -> does (itx op) s Q.
Proof. intros E HQ. unfold does, itx. rewrite E. by destruct s. Qed.

Lemma touch_run id pk t d : checkID id = true -> public_key_ok pk = true -> keys_ok d -> exists d',
  tx_TouchIdentity id pk t d = (Ok tt, d') /\ kept d d' /\ is_Some (identities d' !! id).
Proof.
  intros Hid Hpk Hk. unfold tx_TouchIdentity, check_id, assert, bind, get, newPerson, put_identity, modify, put, ret, fail.
  rewrite Hid. destruct (identities d !! id) as [i|] eqn:Hi; cbn.
  - assert (public_key_ok (match pk with Some k => Some k | None => Identity_PublicKey i end) = true) as ->
      by (destruct pk; [done|by eapply Hk]).
    eexists. split; [reflexivity|]. cbn. rewrite lookup_insert_eq. split; [|done]. constructor; [done..|]. intros _.
    intros x j. cbn. intros [[<- <-]|[_ Hj]]%lookup_insert_Some; [cbn; destruct pk; [done|by eapply Hk]|by eapply Hk].
  - rewrite Hpk. cbn. eexists. split; [reflexivity|]. cbn. rewrite lookup_insert_eq. split; [|done]. constructor; [done..|]. intros _.
    intros x j. cbn. intros [[<- <-]|[_ Hj]]%lookup_insert_Some; [done|by eapply Hk].
Qed.
Lemma keys_same d d' : identities d' = identities d -> keys_ok d -> keys_ok d'.
Proof. unfold keys_ok. by intros ->. Qed.

(** A step that is ready for the next, with what it gives. *)
Definition on (s s' : IState) : Prop := step s s' /\ ready (is_db s').
Definition goes {A} (m : ST IState A) (s : IState) (P : A -> IState -> Prop) : Prop := does m s (fun a s' => on s s' /\ P a s').
Notation moves m s := (goes m s (fun _ _ => True)).
Lemma on_step s s' : step s s' -> ready (is_db s) -> on s s'.
Proof. intros Hs Hr. split; [done|by apply Hs]. Qed.
Lemma on_trans s1 s2 s3 : on s1 s2 -> on s2 s3 -> on s1 s3.
Proof. intros [H1 _] [H2 ?]. split; [by etrans|done]. Qed.
Lemma goes_bind {A B} (m : ST IState A) (k : A -> ST IState B) s (Q : A -> IState -> Prop) (R : B -> IState -> Prop) :
  goes m s Q -> (forall a s', on s s' -> Q a s' -> goes (k a) s' R) -> goes (bind m k) s R.
Proof.
  intros Hm Hk. apply does_bind. eapply does_mono; [exact Hm|]. cbn. intros a s' [Hs HQ].
  eapply does_mono; [by apply Hk|]. cbn. intros b s'' [Hs' HR]. split; [by eapply on_trans|done].
Qed.
Lemma goes_foreach {A} (l : list A) (f : A -> ST IState unit) (Pre : IState -> Prop) (P : A -> IState -> Prop) s :
  ready (is_db s) -> Pre s ->
  (forall s1 s2, step s1 s2 -> Pre s1 -> Pre s2) -> (forall a s1 s2, step s1 s2 -> P a s1 -> P a s2) ->
  (forall a s1, a ∈ l -> ready (is_db s1) -> Pre s1 -> goes (f a) s1 (fun _ => P a)) ->
  goes (foreach l f) s (fun _ s' => forall a, a ∈ l -> P a s').
Proof.
  intros Hr Hs Hpre HP Hf. eapply does_mono.
  - apply (does_foreach step l f (fun s => ready (is_db s) /\ Pre s) P); [done| |done|].
    + intros s1 s2 H12 [H1 H2]. split; [by apply H12|by eapply Hpre].
    + intros a s1 Ha [H1 H2]. eapply does_mono; [by apply Hf|]. cbn. by intros _ s2 [[? ?] ?].
  - cbn. intros _ s' [Hst Hl]. split; [by apply on_step|done].
Qed.
Lemma moves_foreach {A} (l : list A) (f : A -> ST IState unit) s :
  ready (is_db s) -> (forall a s1, a ∈ l -> ready (is_db s1) -> moves (f a) s1) -> moves (foreach l f) s.
Proof.
  intros Hr Hf. eapply does_mono; [apply (goes_foreach l f (fun _ => True) (fun _ _ => True)); auto|]. cbn. by intros _ s' [? _].
Qed.
Lemma goes_moves {A} (m : ST IState A) s P : goes m s P -> moves m s.
Proof. intros H. eapply does_mono; [exact H|]. cbn. by intros a s' [? _]. Qed.
Lemma moves_tally k s : ready (is_db s) -> k <> TMessages -> k <> TDuplicates -> moves (tally k) s.
Proof. intros Hr H1 H2. split; [|done]. apply on_step; [|done]. destruct s. by apply step_rep; destruct k; cbn; try lia. Qed.
Lemma moves_note text s : ready (is_db s) -> moves (note text) s.
Proof. intros Hr. split; [|done]. apply on_step; [|done]. destruct s. by apply step_rep. Qed.
Lemma goes_ret {A} (a : A) s (P : A -> IState -> Prop) : ready (is_db s) -> P a s -> goes (ret a) s P.
Proof. intros Hr HP. by split; [split; [reflexivity|]|]. Qed.
(** An operation of the store, by what running it gives. *)
Lemma goes_itx {A} (op : Tx A) s (P : A -> IState -> Prop) a d' :
  ready (is_db s) -> pres db_wf op -> forward op -> op (is_db s) = (Ok a, d') ->
  kept (is_db s) d' -> P a (mkIState d' (is_rep s)) -> goes (itx op) s P.
Proof.
  intros Hr Hp Hf E Hm HP. apply does_itx; [done..|]. exists a, d'. split_and!; [done..|].
  intros Hs. split; [by apply on_step|done].
Qed.
Lemma goes_reads {A} (op : Tx A) s (P : A -> IState -> Prop) a :
  ready (is_db s) -> op (is_db s) = (Ok a, is_db s) -> P a s -> goes (itx op) s P.
Proof. intros Hr E HP. apply (does_itx_reads _ _ _ a); [done|]. by split; [split; [reflexivity|]|]. Qed.

(** ** The operations of the importer *)
Section importer.
Context {U : Unicode} {N : Norm} {F : NormalForms}.
Context (nowMS : Z).

Lemma touch_goes id pk seen s : checkID id = true -> public_key_ok pk = true -> ready (is_db s) ->
  goes (import_touch nowMS id pk seen) s (fun _ => known id).
Proof.
  intros Hid Hpk Hr. unfold import_touch. cbv zeta.
  eapply goes_bind; [by eapply (goes_reads _ _ (fun _ _ => True))|]. intros i s1 [_ Hr1] _.
  eapply goes_bind; [case_bool_decide; [by apply moves_tally|by apply goes_ret]|]. intros _ s2 [_ Hr2] _.
  destruct (touch_run id pk (if seen <=? 0 then nowMS else seen) (is_db s2)) as (d' & E & Hm & Hi); [done..|apply Hr2|].
  by eapply goes_itx; [..|exact E| |]; auto using pres_TouchIdentity, forward_TouchIdentity.
Qed.

(** *** Names *)
Lemma clean_goes c s : ready (is_db s) ->
  goes (import_clean c) s (fun ns _ => forall n sk, ns = Some (n, sk) -> n <> "" /\ sk <> "").
Proof.
  intros Hr. unfold import_clean. destruct (CleanName (strings_Join "_" _)) as [err|[n sk]] eqn:Hc.
  - case_bool_decide as Hs; (eapply goes_bind; [by apply moves_note|]); intros _ s1 [_ Hr1] _; apply goes_ret; try done.
    destruct (SuggestName_clean (cl_name c) Hs) as [sk Hsk]. rewrite Hsk. intros n' sk' [= <- <-]. by eapply CleanName_skeleton.
  - apply goes_ret; [done|]. intros n' sk' [= <- <-]. by eapply CleanName_skeleton.
Qed.
Lemma NameBySkeleton_run sk d : db_wf d -> exists r, tx_NameBySkeleton sk d = (Ok r, d).
Proof.
  intros Hwf. unfold tx_NameBySkeleton, bind, get, scanName. destruct (skeleton_row d sk) as [[p n]|] eqn:E; [|by eexists].
  apply skeleton_row_spec in E as [Hn _]. destruct (wf_name _ Hwf _ _ Hn) as [Hp _].
  destruct (wf_populated _ Hwf _ Hp) as (id & i & Hi & Hip). unfold primaryOf, bind, get.
  destruct (identities_of d p) as [|j l] eqn:E; [|by eexists].
  exfalso. by apply (proj1 (identities_of_nil d p) E id i).
Qed.
(** The holder of a name is an identity of its person. *)
Lemma NameBySkeleton_holder sk d h d' : tx_NameBySkeleton sk d = (Ok (Some h), d') ->
  exists k i, identities d !! k = Some i /\ Identity_ID i = Name_Identity h /\ Identity_Person i = Name_Person h.
Proof.
  unfold tx_NameBySkeleton, bind, get, scanName. destruct (skeleton_row d sk) as [[p n]|]; [|done].
  unfold primaryOf, bind, get. destruct (identities_of d p) as [|i l] eqn:E; cbn; [done|]. intros [= <- <-].
  assert (i ∈ identities_of d p) as ((k & Hk) & Hp)%elem_of_identities_of by (rewrite E; constructor). by exists k, i.
Qed.
Lemma claim_run id n sk t d : ready d -> checkID id = true -> n <> "" -> sk <> "" -> is_Some (identities d !! id) ->
  (forall h, tx_NameBySkeleton sk d = (Ok (Some h), d) -> Name_Identity h = id) ->
  exists d', tx_ClaimName id n sk t d = (Ok tt, d') /\ kept d d'.
Proof.
  intros [Hwf Hk] Hid Hn Hsk [i Hi] Hh. unfold tx_ClaimName, check_id, assert. rewrite Hid.
  rewrite bool_decide_eq_false_2 by naive_solver. unfold bind at 1 2. cbn [negb ret].
  unfold bind at 1. unfold personID, bind at 1, get. rewrite Hi. cbn [ret].
  destruct (NameBySkeleton_run sk d Hwf) as [[h|] E]; rewrite (bind_run _ _ _ _ _ E).
  - assert (Name_Person h = Identity_Person i) as ->.
    { destruct (NameBySkeleton_holder sk d h d E) as (k & j & Hj & Hjid & <-).
      destruct (wf_identity _ Hwf _ _ Hj) as [Hjk _]. rewrite (Hh h E) in Hjid. congruence. }
    rewrite Z.eqb_refl. by eexists.
  - by eexists.
Qed.
Lemma import_claim_goes c s : checkID (cl_id c) = true -> ready (is_db s) -> known (cl_id c) s -> moves (import_claim nowMS c) s.
Proof.
  intros Hid Hr Hk. unfold import_claim. eapply goes_bind; [by apply clean_goes|]. intros [[n sk]|] s1 [Hs1 Hr1] Hns; [|by apply goes_ret].
  destruct (Hns n sk eq_refl) as [Hn Hsk]. apply (known_step _ _ _ Hs1) in Hk.
  destruct (NameBySkeleton_run sk (is_db s1) (rd_wf _ Hr1)) as [r E].
  apply (goes_bind _ _ _ (fun a s' => a = r /\ s' = s1)); [by eapply goes_reads|]. intros ? ? _ [-> ->].
  destruct (h ← r; _) as [h|] eqn:Hh.
  - eapply goes_bind; [by apply moves_note|]. intros _ s2 [_ Hr2] _. by apply goes_ret.
  - destruct (claim_run (cl_id c) n sk nowMS (is_db s1)) as (d' & E' & Hm); [done..| |].
    { intros h Hh'. rewrite E in Hh'. injection Hh' as ->. cbn in Hh. by case_bool_decide. }
    eapply goes_bind; [eapply (goes_itx _ _ (fun _ _ => True)); [..|exact E'| |]; auto using pres_ClaimName, forward_ClaimName|].
    intros _ s2 [_ Hr2] _. eapply goes_bind; [by apply moves_tally|]. intros _ s3 [_ Hr3] _. by apply goes_ret.
Qed.
Lemma import_claims_goes cs : forall named s, ready (is_db s) ->
  (forall c, c ∈ cs -> checkID (cl_id c) = true /\ known (cl_id c) s) -> moves (import_claims nowMS named cs) s.
Proof.
  induction cs as [|c cs IH]; intros named s Hr Hc; cbn [import_claims]; [by apply goes_ret|].
  case_bool_decide; [apply IH; [done|]; intros; apply Hc; by constructor|].
  destruct (Hc c) as [Hid Hk]; [constructor|]. eapply goes_bind; [by apply import_claim_goes|]. intros ok s1 [Hs1 Hr1] _.
  apply IH; [done|]. intros c' Hc'. destruct (Hc c') as [? ?]; [by constructor|]. split; [done|]. by eapply known_step.
Qed.
Lemma insert_sorted_perm {A} (le : A -> A -> bool) x l : insert_sorted le x l ≡ₚ x :: l.
Proof. induction l as [|y l IH]; cbn; [done|]. destruct (le x y); [done|]. rewrite IH. apply Permutation_swap. Qed.
Lemma SliceStable_perm {A} (le : A -> A -> bool) l : SliceStable le l ≡ₚ l.
Proof. induction l as [|x l IH]; cbn; [done|]. by rewrite insert_sorted_perm, IH. Qed.

(** *** People *)
Lemma claim_of_in id nick seen source c : c ∈ claim_of id nick seen source -> cl_id c = id.
Proof. unfold claim_of. case_bool_decide; [by intros ?%not_elem_of_nil|]. by intros ->%list_elem_of_singleton. Qed.
Lemma claims_of_in skip d c : c ∈ claims_of skip d ->
  (exists p, p ∈ kept_peers skip d /\ cl_id c = peer_id p) \/ (exists m, m ∈ sd_members d /\ cl_id c = mb_id m).
Proof.
  unfold claims_of. rewrite elem_of_app, !list_elem_of_In, !in_concat. setoid_rewrite in_map_iff.
  intros [(x & (p & <- & Hp) & Hc)|(x & (m & <- & Hm) & Hc)]; apply list_elem_of_In, claim_of_in in Hc; [left|right];
    eexists; (split; [by apply list_elem_of_In|done]).
Qed.
Definition people_known (skip : gset ident) (d : sourceData) (s : IState) : Prop :=
  (forall p, p ∈ kept_peers skip d -> known (peer_id p) s) /\ (forall m, m ∈ sd_members d -> known (mb_id m) s).
Lemma people_known_step skip d s s' : step s s' -> people_known skip d s -> people_known skip d s'.
Proof. intros Hs [Hp Hm]. split; intros; eapply known_step; eauto. Qed.
Lemma kept_peers_in skip d p : p ∈ kept_peers skip d -> p ∈ sd_peers d /\ peer_id p ∉ skip.
Proof. intros [Hp Hs]%elem_of_bfilter. split; [done|]. unfold skipped in Hs. by apply negb_true_iff, bool_decide_eq_false in Hs. Qed.
Lemma people_goes skip d s : data_ok d -> ready (is_db s) -> goes (import_people nowMS skip d) s (fun _ => people_known skip d).
Proof.
  intros Hd Hr. unfold import_people.
  eapply goes_bind.
  { apply (goes_foreach _ _ (fun _ => True) (fun p => known (peer_id p))); [done..|intros; by eapply known_step|].
    intros p s1 [Hp _]%kept_peers_in Hr1 _. destruct Hd. rewrite Forall_forall in dk_peers. destruct (dk_peers p Hp). by apply touch_goes. }
  intros _ s1 [_ Hr1] Hps. eapply goes_bind.
  { apply (goes_foreach _ _ (fun _ => True) (fun m => known (mb_id m))); [done..|intros; by eapply known_step|].
    intros m s2 Hm Hr2 _. destruct Hd. rewrite Forall_forall in dk_members. by apply touch_goes; auto. }
  intros _ s2 [Hs2 Hr2] Hms.
  assert (people_known skip d s2) as Hk by (split; [intros p Hp; eapply known_step; eauto|done]).
  eapply does_mono; [apply import_claims_goes; [done|]|].
  - intros c. rewrite SliceStable_perm. intros [(p & Hp & ->)|(m & Hm & ->)]%claims_of_in; (split; [|by apply Hk]); destruct Hd.
    + apply kept_peers_in in Hp as [Hp _]. rewrite Forall_forall in dk_peers. by destruct (dk_peers p Hp).
    + rewrite Forall_forall in dk_members. auto.
  - cbn. intros _ s3 [Ho _]. split; [done|]. by eapply people_known_step; [apply Ho|].
Qed.

(** *** Members, rooms and bans *)
Lemma kept_same d d' : messages d' = messages d -> rooms d' = rooms d -> identities d' = identities d -> kept d d'.
Proof. intros Hm Hr Hi. constructor; [done|by rewrite Hr|]. unfold keys_ok. by rewrite Hi. Qed.
Lemma mode_run id m d : is_Some (identities d !! id) -> exists d', tx_SetLXMFMode id m d = (Ok tt, d') /\ kept d d'.
Proof.
  intros [i Hi]. unfold tx_SetLXMFMode, bind, get. rewrite Hi. eexists. split; [reflexivity|]. constructor; [done..|].
  intros Hk x j. cbn. intros [[<- <-]|[_ Hj]]%lookup_insert_Some; [exact (Hk _ _ Hi)|by eapply Hk].
Qed.
Lemma member_run id t d : checkID id = true -> is_Some (identities d !! id) ->
  exists b d', tx_AddMember id t d = (Ok b, d') /\ kept d d'.
Proof.
  intros Hid Hi. unfold tx_AddMember, check_id, assert, bind, get. rewrite Hid. cbn. destruct (members d !! id).
  - eexists _, _. split; [reflexivity|]. by apply kept_same.
  - rewrite bool_decide_eq_true_2 by done. cbn. eexists _, _. split; [reflexivity|]. by apply kept_same.
Qed.
Lemma import_member_goes m s : checkID (mb_id m) = true -> known (mb_id m) s -> ready (is_db s) -> moves (import_member m) s.
Proof.
  intros Hid Hk Hr. unfold import_member.
  destruct (member_run (mb_id m) (Z.max (mb_joinedAt m) 1) (is_db s) Hid Hk) as (b & d' & E & Hkp).
  eapply goes_bind; [eapply (goes_itx _ _ (fun _ _ => True)); [..|exact E| |]; auto using pres_AddMember|].
  { unfold tx_AddMember. forward_tac. }
  intros a s1 [Hs1 Hr1] _. eapply goes_bind; [destruct a; [by apply moves_tally|by apply goes_ret]|]. intros _ s2 [Hs2 Hr2] _.
  destruct (mb_paused m); [|by apply goes_ret].
  destruct (mode_run (mb_id m) LXMFOff (is_db s2)) as (d2 & E2 & Hk2); [do 2 (eapply known_step; [done|]); done|].
  eapply goes_itx; [..|exact E2| |]; auto using pres_SetLXMFMode, forward_SetLXMFMode.
Qed.

Lemma bytes_of_bytes l : Forall (fun b => 0 <= b < 256) l -> bytes (of_bytes l) = l.
Proof. induction 1 as [|b l Hb _ IH]; cbn; [done|]. by rewrite byte_chr, IH. Qed.
Lemma SetMode_ok r m on_ : mode_letters_ok (Room_Modes r) = true -> mode_letters_ok (String m "") = true ->
  mode_letters_ok (Room_Modes (SetMode r m on_)) = true.
Proof.
  unfold mode_letters_ok. cbn [SetMode Room_Modes]. unfold SetMode_modes. rewrite !forallb_forall. intros Hr Hm b Hb.
  apply list_elem_of_In in Hb.
  assert (forall x, x ∈ bytes (Room_Modes r) \/ x = byte m -> 0 <= x < 256) as Hrng.
  { assert (forall s x, x ∈ bytes s -> 0 <= x < 256) as Hs.
    { induction s as [|c s IH]; cbn; [by intros x ?%not_elem_of_nil|]. intros x [->|Hx]%elem_of_cons; [apply byte_range|auto]. }
    intros x [Hx| ->]; [by eapply Hs|apply byte_range]. }
  rewrite bytes_of_bytes in Hb.
  - apply elem_of_order_by, elem_of_elements in Hb. assert (b ∈ bytes (Room_Modes r) \/ b = byte m) as [Hin| ->].
    + destruct on_; set_solver.
    + by apply Hr, list_elem_of_In.
    + apply Hm. by left.
  - apply Forall_forall. intros x Hx. apply elem_of_order_by, elem_of_elements in Hx. apply Hrng. destruct on_; set_solver.
Qed.
Lemma set_modes_ok modes r : mode_letters_ok modes = true -> mode_letters_ok (Room_Modes r) = true ->
  mode_letters_ok (Room_Modes (set_modes modes r)) = true /\ Room_Founder (set_modes modes r) = Room_Founder r /\
  Room_Name (set_modes modes r) = Room_Name r.
Proof.
  unfold set_modes. revert r. induction modes as [|m modes IH]; intros r Hm Hr; [done|]. cbn [bytes fold_left].
  unfold mode_letters_ok in Hm. cbn [bytes forallb] in Hm. apply andb_true_iff in Hm as [H1 H2].
  destruct (IH (SetMode r (chr (byte m)) true)) as (? & ? & ?); [done| |done].
  apply SetMode_ok; [done|]. rewrite chr_byte. unfold mode_letters_ok. cbn [bytes forallb]. by rewrite H1.
Qed.
Lemma put_room_run r d : (forall f, Room_Founder r = Some f -> checkID f = true) -> mode_letters_ok (Room_Modes r) = true ->
  exists d', tx_PutRoom r d = (Ok tt, d') /\ kept d d' /\ is_Some (rooms d' !! Room_Name r).
Proof.
  intros Hf Hm. unfold tx_PutRoom. rewrite Hm.
  assert (match Room_Founder r with Some f => check_id f | None => ret tt end = (ret tt : Tx unit)) as ->
    by (destruct (Room_Founder r) as [f|]; [unfold check_id; by rewrite Hf|done]).
  eexists. split; [reflexivity|]. cbn. rewrite lookup_insert_eq. split; [|done]. constructor; [done| |done].
  intros n Hn. cbn. rewrite lookup_insert_is_Some'. auto.
Qed.
Lemma role_run room id ro by_ t d : checkID id = true -> is_Some (rooms d !! room) ->
  exists d', tx_SetRole room id ro true by_ t d = (Ok tt, d') /\ kept d d'.
Proof.
  intros Hid Hr. unfold tx_SetRole, check_id, assert, bind, get. rewrite Hid. cbn. destruct (room_roles d !! _).
  - eexists. split; [reflexivity|]. by apply kept_same.
  - rewrite bool_decide_eq_true_2 by done. eexists. split; [reflexivity|]. by apply kept_same.
Qed.
Lemma import_roles_goes room ids role s : ids_ok ids -> is_Some (rooms (is_db s) !! room) -> ready (is_db s) ->
  moves (import_roles nowMS room ids role) s.
Proof.
  intros Hids Hroom Hr. unfold import_roles. eapply does_mono.
  - apply (goes_foreach ids _ (fun s => is_Some (rooms (is_db s) !! room)) (fun _ _ => True)); [done..|by intros; eapply room_step|done|].
    intros id s1 Hid Hr1 Hroom1. unfold ids_ok in Hids. rewrite Forall_forall in Hids.
    eapply goes_bind; [eapply goes_moves, touch_goes; auto|]. intros _ s2 [Hs2 Hr2] _.
    destruct (role_run room id role None nowMS (is_db s2)) as (d' & E & Hk); [auto|by eapply room_step|].
    eapply goes_itx; [..|exact E| |]; auto using pres_SetRole. unfold tx_SetRole. forward_tac.
  - cbn. by intros _ s' [? _].
Qed.
Lemma import_room_goes r s : room_ok r -> ready (is_db s) -> moves (import_room nowMS r) s.
Proof.
  intros [Hf Hops Hv Hb Hm] Hr. unfold import_room.
  eapply goes_bind; [by eapply (goes_reads _ _ (fun _ _ => True))|]. intros existing s1 [_ Hr1] _. cbv zeta.
  set (r0 := mkRoom _ _ _ _ _ _ _ _). destruct (set_modes_ok (ro_modes r) r0 Hm eq_refl) as (Hm0 & Hf0 & Hn0).
  apply (goes_bind _ _ _ (fun _ _ => True)).
  { destruct (ro_founder r) as [f|]; [|by apply goes_ret]. eapply goes_moves, touch_goes; auto. }
  intros _ s2 [_ Hr2] _. destruct (put_room_run (set_modes (ro_modes r) r0) (is_db s2)) as (d' & E & Hk & Hroom); [|done|].
  { rewrite Hf0. exact Hf. }
  rewrite Hn0 in Hroom. change (Room_Name r0) with (ro_name r) in Hroom.
  eapply (goes_bind _ _ _ (fun _ s => is_Some (rooms (is_db s) !! ro_name r))).
  { eapply goes_itx; [..|exact E| |]; auto using pres_PutRoom. unfold tx_PutRoom. forward_tac. }
  intros _ s3 [_ Hr3] Hroom3.
  eapply goes_bind; [by apply import_roles_goes|]. intros _ s4 [Hs4 Hr4] _. apply (room_step _ _ _ Hs4) in Hroom3.
  eapply goes_bind; [by apply import_roles_goes|]. intros _ s5 [Hs5 Hr5] _. apply (room_step _ _ _ Hs5) in Hroom3.
  eapply goes_bind; [by apply import_roles_goes|]. intros _ s6 [Hs6 Hr6] _. by apply moves_tally.
Qed.
Lemma import_ban_goes id s : checkID id = true -> ready (is_db s) -> moves (import_ban nowMS id) s.
Proof.
  intros Hid Hr. unfold import_ban. eapply goes_bind; [|intros _ s1 [_ Hr1] _; by apply moves_tally].
  eapply (goes_itx _ _ (fun _ _ => True)); [done|apply pres_AddBan| | | |done].
  - unfold tx_AddBan. forward_tac.
  - unfold tx_AddBan, check_id, assert, bind. cbn. rewrite Hid. reflexivity.
  - by apply kept_same.
Qed.

(** *** Cursors *)
Definition read_to (id : ident) (room : string) (k : Z) (s : IState) : Prop :=
  exists c, cursors (is_db s) !! (id, room, ViaRRC) = Some c /\ k <= Cursor_MessageID c.
Lemma read_to_step id room k s s' : step s s' -> read_to id room k s -> read_to id room k s'.
Proof. intros [_ [Hc _ _] _ _ _] (c & Hk & Hle). destruct (Hc _ _ Hk) as (c' & Hc' & ?). exists c'. split; [done|lia]. Qed.
Lemma cursor_goes id room k s : checkID id = true -> ready (is_db s) ->
  goes (itx (tx_SetCursor id room ViaRRC k nowMS)) s (fun _ => read_to id room k).
Proof.
  intros Hid Hr. eapply goes_itx; [done|apply pres_SetCursor|apply forward_SetCursor| | |].
  - unfold tx_SetCursor, check_id, assert, bind, modify. rewrite Hid. reflexivity.
  - by apply kept_same.
  - eexists. cbn. rewrite lookup_insert_eq. split; [reflexivity|]. cbn. destruct (cursors (is_db s) !! _); lia.
Qed.
Lemma import_cursors_goes last ps s : Forall (fun p => checkID (peer_id p) = true) ps -> ready (is_db s) ->
  goes (import_cursors nowMS last ps) s (fun _ s' => forall p, p ∈ ps -> forall room k, last !! room = Some k -> read_to (peer_id p) room k s').
Proof.
  intros Hps Hr. unfold import_cursors.
  eapply (goes_foreach _ _ (fun _ => True) (fun p s' => forall room k, last !! room = Some k -> read_to (peer_id p) room k s')); [done..| |].
  { intros p s1 s2 Hs H room k Hk. eapply read_to_step; eauto. }
  intros p s1 Hp Hr1 _. rewrite Forall_forall in Hps. eapply does_mono.
  - eapply (goes_foreach _ _ (fun _ => True) (fun rl => read_to (peer_id p) rl.1 rl.2)); [done..|intros; by eapply read_to_step|].
    intros rl s2 _ Hr2 _. apply cursor_goes; auto.
  - cbn. intros _ s2 [Ho Hall]. split; [done|]. intros room k Hk%elem_of_map_to_list. by apply (Hall (room, k)).
Qed.
End importer.
