(* ===== verification/ImportMessages.v ===== *)
(** internal/importer: the messages an import brings in, and [Import] as a whole. *)
From S2P Require Import Prelude Text TextCut Db StorePeople StoreRooms StoreMessages StoreGroup StoreInv StoreWf StoreHistory Names NamesSpec HubCore Frame Importer ImportWrite.
Local Open Scope Z_scope.

(** ** Rows, in order, into a table *)
Definition origin_in (ms : gmap Z Message) (via : Via) (o : string) : option Z :=
  head (map_to_list (filter (fun km => same_origin via o km.2) ms)).*1.
(** Where a row of that origin is already. *)
Definition place (ms : gmap Z Message) (row : Message) : option Z := o ← Message_OriginID row; origin_in ms (Message_Via row) o.
Definition add_row (ms : gmap Z Message) (row : Message) : gmap Z Message :=
  match place ms row with Some _ => ms | None => <[next_id ms := with_message_id (next_id ms) row]> ms end.
Definition row_id (ms : gmap Z Message) (row : Message) : Z := default (next_id ms) (place ms row).
Definition add_rows (ms : gmap Z Message) (rows : list Message) : gmap Z Message := fold_left add_row rows ms.

(** A message of the origin of [row]. *)
Definition stored (ms : gmap Z Message) (k : Z) (row : Message) : Prop :=
  exists m, ms !! k = Some m /\ Message_Via m = Message_Via row /\ Message_OriginID m = Message_OriginID row.
Lemma add_message_run row d : checkID (Message_Author row) = true ->
  tx_AddMessage row d = (Ok (row_id (messages d) row, bool_decide (is_Some (place (messages d) row))),
                         set_messages (add_row (messages d) row) d).
Proof.
  intros Hid. unfold tx_AddMessage, check_id, assert, bind, get. rewrite Hid. cbn [ret].
  change (Message_OriginID row ≫= (fun o => origin_id d (Message_Via row) o)) with (place (messages d) row).
  unfold row_id, add_row. destruct (place (messages d) row); cbn; [by destruct d|done].
Qed.
Lemma place_stored ms row k : place ms row = Some k -> stored ms k row.
Proof.
  unfold place. destruct (Message_OriginID row) as [o|] eqn:Ho; [|done]. cbn.
  intros (m & Hm & Hv & Hom)%(origin_id_spec (set_messages ms db_empty)). exists m. by rewrite Ho.
Qed.
Lemma place_none ms row k m : place ms row = None -> Message_OriginID row <> None -> ms !! k = Some m ->
  ~ (Message_Via m = Message_Via row /\ Message_OriginID m = Message_OriginID row).
Proof.
  unfold place. destruct (Message_OriginID row) as [o|]; [|done]. cbn. intros Hn _ Hm.
  by apply (proj1 (origin_id_none (set_messages ms db_empty) _ _) Hn k m).
Qed.
Lemma add_row_sub ms row : ms ⊆ add_row ms row.
Proof. unfold add_row. destruct (place ms row); [done|]. apply insert_subseteq, next_id_fresh. Qed.
Lemma add_rows_sub ms rows : ms ⊆ add_rows ms rows.
Proof. revert ms. induction rows as [|row rows IH]; intros ms; cbn; [done|]. etrans; [apply add_row_sub|apply IH]. Qed.
Lemma stored_sub ms ms' k row : ms ⊆ ms' -> stored ms k row -> stored ms' k row.
Proof. intros Hs (m & Hm & H). exists m. split; [by eapply lookup_weaken|done]. Qed.
Lemma stored_once d k l row : db_wf d -> Message_OriginID row <> None -> stored (messages d) k row -> stored (messages d) l row -> k = l.
Proof.
  intros Hwf Ho (m & Hm & Hv & Hom) (n & Hn & Hv' & Hon). destruct (Message_OriginID row) as [o|]; [|done].
  eapply (wf_origin _ Hwf); eauto. congruence.
Qed.
Lemma row_stored ms row : stored (add_row ms row) (row_id ms row) row.
Proof.
  unfold row_id. destruct (place ms row) as [k|] eqn:Hp; cbn.
  - eapply stored_sub; [apply add_row_sub|]. by apply place_stored.
  - unfold add_row. rewrite Hp. eexists. by rewrite lookup_insert_eq.
Qed.
Lemma rows_stored rows : forall ms row, row ∈ rows -> exists k, stored (add_rows ms rows) k row.
Proof.
  induction rows as [|r rows IH]; intros ms row; [by intros ?%not_elem_of_nil|]. intros [->|Hr]%elem_of_cons; [|by apply IH].
  eexists. eapply stored_sub; [apply (add_rows_sub (add_row ms r))|]. apply row_stored.
Qed.
(** The rows that are there already add nothing. *)
Lemma add_rows_there rows ms : (forall row, row ∈ rows -> exists k, stored ms k row) -> Forall (fun r => Message_OriginID r <> None) rows ->
  add_rows ms rows = ms.
Proof.
  induction rows as [|r rows IH]; intros Hs Ho; cbn; [done|]. inversion_clear Ho as [|? ? Hr Ho'].
  assert (add_row ms r = ms) as ->; [|apply IH; [intros; apply Hs; by constructor|done]].
  unfold add_row. destruct (place ms r) eqn:Hp; [done|]. destruct (Hs r) as (k & m & Hm & H); [constructor|].
  by destruct (place_none ms r k m Hp Hr Hm).
Qed.
Lemma next_id_le ms ms' : ms ⊆ ms' -> next_id ms <= next_id (A:=Message) ms'.
Proof.
  intros Hs. unfold next_id. apply Z.add_le_mono_r. enough (forall k m, ms' !! k = Some m -> k < next_id ms') as H.
  2:{ intros. by eapply next_id_gt. }
  refine (map_fold_weak_ind (fun r m => m ⊆ ms' -> r <= map_fold (fun k _ acc => Z.max k acc) 0 ms') _ _ _ _ ms Hs).
  - intros _. pose proof (next_id_pos ms'). unfold next_id in *. lia.
  - intros k a m r Hk IH Hm. assert (ms' !! k = Some a) as Hka by (eapply lookup_weaken; [apply lookup_insert_eq|done]).
    apply H in Hka. unfold next_id in Hka. apply Z.max_lub; [lia|]. apply IH. etrans; [by apply insert_subseteq|done].
Qed.
(** What is new is a row under the next numbers, in the rows' order. *)
Lemma add_rows_new rows : forall ms k m, add_rows ms rows !! k = Some m -> ms !! k = None ->
  next_id ms <= k /\ exists row, row ∈ rows /\ m = with_message_id k row.
Proof.
  induction rows as [|r rows IH]; intros ms k m; cbn; [congruence|]. intros Hk Hn.
  destruct (add_row ms r !! k) as [m'|] eqn:Hr.
  - assert (m' = m) as -> by (eapply lookup_weaken in Hr; [|apply (add_rows_sub _ rows)]; unfold add_rows in *; congruence).
    unfold add_row in Hr. destruct (place ms r); [congruence|]. apply lookup_insert_Some in Hr as [[<- <-]|[_ ?]]; [|congruence].
    split; [lia|]. exists r. split; [constructor|done].
  - destruct (IH _ _ _ Hk Hr) as (Hle & row & Hin & ->). split; [|exists row; split; [by constructor|done]].
    etrans; [apply next_id_le, (add_row_sub ms r)|done].
Qed.
Lemma add_rows_ordered rows : forall ms, Sorted.StronglySorted (fun a b => Message_HubAt a <= Message_HubAt b) rows ->
  forall k l m n, ms !! k = None -> ms !! l = None -> add_rows ms rows !! k = Some m -> add_rows ms rows !! l = Some n ->
  k < l -> Message_HubAt m <= Message_HubAt n.
Proof.
  induction rows as [|r rows IH]; intros ms Hs k l m n; cbn; [congruence|]. apply Sorted.StronglySorted_inv in Hs as [Hs' Hr]. intros Hk Hl Hm Hn Hlt.
  destruct (add_row ms r !! l) as [n'|] eqn:Hnl.
  - (* [l] is the number of the row at hand, and [k] is larger *)
    exfalso. unfold add_row in Hnl. destruct (place ms r) eqn:Hp; [congruence|].
    apply lookup_insert_Some in Hnl as [[<- <-]|[_ ?]]; [|congruence].
    destruct (add_row ms r !! k) as [m'|] eqn:Hmk.
    + unfold add_row in Hmk. rewrite Hp in Hmk. apply lookup_insert_Some in Hmk as [[<- _]|[_ ?]]; [lia|congruence].
    + pose proof (add_rows_new rows _ _ _ Hm Hmk) as [Hle _]. pose proof (next_id_le _ _ (add_row_sub ms r)). lia.
  - destruct (add_row ms r !! k) as [m'|] eqn:Hmk; [|by eapply (IH (add_row ms r) Hs' k l)].
    destruct (add_rows_new rows _ _ _ Hn Hnl) as (_ & row & Hin & ->).
    assert (m' = m) as -> by (eapply lookup_weaken in Hmk; [|apply (add_rows_sub _ rows)]; unfold add_rows in *; congruence).
    unfold add_row in Hmk. destruct (place ms r); [congruence|]. apply lookup_insert_Some in Hmk as [[<- <-]|[_ ?]]; [|congruence].
    rewrite Forall_forall in Hr. apply (Hr _ Hin).
Qed.

Lemma add_row_size ms row : Z.of_nat (size (add_row ms row)) =
  Z.of_nat (size ms) + if bool_decide (is_Some (place ms row)) then 0 else 1.
Proof.
  unfold add_row. destruct (place ms row) as [k|]; [rewrite bool_decide_eq_true_2 by eauto; lia|].
  rewrite bool_decide_eq_false_2 by (by intros [? ?]). rewrite map_size_insert_None by apply next_id_fresh. lia.
Qed.

(** ** A stable sort *)
Lemma insert_sorted_in {A} (le : A -> A -> bool) x l y : y ∈ insert_sorted le x l <-> y = x \/ y ∈ l.
Proof. rewrite insert_sorted_perm. apply elem_of_cons. Qed.
Lemma SliceStable_sorted {A} (f : A -> Z) l :
  Sorted.StronglySorted (fun a b => f a <= f b) (SliceStable (fun a b => f a <=? f b) l).
Proof.
  unfold SliceStable. induction l as [|x l IH]; cbn [foldr]; [constructor|]. revert IH. generalize (foldr (insert_sorted (fun a b => f a <=? f b)) [] l) as r.
  induction r as [|y r IHl]; intros Hs; cbn; [repeat constructor|]. apply Sorted.StronglySorted_inv in Hs as [Hl Hy].
  destruct (Z.leb_spec (f x) (f y)).
  - constructor; [by constructor|]. constructor; [done|]. eapply Forall_impl; [exact Hy|]. cbn. lia.
  - constructor; [by apply IHl|]. apply Forall_forall. intros z [->|Hz]%insert_sorted_in; [lia|]. rewrite Forall_forall in Hy. by apply Hy.
Qed.

(** ** The messages of an import *)
Section messages.
Context {U : Unicode} {N : Norm} {F : NormalForms}.
Context (nowMS cutoff : Z) (skip : gset ident).

(** What is stored of a message: nothing if it is by one that is skipped, is past
    retention or has no room. *)
Definition wanted (m : imported) : option Message :=
  if skipped skip (im_author m) || (im_hubAt m <? cutoff) then None else
  match NormalizeRoom (import_room_of m) 64 with inl _ => None | inr room => Some (import_row room m) end.
Definition import_rows (d : sourceData) : list Message := omap wanted (by_hub_time (sd_messages d)).

(** What the rows do to the state, and to the newest message of each room. *)
Record takes (rows : list Message) (last last' : gmap string Z) (s s' : IState) : Prop := {
  tk_ready : ready (is_db s');
  tk_later : later (is_db s) (is_db s');
  tk_messages : messages (is_db s') = add_rows (messages (is_db s)) rows;
  tk_new : rep_Messages (is_rep s') - rep_Messages (is_rep s) =
    Z.of_nat (size (messages (is_db s'))) - Z.of_nat (size (messages (is_db s)));
  tk_all : rep_Messages (is_rep s') + rep_Duplicates (is_rep s') =
    rep_Messages (is_rep s) + rep_Duplicates (is_rep s) + Z.of_nat (length rows);
  tk_last : forall room l, last !! room = Some l -> exists l', last' !! room = Some l' /\ l <= l';
  tk_rows : forall row, row ∈ rows -> exists k l, stored (messages (is_db s')) k row /\ last' !! Message_Room row = Some l /\ k <= l
}.
Lemma takes_on last s s' : on s s' -> takes [] last last s s'.
Proof.
  intros [[Hr Hl Hm Hrm [Hc1 Hc2]] Hrd]. constructor; [exact Hrd|exact Hl|exact Hm| | | |].
  - rewrite Hm. lia.
  - cbn. lia.
  - eauto with lia.
  - by intros row ?%not_elem_of_nil.
Qed.
Lemma takes_app r1 r2 l1 l2 l3 s1 s2 s3 : takes r1 l1 l2 s1 s2 -> takes r2 l2 l3 s2 s3 -> takes (r1 ++ r2) l1 l3 s1 s3.
Proof.
  intros [Hr1 Hl1 Hm1 Hn1 Ha1 Hla1 Hs1] [Hr2 Hl2 Hm2 Hn2 Ha2 Hla2 Hs2]. constructor; [done|by etrans| | | | |].
  - rewrite Hm2, Hm1. unfold add_rows. by rewrite fold_left_app.
  - lia.
  - rewrite length_app. lia.
  - intros room l (l' & H1 & ?)%Hla1. apply Hla2 in H1 as (l'' & ? & ?). eauto with lia.
  - intros row [Hin|Hin]%elem_of_app; [|by apply Hs2].
    destruct (Hs1 row Hin) as (k & l & Hk & (l' & Hl' & Hle)%Hla2 & ?). exists k, l'. split_and!; [|done|lia].
    rewrite Hm2. by eapply stored_sub; [apply add_rows_sub|].
Qed.
Lemma keys_set_messages ms d : keys_ok d -> keys_ok (set_messages ms d).
Proof. done. Qed.
Lemma row_takes row last s : checkID (Message_Author row) = true -> ready (is_db s) ->
  does (let! (id, dup) := itx (tx_AddMessage row) in (tally (if dup : bool then TDuplicates else TMessages) ;;;
        ret (<[Message_Room row := Z.max (default 0 (last !! Message_Room row)) id]> last))) s
    (fun last' s' => takes [row] last last' s s').
Proof.
  intros Hid [Hwf Hk]. set (ms := messages (is_db s)).
  assert (itx (tx_AddMessage row) s = (Ok (row_id ms row, bool_decide (is_Some (place ms row))),
            mkIState (set_messages (add_row ms row) (is_db s)) (is_rep s))) as E.
  { unfold itx. by rewrite add_message_run. }
  unfold does. rewrite (bind_run _ _ _ _ _ E). cbv beta iota. unfold bind, tally, modify, ret. constructor; cbn [is_db is_rep].
  - split; [|done]. eapply (pres_ok db_wf); [apply (pres_AddMessage row)|exact Hwf|by apply add_message_run].
  - by apply later_same.
  - done.
  - cbn [messages set_messages]. fold ms. rewrite add_row_size. case_bool_decide; cbn; lia.
  - case_bool_decide; cbn; lia.
  - intros room l Hl. destruct (decide (room = Message_Room row)) as [->|].
    + rewrite lookup_insert_eq, Hl. eexists. split; [done|]. cbn. lia.
    + rewrite lookup_insert_ne by done. eauto with lia.
  - intros r ->%list_elem_of_singleton. eexists _, _. split; [apply row_stored|]. rewrite lookup_insert_eq. split; [done|]. fold ms. lia.
Qed.
Lemma message_takes last m s : checkID (im_author m) = true -> ready (is_db s) ->
  does (import_message nowMS cutoff skip last m) s (fun last' s' => takes (option_list (wanted m)) last last' s s').
Proof.
  intros Hid Hr. unfold import_message, wanted. destruct (skipped skip (im_author m)); cbn [orb].
  { apply does_ret, takes_on. by split; [reflexivity|]. }
  destruct (im_hubAt m <? cutoff).
  { apply does_bind. eapply does_mono; [by apply moves_tally|]. cbn. intros _ s' [Ho _]. by apply takes_on. }
  destruct (NormalizeRoom _ 64) as [err|room]; [apply does_bind; eapply does_mono; [by apply moves_note|]; cbn; intros _ s' [Ho _]; by apply takes_on|].
  apply does_bind. eapply does_mono; [by apply touch_goes|]. cbn. intros _ s1 [Ho _].
  pose proof (takes_on last _ _ Ho) as Ht. destruct Ho as [_ Hr1].
  eapply does_mono; [by apply (row_takes (import_row room m))|]. cbn. intros last' s' Ht'. exact (takes_app [] _ _ _ _ _ _ _ Ht Ht').
Qed.
Lemma messages_take ms : forall last s, Forall (fun m => checkID (im_author m) = true) ms -> ready (is_db s) ->
  does (import_messages nowMS cutoff skip last ms) s (fun last' s' => takes (omap wanted ms) last last' s s').
Proof.
  induction ms as [|m ms IH]; intros last s Hid Hr; cbn [import_messages].
  { apply does_ret, takes_on. by split; [reflexivity|]. }
  inversion_clear Hid as [|? ? Hm Hms]. apply does_bind. eapply does_mono; [by apply message_takes|]. cbn. intros last1 s1 Ht.
  eapply does_mono; [apply IH; [done|apply (tk_ready _ _ _ _ _ Ht)]|]. cbn. intros last2 s2 Ht2.
  pose proof (takes_app _ _ _ _ _ _ _ _ Ht Ht2) as H. by destruct (wanted m).
Qed.
Lemma rows_sorted d : Sorted.StronglySorted (fun a b => Message_HubAt a <= Message_HubAt b) (import_rows d).
Proof.
  unfold import_rows. pose proof (SliceStable_sorted im_hubAt (sd_messages d)) as Hs. unfold by_hub_time. revert Hs.
  generalize (SliceStable (fun a b => im_hubAt a <=? im_hubAt b) (sd_messages d)) as l.
  assert (forall m row, wanted m = Some row -> Message_HubAt row = im_hubAt m) as Hw.
  { intros m row. unfold wanted. case_match; [done|]. case_match; [done|]. by intros [= <-]. }
  induction l as [|m l IH]; intros Hs; cbn; [constructor|]. apply Sorted.StronglySorted_inv in Hs as [Hl Hm].
  destruct (wanted m) as [row|] eqn:Hrow; [|by apply IH]. constructor; [by apply IH|].
  apply Forall_forall. intros row' (m' & Hm' & Hrow')%list_elem_of_omap. rewrite Forall_forall in Hm.
  rewrite (Hw _ _ Hrow), (Hw _ _ Hrow'). by apply Hm.
Qed.
Lemma rows_origin d : Forall (fun r => Message_OriginID r <> None) (import_rows d).
Proof.
  apply Forall_forall. intros row (m & _ & Hm)%list_elem_of_omap. revert Hm. unfold wanted. case_match; [done|]. case_match; [done|].
  by intros [= <-].
Qed.

(** All that is written. *)
Lemma write_takes d s : data_ok d -> ready (is_db s) ->
  does (import_write nowMS cutoff skip d) s (fun _ s' => exists last,
    takes (import_rows d) ∅ last s s' /\
    forall p, p ∈ kept_peers skip d -> forall room k, last !! room = Some k -> read_to (peer_id p) room k s').
Proof.
  intros Hd Hr. unfold import_write. pose proof (dk_members _ Hd) as Hmem. rewrite Forall_forall in Hmem.
  pose proof (dk_rooms _ Hd) as Hrooms. rewrite Forall_forall in Hrooms. pose proof (dk_bans _ Hd) as Hbans. unfold ids_ok in Hbans.
  rewrite Forall_forall in Hbans.
  apply does_bind. eapply does_mono; [by apply people_goes|]. cbn. intros _ s1 [Ho1 [_ Hm1]]. pose proof (proj2 Ho1) as Hr1.
  apply does_bind. eapply does_mono.
  { apply (goes_foreach _ _ (fun s => forall m, m ∈ sd_members d -> known (mb_id m) s) (fun _ _ => True)); [done..| |done|].
    - intros sa sb Hs Hk m Hm. eapply known_step; eauto.
    - intros m sa Hm Hra Hk. apply import_member_goes; auto. }
  cbn. intros _ s2 [Ho2 _]. pose proof (proj2 Ho2) as Hr2.
  apply does_bind. eapply does_mono; [apply moves_foreach; [done|]; intros r sa Hin Hra; apply import_room_goes; auto|].
  cbn. intros _ s3 [Ho3 _]. pose proof (proj2 Ho3) as Hr3.
  apply does_bind. eapply does_mono; [apply moves_foreach; [done|]; intros id sa Hin Hra; apply import_ban_goes; auto|].
  cbn. intros _ s4 [Ho4 _]. pose proof (proj2 Ho4) as Hr4.
  assert (on s s4) as Ho by (by do 3 (eapply on_trans; [eassumption|])).
  apply does_bind. eapply does_mono.
  { apply (messages_take (by_hub_time (sd_messages d)) ∅ s4); [|done].
    apply Forall_forall. intros m Hm. unfold by_hub_time in Hm. rewrite SliceStable_perm in Hm.
    pose proof (dk_messages _ Hd) as Hms. rewrite Forall_forall in Hms. by apply Hms. }
  cbn. intros last s5 Ht. pose proof (takes_app [] _ _ _ _ _ _ _ (takes_on ∅ _ _ Ho) Ht) as Ht5. cbn [app] in Ht5.
  eapply does_mono; [apply import_cursors_goes; [|apply (tk_ready _ _ _ _ _ Ht5)]|].
  - apply Forall_forall. intros p [Hp _]%kept_peers_in. pose proof (dk_peers _ Hd) as Hps. rewrite Forall_forall in Hps. by apply Hps.
  - cbn. intros _ s6 [Ho6 Hread]. exists last. split; [|done].
    pose proof (takes_app _ [] _ _ _ _ _ _ Ht5 (takes_on last _ _ Ho6)) as H. by rewrite app_nil_r in H.
Qed.
End messages.

(** ** [Import] *)
Section import.
Context {U : Unicode} {N : Norm} {IC : ImportCodecs} {F : NormalForms}.
Definition import_cutoff (now retention : Z) : Z := unix_milli (now - retention).
Definition skip_set (src : Sources) : gset ident := list_to_set (src_Skip src).
(** The rows of a source's messages, and the peers whose history they are. *)
Definition rows_of (src : Sources) (now retention : Z) (d : sourceData) : list Message :=
  import_rows (import_cutoff now retention) (skip_set src) d.
Definition read_ok (src : Sources) (d : sourceData) : Prop :=
  exists rs, read_sources src (mkRState no_data no_report) = (Ok tt, rs) /\ rs_data rs = d.

Lemma Import_runs src now retention d sd rep0 :
  read_sources src (mkRState no_data no_report) = (Ok tt, mkRState sd rep0) -> ready d ->
  exists s last, takes (rows_of src now retention sd) ∅ last (mkIState d rep0) s /\
    (forall p, p ∈ kept_peers (skip_set src) sd -> forall room k, last !! room = Some k -> read_to (peer_id p) room k s) /\
    Import src now retention true d = (Some (is_rep s), None, d) /\
    Import src now retention false d = (Some (is_rep s), None,
      set_audit (audit (is_db s) ++ [mkAuditEntry (Z.of_nat (length (audit (is_db s))) + 1) (unix_milli now) None "import" ""
                                       (trim_space (Report_String (is_rep s)))]) (is_db s)).
Proof.
  intros Hread Hr. destruct (read_sources_ok _ _ _ Hread) as [Hd _]. cbn in Hd.
  pose proof (write_takes (unix_milli now) (import_cutoff now retention) (skip_set src) sd (mkIState d rep0) Hd Hr) as Hw.
  unfold does in Hw. destruct (import_write _ _ _ sd _) as [[[]|e] s] eqn:E; [|done]. destruct Hw as (last & Ht & Hread').
  exists s, last. split_and!; [done|done| |]; unfold Import; rewrite Hread; unfold import_tx, bind; cbn [rs_data rs_rep];
    fold (import_cutoff now retention) (skip_set src); rewrite E; [|reflexivity].
  cbn. by rewrite bool_decide_eq_true_2.
Qed.
Lemma ready_audit l d : ready d -> ready (set_audit l d).
Proof. intros [Hwf Hk]. split; [|done]. by wf_tac Hwf. Qed.
Lemma later_audit x d : later d (set_audit (audit d ++ [x]) d).
Proof. constructor; cbn; [by eauto with lia|by eauto 7 with lia|by eexists]. Qed.

Lemma rows_have_origin src now retention sd row : row ∈ rows_of src now retention sd -> Message_OriginID row <> None.
Proof. intros Hrow. pose proof (rows_origin (import_cutoff now retention) (skip_set src) sd) as H. rewrite Forall_forall in H. by apply H. Qed.


(** C32. The messages of an import: none that was there is changed; every
    message of the sources that is within retention, is for a room and is by no
    one skipped is there, once under its origin; all that is new is such a
    message, numbered after those there were, in the order the sources' hub
    heard them; and the report counts them. *)
Theorem Import_messages src now retention d sd rep d' :
  ready d -> read_ok src sd -> Import src now retention false d = (Some rep, None, d') ->
  let rows := rows_of src now retention sd in
  messages d ⊆ messages d' /\
  (forall row, row ∈ rows -> exists k, stored (messages d') k row /\ forall l, stored (messages d') l row -> l = k) /\
  (forall k m, messages d' !! k = Some m -> messages d !! k = None ->
     next_id (messages d) <= k /\ exists row, row ∈ rows /\ m = with_message_id k row) /\
  (forall k l m n, messages d !! k = None -> messages d !! l = None -> messages d' !! k = Some m -> messages d' !! l = Some n ->
     k < l -> Message_HubAt m <= Message_HubAt n) /\
  rep_Messages rep = Z.of_nat (size (messages d')) - Z.of_nat (size (messages d)) /\
  rep_Messages rep + rep_Duplicates rep = Z.of_nat (length rows).
Proof.
  intros Hr ([? rep0] & Hread & Hsd) HI. cbn in Hsd. subst.
  destruct (Import_runs src now retention d sd rep0 Hread Hr) as (s & l & Ht & _ & _ & Hreal).
  rewrite Hreal in HI. injection HI as <- <-. cbn. destruct Ht as [Hrd _ Hm Hn Ha _ Hs]. cbn in *.
  destruct (read_sources_ok _ _ _ Hread) as [_ Hz]. cbn in Hz. unfold uncounted in Hz. rewrite Hz in Hn, Ha. cbn in Hn, Ha.
  split_and!; [rewrite Hm; apply add_rows_sub| | | |lia|lia].
  - intros row Hrow. destruct (Hs row Hrow) as (k & _ & Hk & _). exists k. split; [done|]. intros k' Hk'.
    eapply (stored_once _ _ _ row (rd_wf _ Hrd)); [by apply rows_have_origin in Hrow|done..].
  - intros k m. rewrite Hm. apply add_rows_new.
  - intros k k' m n. rewrite Hm. apply add_rows_ordered, rows_sorted.
Qed.

Lemma rows_later src now1 ret1 now2 ret2 d row : import_cutoff now1 ret1 <= import_cutoff now2 ret2 ->
  row ∈ rows_of src now2 ret2 d -> row ∈ rows_of src now1 ret1 d.
Proof.
  intros Hc (m & Hm & Hw)%list_elem_of_omap. apply list_elem_of_omap. exists m. split; [done|]. revert Hw. unfold wanted.
  destruct (skipped _ _); [done|]. cbn [orb]. destruct (Z.ltb_spec (im_hubAt m) (import_cutoff now2 ret2)); [done|].
  destruct (Z.ltb_spec (im_hubAt m) (import_cutoff now1 ret1)); [lia|done].
Qed.

(** Nobody who used rrc-hub has its history replayed to them: after an
    import each of them has read, over RRC, up to every message it brought into
    a room or found there. *)
Theorem Import_caught_up src now retention d sd rep d' p row k :
  ready d -> read_ok src sd -> Import src now retention false d = (Some rep, None, d') ->
  p ∈ sd_peers sd -> peer_id p ∉ src_Skip src -> row ∈ rows_of src now retention sd -> stored (messages d') k row ->
  exists c, cursors d' !! (peer_id p, Message_Room row, ViaRRC) = Some c /\ k <= Cursor_MessageID c.
Proof.
  intros Hr Hok HI Hp Hskip Hrow Hk. destruct Hok as ([? rep0] & Hread & Hsd). cbn in Hsd. subst.
  destruct (Import_runs src now retention d sd rep0 Hread Hr) as (s & l & Ht & Hcur & _ & Hreal).
  rewrite Hreal in HI. injection HI as <- <-. cbn in *.
  destruct (tk_rows _ _ _ _ _ Ht row Hrow) as (k' & c & Hk' & Hc & Hle).
  assert (k = k') as -> by (eapply (stored_once _ _ _ row (rd_wf _ (tk_ready _ _ _ _ _ Ht))); [by eapply rows_have_origin|done..]).
  destruct (Hcur p) with (room := Message_Room row) (k := c) as (cur & Hcur' & Hle'); [|done|].
  - apply elem_of_bfilter. split; [done|]. unfold skipped. apply negb_true_iff, bool_decide_eq_false. unfold skip_set. set_solver.
  - exists cur. split; [done|lia].
Qed.
End import.
