(* ===== verification/AppConfig.v ===== *)
(** internal/app/config.go and env.go, and how cmd/scotmesh-chat/main.go finds the
    configuration: the defaults, a TOML file and the environment, one over the
    other.

    What reads a TOML file into the configuration, JSON lists, the zones of the
    tz database and the files are the fields of [World].  Then: which configurations
    load, and what the environment sets. *)
From S2P Require Import Prelude Text TextCut Db Names HubCore GoStd Micron Importer.
Local Open Scope Z_scope.

(** ** The configuration *)
Record HubSection := mkHubSection {
  ah_Name : string; ah_GroupRoom : string; ah_Retention : Z; ah_PostsPerMinute : Z; ah_MaxBodyBytes : Z; ah_ReplayMax : Z; ah_ReplayFirstTime : Z; ah_Rooms : list RoomConfig
}.
Record GroupSection := mkGroupSection {
  ag_Enabled : bool; ag_Identity : string; ag_DisplayName : string; ag_Name : string; ag_PropagationNode : string; ag_AnnounceInterval : Z; ag_MaxStampCost : Z; ag_JoinDigest : Z
}.
Record PageSection := mkPageSection {
  ap_Enabled : bool; ap_Identity : string; ap_NodeName : string; ap_Title : string; ap_WikiURL : string; ap_AnnounceInterval : Z; ap_BannerFile : string
}.
Record RRCSection := mkRRCSection {
  ar_Enabled : bool; ar_Identity : string; ar_Greeting : list string; ar_AnnounceInterval : Z; ar_IncludeJoinedMemberList : bool; ar_MaxMsgBodyBytes : Z; ar_RatePerMinute : Z
}.
Record AConfig := mkAConfig {
  ac_DataDir : string; ac_Backbone : string; ac_Admins : list string; ac_LogLevel : string; ac_LogFormat : string; ac_Timezone : string;
  ac_Hub : HubSection; ac_Group : GroupSection; ac_Page : PageSection; ac_RRC : RRCSection
}.

(** [hub.Config]'s durations are int64s, and so are these. *)
Definition app_Defaults : AConfig :=
  mkAConfig "/var/lib/scotmesh-chat" "" [] "info" "text" "UTC"
    (mkHubSection "Chat" "chat" (7 * 24 * Hour) 0 0 0 0 [mkRoomConfig "chat" ""])
    (mkGroupSection true "identities/group" "Chat – send /join" "Chat" "" (30 * Minute) 16 0)
    (mkPageSection true "identities/page" "Chat" "Chat" "" (30 * Minute) "")
    (mkRRCSection true "identities/rrc-hub" [] (30 * Minute) false 0 0).
Definition with_Hub (f : HubSection -> HubSection) (c : AConfig) : AConfig :=
  mkAConfig (ac_DataDir c) (ac_Backbone c) (ac_Admins c) (ac_LogLevel c) (ac_LogFormat c) (ac_Timezone c) (f (ac_Hub c)) (ac_Group c) (ac_Page c) (ac_RRC c).
Definition with_Group (f : GroupSection -> GroupSection) (c : AConfig) : AConfig :=
  mkAConfig (ac_DataDir c) (ac_Backbone c) (ac_Admins c) (ac_LogLevel c) (ac_LogFormat c) (ac_Timezone c) (ac_Hub c) (f (ac_Group c)) (ac_Page c) (ac_RRC c).
Definition with_Page (f : PageSection -> PageSection) (c : AConfig) : AConfig :=
  mkAConfig (ac_DataDir c) (ac_Backbone c) (ac_Admins c) (ac_LogLevel c) (ac_LogFormat c) (ac_Timezone c) (ac_Hub c) (ac_Group c) (f (ac_Page c)) (ac_RRC c).
Definition with_RRC (f : RRCSection -> RRCSection) (c : AConfig) : AConfig :=
  mkAConfig (ac_DataDir c) (ac_Backbone c) (ac_Admins c) (ac_LogLevel c) (ac_LogFormat c) (ac_Timezone c) (ac_Hub c) (ac_Group c) (ac_Page c) (f (ac_RRC c)).

(** ** The settings, by reflection *)
(** A leaf field: its kind, and the field itself. *)
Inductive Setting :=
  | LString (get : AConfig -> string) (put : string -> AConfig -> AConfig)
  | LBool (get : AConfig -> bool) (put : bool -> AConfig -> AConfig)
  | LInt (get : AConfig -> Z) (put : Z -> AConfig -> AConfig)
  | LDuration (get : AConfig -> Z) (put : Z -> AConfig -> AConfig)
  | LStrings (get : AConfig -> list string) (put : list string -> AConfig -> AConfig)
  | LRooms (get : AConfig -> list RoomConfig) (put : list RoomConfig -> AConfig -> AConfig).
(** A field of a struct, with its "toml" tag. *)
Inductive Field :=
  | Leaf (tag : string) (st : Setting)
  | Struct (tag : string) (fields : list Field).
Definition config_fields : list Field := [
   Leaf "data_dir" (LString ac_DataDir (fun v c => mkAConfig v (ac_Backbone c) (ac_Admins c) (ac_LogLevel c) (ac_LogFormat c) (ac_Timezone c) (ac_Hub c) (ac_Group c) (ac_Page c) (ac_RRC c)));
   Leaf "backbone" (LString ac_Backbone (fun v c => mkAConfig (ac_DataDir c) v (ac_Admins c) (ac_LogLevel c) (ac_LogFormat c) (ac_Timezone c) (ac_Hub c) (ac_Group c) (ac_Page c) (ac_RRC c)));
   Leaf "admins" (LStrings ac_Admins (fun v c => mkAConfig (ac_DataDir c) (ac_Backbone c) v (ac_LogLevel c) (ac_LogFormat c) (ac_Timezone c) (ac_Hub c) (ac_Group c) (ac_Page c) (ac_RRC c)));
   Leaf "log_level" (LString ac_LogLevel (fun v c => mkAConfig (ac_DataDir c) (ac_Backbone c) (ac_Admins c) v (ac_LogFormat c) (ac_Timezone c) (ac_Hub c) (ac_Group c) (ac_Page c) (ac_RRC c)));
   Leaf "log_format" (LString ac_LogFormat (fun v c => mkAConfig (ac_DataDir c) (ac_Backbone c) (ac_Admins c) (ac_LogLevel c) v (ac_Timezone c) (ac_Hub c) (ac_Group c) (ac_Page c) (ac_RRC c)));
   Leaf "timezone" (LString ac_Timezone (fun v c => mkAConfig (ac_DataDir c) (ac_Backbone c) (ac_Admins c) (ac_LogLevel c) (ac_LogFormat c) v (ac_Hub c) (ac_Group c) (ac_Page c) (ac_RRC c)));
   Struct "hub" [
      Leaf "name" (LString (fun c => ah_Name (ac_Hub c)) (fun v => with_Hub (fun s => mkHubSection v (ah_GroupRoom s) (ah_Retention s) (ah_PostsPerMinute s) (ah_MaxBodyBytes s) (ah_ReplayMax s) (ah_ReplayFirstTime s) (ah_Rooms s))));
      Leaf "group_room" (LString (fun c => ah_GroupRoom (ac_Hub c)) (fun v => with_Hub (fun s => mkHubSection (ah_Name s) v (ah_Retention s) (ah_PostsPerMinute s) (ah_MaxBodyBytes s) (ah_ReplayMax s) (ah_ReplayFirstTime s) (ah_Rooms s))));
      Leaf "retention" (LDuration (fun c => ah_Retention (ac_Hub c)) (fun v => with_Hub (fun s => mkHubSection (ah_Name s) (ah_GroupRoom s) v (ah_PostsPerMinute s) (ah_MaxBodyBytes s) (ah_ReplayMax s) (ah_ReplayFirstTime s) (ah_Rooms s))));
      Leaf "posts_per_minute" (LInt (fun c => ah_PostsPerMinute (ac_Hub c)) (fun v => with_Hub (fun s => mkHubSection (ah_Name s) (ah_GroupRoom s) (ah_Retention s) v (ah_MaxBodyBytes s) (ah_ReplayMax s) (ah_ReplayFirstTime s) (ah_Rooms s))));
      Leaf "max_body_bytes" (LInt (fun c => ah_MaxBodyBytes (ac_Hub c)) (fun v => with_Hub (fun s => mkHubSection (ah_Name s) (ah_GroupRoom s) (ah_Retention s) (ah_PostsPerMinute s) v (ah_ReplayMax s) (ah_ReplayFirstTime s) (ah_Rooms s))));
      Leaf "replay_max" (LInt (fun c => ah_ReplayMax (ac_Hub c)) (fun v => with_Hub (fun s => mkHubSection (ah_Name s) (ah_GroupRoom s) (ah_Retention s) (ah_PostsPerMinute s) (ah_MaxBodyBytes s) v (ah_ReplayFirstTime s) (ah_Rooms s))));
      Leaf "replay_first_visit" (LInt (fun c => ah_ReplayFirstTime (ac_Hub c)) (fun v => with_Hub (fun s => mkHubSection (ah_Name s) (ah_GroupRoom s) (ah_Retention s) (ah_PostsPerMinute s) (ah_MaxBodyBytes s) (ah_ReplayMax s) v (ah_Rooms s))));
      Leaf "rooms" (LRooms (fun c => ah_Rooms (ac_Hub c)) (fun v => with_Hub (fun s => mkHubSection (ah_Name s) (ah_GroupRoom s) (ah_Retention s) (ah_PostsPerMinute s) (ah_MaxBodyBytes s) (ah_ReplayMax s) (ah_ReplayFirstTime s) v)))];
   Struct "group" [
      Leaf "enabled" (LBool (fun c => ag_Enabled (ac_Group c)) (fun v => with_Group (fun s => mkGroupSection v (ag_Identity s) (ag_DisplayName s) (ag_Name s) (ag_PropagationNode s) (ag_AnnounceInterval s) (ag_MaxStampCost s) (ag_JoinDigest s))));
      Leaf "identity" (LString (fun c => ag_Identity (ac_Group c)) (fun v => with_Group (fun s => mkGroupSection (ag_Enabled s) v (ag_DisplayName s) (ag_Name s) (ag_PropagationNode s) (ag_AnnounceInterval s) (ag_MaxStampCost s) (ag_JoinDigest s))));
      Leaf "display_name" (LString (fun c => ag_DisplayName (ac_Group c)) (fun v => with_Group (fun s => mkGroupSection (ag_Enabled s) (ag_Identity s) v (ag_Name s) (ag_PropagationNode s) (ag_AnnounceInterval s) (ag_MaxStampCost s) (ag_JoinDigest s))));
      Leaf "name" (LString (fun c => ag_Name (ac_Group c)) (fun v => with_Group (fun s => mkGroupSection (ag_Enabled s) (ag_Identity s) (ag_DisplayName s) v (ag_PropagationNode s) (ag_AnnounceInterval s) (ag_MaxStampCost s) (ag_JoinDigest s))));
      Leaf "propagation_node" (LString (fun c => ag_PropagationNode (ac_Group c)) (fun v => with_Group (fun s => mkGroupSection (ag_Enabled s) (ag_Identity s) (ag_DisplayName s) (ag_Name s) v (ag_AnnounceInterval s) (ag_MaxStampCost s) (ag_JoinDigest s))));
      Leaf "announce_interval" (LDuration (fun c => ag_AnnounceInterval (ac_Group c)) (fun v => with_Group (fun s => mkGroupSection (ag_Enabled s) (ag_Identity s) (ag_DisplayName s) (ag_Name s) (ag_PropagationNode s) v (ag_MaxStampCost s) (ag_JoinDigest s))));
      Leaf "max_stamp_cost" (LInt (fun c => ag_MaxStampCost (ac_Group c)) (fun v => with_Group (fun s => mkGroupSection (ag_Enabled s) (ag_Identity s) (ag_DisplayName s) (ag_Name s) (ag_PropagationNode s) (ag_AnnounceInterval s) v (ag_JoinDigest s))));
      Leaf "join_digest" (LInt (fun c => ag_JoinDigest (ac_Group c)) (fun v => with_Group (fun s => mkGroupSection (ag_Enabled s) (ag_Identity s) (ag_DisplayName s) (ag_Name s) (ag_PropagationNode s) (ag_AnnounceInterval s) (ag_MaxStampCost s) v)))];
   Struct "page" [
      Leaf "enabled" (LBool (fun c => ap_Enabled (ac_Page c)) (fun v => with_Page (fun s => mkPageSection v (ap_Identity s) (ap_NodeName s) (ap_Title s) (ap_WikiURL s) (ap_AnnounceInterval s) (ap_BannerFile s))));
      Leaf "identity" (LString (fun c => ap_Identity (ac_Page c)) (fun v => with_Page (fun s => mkPageSection (ap_Enabled s) v (ap_NodeName s) (ap_Title s) (ap_WikiURL s) (ap_AnnounceInterval s) (ap_BannerFile s))));
      Leaf "node_name" (LString (fun c => ap_NodeName (ac_Page c)) (fun v => with_Page (fun s => mkPageSection (ap_Enabled s) (ap_Identity s) v (ap_Title s) (ap_WikiURL s) (ap_AnnounceInterval s) (ap_BannerFile s))));
      Leaf "title" (LString (fun c => ap_Title (ac_Page c)) (fun v => with_Page (fun s => mkPageSection (ap_Enabled s) (ap_Identity s) (ap_NodeName s) v (ap_WikiURL s) (ap_AnnounceInterval s) (ap_BannerFile s))));
      Leaf "wiki_url" (LString (fun c => ap_WikiURL (ac_Page c)) (fun v => with_Page (fun s => mkPageSection (ap_Enabled s) (ap_Identity s) (ap_NodeName s) (ap_Title s) v (ap_AnnounceInterval s) (ap_BannerFile s))));
      Leaf "announce_interval" (LDuration (fun c => ap_AnnounceInterval (ac_Page c)) (fun v => with_Page (fun s => mkPageSection (ap_Enabled s) (ap_Identity s) (ap_NodeName s) (ap_Title s) (ap_WikiURL s) v (ap_BannerFile s))));
      Leaf "banner_file" (LString (fun c => ap_BannerFile (ac_Page c)) (fun v => with_Page (fun s => mkPageSection (ap_Enabled s) (ap_Identity s) (ap_NodeName s) (ap_Title s) (ap_WikiURL s) (ap_AnnounceInterval s) v)))];
   Struct "rrc" [
      Leaf "enabled" (LBool (fun c => ar_Enabled (ac_RRC c)) (fun v => with_RRC (fun s => mkRRCSection v (ar_Identity s) (ar_Greeting s) (ar_AnnounceInterval s) (ar_IncludeJoinedMemberList s) (ar_MaxMsgBodyBytes s) (ar_RatePerMinute s))));
      Leaf "identity" (LString (fun c => ar_Identity (ac_RRC c)) (fun v => with_RRC (fun s => mkRRCSection (ar_Enabled s) v (ar_Greeting s) (ar_AnnounceInterval s) (ar_IncludeJoinedMemberList s) (ar_MaxMsgBodyBytes s) (ar_RatePerMinute s))));
      Leaf "greeting" (LStrings (fun c => ar_Greeting (ac_RRC c)) (fun v => with_RRC (fun s => mkRRCSection (ar_Enabled s) (ar_Identity s) v (ar_AnnounceInterval s) (ar_IncludeJoinedMemberList s) (ar_MaxMsgBodyBytes s) (ar_RatePerMinute s))));
      Leaf "announce_interval" (LDuration (fun c => ar_AnnounceInterval (ac_RRC c)) (fun v => with_RRC (fun s => mkRRCSection (ar_Enabled s) (ar_Identity s) (ar_Greeting s) v (ar_IncludeJoinedMemberList s) (ar_MaxMsgBodyBytes s) (ar_RatePerMinute s))));
      Leaf "include_joined_member_list" (LBool (fun c => ar_IncludeJoinedMemberList (ac_RRC c)) (fun v => with_RRC (fun s => mkRRCSection (ar_Enabled s) (ar_Identity s) (ar_Greeting s) (ar_AnnounceInterval s) v (ar_MaxMsgBodyBytes s) (ar_RatePerMinute s))));
      Leaf "max_msg_body_bytes" (LInt (fun c => ar_MaxMsgBodyBytes (ac_RRC c)) (fun v => with_RRC (fun s => mkRRCSection (ar_Enabled s) (ar_Identity s) (ar_Greeting s) (ar_AnnounceInterval s) (ar_IncludeJoinedMemberList s) v (ar_RatePerMinute s))));
      Leaf "rate_per_minute" (LInt (fun c => ar_RatePerMinute (ac_RRC c)) (fun v => with_RRC (fun s => mkRRCSection (ar_Enabled s) (ar_Identity s) (ar_Greeting s) (ar_AnnounceInterval s) (ar_IncludeJoinedMemberList s) (ar_MaxMsgBodyBytes s) v)))]].

(** ** What the configuration is read from *)
Inductive StatResult := StatOK | StatNotExist (err : string) | StatFailed (err : string).
Class World := {
  w_environ : list string;                                           (* os.Environ() *)
  w_stat : string -> StatResult;
  w_file : string -> file;
  w_toml : string -> AConfig -> string + AConfig * list string;      (* the file over what is there, and the keys it has no place for *)
  w_zone : string -> option string;                                  (* time.LoadLocation's error *)
  w_json_strings : string -> string + list string;
  w_json_rooms : string -> string + list RoomConfig
}.

Section config.
Context {U : Unicode} {W : World}.

(** ** env.go *)
Definition envPrefix : string := "SCOTMESH_CHAT_".
(** [collectFields]: every leaf under its name.  [out] is a Go map: of two
    leaves with a name the later one is kept. *)
Fixpoint collect_field (prefix : string) (f : Field) (out : gmap string Setting) : gmap string Setting :=
  match f with
  | Leaf tag st => if bool_decide (tag = "") || bool_decide (tag = "-") then out else <[to_upper (prefix +:+ tag) := st]> out
  | Struct tag fs =>
    if bool_decide (tag = "") || bool_decide (tag = "-") then out else
    (fix walk fs out := match fs with [] => out | f :: fs => walk fs (collect_field (cat [prefix; tag; "_"]) f out) end) fs out
  end.
Definition collectFields (prefix : string) (fs : list Field) : gmap string Setting :=
  fold_left (fun out f => collect_field prefix f out) fs ∅.

Definition setStrings (raw : string) : string + list string :=
  let trimmed := trim_space raw in
  if has_prefix trimmed "[" then
    match w_json_strings raw with inl e => inl ("invalid JSON: " +:+ e) | inr l => inr l end
  else inr (if bool_decide (trimmed = "") then [] else map trim_space (split "," raw)).
(** [setField] and [setSlice]. *)
Definition setField (st : Setting) (raw : string) (c : AConfig) : string + AConfig :=
  match st with
  | LDuration _ put => match ParseDuration raw with inl e => inl e | inr d => inr (put d c) end
  | LString _ put => inr (put raw c)
  | LBool _ put =>
    match ParseBool raw with
    | Some b => inr (put b c)
    | None => inl ("not true or false: " +:+ num_error "ParseBool" raw "invalid syntax")
    end
  | LInt _ put => match atoi raw with Some n => inr (put n c) | None => inl (atoi_error raw) end
  | LStrings _ put => match setStrings raw with inl e => inl e | inr l => inr (put l c) end
  | LRooms _ put => match w_json_rooms raw with inl e => inl ("invalid JSON: " +:+ e) | inr l => inr (put l c) end
  end.
(** One variable: the configuration and the errors so far. *)
Definition apply_var (fields : gmap string Setting) (acc : AConfig * list string) (kv : string) : AConfig * list string :=
  let '(c, errs) := acc in
  match cut_at_byte kv "=" with
  | None => acc
  | Some (name, value) =>
    if negb (has_prefix name envPrefix) then acc else
    match fields !! trim_prefix name envPrefix with
    | None => (c, errs ++ [name +:+ ": no such setting"])
    | Some st =>
      match setField st value c with
      | inl e => (c, errs ++ [cat [name; ": "; e]])
      | inr c' => (c', errs)
      end
    end
  end.
Definition applyEnv (c : AConfig) (environ : list string) : AConfig * list string :=
  fold_left (apply_var (collectFields "" config_fields)) environ (c, []).

(** ** config.go *)
Definition config_path (c : AConfig) (p : string) : string := if IsAbs p then p else Join (ac_DataDir c) p.
(** [AdminHashes] *)
Fixpoint admin_hashes (l : list string) : string + list ident :=
  match l with
  | [] => inr []
  | a :: l =>
    match hex_decode (trim_space a) with
    | Some b =>
      if len b =? 16 then match admin_hashes l with inl e => inl e | inr bs => inr (b :: bs) end
      else inl (cat ["admins: "; quote a; " is not a 32-character identity hash"])
    | None => inl (cat ["admins: "; quote a; " is not a 32-character identity hash"])
    end
  end.
Definition AdminHashes (c : AConfig) : string + list ident := admin_hashes (ac_Admins c).
(** [BannerLines]: [None] is nil, for the built-in banner. *)
Definition BannerLines (c : AConfig) : string + option (list string) :=
  let f := ap_BannerFile (ac_Page c) in
  if bool_decide (f = "") then inr None else
  let path := config_path c f in
  let err e := inl (cat ["page.banner_file "; path; ": "; e]) in
  match w_file path with
  | NoFile => err (cat ["open "; path; ": no such file or directory"])
  | Unreadable e => err e
  | File raw => match ParseBanner raw with inl e => err e | inr ls => inr (Some ls) end
  end.
Definition ten_minutes : Z := 10 * Minute.
Definition errs_if (b : bool) (e : string) : list string := if b then [e] else [].
Definition errs_of {A} (r : string + A) (f : string -> string) : list string := match r with inl e => [f e] | inr _ => [] end.
(** The errors, in order; [errors.Join] puts each on a line. *)
Definition Validate (c : AConfig) : list string :=
  errs_if (bool_decide (ac_DataDir c = "")) "data_dir is required" ++
  (if bool_decide (ac_Backbone c = "") then ["backbone is required"]
   else errs_of (SplitHostPort (ac_Backbone c)) (fun e => cat ["backbone "; quote (ac_Backbone c); ": "; e])) ++
  (match w_zone (ac_Timezone c) with Some e => [cat ["timezone "; quote (ac_Timezone c); ": "; e]] | None => [] end) ++
  errs_of (BannerLines c) id ++
  errs_of (AdminHashes c) id ++
  (let p := ag_PropagationNode (ac_Group c) in
   errs_if (negb (bool_decide (p = "")) && match hex_decode p with Some b => negb (len b =? 16) | None => true end)
     (cat ["group.propagation_node "; quote p; " is not a 32-character address"])) ++
  errs_if (ag_AnnounceInterval (ac_Group c) <? ten_minutes) "group.announce_interval must be at least 10m" ++
  errs_if (ap_AnnounceInterval (ac_Page c) <? ten_minutes) "page.announce_interval must be at least 10m" ++
  errs_if (ar_AnnounceInterval (ac_RRC c) <? ten_minutes) "rrc.announce_interval must be at least 10m: announces are costly on radio" ++
  errs_if (negb (bool_decide (to_lower (ac_LogLevel c) ∈ ["debug"; "info"; "warn"; "error"])))
    (cat ["log_level "; quote (ac_LogLevel c); ": use debug, info, warn or error"]).
Definition joined (errs : list string) : option string := match errs with [] => None | _ => Some (strings_Join newline errs) end.

(** The file over [c], or why not. *)
Definition load_file (path : string) (c : AConfig) : AConfig * option string :=
  let err e := cat ["config "; path; ": "; e] in
  match w_file path with
  | NoFile => (c, Some (err (cat ["open "; path; ": no such file or directory"])))
  | Unreadable e => (c, Some (err e))
  | File raw =>
    match w_toml raw c with
    | inl e => (c, Some (err e))
    | inr (c', []) => (c', None)
    | inr (c', undecoded) => (c', Some (err ("unknown keys: " +:+ strings_Join ", " undecoded)))
    end
  end.
Definition Load (path : string) : AConfig * option string :=
  let '(c, e) := if bool_decide (path = "") then (app_Defaults, None) else load_file path app_Defaults in
  match e with
  | Some e => (c, Some e)
  | None =>
    match applyEnv c w_environ with
    | (c, []) => (c, joined (Validate c))
    | (c, errs) => (c, joined errs)
    end
  end.

(** ** main.go *)
Definition configEnvVar : string := "SCOTMESH_CHAT_CONFIG".
Definition defaultConfigPath : string := "/etc/scotmesh-chat/config.toml".
(** [os.Getenv] *)
Fixpoint env_value (name : string) (environ : list string) : string :=
  match environ with
  | [] => ""
  | kv :: l => match cut_at_byte kv "=" with
               | Some (n, v) => if bool_decide (n = name) then v else env_value name l
               | None => env_value name l
               end
  end.
Definition Getenv (name : string) : string := env_value name w_environ.
(** The error comes with the zero configuration, which nobody looks at. *)
Definition resolveAndLoad (flagPath envPath fallback : string) : option string + AConfig :=
  let path0 := if bool_decide (flagPath = "") then envPath else flagPath in
  let explicit := negb (bool_decide (path0 = "")) in
  let path := if explicit then path0 else fallback in
  let load p := match Load p with (c, None) => inr c | (_, Some e) => inl (Some e) end in
  match w_stat path with
  | StatOK => load path
  | StatNotExist e => if explicit then inl (Some (cat ["config "; path; ": "; e])) else load ""
  | StatFailed e => inl (Some (cat ["config "; path; ": "; e]))
  end.
Definition loadConfig (flagPath : string) : option string + AConfig :=
  resolveAndLoad flagPath (Getenv configEnvVar) defaultConfigPath.

(** slog's levels. *)
Inductive Level := LevelDebug | LevelInfo | LevelWarn | LevelError.
Definition level (s : string) : Level :=
  let l := to_lower s in
  if bool_decide (l = "debug") then LevelDebug
  else if bool_decide (l = "warn") then LevelWarn
  else if bool_decide (l = "error") then LevelError
  else LevelInfo.
(** slogHandler: whether the handler is the JSON one.  The letter s also folds with
    U+017F. *)
Definition json_logs (format : string) : bool :=
  equal_fold format "json" ||
  match format with
  | String j (String a (String b rest)) => equal_fold (String j "") "j" && bool_decide (byte a = 197 /\ byte b = 191) && equal_fold rest "on"
  | _ => false
  end.

(** --skip of the import command: the identities, or the one that is none. *)
Fixpoint skip_list (l : list string) : string + list ident :=
  match l with
  | [] => inr []
  | h :: l =>
    let h := trim_space h in
    if bool_decide (h = "") then skip_list l else
    match hex_decode h with
    | Some b => if len b =? 16 then match skip_list l with inl e => inl e | inr bs => inr (b :: bs) end
                else inl (cat ["import: --skip "; quote h; " is not an identity hash"])
    | None => inl (cat ["import: --skip "; quote h; " is not an identity hash"])
    end
  end.
Definition import_skip (skip : string) : string + list ident := skip_list (split "," skip).
End config.

(** * What loads

    internal/app/config.go and env.go: the environment over the file over the
    defaults, setting by setting, and what a configuration that loads is. *)
(** ** Settings are independent *)
Section fields.
Context {U : Unicode}.
(** Every setting, under its name. *)
Fixpoint flat (prefix : string) (f : Field) : list (string * Setting) :=
  match f with
  | Leaf tag st => [(to_upper (prefix +:+ tag), st)]
  | Struct tag fs => (fix walk fs := match fs with [] => [] | f :: fs => flat (cat [prefix; tag; "_"]) f ++ walk fs end) fs
  end.
Definition settings : list (string * Setting) := concat (map (flat "") config_fields).
(** The names, as docs/configuration.md lists them. *)
Definition documented : list string := [
  "DATA_DIR"; "BACKBONE"; "ADMINS"; "LOG_LEVEL"; "LOG_FORMAT"; "TIMEZONE";
  "HUB_NAME"; "HUB_GROUP_ROOM"; "HUB_RETENTION"; "HUB_POSTS_PER_MINUTE"; "HUB_MAX_BODY_BYTES"; "HUB_REPLAY_MAX";
  "HUB_REPLAY_FIRST_VISIT"; "HUB_ROOMS";
  "GROUP_ENABLED"; "GROUP_IDENTITY"; "GROUP_DISPLAY_NAME"; "GROUP_NAME"; "GROUP_PROPAGATION_NODE"; "GROUP_ANNOUNCE_INTERVAL";
  "GROUP_MAX_STAMP_COST"; "GROUP_JOIN_DIGEST";
  "PAGE_ENABLED"; "PAGE_IDENTITY"; "PAGE_NODE_NAME"; "PAGE_TITLE"; "PAGE_WIKI_URL"; "PAGE_ANNOUNCE_INTERVAL"; "PAGE_BANNER_FILE";
  "RRC_ENABLED"; "RRC_IDENTITY"; "RRC_GREETING"; "RRC_ANNOUNCE_INTERVAL"; "RRC_INCLUDE_JOINED_MEMBER_LIST";
  "RRC_MAX_MSG_BODY_BYTES"; "RRC_RATE_PER_MINUTE"].
Lemma settings_names : settings.*1 = documented.
Proof. vm_compute. reflexivity. Qed.
Lemma documented_once : NoDup documented.
Proof. apply (bool_decide_eq_true_1 _). vm_compute. reflexivity. Qed.
Lemma fields_inserted : collectFields "" config_fields = fold_left (fun out p => <[p.1 := p.2]> out) settings ∅.
Proof. reflexivity. Qed.

(** What a setting holds. *)
Inductive Value := VString (s : string) | VBool (b : bool) | VInt (z : Z) | VStrings (l : list string) | VRooms (l : list RoomConfig).
Definition value_of (st : Setting) (c : AConfig) : Value :=
  match st with
  | LString get _ => VString (get c)
  | LBool get _ => VBool (get c)
  | LInt get _ => VInt (get c)
  | LDuration get _ => VInt (get c)
  | LStrings get _ => VStrings (get c)
  | LRooms get _ => VRooms (get c)
  end.
Definition snapshot (c : AConfig) : list Value := map (fun p => value_of p.2 c) settings.
(** To put a value into a setting is to change its place of the snapshot. *)
Definition changes (i : nat) (st : Setting) : Prop :=
  match st with
  | LString _ put => forall v c, snapshot (put v c) = <[i := VString v]> (snapshot c)
  | LBool _ put => forall v c, snapshot (put v c) = <[i := VBool v]> (snapshot c)
  | LInt _ put => forall v c, snapshot (put v c) = <[i := VInt v]> (snapshot c)
  | LDuration _ put => forall v c, snapshot (put v c) = <[i := VInt v]> (snapshot c)
  | LStrings _ put => forall v c, snapshot (put v c) = <[i := VStrings v]> (snapshot c)
  | LRooms _ put => forall v c, snapshot (put v c) = <[i := VRooms v]> (snapshot c)
  end.
Fixpoint from {A} (i : nat) (P : nat -> A -> Prop) (l : list A) : Prop :=
  match l with [] => True | x :: l => P i x /\ from (S i) P l end.
Lemma settings_change : from 0 (fun i p => changes i p.2) settings.
Proof. cbn -[snapshot to_upper]. repeat (split; [intros v c; reflexivity|]). exact I. Qed.

Lemma from_lookup {A} (P : nat -> A -> Prop) l : forall k i x, from k P l -> l !! i = Some x -> P (k + i)%nat x.
Proof.
  induction l as [|y l IH]; intros k i x H Hl; [done|]. destruct H as [H1 H2], i as [|i]; cbn in Hl.
  - injection Hl as <-. by rewrite Nat.add_0_r.
  - rewrite Nat.add_succ_r. exact (IH (S k) i x H2 Hl).
Qed.
Lemma setting_at i n st c : settings !! i = Some (n, st) -> snapshot c !! i = Some (value_of st c).
Proof. intros Hi. unfold snapshot. change (map ?f settings) with (f <$> settings). by rewrite list_lookup_fmap, Hi. Qed.
Lemma field_at n st : collectFields "" config_fields !! n = Some st <-> exists i, settings !! i = Some (n, st).
Proof.
  rewrite fields_inserted. pose proof documented_once as Hnd. rewrite <- settings_names in Hnd.
  rewrite <- fold_left_rev_right. change (foldr _ ∅ (rev settings)) with (list_to_map (rev settings) : gmap string Setting).
  rewrite <- elem_of_list_to_map.
  - rewrite list_elem_of_In, <- in_rev, <- list_elem_of_In. apply list_elem_of_lookup.
  - assert ((rev settings).*1 ≡ₚ settings.*1) as ->; [by rewrite <- Permutation_rev|done].
Qed.
End fields.

Section overlay.
Context {U : Unicode} {W : World}.

(** What a variable puts into a setting does not depend on what was there. *)
Lemma setField_value i n st raw c c' : settings !! i = Some (n, st) -> setField st raw c = inr c' ->
  exists v, snapshot c' = <[i := v]> (snapshot c) /\
    forall c2, exists c2', setField st raw c2 = inr c2' /\ snapshot c2' = <[i := v]> (snapshot c2).
Proof.
  intros Hi. pose proof (from_lookup _ _ 0 i (n, st) settings_change Hi) as Hc. cbn [Nat.add snd] in Hc.
  destruct st as [g p|g p|g p|g p|g p|g p]; cbn [setField changes] in *.
  - intros [= <-]. eauto.
  - destruct (ParseBool raw); [|done]. intros [= <-]. eauto.
  - destruct (atoi raw); [|done]. intros [= <-]. eauto.
  - destruct (ParseDuration raw); [done|]. intros [= <-]. eauto.
  - destruct (setStrings raw); [done|]. intros [= <-]. eauto.
  - destruct (w_json_rooms raw); [done|]. intros [= <-]. eauto.
Qed.
(** The value the environment has for a name: the last one. *)
Definition values_for (name : string) (environ : list string) : list string :=
  omap (fun kv => match cut_at_byte kv "=" with
                  | Some (n, v) => if bool_decide (n = name) then Some v else None
                  | None => None
                  end) environ.

Lemma apply_var_errs fields c errs kv c' : apply_var fields (c, errs) kv = (c', []) -> errs = [].
Proof. unfold apply_var. intros H. repeat case_match; simplify_eq; try done; by destruct errs. Qed.
Lemma prefix_refl p s : String.prefix p (p +:+ s) = true.
Proof.
  induction p as [|a p IHp]; [by destruct s|]. change (String a p +:+ s) with (String a (p +:+ s)). cbn. by destruct (ascii_dec a a).
Qed.
Lemma applyEnv_snoc c environ kv : applyEnv c (environ ++ [kv]) = apply_var (collectFields "" config_fields) (applyEnv c environ) kv.
Proof. unfold applyEnv. by rewrite fold_left_app. Qed.
Lemma values_for_snoc name environ kv : values_for name (environ ++ [kv]) = values_for name environ ++ values_for name [kv].
Proof. apply omap_app. Qed.
Lemma env_name name : has_prefix name envPrefix = true -> name = envPrefix +:+ trim_prefix name envPrefix.
Proof.
  intros H. unfold trim_prefix. rewrite H. unfold has_prefix in H. apply prefix_app in H as [t ->]. by rewrite str_drop_app.
Qed.
Lemma env_name_inj n m : envPrefix +:+ n = envPrefix +:+ m -> n = m.
Proof. intros H. apply (f_equal (str_drop (String.length envPrefix))) in H. by rewrite !str_drop_app in H. Qed.

(** C39. The environment over what was there: if it is accepted, every variable that
    starts SCOTMESH_CHAT_ names a setting of the documentation; a setting whose
    variable is set holds what the variable says, the last one of them; and every
    other setting holds what it held. *)
Theorem env_overlay_exact environ c c' : applyEnv c environ = (c', []) ->
  (forall kv name value, kv ∈ environ -> cut_at_byte kv "=" = Some (name, value) -> has_prefix name envPrefix = true ->
     exists n, n ∈ documented /\ name = envPrefix +:+ n) /\
  forall n st, collectFields "" config_fields !! n = Some st ->
    match last (values_for (envPrefix +:+ n) environ) with
    | None => value_of st c' = value_of st c
    | Some raw => exists c1, setField st raw c = inr c1 /\ value_of st c' = value_of st c1
    end.
Proof.
  revert c'. induction environ as [|kv environ IH] using rev_ind; intros c'.
  { intros [= <-]. split; [by intros ? ? ? ?%not_elem_of_nil|done]. }
  rewrite applyEnv_snoc. destruct (applyEnv c environ) as [c1 errs] eqn:E. intros H.
  assert (errs = []) as -> by (by eapply apply_var_errs). unfold apply_var in H.
  destruct (IH c1 eq_refl) as [IH1 IH2]. clear E IH.
  destruct (cut_at_byte kv "=") as [[name value]|] eqn:Hcut.
  2:{ injection H as ->. split.
    - intros kv' n v [Hin| ->%list_elem_of_singleton]%elem_of_app; [by apply IH1|congruence].
    - intros n st Hn. rewrite values_for_snoc. cbn [values_for omap list_omap]. rewrite Hcut, app_nil_r. by apply IH2. }
  destruct (has_prefix name envPrefix) eqn:Hp; cbn [negb] in H.
  2:{ injection H as ->. split.
    - intros kv' n v [Hin| ->%list_elem_of_singleton]%elem_of_app; [by apply IH1|]. intros Hc. congruence.
    - intros n st Hn. rewrite values_for_snoc. cbn [values_for omap list_omap]. rewrite Hcut, bool_decide_eq_false_2, app_nil_r; [by apply IH2|].
      intros ->. unfold has_prefix in Hp. by rewrite prefix_refl in Hp. }
  destruct (collectFields "" config_fields !! trim_prefix name envPrefix) as [st|] eqn:Hst; [|done].
  destruct (setField st value c1) as [e|c2] eqn:Hset; [done|]. injection H as ->.
  pose proof (proj1 (field_at _ _) Hst) as [i Hi]. split.
  - intros kv' n v [Hin| ->%list_elem_of_singleton]%elem_of_app; [by apply IH1|]. rewrite Hcut. intros [= <- <-] _.
    exists (trim_prefix name envPrefix). split; [|by apply env_name]. rewrite <- settings_names.
    apply list_elem_of_fmap. exists (trim_prefix name envPrefix, st). split; [done|]. by eapply list_elem_of_lookup_2.
  - intros n st' Hn. pose proof (proj1 (field_at _ _) Hn) as [j Hj].
    destruct (setField_value i _ st value c1 c' Hi Hset) as (v & Hv & Hall).
    rewrite values_for_snoc. cbn [values_for omap list_omap]. rewrite Hcut. case_bool_decide as Hname.
    + (* the variable is this setting's *)
      rewrite (env_name _ Hp) in Hname. apply env_name_inj in Hname. subst n. rewrite Hst in Hn. injection Hn as <-.
      rewrite last_snoc. destruct (Hall c) as (c2 & Hc2 & Hs2). exists c2. split; [done|].
      pose proof (setting_at _ _ _ c' Hi) as H1. pose proof (setting_at _ _ _ c2 Hi) as H2. rewrite Hv in H1. rewrite Hs2 in H2.
      pose proof (setting_at _ _ _ c Hi) as H3. pose proof (setting_at _ _ _ c1 Hi) as H4.
      rewrite list_lookup_insert_eq in H1 by (by eapply lookup_lt_Some). rewrite list_lookup_insert_eq in H2 by (by eapply lookup_lt_Some). congruence.
    + rewrite app_nil_r. assert (i <> j) as Hij.
      { intros ->. rewrite Hi in Hj. injection Hj as <- <-. apply Hname. by apply env_name. }
      assert (value_of st' c' = value_of st' c1) as ->.
      { pose proof (setting_at _ _ _ c' Hj) as H1. rewrite Hv, list_lookup_insert_ne, (setting_at _ _ _ c1 Hj) in H1 by done. congruence. }
      by apply IH2.
Qed.
End overlay.

(** ** What loads *)
Section load.
Context {U : Unicode} {W : World}.

(** What the documentation promises of a configuration that is accepted. *)
Record config_ok (c : AConfig) : Prop := {
  ok_data_dir : ac_DataDir c <> "";
  ok_backbone : exists host port, SplitHostPort (ac_Backbone c) = inr (host, port);
  ok_zone : w_zone (ac_Timezone c) = None;
  ok_banner : exists b, BannerLines c = inr b;
  ok_admins : exists ids, AdminHashes c = inr ids /\ Forall (fun id => checkID id = true) ids /\ length ids = length (ac_Admins c);
  ok_propagation : ag_PropagationNode (ac_Group c) = "" \/
    exists b, hex_decode (ag_PropagationNode (ac_Group c)) = Some b /\ len b = 16;
  ok_announce : ten_minutes <= ag_AnnounceInterval (ac_Group c) /\ ten_minutes <= ap_AnnounceInterval (ac_Page c) /\
    ten_minutes <= ar_AnnounceInterval (ac_RRC c);
  ok_level : to_lower (ac_LogLevel c) ∈ ["debug"; "info"; "warn"; "error"]
}.
Lemma joined_none errs : joined errs = None <-> errs = [].
Proof. by destruct errs. Qed.
Lemma errs_if_nil b e : errs_if b e = [] <-> b = false.
Proof. by destruct b. Qed.
Lemma errs_of_nil {A} (r : string + A) f : errs_of r f = [] <-> exists a, r = inr a.
Proof. destruct r; cbn; split; [done|by intros [? ?]|by eexists|done]. Qed.
Lemma admin_hashes_ok l : forall ids, admin_hashes l = inr ids -> Forall (fun id => checkID id = true) ids /\ length ids = length l.
Proof.
  induction l as [|a l IH]; intros ids; cbn; [by intros [= <-]|]. destruct (hex_decode _) as [b|]; [|done].
  destruct (len b =? 16) eqn:Hb; [|done]. destruct (admin_hashes l) as [|bs]; [done|]. intros [= <-].
  destruct (IH bs eq_refl) as [H1 H2]. split; [by constructor|cbn; by rewrite H2].
Qed.
Lemma Validate_ok c : Validate c = [] -> config_ok c.
Proof.
  unfold Validate. rewrite !app_nil. rewrite !errs_if_nil, !errs_of_nil. intros (H1 & H2 & H3 & H4 & H5 & H6 & H7 & H8 & H9 & H10).
  constructor; [by apply bool_decide_eq_false in H1| | |done| | |lia|].
  - destruct (bool_decide (ac_Backbone c = "")); [done|]. apply errs_of_nil in H2 as [[h p] Hp]. eauto.
  - by destruct (w_zone _).
  - destruct H5 as [ids Hids]. exists ids. split; [done|]. by apply admin_hashes_ok.
  - apply andb_false_iff in H6 as [H6|H6]; [left; by apply negb_false_iff, bool_decide_eq_true in H6|right].
    destruct (hex_decode _) as [b|]; [|done]. exists b. split; [done|]. apply negb_false_iff, Z.eqb_eq in H6. done.
  - by apply negb_false_iff, bool_decide_eq_true in H10.
Qed.

(** A configuration that loads is one the documentation allows, and says what the
    file and the environment say: the file over the defaults, if there is one,
    with no key the program does not know, and the environment over both. *)
Theorem Load_sound path c : Load path = (c, None) ->
  config_ok c /\
  exists c0, applyEnv c0 w_environ = (c, []) /\
    (path = "" /\ c0 = app_Defaults \/
     exists raw, w_file path = File raw /\ w_toml raw app_Defaults = inr (c0, [])).
Proof.
  unfold Load. destruct (if bool_decide (path = "") then _ else _) as [c0 [e|]] eqn:E; [done|].
  destruct (applyEnv c0 w_environ) as [c1 [|e errs]] eqn:He; [|done]. intros [= -> Hj].
  split; [by apply Validate_ok, joined_none|]. exists c0. split; [done|]. case_bool_decide as Hp; [left; by injection E as <-|right].
  unfold load_file in E. destruct (w_file path) as [| |raw]; [done..|]. exists raw. split; [done|].
  destruct (w_toml raw _) as [|[c' [|k ks]]]; [done| |done]. by injection E as ->.
Qed.

(** ** The variable that names the file *)
Lemma apply_var_grows fields acc kv : (apply_var fields acc kv).2 = [] -> acc.2 = [].
Proof. destruct acc as [c errs]. destruct (apply_var fields (c, errs) kv) as [c' errs'] eqn:E. cbn. intros ->. by eapply apply_var_errs. Qed.
Lemma fold_vars_grow fields l : forall acc, (fold_left (apply_var fields) l acc).2 = [] -> acc.2 = [].
Proof. induction l as [|kv l IH]; intros acc; cbn; [done|]. intros H%IH. by eapply apply_var_grows. Qed.
(** A variable that starts with the prefix and names no setting is refused. *)
Lemma unknown_refused environ kv name value c : kv ∈ environ -> cut_at_byte kv "=" = Some (name, value) ->
  has_prefix name envPrefix = true -> trim_prefix name envPrefix ∉ documented -> (applyEnv c environ).2 <> [].
Proof.
  intros Hin Hcut Hp Hno Hnil. apply list_elem_of_split in Hin as (l1 & l2 & ->). unfold applyEnv in Hnil.
  rewrite fold_left_app in Hnil. cbn [fold_left] in Hnil. apply fold_vars_grow in Hnil. revert Hnil.
  destruct (fold_left _ l1 _) as [c1 errs]. unfold apply_var. rewrite Hcut, Hp. cbn [negb].
  destruct (collectFields _ _ !! _) as [st|] eqn:Hst; [|cbn; by destruct errs].
  exfalso. apply Hno. apply field_at in Hst as [i Hi]. rewrite <- settings_names. apply list_elem_of_fmap. eexists.
  split; [|by eapply list_elem_of_lookup_2]. done.
Qed.
Lemma Load_unknown path kv name value : kv ∈ w_environ -> cut_at_byte kv "=" = Some (name, value) ->
  has_prefix name envPrefix = true -> trim_prefix name envPrefix ∉ documented -> exists c e, Load path = (c, Some e).
Proof.
  intros Hin Hcut Hp Hno. unfold Load. destruct (if bool_decide (path = "") then _ else _) as [c0 [e|]]; [by eauto|].
  pose proof (unknown_refused _ _ _ _ c0 Hin Hcut Hp Hno) as H. destruct (applyEnv c0 w_environ) as [c [|e errs]]; [done|]. by eexists _, _.
Qed.

Lemma cut_config v : cut_at_byte (configEnvVar +:+ "=" +:+ v) "=" = Some (configEnvVar, v).
Proof.
  assert (index_byte (configEnvVar +:+ "=" +:+ v) "=" = Some (String.length configEnvVar)) as Hi by (destruct v; vm_compute; reflexivity).
  unfold cut_at_byte. rewrite Hi, str_take_app. change (S (String.length configEnvVar)) with (String.length (configEnvVar +:+ "=")).
  by rewrite str_app_assoc, str_drop_app.
Qed.
(** C40. The variable SCOTMESH_CHAT_CONFIG is documented to name the configuration
    file, and whenever it is set nothing loads: it starts with the prefix and is
    no setting, so the environment is refused for it, whatever file it names and
    whatever --config says. *)
Theorem config_variable_refused flagPath v :
  (configEnvVar +:+ "=" +:+ v) ∈ w_environ -> exists e, loadConfig flagPath = inl (Some e).
Proof.
  intros Hin. assert (forall path, exists c e, Load path = (c, Some e)) as HL.
  { intros path. eapply (Load_unknown path _ configEnvVar v Hin); [|vm_compute; reflexivity|].
    - apply cut_config.
    - apply (bool_decide_eq_true_1 _). vm_compute. reflexivity. }
  unfold loadConfig, resolveAndLoad. cbv zeta.
  destruct (w_stat _).
  - match goal with |- context [Load ?p] => destruct (HL p) as (c & e & ->) end. eauto.
  - case_match; [eauto|]. destruct (HL "") as (c & e & ->). eauto.
  - eauto.
Qed.
End load.
