(* ===== verification/AppRun.v ===== *)
(** internal/app/app.go and netstack.go's identities: [Run], from a configuration to
    the hub and the ways into it.  Then: that what it makes fits together,
    and is the same after a restart.

    Directories, the network and the store's file are the fields of [Platform];
    identity files are the state.  What runs until the service stops is, in
    [Node], the order of the steps. *)
From S2P Require Import Prelude Text TextCut Db StorePeople StoreRooms StoreMessages StoreGroup StoreInv StoreWf StorePolicy Names HubCore Clock Ranks.
From S2P Require Import People Rooms Post Sha256 Commands CmdPeople Links Whispers Profile Dispatch Maintain HubWf System NamesSpec GoStd Adapters.
From S2P Require Import LxmfGroup Wire RrcFrames Micron PageCore Importer AppConfig.
Local Open Scope Z_scope.

(** An identity file: what cannot be read, or the identity's hash. *)
Inductive IdFile := IdBroken (err : string) | IdKey (hash : ident).
Record Machine := mkMachine { mc_ids : gmap string IdFile; mc_drawn : nat }.
Class Platform := {
  pf_mkdir : string -> option string;          (* os.MkdirAll's error *)
  pf_open : string -> string + DB;             (* store.Open, and what the store holds *)
  pf_new_identity : nat -> string + ident;     (* rns.NewIdentity *)
  pf_save : string -> option string;           (* Identity.Save's *)
  pf_dial : string -> option string;           (* rns.DialReconnectingTCP's *)
  pf_delivery : ident -> option string;        (* lxmf.NewDelivery's *)
  pf_register : string -> option string        (* Transport.RegisterLocal's and RegisterRequestHandler's *)
}.

(** The components, as they are made. *)
Record Announce := mkAnnounce { an_Name : string; an_Delay : Z; an_Interval : Z }.
Record RRCPart := mkRRCPart { rp_Identity : ident; rp_Config : SConfig; rp_Address : string; rp_AppData : string }.
Record GroupPart := mkGroupPart { gp_Identity : ident; gp_Config : GConfig; gp_Address : string; gp_MaxStampCost : Z }.
Record PagePart := mkPagePart { pp_Identity : ident; pp_Config : PConfig; pp_Address : string }.
Record Wiring := mkWiring {
  wi_Config : Config;
  wi_Hub : Hub;
  wi_RRC : option RRCPart;
  wi_Group : option GroupPart;
  wi_Page : option PagePart;
  wi_Pins : list string;
  wi_Announces : list Announce
}.
Definition addresses (w : Wiring) : list (string * string) :=
  [("rrc_hub", from_option rp_Address "" (wi_RRC w)); ("lxmf_group", from_option gp_Address "" (wi_Group w));
   ("page", from_option pp_Address "" (wi_Page w))].

Section run.
Context {U : Unicode} {N : Norm} {W : World} {P : Platform} {C : Cbor}.
Notation AM := (ST Machine).
Definition app_fail {A} (text : string) : AM A := fail (ErrInternal text).
Definition app_check (e : option string) (f : string -> string) : AM unit := match e with Some e => app_fail (f e) | None => ret tt end.

(** ** netstack.go *)
Definition loadOrCreateIdentity (path : string) : AM ident :=
  m <- get ;;
  match mc_ids m !! path with
  | Some (IdKey id) => ret id
  | Some (IdBroken e) => app_fail (cat ["identity "; path; ": "; e])
  | None =>
    app_check (pf_mkdir (Dir path)) (fun e => e) ;;;
    modify (fun m => mkMachine (mc_ids m) (S (mc_drawn m))) ;;;
    match pf_new_identity (mc_drawn m) with
    | inl e => app_fail e
    | inr id =>
      app_check (pf_save path) (fun e => cat ["save identity "; path; ": "; e]) ;;;
      modify (fun m => mkMachine (<[path := IdKey id]> (mc_ids m)) (mc_drawn m)) ;;;
      ret id
    end
  end.

(** ** [Run] *)
Definition hub_config (c : AConfig) (admins : list ident) (groupAddress : string) : Config :=
  let d := Defaults in
  let h := ac_Hub c in
  mkConfig (ah_Name h) admins (ah_Rooms h) (ah_GroupRoom h) groupAddress (ah_Retention h) (ah_ReplayFirstTime h) (ah_ReplayMax h)
    (HistoryMax d) (HistoryCooldown d) (ah_PostsPerMinute h) (ah_MaxBodyBytes h) (MaxTopicBytes d) (MaxRoomNameBytes d)
    (MaxRoomsPerPerson d) (InviteTTL d) (PruneRoomsAfter d).
Definition rrc_config (c : AConfig) (version : string) : SConfig :=
  let d := server_Defaults in
  let r := ac_RRC c in
  mkSConfig (ah_Name (ac_Hub c)) version (ar_Greeting r) (ah_GroupRoom (ac_Hub c)) (sc_MaxNickBytes d) (sc_MaxRoomNameBytes d)
    (if 0 <? ar_MaxMsgBodyBytes r then ar_MaxMsgBodyBytes r else sc_MaxMsgBodyBytes d) (sc_MaxRoomsPerSession d)
    (if 0 <? ar_RatePerMinute r then ar_RatePerMinute r else sc_RatePerMinute d) (ar_IncludeJoinedMemberList r)
    (sc_PingInterval d) (sc_PingTimeout d) (sc_HelloTimeout d) (sc_Workers d) (sc_SendQueue d).
(** What is not hex is no node: [Validate] has checked it. *)
Definition propagation_node (c : AConfig) : string := default "" (hex_decode (ag_PropagationNode (ac_Group c))).
Definition lxmf_config (c : AConfig) : GConfig :=
  let d := group_Defaults in
  let g := ac_Group c in
  mkGConfig (ag_Name g) (ah_GroupRoom (ac_Hub c)) (Some (propagation_node c)) (gc_Senders d)
    (if 0 <? ag_JoinDigest g then ag_JoinDigest g else gc_JoinDigest d) (gc_DirectAttempts d) (gc_AwayFor d) (gc_GiveUpAfter d).
Definition nomad_config (c : AConfig) (hubAddress groupAddress nodeAddress : string) (banner : option (list string)) : PConfig :=
  mkPConfig (ap_Title (ac_Page c)) (ah_GroupRoom (ac_Hub c)) hubAddress groupAddress nodeAddress (ap_WikiURL (ac_Page c)) banner.
Definition hub_aspect : string := "rrc.hub".
Definition page_aspect : string := "nomadnetwork.node".
Definition DestinationHashFor (id : ident) (aspect : string) : string := DestinationHash (NameHash aspect) id.

(** The group's identity, loaded before the hub. *)
Definition run_group_identity (c : AConfig) : AM (option ident) :=
  if ag_Enabled (ac_Group c) then id <- loadOrCreateIdentity (config_path c (ag_Identity (ac_Group c))) ;; ret (Some id)
  else ret None.
Definition group_address (groupID : option ident) : string :=
  match groupID with Some id => hex_encode (LXMFAddress id) | None => "" end.
(** [hub.New] on the open store. *)
Definition run_hub (c : AConfig) (admins : list ident) (groupID : option ident) (t : Z) (r : string) (db : DB) : AM (Config * Hub) :=
  match validate (hub_config c admins (group_address groupID)) with
  | None => app_fail "hub configuration"
  | Some hcfg =>
    match New (E := {| cfg := hcfg; now := t; rnd := r; env_unicode := U; env_norm := N |}) db with
    | None => app_fail "default rooms"
    | Some h => ret (hcfg, h)
    end
  end.
Definition run_rrc (c : AConfig) (version : string) : AM (option RRCPart) :=
  if negb (ar_Enabled (ac_RRC c)) then ret None else
  id <- loadOrCreateIdentity (config_path c (ar_Identity (ac_RRC c))) ;;
  match AnnounceAppData (ah_Name (ac_Hub c)) with
  | None => app_fail "announce"
  | Some appData =>
    let dest := DestinationHashFor id hub_aspect in
    app_check (pf_register dest) (fun e => "register rrc.hub: " +:+ e) ;;;
    ret (Some (mkRRCPart id (server_config (rrc_config c version)) (hex_encode dest) appData))
  end.
Definition run_group (c : AConfig) (groupID : option ident) : AM (option GroupPart * list string) :=
  match groupID with
  | None => ret (None, [])
  | Some id =>
    app_check (pf_delivery id) (fun e => "lxmf group: " +:+ e) ;;;
    let node := propagation_node c in
    ret (Some (mkGroupPart id (group_config (lxmf_config c)) (hex_encode (LXMFAddress id)) (ag_MaxStampCost (ac_Group c))),
         if len node =? 16 then [node] else [])
  end.
Definition page_paths : list string := [PathIndex; PathOlder; PathMessages; PathProfile; PathMe; PathHelp].
Definition run_page (c : AConfig) (hubAddress groupAddress : string) : AM (option PagePart) :=
  if negb (ap_Enabled (ac_Page c)) then ret None else
  id <- loadOrCreateIdentity (config_path c (ap_Identity (ac_Page c))) ;;
  match BannerLines c with
  | inl e => app_fail e
  | inr banner =>
    let dest := DestinationHashFor id page_aspect in
    app_check (pf_register dest) (fun e => "register page node: " +:+ e) ;;;
    let pcfg := page_config (nomad_config c hubAddress groupAddress (hex_encode dest) banner) in
    foreach page_paths (fun p => app_check (pf_register p) (fun e => cat ["register "; p; ": "; e])) ;;;
    ret (Some (mkPagePart id pcfg (hex_encode dest)))
  end.
(** The queue of each way in that subscribes. *)
Definition subscribe_if (b : bool) (name : string) (h : Hub) : Hub := if b then Subscribe name 4096 h else h.
Definition announces_of (c : AConfig) : list Announce :=
  (if ar_Enabled (ac_RRC c) then [mkAnnounce "rrc.hub" (2 * Second) (ar_AnnounceInterval (ac_RRC c))] else []) ++
  (if ag_Enabled (ac_Group c) then [mkAnnounce "lxmf.delivery" (20 * Second) (ag_AnnounceInterval (ac_Group c))] else []) ++
  (if ap_Enabled (ac_Page c) then [mkAnnounce "nomadnetwork.node" (40 * Second) (ap_AnnounceInterval (ac_Page c))] else []).
Definition app_get {A} (r : string + A) (f : string -> string) : AM A := match r with inl e => app_fail (f e) | inr a => ret a end.
Definition Run (c : AConfig) (version : string) (t : Z) (r : string) : AM Wiring :=
  app_check (pf_mkdir (ac_DataDir c)) (fun e => "data_dir: " +:+ e) ;;;
  db <- app_get (pf_open (GoStd.Join (ac_DataDir c) "hub.db")) id ;;
  hashes <- app_get (AdminHashes c) id ;;
  groupID <- run_group_identity c ;;
  let! (hcfg, h) := run_hub c hashes groupID t r db in
  app_check (pf_dial (ac_Backbone c)) (fun e => cat ["backbone "; ac_Backbone c; ": "; e]) ;;;
  rrc <- run_rrc c version ;;
  let! (group, pins) := run_group c groupID in
  let h := subscribe_if (bool_decide (is_Some group)) "lxmf" (subscribe_if (bool_decide (is_Some rrc)) "rrc" h) in
  page <- run_page c (from_option rp_Address "" rrc) (from_option gp_Address "" group) ;;
  app_check (w_zone (ac_Timezone c)) (fun e => "timezone: " +:+ e) ;;;
  ret (mkWiring hcfg h rrc group page pins (announces_of c)).
End run.

(** * What is put together

    internal/app/app.go: what [Run] puts together fits together, and is the same
    hub at the same addresses after a restart. *)
#[local] Opaque Sum256 hex_encode.

(** ** Identity files *)
Section identities.
Context {U : Unicode} {N : Norm} {W : World} {P : Platform}.
(** Identities that are there stay. *)
Definition kept_ids (m m' : Machine) : Prop := forall path id, mc_ids m !! path = Some (IdKey id) -> mc_ids m' !! path = Some (IdKey id).
#[export] Instance kept_ids_preorder : PreOrder kept_ids.
Proof. split; [by intros m path id|]. intros m1 m2 m3 H12 H23 path id H. by apply H23, H12. Qed.
Lemma identity_kept path m id m' : loadOrCreateIdentity path m = (Ok id, m') ->
  kept_ids m m' /\ mc_ids m' !! path = Some (IdKey id) /\ (is_Some (mc_ids m !! path) -> m' = m).
Proof.
  unfold loadOrCreateIdentity, app_check, app_fail. intros H. run_ok H. injection E as <- <-.
  destruct (mc_ids m !! path) as [[e|k]|] eqn:Hm; [done|by injection H as <- <-|]. run_ok H.
  destruct (pf_mkdir _); [done|]. injection E as _ <-. injection E0 as _ <-.
  destruct (pf_new_identity _) as [|k]; [done|]. run_ok H. destruct (pf_save _); [done|]. injection E as _ <-.
  injection E0 as _ <-. injection H as <- <-. cbn. split_and!; [|by rewrite lookup_insert_eq|by intros [? ?]].
  intros p i Hp. cbn in *. rewrite lookup_insert_ne; [done|]. congruence.
Qed.
End identities.

(** ** [Run], taken apart *)
Section run.
Context {U : Unicode} {N : Norm} {W : World} {P : Platform} {C : Cbor}.
Lemma app_check_ok e f m u m' : app_check e f m = (Ok u, m') -> m' = m /\ e = None.
Proof. destruct e; cbn; [done|]. by intros [= _ <-]. Qed.
Lemma app_ret_ok {A} (a b : A) (m m' : Machine) : ret a m = (Ok b, m') -> b = a /\ m' = m.
Proof. by intros [= -> ->]. Qed.
Lemma app_get_ok {A} (r : string + A) f m a m' : app_get r f m = (Ok a, m') -> m' = m /\ r = inr a.
Proof. destruct r; cbn; [done|]. by intros [= <- <-]. Qed.
Lemma checks_ok {A} (l : list A) (e : A -> option string) f m u m' : foreach l (fun p => app_check (e p) (f p)) m = (Ok u, m') -> m' = m.
Proof.
  intros H. refine (foreach_ok (fun _ s => s = m) l _ _ m u m' eq_refl H).
  intros _ a s u0 s' _ -> Ha. by apply app_check_ok in Ha as [-> _].
Qed.

Lemma group_identity_ok c m g m' : run_group_identity c m = (Ok g, m') ->
  kept_ids m m' /\ (ag_Enabled (ac_Group c) = false -> g = None /\ m' = m) /\
  (ag_Enabled (ac_Group c) = true -> exists id, g = Some id /\ mc_ids m' !! config_path c (ag_Identity (ac_Group c)) = Some (IdKey id)) /\
  (ag_Enabled (ac_Group c) = true -> is_Some (mc_ids m !! config_path c (ag_Identity (ac_Group c))) -> m' = m).
Proof.
  unfold run_group_identity. destruct (ag_Enabled _); [|by intros [= <- <-]]. intros H. run_ok H. injection H as <- <-.
  apply identity_kept in E as (H1 & H2 & H3). split_and!; [done..|by eauto|done].
Qed.
Lemma rrc_ok c version m o m' : run_rrc c version m = (Ok o, m') ->
  kept_ids m m' /\ (ar_Enabled (ac_RRC c) = false -> o = None /\ m' = m) /\
  (ar_Enabled (ac_RRC c) = true -> exists id ad, o = Some (mkRRCPart id (server_config (rrc_config c version)) (hex_encode (DestinationHashFor id hub_aspect)) ad) /\
     AnnounceAppData (ah_Name (ac_Hub c)) = Some ad /\ mc_ids m' !! config_path c (ar_Identity (ac_RRC c)) = Some (IdKey id)) /\
  (ar_Enabled (ac_RRC c) = true -> is_Some (mc_ids m !! config_path c (ar_Identity (ac_RRC c))) -> m' = m).
Proof.
  unfold run_rrc. destruct (ar_Enabled _); [|by intros [= <- <-]]. cbn [negb]. intros H. run_ok H.
  destruct (AnnounceAppData _) as [ad|]; [|done]. run_ok H. apply app_ret_ok in H as [-> ->].
  apply app_check_ok in E0 as [-> _]. apply identity_kept in E as (H1 & H2 & H3). split_and!; [done..|by eauto 6|done].
Qed.
Lemma group_ok c groupID m o m' : run_group c groupID m = (Ok o, m') ->
  m' = m /\ o = match groupID with
                | None => (None, [])
                | Some id => (Some (mkGroupPart id (group_config (lxmf_config c)) (hex_encode (LXMFAddress id)) (ag_MaxStampCost (ac_Group c))),
                              if len (propagation_node c) =? 16 then [propagation_node c] else [])
                end.
Proof.
  unfold run_group. destruct groupID as [id|]; [|by intros [= <- <-]]. intros H. run_ok H. apply app_ret_ok in H as [-> ->].
  by apply app_check_ok in E as [-> _].
Qed.
Lemma page_ok c ha ga m o m' : run_page c ha ga m = (Ok o, m') ->
  kept_ids m m' /\ (ap_Enabled (ac_Page c) = false -> o = None /\ m' = m) /\
  (ap_Enabled (ac_Page c) = true -> exists id b, let addr := hex_encode (DestinationHashFor id page_aspect) in
     o = Some (mkPagePart id (page_config (nomad_config c ha ga addr b)) addr) /\ BannerLines c = inr b /\
     mc_ids m' !! config_path c (ap_Identity (ac_Page c)) = Some (IdKey id)) /\
  (ap_Enabled (ac_Page c) = true -> is_Some (mc_ids m !! config_path c (ap_Identity (ac_Page c))) -> m' = m).
Proof.
  unfold run_page. destruct (ap_Enabled _); [|by intros [= <- <-]]. cbn [negb]. intros H. run_ok H.
  destruct (BannerLines c) as [|b]; [done|]. run_ok H. apply app_ret_ok in H as [-> ->].
  apply app_check_ok in E0 as [-> _]. apply checks_ok in E1 as ->. apply identity_kept in E as (H1 & H2 & H3). split_and!; [done..|by eauto 6|done].
Qed.
Lemma run_hub_ok c hashes g t r db m hh m' : run_hub c hashes g t r db m = (Ok hh, m') ->
  m' = m /\ validate (hub_config c hashes (group_address g)) = Some hh.1 /\
  New (E := {| cfg := hh.1; now := t; rnd := r; env_unicode := U; env_norm := N |}) db = Some hh.2.
Proof.
  unfold run_hub. destruct (validate _) as [hcfg|]; [|done]. destruct (New db) as [h|] eqn:E; [|done]. by intros [= <- <-].
Qed.

(** The steps of a [Run] that succeeds. *)
Lemma Run_steps c version t r m w m' : Run c version t r m = (Ok w, m') ->
  exists db hashes g m1 m2 pins ad, pf_open (GoStd.Join (ac_DataDir c) "hub.db") = inr db /\ AdminHashes c = inr hashes /\
    run_group_identity c m = (Ok g, m1) /\
    validate (hub_config c hashes (group_address g)) = Some (wi_Config w) /\
    New (E := {| cfg := wi_Config w; now := t; rnd := r; env_unicode := U; env_norm := N |}) db = Some ad /\
    run_rrc c version m1 = (Ok (wi_RRC w), m2) /\ run_group c g m2 = (Ok (wi_Group w, pins), m2) /\
    run_page c (from_option rp_Address "" (wi_RRC w)) (from_option gp_Address "" (wi_Group w)) m2 = (Ok (wi_Page w), m') /\
    wi_Hub w = subscribe_if (bool_decide (is_Some (wi_Group w))) "lxmf" (subscribe_if (bool_decide (is_Some (wi_RRC w))) "rrc" ad) /\
    wi_Pins w = pins /\ wi_Announces w = announces_of c.
Proof.
  unfold Run. intros H. run_ok H. apply app_check_ok in E as [-> _]. apply app_get_ok in E0 as [-> Hdb]. apply app_get_ok in E1 as [-> Hh].
  rename a3 into hh. pose proof (run_hub_ok _ _ _ _ _ _ _ _ _ E3) as (-> & Hv & Hn). destruct hh as [hcfg ad]. cbn [fst snd] in *. run_ok H.
  apply app_check_ok in E as [-> _]. pose proof (proj1 (group_ok _ _ _ _ _ E1)) as ->. destruct a5 as [gp pins]. run_ok H.
  apply app_check_ok in E4 as [-> _]. apply app_ret_ok in H as [-> ->]. cbn [wi_Config wi_Hub wi_RRC wi_Group wi_Page wi_Pins wi_Announces].
  exists a0, a1, a2, s2, s0, pins, ad. split_and!; done.
Qed.

Lemma hub_inv_New {Pol : Policy} (I : DB -> Prop) {SI : StoreInv Pol I} {E : Env} db h : I db -> New db = Some h -> hub_inv I h.
Proof.
  intros Hd. unfold New. pose proof (pres_ensure_default_rooms (DI := I) db Hd) as Hk.
  destruct (ensure_default_rooms db) as [[[]|e] d]; [|done]. intros [= <-]. by constructor; [|constructor|].
Qed.
Lemma hub_inv_subscribe_if I b name h : hub_inv I h -> hub_inv I (subscribe_if b name h).
Proof. intros []. destruct b; [|by constructor]. constructor; cbn; [done..|]. apply Forall_app; split; [done|]. by repeat constructor. Qed.

(** The rooms the ways in take for the group's. *)
Definition group_rooms (w : Wiring) : list string :=
  option_list (sc_GroupRoom ∘ rp_Config <$> wi_RRC w) ++ option_list (gc_GroupRoom ∘ gp_Config <$> wi_Group w) ++
  option_list (pc_GroupRoom ∘ pp_Config <$> wi_Page w).

Lemma validate_config c c' : validate c = Some c' -> GroupAddress c' = GroupAddress c /\ Admins c' = Admins c /\
  (GroupRoom c <> "" -> MaxRoomNameBytes c = MaxRoomNameBytes Defaults ->
   NormalizeRoom (GroupRoom c) (MaxRoomNameBytes Defaults) = inr (GroupRoom c')).
Proof.
  unfold validate. intros H. destruct (fold_left _ _ _) as [[rs listed] bad].
  destruct (_ || _) eqn:Hb in H; [done|]. injection H as <-. cbn. split_and!; [done..|]. intros Hg Hm.
  apply orb_false_iff in Hb as [Hb _]. apply orb_false_iff in Hb as [Hb _]. apply orb_false_iff in Hb as [_ Hb].
  rewrite (bool_decide_eq_false_2 (GroupRoom c = "") Hg), Hm in *. change (set_pos _ _) with (MaxRoomNameBytes Defaults) in *.
  destruct (NormalizeRoom _ _); [by vm_compute in Hb|done].
Qed.

Lemma subscribed_names h b1 b2 : h_subs h = [] ->
  h_subs (subscribe_if b2 "lxmf" (subscribe_if b1 "rrc" h)) =
    map (fun n => mkSubscription n 4096 [] 0) ((if b1 then ["rrc"] else []) ++ (if b2 then ["lxmf"] else [])).
Proof. intros Hs. destruct b1, b2; cbn; by rewrite Hs. Qed.

(** C10. What [Run] puts together from a configuration fits together.  The hub runs
    on a configuration its own check passes, with the owners the configuration
    names; whatever the operations of the store keep holds of it as it held of
    the store; an event queue is there for each way in that reads one, and each way
    in is there if and only if it is enabled.  The address the hub tells people to
    write to is the group's, and the page shows the RRC hub's address and the
    group's and its own.  The hub's group room is the configured name normalised;
    the ways in have it as it is written. *)
Theorem Run_wired c version t r m w m' : Run c version t r m = (Ok w, m') ->
  validate (wi_Config w) = Some (wi_Config w) /\ AdminHashes c = inr (Admins (wi_Config w)) /\
  (exists db, pf_open (GoStd.Join (ac_DataDir c) "hub.db") = inr db /\
     forall (Pol : Policy) (I : DB -> Prop) (SI : StoreInv Pol I), I db -> hub_inv I (wi_Hub w)) /\
  map sub_name (h_subs (wi_Hub w)) = (if ar_Enabled (ac_RRC c) then ["rrc"] else []) ++ (if ag_Enabled (ac_Group c) then ["lxmf"] else []) /\
  (is_Some (wi_RRC w) <-> ar_Enabled (ac_RRC c) = true) /\ (is_Some (wi_Group w) <-> ag_Enabled (ac_Group c) = true) /\
  (is_Some (wi_Page w) <-> ap_Enabled (ac_Page c) = true) /\
  GroupAddress (wi_Config w) = from_option gp_Address "" (wi_Group w) /\
  (forall p, wi_Page w = Some p -> pc_HubAddress (pp_Config p) = from_option rp_Address "" (wi_RRC w) /\
     pc_GroupAddress (pp_Config p) = from_option gp_Address "" (wi_Group w) /\ pc_NodeAddress (pp_Config p) = pp_Address p) /\
  (ah_GroupRoom (ac_Hub c) <> "" ->
     NormalizeRoom (ah_GroupRoom (ac_Hub c)) (MaxRoomNameBytes Defaults) = inr (GroupRoom (wi_Config w)) /\
     Forall (eq (ah_GroupRoom (ac_Hub c))) (group_rooms w)).
Proof.
  intros H. destruct (Run_steps _ _ _ _ _ _ _ H) as (db & hashes & g & m1 & m2 & pins & h & Hdb & Hh & Hg & Hv & Hn & Hr & Hgr & Hp & Hhub & _).
  pose proof (validate_config _ _ Hv) as (Hga & Hadm & Hroom).
  pose proof (validate_sound _ _ Hv) as (_ & _ & _ & _ & Hidem).
  apply group_identity_ok in Hg as (_ & Hg0 & Hg1 & _). apply rrc_ok in Hr as (_ & Hr0 & Hr1 & _). apply page_ok in Hp as (_ & Hp0 & Hp1 & _).
  apply group_ok in Hgr as [_ Hgr].
  assert (wi_Group w = match g with None => None | Some id => Some (mkGroupPart id (group_config (lxmf_config c)) (hex_encode (LXMFAddress id)) (ag_MaxStampCost (ac_Group c))) end) as Hwg
    by (destruct g; exact (f_equal fst Hgr)).
  assert (h_subs h = []) as Hs0 by (unfold New in Hn; destruct (ensure_default_rooms db) as [[]]; by simplify_eq).
  assert (is_Some (wi_RRC w) <-> ar_Enabled (ac_RRC c) = true) as Hr2.
  { destruct (ar_Enabled (ac_RRC c)); [destruct (Hr1 eq_refl) as (? & ? & -> & _)|rewrite (proj1 (Hr0 eq_refl))]; split; by try intros [? ?]. }
  assert (is_Some (wi_Group w) <-> ag_Enabled (ac_Group c) = true) as Hg2.
  { rewrite Hwg. destruct (ag_Enabled (ac_Group c)); [destruct (Hg1 eq_refl) as (? & -> & _)|rewrite (proj1 (Hg0 eq_refl))]; split; by try intros [? ?]. }
  split_and!; [done|by rewrite Hadm|..].
  - exists db. split; [done|]. intros Pol I SI Hd. rewrite Hhub. do 2 apply hub_inv_subscribe_if. by eapply hub_inv_New.
  - rewrite Hhub, subscribed_names by done. rewrite map_map, map_id. f_equal.
    + rewrite (bool_decide_ext _ _ Hr2). by destruct (ar_Enabled _).
    + rewrite (bool_decide_ext _ _ Hg2). by destruct (ag_Enabled _).
  - done.
  - done.
  - destruct (ap_Enabled (ac_Page c)); [destruct (Hp1 eq_refl) as (? & ? & -> & _)|rewrite (proj1 (Hp0 eq_refl))]; split; by try intros [? ?].
  - rewrite Hga, Hwg. destruct g; reflexivity.
  - intros p Hpg. destruct (ap_Enabled (ac_Page c)); [|by rewrite (proj1 (Hp0 eq_refl)) in Hpg].
    destruct (Hp1 eq_refl) as (id & b & Hpw & _). rewrite Hpg in Hpw. apply (inj Some) in Hpw as ->. by repeat split.
  - intros Hne. split; [by apply Hroom|]. unfold group_rooms. rewrite !Forall_app. split_and!.
    + destruct (ar_Enabled (ac_RRC c)); [|by rewrite (proj1 (Hr0 eq_refl))]. destruct (Hr1 eq_refl) as (id & ad & -> & _). by repeat constructor.
    + rewrite Hwg. destruct g; [|done]. repeat constructor. cbn. by rewrite bool_decide_eq_false_2.
    + destruct (ap_Enabled (ac_Page c)); [|by rewrite (proj1 (Hp0 eq_refl))]. destruct (Hp1 eq_refl) as (id & b & -> & _). repeat constructor.
      cbn. by rewrite bool_decide_eq_false_2.
Qed.
End run.


(** The same ways in, from the same files. *)
Definition same_ways (c c2 : AConfig) : Prop :=
  ac_DataDir c2 = ac_DataDir c /\
  ag_Enabled (ac_Group c2) = ag_Enabled (ac_Group c) /\ ag_Identity (ac_Group c2) = ag_Identity (ac_Group c) /\
  ar_Enabled (ac_RRC c2) = ar_Enabled (ac_RRC c) /\ ar_Identity (ac_RRC c2) = ar_Identity (ac_RRC c) /\
  ap_Enabled (ac_Page c2) = ap_Enabled (ac_Page c) /\ ap_Identity (ac_Page c2) = ap_Identity (ac_Page c).
Lemma same_path c c2 p : ac_DataDir c2 = ac_DataDir c -> config_path c2 p = config_path c p.
Proof. intros E. unfold config_path. by rewrite E. Qed.
Section again.
Context {U : Unicode} {N : Norm} {C : Cbor}.
(** Who a wiring is to the network. *)
Definition identities (w : Wiring) : list (option ident) :=
  [rp_Identity <$> wi_RRC w; gp_Identity <$> wi_Group w; pp_Identity <$> wi_Page w].
(** The files of the ways in there are. *)
Definition files (c : AConfig) : list string :=
  (if ag_Enabled (ac_Group c) then [config_path c (ag_Identity (ac_Group c))] else []) ++
  (if ar_Enabled (ac_RRC c) then [config_path c (ar_Identity (ac_RRC c))] else []) ++
  (if ap_Enabled (ac_Page c) then [config_path c (ap_Identity (ac_Page c))] else []).
(** What [Run] leaves: the identities are those of the files. *)
Definition from_file (m : Machine) (c : AConfig) (enabled : bool) (path : string) (o : option ident) : Prop :=
  if enabled then exists id, o = Some id /\ mc_ids m !! config_path c path = Some (IdKey id) else o = None.
Lemma from_file_same c c2 m1 m2 m3 b path o o2 : ac_DataDir c2 = ac_DataDir c -> kept_ids m1 m2 -> kept_ids m2 m3 ->
  from_file m1 c b path o -> from_file m3 c2 b path o2 -> o = o2 /\ (b = true -> is_Some (mc_ids m2 !! config_path c2 path)).
Proof.
  intros Hd K1 K2. unfold from_file. destruct b; [|by intros -> ->]. rewrite (same_path c c2) by done.
  intros (id & -> & H1%K1) (id2 & -> & H2). pose proof (K2 _ _ H1). split; [congruence|eauto].
Qed.
Lemma Run_identities {W : World} {P : Platform} c version t r m w m' : Run c version t r m = (Ok w, m') ->
  kept_ids m m' /\
  from_file m' c (ar_Enabled (ac_RRC c)) (ar_Identity (ac_RRC c)) (rp_Identity <$> wi_RRC w) /\
  from_file m' c (ag_Enabled (ac_Group c)) (ag_Identity (ac_Group c)) (gp_Identity <$> wi_Group w) /\
  from_file m' c (ap_Enabled (ac_Page c)) (ap_Identity (ac_Page c)) (pp_Identity <$> wi_Page w) /\
  addresses w = [("rrc_hub", from_option (fun id => hex_encode (DestinationHashFor id hub_aspect)) "" (rp_Identity <$> wi_RRC w));
                 ("lxmf_group", from_option (fun id => hex_encode (LXMFAddress id)) "" (gp_Identity <$> wi_Group w));
                 ("page", from_option (fun id => hex_encode (DestinationHashFor id page_aspect)) "" (pp_Identity <$> wi_Page w))] /\
  GroupAddress (wi_Config w) = from_option (fun id => hex_encode (LXMFAddress id)) "" (gp_Identity <$> wi_Group w) /\
  (Forall (fun path => is_Some (mc_ids m !! path)) (files c) -> m' = m).
Proof.
  intros H. destruct (Run_steps _ _ _ _ _ _ _ H) as (db & hashes & g & m1 & m2 & pins & h & Hdb & Hh & Hg & Hv & Hn & Hr & Hgr & Hp & _).
  pose proof (validate_config _ _ Hv) as (Hga & _).
  apply group_identity_ok in Hg as (K1 & Hg0 & Hg1 & S1). apply rrc_ok in Hr as (K2 & Hr0 & Hr1 & S2). apply page_ok in Hp as (K3 & Hp0 & Hp1 & S3).
  apply group_ok in Hgr as [_ Hgr].
  assert (wi_Group w = match g with None => None | Some id => Some (mkGroupPart id (group_config (lxmf_config c)) (hex_encode (LXMFAddress id)) (ag_MaxStampCost (ac_Group c))) end) as Hwg
    by (destruct g; exact (f_equal fst Hgr)).
  assert (gp_Identity <$> wi_Group w = g) as Hgi by (rewrite Hwg; by destruct g).
  split_and!.
  - by do 2 etrans.
  - unfold from_file. destruct (ar_Enabled _); [|by rewrite (proj1 (Hr0 eq_refl))]. destruct (Hr1 eq_refl) as (id & ad & -> & _ & Hid).
    exists id. split; [done|by apply K3].
  - unfold from_file. rewrite Hgi. destruct (ag_Enabled _); [|by apply (Hg0 eq_refl)]. destruct (Hg1 eq_refl) as (id & -> & Hid).
    exists id. split; [done|by apply K3, K2].
  - unfold from_file. destruct (ap_Enabled _); [|by rewrite (proj1 (Hp0 eq_refl))]. destruct (Hp1 eq_refl) as (id & b & -> & _ & Hid). by exists id.
  - unfold addresses. f_equal; [|f_equal; [|f_equal]].
    + destruct (ar_Enabled (ac_RRC c)); [|by rewrite (proj1 (Hr0 eq_refl))]. by destruct (Hr1 eq_refl) as (id & ad & -> & _).
    + rewrite Hwg. by destruct g.
    + destruct (ap_Enabled (ac_Page c)); [|by rewrite (proj1 (Hp0 eq_refl))]. by destruct (Hp1 eq_refl) as (id & b & -> & _).
  - rewrite Hga, Hgi. by destruct g.
  - intros Hf. unfold files in Hf. rewrite !Forall_app in Hf. destruct Hf as (F1 & F2 & F3).
    assert (m1 = m) as ->.
    { destruct (ag_Enabled _) eqn:He; [apply S1; [done|exact (Forall_inv F1)]|by apply Hg0]. }
    assert (m2 = m) as ->.
    { destruct (ar_Enabled _) eqn:He; [apply S2; [done|exact (Forall_inv F2)]|by apply Hr0]. }
    destruct (ap_Enabled _) eqn:He; [apply S3; [done|exact (Forall_inv F3)]|by apply Hp0].
Qed.

(** C11. A restart is the same hub to everyone else.  Whatever the disk and the network
    do the second time, whatever else has been written to the data directory since
    and whatever the configuration says of anything but which ways in there are and
    where their identities are kept: if [Run] succeeds, each way in has the identity
    and the address it had, the address the hub tells people has not changed, and
    no identity is made anew. *)
Theorem Run_again {W W2 : World} {P P2 : Platform} c c2 version version2 t t2 r r2 m w m' m2 w2 m2' :
  Run (W := W) (P := P) c version t r m = (Ok w, m') -> kept_ids m' m2 -> same_ways c c2 ->
  Run (W := W2) (P := P2) c2 version2 t2 r2 m2 = (Ok w2, m2') ->
  m2' = m2 /\ identities w2 = identities w /\ addresses w2 = addresses w /\ GroupAddress (wi_Config w2) = GroupAddress (wi_Config w).
Proof.
  intros H1 Hk (Hd & Eg & Ig & Er & Ir & Ep & Ip) H2.
  apply Run_identities in H1 as (_ & R1 & G1 & P1 & A1 & B1 & _). apply Run_identities in H2 as (K2 & R2 & G2 & P2' & A2 & B2 & S2).
  rewrite Er, Ir in R2. rewrite Eg, Ig in G2. rewrite Ep, Ip in P2'.
  pose proof (from_file_same _ _ _ _ _ _ _ _ _ Hd Hk K2 R1 R2) as [Qr Fr].
  pose proof (from_file_same _ _ _ _ _ _ _ _ _ Hd Hk K2 G1 G2) as [Qg Fg].
  pose proof (from_file_same _ _ _ _ _ _ _ _ _ Hd Hk K2 P1 P2') as [Qp Fp].
  split_and!; [|unfold identities; congruence|by rewrite A1, A2, Qr, Qg, Qp|by rewrite B1, B2, Qg].
  apply S2. unfold files. rewrite Eg, Ig, Er, Ir, Ep, Ip, !Forall_app. split_and!; case_match; by repeat constructor; auto.
Qed.
End again.
