(* ===== verification/AppOps.v ===== *)
(** internal/app/ops.go, and what netstack.go and app.go run beside the hub: the
    nightly backups, files written in one go, the health file, the cache of
    announces, the announcer and the watch on the backbone, with the loops that do
    them night after night or at each tick.

    A disk is a folder's files by name.  Each call on it may be refused, or be the
    last one the process makes; how far it had got is a number ([Fault]).  A
    killed process makes no more calls. *)
From Stdlib Require Import SpecFloat.
From S2P Require Import Prelude Text TextCut GoStd Db HubCore Clock Importer AppConfig.
Local Open Scope Z_scope.

(** ** The disk *)
Inductive Fault := NoFault | Refuses (err : string) (n : nat) | Dies (n : nat).
Record Disk (B : Type) := mkDisk { dk_files : gmap string B; dk_faults : list Fault; dk_dead : bool }.
Arguments mkDisk {B}. Arguments dk_files {B}. Arguments dk_faults {B}. Arguments dk_dead {B}.
Definition killed : Error := ErrInternal "killed".
Definition no_such_file : Error := ErrNotFound "file".

Section disk.
Context {B : Type}.
Notation DM := (ST (Disk B)).
Notation Files := (gmap string B).
(** A call: what it has done if it gets as far as [n], and what it does. *)
Definition disk_op {A} (part : nat -> Files -> Files) (run : Files -> res A * Files) : DM A := fun d =>
  if dk_dead d then (Fail killed, d) else
  let go fs := let '(r, f) := run (dk_files d) in (r, mkDisk f fs false) in
  match dk_faults d with
  | [] => go []
  | NoFault :: fs => go fs
  | Refuses e n :: fs => (Fail (ErrInternal e), mkDisk (part n (dk_files d)) fs false)
  | Dies n :: fs => (Fail killed, mkDisk (part n (dk_files d)) fs true)
  end.
Definition untouched (n : nat) (f : Files) : Files := f.
Definition os_mkdir : DM unit := disk_op untouched (fun f => (Ok tt, f)).
Definition os_Stat (name : string) : DM unit :=
  disk_op untouched (fun f => (if bool_decide (is_Some (f !! name)) then Ok tt else Fail no_such_file, f)).
Definition os_Remove (name : string) : DM unit :=
  disk_op untouched (fun f => if bool_decide (is_Some (f !! name)) then (Ok tt, delete name f) else (Fail no_such_file, f)).
Definition os_Rename (from to : string) : DM unit :=
  disk_op untouched (fun f => match f !! from with Some b => (Ok tt, <[to := b]> (delete from f)) | None => (Fail no_such_file, f) end).
Definition os_ReadDir : DM (list string) := disk_op untouched (fun f => (Ok (order_by String.leb (map_to_list f).*1), f)).
End disk.

(** ** Files written in one go *)
(** [writeAtomic], and [announceCache.save]: a write error does not keep the file
    from being synced and closed. *)
Definition os_Create (name : string) : ST (Disk string) unit := disk_op untouched (fun f => (Ok tt, <[name := ""]> f)).
Definition os_Write (name b : string) : ST (Disk string) unit :=
  disk_op (fun n => <[name := str_take n b]>) (fun f => (Ok tt, <[name := b]> f)).
Definition os_Sync : ST (Disk string) unit := disk_op untouched (fun f => (Ok tt, f)).
Definition os_Close : ST (Disk string) unit := disk_op untouched (fun f => (Ok tt, f)).
Definition join_errs (rs : list (res unit)) : option Error :=
  match omap (fun r => match r with Fail e => Some e | Ok _ => None end) rs with [] => None | e :: _ => Some e end.
Definition writeAtomic (path b : string) : ST (Disk string) unit :=
  let tmp := path +:+ ".tmp" in
  os_Create tmp ;;;
  werr <- catch (os_Write tmp b) ;;
  serr <- catch os_Sync ;;
  cerr <- catch os_Close ;;
  match join_errs [werr; serr; cerr] with
  | Some e => fail e
  | None => os_Rename tmp path
  end.

(** ** Backups *)
(** A file of the folder: a copy of the whole database, part of one, or something
    else. *)
Inductive Blob := Whole (db : DB) | Torn | Foreign (what : string).
Definition four_digits (z : Z) : string := two_digits (z / 100) +:+ two_digits (z mod 100).
Definition fmt_date (c : Civil) : string := cat [four_digits (civ_year c); "-"; two_digits (civ_month c); "-"; two_digits (civ_day c)].
Definition daily_name (days : Z) : string := cat ["hub-"; fmt_date (civil_of_days days); ".db"].
(** [dailyBackupName] *)
Fixpoint matches (pattern s : string) : bool :=
  match pattern, s with
  | EmptyString, EmptyString => true
  | String p ps, String c cs => (if (p =? "d")%char then ascii_digit_p (byte c) else (p =? c)%char) && matches ps cs
  | _, _ => false
  end.
Definition daily_pattern : string := "hub-dddd-dd-dd.".
Definition dailyBackupName (name : string) : bool :=
  has_suffix name ".db" && matches daily_pattern (str_take (String.length daily_pattern) name) && (String.length name =? 17)%nat.

Section backups.
(** [keep], and the offset of [location] from UTC in seconds at a time in seconds. *)
Context (keep : nat) (zone : Z -> Z).
Notation BM := (ST (Disk Blob)).

Definition local_seconds (t : Z) : Z := let s := t / Second in s + zone s.
Definition today (t : Z) : Z := local_seconds t / day_seconds.
(** [time.Date] at the second: the offset in force at the wall clock's reading, or
    at the moment that gives. *)
Definition time_Date (wall : Z) : Z := let off := zone wall in wall - zone (wall - off).
Definition half_past_three : Z := 3 * 3600 + 30 * 60.
(** [AddDate(0, 0, 1)]: the same reading a day on. *)
Definition day_after (s : Z) : Z := time_Date (s + zone s + day_seconds).
Definition untilNext (t : Z) : Z :=
  let next := time_Date (today t * day_seconds + half_past_three) in
  let next := if t <? next * Second then next else day_after next in
  next * Second - t.

(** VACUUM INTO. *)
Definition Backup (db : DB) (path : string) : BM unit :=
  disk_op (fun n f => match n, f !! path with S _, None => <[path := Torn]> f | _, _ => f end)
    (fun f => match f !! path with None => (Ok tt, <[path := Whole db]> f) | Some _ => (Fail (ErrInternal "output file already exists"), f) end).
Fixpoint prune_loop (names : list string) (errs : list Error) : BM (list Error) :=
  if (length names <=? keep)%nat then ret errs else
  match names with
  | [] => ret errs
  | n :: names => r <- catch (os_Remove n) ;; prune_loop names (match r with Fail e => errs ++ [e] | Ok _ => errs end)
  end.
Definition prune : BM unit :=
  entries <- os_ReadDir ;;
  errs <- prune_loop (order_by String.leb (List.filter dailyBackupName entries)) [] ;;
  match errs with [] => ret tt | e :: _ => fail e end.
Definition once (t : Z) (db : DB) : BM unit :=
  os_mkdir ;;;
  let name := daily_name (today t) in
  st <- catch (os_Stat name) ;;
  if is_ok st then ret tt else
  let tmp := name +:+ ".tmp" in
  catch (os_Remove tmp) ;;;
  handle (Backup db tmp) (fun e => catch (os_Remove tmp) ;;; fail e) ;;;
  os_Rename tmp name ;;;
  prune.
(** [backups.run]: a turn of its loop is how late the timer fires, how long the attempt
    takes and the store it finds; the turns end when the context does.  An error is
    logged and the next night is another attempt. *)
Record Night := mkNight { ni_late : Z; ni_took : Z; ni_store : DB }.
Fixpoint backups_run (t : Z) (nights : list Night) : BM unit :=
  match nights with
  | [] => ret tt
  | n :: nights =>
    let at_ := t + untilNext t + ni_late n in
    catch (once at_ (ni_store n)) ;;;
    backups_run (at_ + ni_took n) nights
  end.
End backups.

(** ** The health file *)
Record health := mkHealth {
  he_Version : string; he_StartedAt : Z; he_UpdatedAt : Z; he_BackboneConnected : bool;
  he_Addresses : list (string * string); he_Counters : gmap string (gmap string Z)
}.
Record healthWriter := mkHealthWriter {
  hw_path : string; hw_version : string; hw_started : Z; hw_addresses : list (string * string);
  hw_sources : list (string * gmap string Z)         (* what each component counts *)
}.
(** [connected] is nil in tests only; [process] is what processCounters reads. *)
Definition health_now (w : healthWriter) (t : Z) (connected : option bool) (process : gmap string Z) : health :=
  mkHealth (hw_version w) (hw_started w) t (default true connected) (hw_addresses w)
    (<["process" := process]> (fold_left (fun m s => <[s.1 := s.2]> m) (hw_sources w) ∅)).
(** [json.MarshalIndent] is a parameter. *)
Definition health_write (marshal_indent : health -> option string) (w : healthWriter) (t : Z) (connected : option bool)
    (process : gmap string Z) : ST (Disk string) unit :=
  match marshal_indent (health_now w t connected process) with
  | None => ret tt
  | Some b => catch (writeAtomic (hw_path w) (b +:+ newline)) ;;; ret tt
  end.
(** [healthWriter.run]: at the start, at each tick of the ticker and when the context is
    done, by what there is to write then. *)
Definition health_run (marshal_indent : health -> option string) (w : healthWriter) (start : Z * option bool * gmap string Z)
    (ticks : list (Z * option bool * gmap string Z)) (stop : Z * option bool * gmap string Z) : ST (Disk string) unit :=
  foreach (start :: ticks ++ [stop]) (fun o => health_write marshal_indent w o.1.1 o.1.2 o.2).
(** Counters that are there only if /proc says so. *)
Definition rss_bytes (statm : file) (pageSize : Z) : option Z :=
  match statm with
  | File raw =>
    match fields raw with
    | _ :: f :: _ => pages ← digits_value 0 f; if bool_decide (f = "") || (2 ^ 64 <=? pages) then None else Some ((pages * pageSize) mod 2 ^ 64)
    | _ => None
    end
  | _ => None
  end.
(** [processCounters], from what the runtime counts. *)
Definition processCounters (goroutines heap_bytes sys_bytes gc_cycles : Z) (statm : file) (pageSize : Z) : gmap string Z :=
  let c := list_to_map [("goroutines", goroutines); ("heap_bytes", heap_bytes); ("sys_bytes", sys_bytes); ("gc_cycles", gc_cycles)] in
  match rss_bytes statm pageSize with Some n => <["rss_bytes" := n]> c | None => c end.

(** ** netstack.go: what the transport has heard *)
Record KnownIdentity := mkKnownIdentity { ki_Hash : string; ki_PublicKey : string; ki_LastSeen : Z }.
Definition announces_kept : Z := 30 * 24 * Hour.
(** [announceCache.restore]: what is given back to the transport; JSON's decoder is
    a parameter. *)
Definition restore (decode : string -> string + list (option KnownIdentity)) (cache : file) (t : Z) : list KnownIdentity :=
  match cache with
  | File b =>
    match decode b with
    | inr entries =>
      List.filter (fun e => negb (len (ki_PublicKey e) =? 0) && negb (ki_LastSeen e <? t - announces_kept)) (omap id entries)
    | inl _ => []
    end
  | _ => []
  end.
(** [announceCache.save]. *)
Definition cache_save (encode : list KnownIdentity -> option string) (path : string) (known : list KnownIdentity) : ST (Disk string) unit :=
  match encode known with
  | None => ret tt
  | Some b => catch (writeAtomic path b) ;;; ret tt
  end.
(** [announceCache.run]: at each tick, and when the context is done. *)
Definition cache_run (encode : list KnownIdentity -> option string) (path : string) (ticks : list (list KnownIdentity)) (stop : list KnownIdentity) :
    ST (Disk string) unit :=
  foreach (ticks ++ [stop]) (cache_save encode path).

(** [announcer]: the waits before each announce, given what rand.Float64 draws. *)
Definition tenth : float64 := S754_finite false 7205759403792794 (-56).
Definition fifth : float64 := S754_finite false 7205759403792794 (-55).
Definition announce_jitter (interval : Z) (draw : float64) : Z :=
  float_to_int64 (float_mul (SFsub 53 1024 (float_mul draw fifth) tenth) (float_of interval)).
Definition announce_waits (delay interval : Z) (draws : list float64) : list Z :=
  delay :: map (fun r => interval + announce_jitter interval r) draws.
Example waits_at_the_ends :
  announce_waits (2 * Second) (30 * Minute) [float_of 0; S754_finite false (2 ^ 53 - 1) (-53); S754_finite false (2 ^ 52) (-53)] =
  [2 * Second; 27 * Minute; 33 * Minute - 1; 30 * Minute].
Proof. vm_compute. reflexivity. Qed.

(** ** app.go: the watch on the backbone *)
Inductive LogLine := LogInfo (text : string) | LogWarn (text : string).
Fixpoint watch_from (was : bool) (ticks : list bool) : list LogLine :=
  match ticks with
  | [] => []
  | now :: ticks =>
    (if eqb now was then [] else [if now then LogInfo "backbone connected" else LogWarn "backbone connection lost"]) ++ watch_from now ticks
  end.
(** [watchBackboneEvery], by what Connected says at first and at each tick. *)
Definition watchBackbone (first : bool) (ticks : list bool) : list LogLine :=
  (if first then [] else [LogWarn "backbone not connected"]) ++ watch_from first ticks.
