(* ===== verification/BackupSpec.v ===== *)
(** The nightly backups.  First the calendar of [Clock]: dates and days agree, later
    days have later dates, and the names of backups sort as their days do.  Then
    internal/app/ops.go, whatever goes wrong and when nothing does. *)
From S2P Require Import Prelude Text TextCut Db HubCore Clock GoStd Importer AppConfig AppOps.
Local Open Scope Z_scope.

(** ** The four hundred years of an era, from March *)
Fixpoint all_from (fuel : nat) (z : Z) (p : Z -> bool) : bool :=
  match fuel with O => true | S fuel => p z && all_from fuel (z + 1) p end.
Lemma all_from_ok fuel p : forall z, all_from fuel z p = true -> forall x, z <= x < z + Z.of_nat fuel -> p x = true.
Proof.
  induction fuel as [|fuel IH]; intros z H x Hx; [lia|]. cbn in H. apply andb_true_iff in H as [H1 H2].
  destruct (Z.eq_dec x z) as [->|]; [done|]. apply (IH _ H2). lia.
Qed.
(** The year of a day, and the first day of a year; the last year is a day longer
    than the rule says. *)
Definition yoe_of (doe : Z) : Z := (doe - doe / 1460 + doe / 36524 - doe / 146096) / 365.
Definition year_start (y : Z) : Z := if y =? 400 then 146097 else 365 * y + y / 4 - y / 100.
Lemma yoe_mono a b : 0 <= a <= b -> b < 146097 -> yoe_of a <= yoe_of b.
Proof.
  intros H1 H2. unfold yoe_of. apply Z.div_le_mono; [done|].
  assert (forall x, 0 <= x < 146096 -> x / 146096 = 0) as Hs by (intros x Hx; by apply Z.div_small).
  pose proof (Z.div_le_mono a b 36524 ltac:(done) ltac:(lia)).
  assert (b / 1460 - a / 1460 <= b - a) by (Z.to_euclidean_division_equations; lia).
  destruct (Z.eq_dec b 146096) as [->|]; [|rewrite (Hs a), (Hs b) by lia; lia].
  destruct (Z.eq_dec a 146096) as [->|]; [done|]. rewrite (Hs a) by lia.
  change (146096 / 146096) with 1. change (146096 / 1460) with 100. change (146096 / 36524) with 4.
  Z.to_euclidean_division_equations; lia.
Qed.
Lemma years_fine : all_from 400 0 (fun y => (yoe_of (year_start y) =? y) && (yoe_of (year_start (y + 1) - 1) =? y) && (year_start y + 365 <=? year_start (y + 1)) && (year_start (y + 1) <=? year_start y + 366)) = true.
Proof. vm_compute. reflexivity. Qed.
Lemma year_fine y : 0 <= y < 400 -> yoe_of (year_start y) = y /\ yoe_of (year_start (y + 1) - 1) = y /\
  year_start y + 365 <= year_start (y + 1) <= year_start y + 366.
Proof. intros H. pose proof (all_from_ok _ _ _ years_fine y H) as Hy. cbv beta in Hy. lia. Qed.
Lemma start_range y : 0 <= y <= 400 -> 0 <= year_start y <= 146097.
Proof. intros H. unfold year_start. destruct (Z.eqb_spec y 400); [done|]. Z.to_euclidean_division_equations; lia. Qed.
Lemma yoe_bounds doe : 0 <= doe < 146097 -> 0 <= yoe_of doe < 400 /\ year_start (yoe_of doe) <= doe < year_start (yoe_of doe + 1).
Proof.
  intros H. assert (0 <= yoe_of doe < 400) as Hy.
  { pose proof (yoe_mono 0 doe). pose proof (yoe_mono doe 146096). change (yoe_of 0) with 0 in *. change (yoe_of 146096) with 399 in *. lia. }
  split; [done|]. set (y := yoe_of doe) in *. split.
  - destruct (Z.lt_ge_cases doe (year_start y)) as [Hlt|]; [exfalso|done].
    assert (y <> 0) by (intros E; rewrite E in Hlt; change (year_start 0) with 0 in Hlt; lia).
    destruct (year_fine (y - 1)) as (_ & E & _); [lia|]. replace (y - 1 + 1) with y in E by lia.
    pose proof (start_range y). pose proof (yoe_mono doe (year_start y - 1)). lia.
  - destruct (Z.lt_ge_cases doe (year_start (y + 1))) as [|Hge]; [done|exfalso].
    destruct (Z.eq_dec y 399) as [E|]; [rewrite E in Hge; change (year_start (399 + 1)) with 146097 in Hge; lia|].
    destruct (year_fine (y + 1)) as (E & _); [lia|]. pose proof (yoe_mono (year_start (y + 1)) doe). pose proof (start_range (y + 1)). lia.
Qed.

(** ** A day of the year, from March *)
Definition month_of (doy : Z) : Z := (5 * doy + 2) / 153.
Definition day_of (doy : Z) : Z := doy - (153 * month_of doy + 2) / 5 + 1.
Definition doy_fine (d : Z) : bool :=
  (0 <=? month_of d) && (month_of d <=? 11) && (1 <=? day_of d) && (day_of d <=? 31) &&
  ((d =? 365) || (month_of d <? month_of (d + 1)) || ((month_of d =? month_of (d + 1)) && (day_of d <? day_of (d + 1)))) &&
  ((d <? 306) || (10 <=? month_of d)).
Lemma doys_fine : all_from 366 0 doy_fine = true.
Proof. vm_compute. reflexivity. Qed.
Lemma month_day doy : 0 <= doy <= 365 -> 0 <= month_of doy <= 11 /\ 1 <= day_of doy <= 31 /\
  (doy < 365 -> month_of doy < month_of (doy + 1) \/ month_of doy = month_of (doy + 1) /\ day_of doy < day_of (doy + 1)) /\
  (306 <= doy -> 10 <= month_of doy).
Proof. intros H. pose proof (all_from_ok _ _ _ doys_fine doy ltac:(lia)) as Hd. unfold doy_fine in Hd. lia. Qed.

Definition era_of (z : Z) : Z := (z + 719468) / 146097.
Definition doe_of (z : Z) : Z := (z + 719468) mod 146097.
Definition doy_of (doe : Z) : Z := doe - (365 * yoe_of doe + yoe_of doe / 4 - yoe_of doe / 100).
Definition from_march (year mp d : Z) : Civil := mkCivil (year + (if 10 <=? mp then 1 else 0)) (if mp <? 10 then mp + 3 else mp - 9) d.
Lemma doe_range z : 0 <= doe_of z < 146097 /\ z + 719468 = 146097 * era_of z + doe_of z.
Proof. unfold doe_of, era_of. split; [by apply Z.mod_pos_bound|by apply Z.div_mod]. Qed.
Lemma doy_range doe : 0 <= doe < 146097 -> 0 <= doy_of doe <= 365 /\ doe = year_start (yoe_of doe) + doy_of doe.
Proof.
  intros H. destruct (yoe_bounds _ H) as [Hy Hs]. destruct (year_fine _ Hy) as (_ & _ & Hl).
  assert (year_start (yoe_of doe) = 365 * yoe_of doe + yoe_of doe / 4 - yoe_of doe / 100) as E
    by (unfold year_start; destruct (Z.eqb_spec (yoe_of doe) 400); [lia|done]).
  unfold doy_of. lia.
Qed.
Lemma civil_of z : let doe := doe_of z in
  civil_of_days z = from_march (yoe_of doe + era_of z * 400) (month_of (doy_of doe)) (day_of (doy_of doe)).
Proof.
  cbv zeta. destruct (doe_range z) as [Hr Hz]. destruct (doy_range _ Hr) as [Hd _]. destruct (month_day _ Hd) as ([H0 H1] & _).
  unfold civil_of_days, from_march. cbv zeta. fold (era_of z).
  replace (z + 719468 - era_of z * 146097) with (doe_of z) by lia.
  change ((doe_of z - doe_of z / 1460 + doe_of z / 36524 - doe_of z / 146096) / 365) with (yoe_of (doe_of z)).
  fold (doy_of (doe_of z)). fold (month_of (doy_of (doe_of z))). fold (day_of (doy_of (doe_of z))).
  f_equal. set (mp := month_of _) in *. destruct (Z.ltb_spec mp 10), (Z.leb_spec 10 mp); try lia;
    match goal with |- context [?a <=? 2] => destruct (Z.leb_spec a 2) end; lia.
Qed.

(** The date of a day is the day's. *)
Lemma civil_days z : days_of_civil (civil_of_days z) = z.
Proof.
  rewrite civil_of. cbv zeta. destruct (doe_range z) as [Hr Hz]. destruct (doy_range _ Hr) as [Hd He].
  destruct (yoe_bounds _ Hr) as [Hy _]. destruct (month_day _ Hd) as (Hm & _).
  unfold days_of_civil, from_march. cbn [civ_year civ_month civ_day]. cbv zeta.
  set (mp := month_of _) in *. set (y := yoe_of _) in *.
  assert (year_start y = 365 * y + y / 4 - y / 100) as E by (unfold year_start; destruct (Z.eqb_spec y 400); [lia|done]).
  assert (forall m y', (if 2 <? m then m - 3 else m + 9) = mp -> y' = y + era_of z * 400 ->
    y' / 400 * 146097 + ((y' - y' / 400 * 400) * 365 + (y' - y' / 400 * 400) / 4 - (y' - y' / 400 * 400) / 100 +
      ((153 * (if 2 <? m then m - 3 else m + 9) + 2) / 5 + day_of (doy_of (doe_of z)) - 1)) - 719468 = z) as K.
  { intros m y' -> ->. rewrite Z.div_add, (Z.div_small y 400) by lia. replace (y + era_of z * 400 - (0 + era_of z) * 400) with y by lia.
    unfold day_of. fold mp. lia. }
  apply K.
  - destruct (Z.ltb_spec mp 10); match goal with |- context [2 <? ?a] => destruct (Z.ltb_spec 2 a) end; lia.
  - destruct (Z.ltb_spec mp 10), (Z.leb_spec 10 mp); try lia; match goal with |- context [?a <=? 2] => destruct (Z.leb_spec a 2) end; lia.
Qed.
Lemma civil_range z : 1 <= civ_month (civil_of_days z) <= 12 /\ 1 <= civ_day (civil_of_days z) <= 31.
Proof.
  rewrite civil_of. cbv zeta. destruct (doe_range z) as [Hr Hz]. destruct (doy_range _ Hr) as [Hd He]. destruct (month_day _ Hd) as (Hm & Hd' & _).
  cbn. split; [|done]. destruct (Z.ltb_spec (month_of (doy_of (doe_of z))) 10); lia.
Qed.
Definition date_lt (a b : Civil) : Prop :=
  civ_year a < civ_year b \/ civ_year a = civ_year b /\ (civ_month a < civ_month b \/ civ_month a = civ_month b /\ civ_day a < civ_day b).
Lemma from_march_lt y1 m1 d1 y2 m2 d2 : 0 <= m1 <= 11 -> 0 <= m2 <= 11 ->
  y1 = y2 /\ (m1 < m2 \/ m1 = m2 /\ d1 < d2) \/ y2 = y1 + 1 /\ 10 <= m1 /\ m2 = 0 -> date_lt (from_march y1 m1 d1) (from_march y2 m2 d2).
Proof.
  intros H1 H2 H. unfold date_lt, from_march. cbn.
  destruct (Z.ltb_spec m1 10), (Z.leb_spec 10 m1), (Z.ltb_spec m2 10), (Z.leb_spec 10 m2); lia.
Qed.
Lemma yoe_unique y x : 0 <= y < 400 -> year_start y <= x < year_start (y + 1) -> yoe_of x = y.
Proof.
  intros Hy Hx. destruct (year_fine y Hy) as (E1 & E2 & _). pose proof (start_range y). pose proof (start_range (y + 1)).
  pose proof (yoe_mono (year_start y) x). pose proof (yoe_mono x (year_start (y + 1) - 1)). lia.
Qed.
(** From a day of an era to the next. *)
Lemma next_in_era x : 0 <= x < 146097 ->
  x < 146096 /\ yoe_of (x + 1) = yoe_of x /\ doy_of (x + 1) = doy_of x + 1 /\ doy_of x < 365 \/
  x < 146096 /\ yoe_of (x + 1) = yoe_of x + 1 /\ doy_of (x + 1) = 0 /\ 306 <= doy_of x \/
  x = 146096 /\ yoe_of x = 399 /\ 306 <= doy_of x.
Proof.
  intros H. destruct (yoe_bounds _ H) as [Hy Hs]. destruct (doy_range _ H) as [Hd He]. destruct (year_fine _ Hy) as (_ & _ & Hl).
  destruct (Z.eq_dec x 146096) as [->|Hx]; [right; right; split_and!; [done|vm_compute; reflexivity|vm_compute; discriminate]|].
  assert (0 <= x + 1 < 146097) as H' by lia. destruct (doy_range _ H') as [Hd' He'].
  destruct (Z.lt_ge_cases (x + 1) (year_start (yoe_of x + 1))) as [Hlt|Hge].
  - left. pose proof (yoe_unique (yoe_of x) (x + 1) Hy ltac:(lia)) as E. rewrite E in *. lia.
  - right; left. assert (yoe_of x <> 399) as Hn by (intros E; rewrite E in Hge; change (year_start (399 + 1)) with 146097 in Hge; lia).
    destruct (year_fine (yoe_of x + 1)) as (_ & _ & Hl2); [lia|].
    pose proof (yoe_unique (yoe_of x + 1) (x + 1) ltac:(lia) ltac:(lia)) as E. rewrite E in *. lia.
Qed.
Lemma civil_next z : date_lt (civil_of_days z) (civil_of_days (z + 1)).
Proof.
  rewrite !civil_of. cbv zeta. destruct (doe_range z) as [Hr Hz]. destruct (doe_range (z + 1)) as [Hr' Hz'].
  destruct (doy_range _ Hr) as [Hd _]. destruct (doy_range _ Hr') as [Hd' _].
  destruct (month_day _ Hd) as (Hm & _ & Hn & Hw). destruct (month_day _ Hd') as (Hm' & _).
  apply from_march_lt; [done..|]. destruct (next_in_era _ Hr) as [(Hx & Ey & Ed & Hlt)|[(Hx & Ey & Ed & Hlt)|(Hx & Ey & Hlt)]].
  - assert (doe_of (z + 1) = doe_of z + 1) as E by lia. rewrite E in *. rewrite Ey, Ed in *. left. split; [lia|]. by apply Hn.
  - assert (doe_of (z + 1) = doe_of z + 1) as E by lia. rewrite E in *. rewrite Ey, Ed in *. right. split; [lia|]. split; [by apply Hw|done].
  - assert (doe_of (z + 1) = 0) as E by lia. rewrite E in *. rewrite Ey. right. change (yoe_of 0) with 0. split; [lia|]. split; [by apply Hw|done].
Qed.
#[export] Instance date_lt_trans : Transitive date_lt.
Proof. intros a b c. unfold date_lt. lia. Qed.
(** Later days have later dates. *)
Lemma civil_mono x y : x < y -> date_lt (civil_of_days x) (civil_of_days y).
Proof.
  intros Hxy. replace y with (x + 1 + Z.of_nat (Z.to_nat (y - x - 1))) by lia. generalize (Z.to_nat (y - x - 1)). intros n.
  induction n as [|n IH]; [rewrite Z.add_0_r; apply civil_next|]. etrans; [exact IH|].
  replace (x + 1 + Z.of_nat (S n)) with (x + 1 + Z.of_nat n + 1) by lia. apply civil_next.
Qed.

(** ** The names of backups *)
Lemma compare_app a b c d : String.length a = String.length b ->
  String.compare (a +:+ c) (b +:+ d) = match String.compare a b with Eq => String.compare c d | r => r end.
Proof.
  revert b. induction a as [|x a IH]; intros [|y b] Hl; try done. injection Hl as Hl.
  change (String x a +:+ c) with (String x (a +:+ c)). change (String y b +:+ d) with (String y (b +:+ d)).
  cbn [String.compare]. destruct (Ascii.compare x y); [by apply IH|done..].
Qed.
Definition digit (d : Z) : ascii := chr (48 + d).
Definition digit_fine (d : Z) : bool :=
  ascii_digit_p (byte (digit d)) && all_from 10 0 (fun e => bool_decide (Ascii.compare (digit d) (digit e) = (d ?= e))).
Lemma digits_fine : all_from 10 0 digit_fine = true.
Proof. vm_compute. reflexivity. Qed.
Lemma digit_ok d : 0 <= d < 10 -> ascii_digit_p (byte (digit d)) = true.
Proof. intros H. pose proof (all_from_ok _ _ _ digits_fine d H) as Hd. by apply andb_true_iff in Hd as [? _]. Qed.
Lemma digit_compare d e : 0 <= d < 10 -> 0 <= e < 10 -> Ascii.compare (digit d) (digit e) = (d ?= e).
Proof.
  intros H He. pose proof (all_from_ok _ _ _ digits_fine d H) as Hd. apply andb_true_iff in Hd as [_ Hd].
  by apply (all_from_ok _ _ _ Hd e), bool_decide_eq_true in He.
Qed.
Lemma two_digits_fine : all_from 100 0 (fun x => bool_decide (two_digits x = String (digit (x / 10)) (String (digit (x mod 10)) ""))) = true.
Proof. vm_compute. reflexivity. Qed.
Lemma two_digits_eq x : 0 <= x < 100 -> two_digits x = String (digit (x / 10)) (String (digit (x mod 10)) "").
Proof. intros H. pose proof (all_from_ok _ _ _ two_digits_fine x H) as Hx. by apply bool_decide_eq_true in Hx. Qed.
Lemma tens x : 0 <= x < 100 -> 0 <= x / 10 < 10 /\ 0 <= x mod 10 < 10 /\ x = 10 * (x / 10) + x mod 10.
Proof. intros H. split_and!; try (apply Z.mod_pos_bound; lia); [by apply Z.div_pos; lia|apply Z.div_lt_upper_bound; lia|by apply Z.div_mod]. Qed.
Lemma two_digits_compare x y c d : 0 <= x < 100 -> 0 <= y < 100 ->
  String.compare (two_digits x +:+ c) (two_digits y +:+ d) = match x ?= y with Eq => String.compare c d | r => r end.
Proof.
  intros Hx Hy. destruct (tens x Hx) as (Hx1 & Hx2 & Ex), (tens y Hy) as (Hy1 & Hy2 & Ey).
  rewrite !two_digits_eq by done.
  assert (forall a b e, String a (String b "") +:+ e = String a (String b e)) as Happ by done. rewrite !Happ.
  cbn [String.compare]. rewrite !digit_compare by done.
  destruct (Z.compare_spec (x / 10) (y / 10)), (Z.compare_spec (x mod 10) (y mod 10)), (Z.compare_spec x y); try done; lia.
Qed.
Definition in_era (z : Z) : Prop := 0 <= civ_year (civil_of_days z) <= 9999.
Lemma hundreds x : 0 <= x <= 9999 -> 0 <= x / 100 < 100 /\ 0 <= x mod 100 < 100 /\ x = 100 * (x / 100) + x mod 100.
Proof. intros H. split_and!; try (apply Z.mod_pos_bound; lia); [by apply Z.div_pos; lia|apply Z.div_lt_upper_bound; lia|by apply Z.div_mod]. Qed.
Lemma daily_name_eq z : let c := civil_of_days z in
  daily_name z = "hub-" +:+ (two_digits (civ_year c / 100) +:+ (two_digits (civ_year c mod 100) +:+
    ("-" +:+ (two_digits (civ_month c) +:+ ("-" +:+ (two_digits (civ_day c) +:+ ".db")))))).
Proof. cbv zeta. unfold daily_name, fmt_date, four_digits. rewrite !cat_cons. change (cat []) with "". by rewrite !str_app_nil, <- !str_app_assoc. Qed.
Lemma daily_lt x y : in_era x -> in_era y -> x < y -> String.compare (daily_name x) (daily_name y) = Lt.
Proof.
  intros Hx Hy Hlt%civil_mono. destruct (civil_range x) as [Hm Hd], (civil_range y) as [Hm' Hd'].
  destruct (hundreds _ Hx) as (Hx1 & Hx2 & Ex), (hundreds _ Hy) as (Hy1 & Hy2 & Ey).
  rewrite !daily_name_eq. cbv zeta. rewrite (compare_app "hub-" "hub-") by done. cbn [String.compare Ascii.compare].
  change (String.compare "hub-" "hub-") with Eq. cbn match.
  rewrite two_digits_compare by done. rewrite two_digits_compare by done.
  rewrite (compare_app "-" "-") by done. change (String.compare "-" "-") with Eq. cbn match.
  rewrite two_digits_compare by lia. rewrite (compare_app "-" "-") by done. change (String.compare "-" "-") with Eq. cbn match.
  rewrite two_digits_compare by lia. unfold date_lt in Hlt.
  repeat match goal with |- context [?a ?= ?b] => destruct (Z.compare_spec a b) end; try done; lia.
Qed.

(** * Backups

    internal/app/ops.go: a backup is whole or is not there, whatever is refused and
    whenever the process is killed; the newest are kept and nothing else is touched;
    and the health file is the old one or the new one. *)
Section disk.
Context {B : Type} (Rel : relation (Disk B)) {HR : PreOrder Rel}.
Lemma stepping_fail {A} e : stepping Rel (fail (A := A) e).
Proof. by intros s. Qed.
Lemma stepping_catch {A} (m : ST (Disk B) A) : stepping Rel m -> stepping Rel (catch m).
Proof. intros Hm s. specialize (Hm s). unfold catch. by destruct (m s). Qed.
Lemma stepping_handle {A} (m : ST (Disk B) A) f : stepping Rel m -> (forall e, stepping Rel (f e)) -> stepping Rel (handle m f).
Proof. intros Hm Hf s. specialize (Hm s). unfold handle. destruct (m s) as [[a|e] s']; cbn in *; [done|]. etrans; [exact Hm|apply Hf]. Qed.
End disk.
(** A relation between files, as one between disks. *)
Definition files_rel {B} (R : relation (gmap string B)) : relation (Disk B) := fun d d' => R (dk_files d) (dk_files d').
#[export] Instance files_rel_preorder {B} (R : relation (gmap string B)) : PreOrder R -> PreOrder (files_rel R).
Proof. intros [Hr Ht]. split; [intros d; apply Hr|intros ??? H1 H2; exact (Ht _ _ _ H1 H2)]. Qed.
Lemma disk_op_steps {B A} (R : relation (gmap string B)) `{!PreOrder R} part (run : gmap string B -> res A * gmap string B) :
  (forall n f, R f (part n f)) -> (forall f, R f (run f).2) -> stepping (files_rel R) (disk_op part run).
Proof.
  intros Hp Hrun d. unfold disk_op. destruct (dk_dead d); [done|]. unfold files_rel.
  destruct (dk_faults d) as [|[] ]; cbn; try done; specialize (Hrun (dk_files d)); by destruct (run (dk_files d)).
Qed.
(** A call that succeeds has done what it does. *)
Lemma disk_op_ok {B A} part (run : gmap string B -> res A * gmap string B) d a d' :
  disk_op part run d = (Ok a, d') -> run (dk_files d) = (Ok a, dk_files d').
Proof.
  unfold disk_op. destruct (dk_dead d); [done|]. destruct (dk_faults d) as [|[] ]; try done; destruct (run (dk_files d)); by intros [= -> <-].
Qed.
(** A disk on which nothing goes wrong. *)
Definition sound {B} (f : gmap string B) : Disk B := mkDisk f [] false.
Lemma disk_op_sound {B A} part (run : gmap string B -> res A * gmap string B) f :
  disk_op part run (sound f) = ((run f).1, sound (run f).2).
Proof. unfold disk_op. cbn. by destruct (run f). Qed.

(** ** Names *)
Lemma tmp_not_daily s : dailyBackupName (s +:+ ".tmp") = false.
Proof.
  assert (str_drop (String.length (s +:+ ".tmp") - String.length ".db") (s +:+ ".tmp") = "tmp") as E.
  { replace (s +:+ ".tmp") with ((s +:+ ".") +:+ "tmp") by (by rewrite <- str_app_assoc).
    rewrite (length_str_app _ "tmp"). cbn [String.length]. rewrite Nat.add_sub. apply str_drop_app. }
  unfold dailyBackupName, has_suffix. rewrite E, bool_decide_eq_false_2 by done. by rewrite andb_false_r.
Qed.
Lemma daily_not_tmp n s : dailyBackupName n = true -> n <> s +:+ ".tmp".
Proof. intros H ->. by rewrite tmp_not_daily in H. Qed.
Lemma daily_shape a b c d e f g h : Forall (fun x => ascii_digit_p (byte x) = true) [a; b; c; d; e; f; g; h] ->
  dailyBackupName ("hub-" +:+ String a (String b (String c (String d (String "-" (String e (String f (String "-" (String g (String h ".db")))))))))) = true.
Proof.
  intros H. rewrite !Forall_cons in H. destruct H as (Ha & Hb & Hc & Hd & He & Hf & Hg & Hh & _). unfold dailyBackupName.
  match goal with |- context [str_take ?n ?s] => change (str_take n s) with
    ("hub-" +:+ String a (String b (String c (String d (String "-" (String e (String f (String "-" (String g (String h "."))))))))))  end.
  repeat match goal with |- context ["hub-" +:+ ?x] => change ("hub-" +:+ x) with (String "h" (String "u" (String "b" (String "-" x)))) end.
  unfold daily_pattern. cbn -[ascii_digit_p byte String.length has_suffix]. rewrite Ha, Hb, Hc, Hd, He, Hf, Hg, Hh. reflexivity.
Qed.
Lemma daily_daily z : in_era z -> dailyBackupName (daily_name z) = true.
Proof.
  intros Hz. destruct (civil_range z) as [Hm Hd]. destruct (hundreds _ Hz) as (Hx1 & Hx2 & _). rewrite daily_name_eq. cbv zeta.
  rewrite !two_digits_eq by lia.
  pose proof (tens (civ_year (civil_of_days z) / 100) ltac:(lia)). pose proof (tens (civ_year (civil_of_days z) mod 100) ltac:(lia)).
  pose proof (tens (civ_month (civil_of_days z)) ltac:(lia)). pose proof (tens (civ_day (civil_of_days z)) ltac:(lia)).
  apply daily_shape. repeat (constructor; [apply digit_ok; lia|]). constructor.
Qed.

(** ** Whatever goes wrong *)
Section crash.
Context (keep : nat) (zone : Z -> Z) (Q : DB -> Prop).
Notation Files := (gmap string Blob).
(** Every nightly backup of the folder is whole, of a store as it was. *)
Definition good (f : Files) : Prop := forall n b, f !! n = Some b -> dailyBackupName n = true -> exists db, b = Whole db /\ Q db.
(** What an attempt may do to the folder: keep it good, and change nothing but
    nightly backups and its own temporary file. *)
Definition tries (tmp : string) : relation Files := fun f f' =>
  (good f -> good f') /\ forall n, dailyBackupName n = false -> n <> tmp -> f' !! n = f !! n.
#[export] Instance tries_preorder tmp : PreOrder (tries tmp).
Proof. split; [by split|]. intros f1 f2 f3 [H1 H2] [H3 H4]. split; [auto|]. intros n Hn Ht. rewrite H4, H2; done. Qed.
Lemma good_change f f' : (forall n, dailyBackupName n = true -> f' !! n = None \/ f' !! n = f !! n) -> good f -> good f'.
Proof. intros Hc Hg n b Hn Hd. destruct (Hc n Hd) as [E|E]; [congruence|]. rewrite E in Hn. by apply (Hg n). Qed.
Notation steps tmp := (stepping (files_rel (tries tmp))).
Lemma pure_steps {A} tmp (run : Files -> res A * Files) : (forall f, (run f).2 = f) -> steps tmp (disk_op untouched run).
Proof. intros Hr. apply disk_op_steps; [apply _|by unfold untouched|]. intros f. by rewrite Hr. Qed.
(** A file that is a nightly backup's or the attempt's own goes. *)
Lemma remove_steps tmp n : n = tmp \/ dailyBackupName n = true -> steps tmp (os_Remove (B := Blob) n).
Proof.
  intros Hn. apply disk_op_steps; [apply _|by unfold untouched|]. intros f. case_match; [|done]. split.
  - apply good_change. intros m _. cbn. destruct (decide (m = n)) as [->|]; [left; apply lookup_delete_eq|right; by apply lookup_delete_ne].
  - intros m Hm Ht. cbn. apply lookup_delete_ne. intros ->. destruct Hn as [|Hn]; [done|congruence].
Qed.
Lemma backup_steps s db : steps (s +:+ ".tmp") (Backup db (s +:+ ".tmp")).
Proof.
  assert (forall f b, tries (s +:+ ".tmp") f (<[s +:+ ".tmp" := b]> f)) as Hi.
  { intros f b. split; [|intros n _ Hn; by apply lookup_insert_ne].
    apply good_change. intros n Hn. right. apply lookup_insert_ne. intros E. by apply (daily_not_tmp n s). }
  apply disk_op_steps; [apply _| |]; intros; repeat case_match; cbn; try done; apply Hi.
Qed.
Lemma prune_loop_steps tmp names : Forall (fun n => dailyBackupName n = true) names -> forall errs, steps tmp (prune_loop keep names errs).
Proof.
  induction 1 as [|n names Hn _ IH]; intros errs; cbn [prune_loop]; (case_match; [apply (stepping_ret _)|]); [apply (stepping_ret _)|].
  apply (stepping_bind _); [apply stepping_catch, remove_steps; by right|]. intros r. apply IH.
Qed.
Lemma prune_steps tmp : steps tmp (prune keep).
Proof.
  apply (stepping_bind _); [by apply pure_steps|]. intros entries.
  apply (stepping_bind _); [|intros errs; case_match; [apply (stepping_ret _)|apply stepping_fail; apply _]].
  apply prune_loop_steps. apply Forall_forall. intros n Hn%elem_of_order_by. by apply list_elem_of_In, filter_In in Hn as [_ Hn].
Qed.
(** The copy, once whole, takes its name. *)
Lemma written_steps name db : Q db -> dailyBackupName name = true ->
  steps (name +:+ ".tmp") (handle (Backup db (name +:+ ".tmp")) (fun e => catch (os_Remove (name +:+ ".tmp")) ;;; fail e) ;;;
                           os_Rename (name +:+ ".tmp") name ;;; prune keep).
Proof.
  intros HQ Hname d. set (tmp := name +:+ ".tmp").
  pose proof (backup_steps name db d) as Hb. fold tmp in Hb. unfold bind at 1, handle.
  destruct (Backup db tmp d) as [[[]|e] d1] eqn:E; cbn [snd] in Hb.
  2:{ assert (steps tmp (catch (os_Remove (B := Blob) tmp) ;;; fail (A := unit) e)) as Hs by
        (apply (stepping_bind _); [apply stepping_catch, remove_steps; by left|intros ?; apply stepping_fail, _]).
      specialize (Hs d1). destruct ((catch (os_Remove tmp) ;;; fail e) d1) as [[[]|e'] d2] eqn:E2; cbn in Hs |- *; [|by etrans].
      unfold bind, catch in E2. by destruct (os_Remove tmp d1). }
  apply disk_op_ok in E. etrans; [exact Hb|]. clear Hb. pose proof (prune_steps tmp) as Hp. unfold bind.
  destruct (os_Rename tmp name d1) as [r d2] eqn:Er.
  assert (files_rel (tries tmp) d1 d2) as H12; [|destruct r; [etrans; [exact H12|apply Hp]|exact H12]].
  assert (dk_files d1 !! tmp = Some (Whole db)) as Ht by (destruct (dk_files d !! tmp); [done|]; injection E as <-; apply lookup_insert_eq).
  unfold os_Rename, disk_op in Er. destruct (dk_dead d1); [by injection Er as _ <-|]. rewrite Ht in Er. unfold files_rel.
  assert (tries tmp (dk_files d1) (<[name := Whole db]> (delete tmp (dk_files d1)))) as Hw.
  { split.
    - intros Hg n b Hn Hd. destruct (decide (n = name)) as [->|Hne].
      + rewrite lookup_insert_eq in Hn. injection Hn as <-. eauto.
      + rewrite lookup_insert_ne, lookup_delete_ne in Hn; [by apply (Hg n)|by intros <-; eapply daily_not_tmp|done].
    - intros n Hn Hnt. rewrite lookup_insert_ne, lookup_delete_ne; [done|done|]. intros ->. congruence. }
  destruct (dk_faults d1) as [|[] ]; by injection Er as _ <-.
Qed.
Lemma once_steps t db : Q db -> in_era (today zone t) -> steps (daily_name (today zone t) +:+ ".tmp") (once keep zone t db).
Proof.
  intros HQ Hera. unfold once. apply (stepping_bind _); [by apply pure_steps|]. intros _. cbv zeta.
  apply (stepping_bind _); [apply stepping_catch, pure_steps; intros f; done|]. intros st. case_match; [apply (stepping_ret _)|].
  apply (stepping_bind _); [apply stepping_catch, remove_steps; by left|]. intros _. apply written_steps; [done|]. by apply daily_daily.
Qed.

(** The life of the folder: an attempt at some time, on the store as it is, with
    whatever goes wrong (the process is started again after it is killed); or the
    operator adds, changes or removes a file that is not a nightly backup, or
    removes one that is. *)
Inductive folder_step : relation Files :=
  | folder_attempt t db faults f : Q db -> in_era (today zone t) ->
      folder_step f (dk_files (once keep zone t db (mkDisk f faults false)).2)
  | folder_put n b f : dailyBackupName n = false -> folder_step f (<[n := b]> f)
  | folder_remove n f : folder_step f (delete n f).

(** C35. A nightly backup is a whole copy of the store or is not there.  Whatever call
    of any attempt is refused, wherever the process is killed in one and however
    much of a file it had written, however often it is started again, and whatever
    the operator does with other files: every file of the folder with a nightly
    backup's name is a whole copy of a store that was backed up.  An attempt
    changes no file but nightly backups and its own temporary one. *)
Theorem backups_whole f f' : good f -> rtc folder_step f f' ->
  good f' /\
  forall t db faults n, Q db -> in_era (today zone t) -> dailyBackupName n = false -> n <> daily_name (today zone t) +:+ ".tmp" ->
    dk_files (once keep zone t db (mkDisk f' faults false)).2 !! n = f' !! n.
Proof.
  intros Hg Hst. split.
  - induction Hst as [|f1 f2 f3 H12 _ IH]; [done|]. apply IH. destruct H12 as [t db faults f HQ He|n b f Hn|n f].
    + by apply (once_steps t db HQ He (mkDisk f faults false)).
    + revert Hg. apply good_change. intros m Hm. right. apply lookup_insert_ne. intros ->. congruence.
    + revert Hg. apply good_change. intros m Hm. destruct (decide (m = n)) as [->|]; [left; apply lookup_delete_eq|right; by apply lookup_delete_ne].
  - intros t db faults n HQ He Hn Ht. by apply (once_steps t db HQ He (mkDisk f' faults false)).
Qed.
End crash.

(** ** When nothing goes wrong *)
Lemma leb_cons x s y t : String.leb (String x s) (String y t) = true <->
  (N_of_ascii x < N_of_ascii y)%N \/ x = y /\ String.leb s t = true.
Proof.
  unfold String.leb. cbn [String.compare]. unfold Ascii.compare. destruct (N.compare_spec (N_of_ascii x) (N_of_ascii y)) as [E|Hlt|Hlt].
  - split; [intros H; right; split; [|done]|intros [H|[_ H]]; [lia|done]]. by rewrite <- (ascii_N_embedding x), E, ascii_N_embedding.
  - split; [by left|done].
  - split; [done|]. intros [H| [-> _]]; lia.
Qed.
Lemma leb_trans s t u : String.leb s t = true -> String.leb t u = true -> String.leb s u = true.
Proof.
  revert t u. induction s as [|x s IH]; intros [|y t] [|z u]; try done. rewrite !leb_cons.
  intros [H1| [-> H1]] [H2| [-> H2]]; [left; lia|by left|by left|right; split; [done|by eapply IH]].
Qed.
Lemma names_sorted l : StronglySorted (fun x y => String.leb x y = true) (order_by String.leb l).
Proof. apply order_by_sorted; [apply String.leb_total|apply leb_trans]. Qed.
Lemma sorted_app (l1 l2 : list string) x y : StronglySorted (fun x y => String.leb x y = true) (l1 ++ l2) -> x ∈ l1 -> y ∈ l2 -> String.leb x y = true.
Proof.
  induction l1 as [|z l1 IH]; cbn; [by intros _ ?%not_elem_of_nil|]. intros [Hs Hall]%StronglySorted_inv [->|Hx]%elem_of_cons Hy; [|by apply IH].
  rewrite Forall_forall in Hall. apply Hall. set_solver.
Qed.
(** A day's file sorts after another's only if it is no later. *)
Lemma daily_leb x y : in_era x -> in_era y -> String.leb (daily_name x) (daily_name y) = true -> x <= y.
Proof.
  intros Hx Hy Hle. destruct (Z.le_gt_cases x y) as [|Hlt]; [done|exfalso]. pose proof (daily_lt y x Hy Hx Hlt) as H.
  unfold String.leb in Hle. rewrite String.compare_antisym, H in Hle. done.
Qed.

Section sound.
Context (keep : nat) (zone : Z -> Z).
Notation Files := (gmap string Blob).
Definition daily_names (f : Files) : list string :=
  order_by String.leb (List.filter dailyBackupName (order_by String.leb (map_to_list f).*1)).
Lemma elem_of_daily n f : n ∈ daily_names f <-> is_Some (f !! n) /\ dailyBackupName n = true.
Proof.
  unfold daily_names. rewrite elem_of_order_by, list_elem_of_In, filter_In, <- list_elem_of_In, elem_of_order_by, list_elem_of_fmap.
  split; intros [H Hd]; split; try done.
  - destruct H as ([m b] & -> & Hb%elem_of_map_to_list). by exists b.
  - destruct H as [b Hb]. exists (n, b). split; [done|]. by apply elem_of_map_to_list.
Qed.
Lemma NoDup_daily f : NoDup (daily_names f).
Proof.
  unfold daily_names. rewrite order_by_perm. apply NoDup_ListNoDup, List.NoDup_filter, NoDup_ListNoDup. rewrite order_by_perm. apply NoDup_fst_map_to_list.
Qed.
(** The folder without some files. *)
Definition without (gone : list string) (f : Files) : Files := filter (fun nb => nb.1 ∉ gone) f.
Lemma without_nil f : without [] f = f.
Proof. apply map_filter_id. intros n b _ ?%not_elem_of_nil. done. Qed.
Lemma without_cons n gone f : without gone (delete n f) = without (n :: gone) f.
Proof.
  apply map_eq. intros m. apply option_eq. intros b. unfold without. rewrite !map_lookup_filter_Some, lookup_delete_Some. cbn. set_solver.
Qed.
Lemma prune_loop_run names : forall errs f, NoDup names -> Forall (fun n => is_Some (f !! n)) names ->
  prune_loop keep names errs (sound f) = (Ok errs, sound (without (take (length names - keep) names) f)).
Proof.
  induction names as [|n names IH]; intros errs f Hnd Hall; cbn [prune_loop].
  { case_match; [|done]. by rewrite take_nil, without_nil. }
  destruct (Nat.leb_spec (length (n :: names)) keep) as [Hl|Hl].
  { replace (length (n :: names) - keep)%nat with O by lia. cbn [take]. by rewrite without_nil. }
  apply NoDup_cons in Hnd as [Hn Hnd]. apply Forall_cons in Hall as [Hf Hall].
  unfold bind, catch, os_Remove. rewrite disk_op_sound, bool_decide_eq_true_2 by done. cbn [fst snd].
  rewrite IH; [|done|].
  - replace (length (n :: names) - keep)%nat with (S (length names - keep)) by (cbn in *; lia). cbn [take]. by rewrite without_cons.
  - rewrite Forall_forall in Hall |- *. intros m Hm. rewrite lookup_delete_ne by (intros ->; done). by apply Hall.
Qed.

(** An attempt that finds no backup of the day. *)
Lemma once_fresh t db f : in_era (today zone t) ->
  let name := daily_name (today zone t) in
  f !! name = None -> exists gone kept,
     let written := <[name := Whole db]> (delete (name +:+ ".tmp") f) in
     once keep zone t db (sound f) = (Ok tt, sound (without gone written)) /\
     (forall n, n ∈ gone ++ kept <-> is_Some (written !! n) /\ dailyBackupName n = true) /\ NoDup (gone ++ kept) /\
     length kept = Nat.min keep (length (gone ++ kept)) /\
     (forall x y, in_era x -> in_era y -> daily_name x ∈ gone -> daily_name y ∈ kept -> x < y) /\
     ((0 < keep)%nat -> (forall n, is_Some (f !! n) -> dailyBackupName n = true -> exists z, n = daily_name z /\ in_era z /\ z <= today zone t) ->
      name ∈ kept).
Proof.
  intros Hera. cbv zeta. set (name := daily_name (today zone t)). set (tmp := name +:+ ".tmp"). intros Hnone.
  assert (name <> tmp) as Hnt by (apply daily_not_tmp, daily_daily, Hera). set (written := <[name := Whole db]> (delete tmp f)). set (l := daily_names written).
  assert (forall n, n ∈ l <-> is_Some (written !! n) /\ dailyBackupName n = true) as Hl by (intros n; apply elem_of_daily).
  assert (forall x y, in_era x -> in_era y -> daily_name x ∈ take (length l - keep) l -> daily_name y ∈ drop (length l - keep) l -> x < y) as Hlt.
  { intros x y Hx Hy Hgx Hky. assert (String.leb (daily_name x) (daily_name y) = true) as Hle.
    { eapply sorted_app; [|exact Hgx|exact Hky]. rewrite firstn_skipn. apply names_sorted. }
    apply daily_leb in Hle; [|done..]. destruct (Z.eq_dec x y) as [->|]; [|lia]. exfalso.
    pose proof (NoDup_daily written) as Hnd. fold l in Hnd. rewrite <- (firstn_skipn (length l - keep) l) in Hnd.
    apply NoDup_app in Hnd as (_ & Hnd & _). by apply (Hnd _ Hgx). }
  exists (take (length l - keep) l), (drop (length l - keep) l). rewrite firstn_skipn. split_and!.
  - unfold once. unfold bind at 1, os_mkdir. rewrite disk_op_sound. cbn [fst snd]. unfold bind at 1, catch at 1, os_Stat.
    rewrite disk_op_sound. cbn [fst snd]. fold name. rewrite bool_decide_eq_false_2 by (rewrite Hnone; by intros [? ?]). cbn [is_ok].
    fold tmp. unfold bind at 1, catch at 1. unfold os_Remove at 1. rewrite disk_op_sound. cbn [fst snd].
    assert ((if bool_decide (is_Some (f !! tmp)) then (Ok tt, delete tmp f) else (Fail no_such_file, f) : res unit * Files).2 = delete tmp f) as ->.
    { case_bool_decide as Ht; [done|]. cbn. symmetry. apply delete_id. by apply eq_None_not_Some. }
    unfold bind at 1, handle, Backup. rewrite disk_op_sound, lookup_delete_eq. cbn [fst snd].
    unfold bind at 1, os_Rename. rewrite disk_op_sound, lookup_insert_eq. cbn [fst snd].
    rewrite delete_insert_eq, (delete_id (delete tmp f)) by apply lookup_delete_eq. fold written. unfold prune, bind at 1, os_ReadDir. rewrite disk_op_sound. cbn [fst snd].
    fold (daily_names written). fold l. unfold bind. rewrite prune_loop_run; [done|apply NoDup_daily|].
    apply Forall_forall. intros n Hn. by apply elem_of_daily in Hn as [Hn _].
  - done.
  - apply NoDup_daily.
  - rewrite length_drop. lia.
  - done.
  - intros Hk Hdays. assert (name ∈ l) as Hin by (apply Hl; split; [unfold written; rewrite lookup_insert_eq; eauto|by apply daily_daily]).
    rewrite <- (firstn_skipn (length l - keep) l) in Hin. apply elem_of_app in Hin as [Hin|]; [exfalso|done].
    destruct (drop (length l - keep) l) as [|k ks] eqn:Ed.
    { apply (f_equal length) in Ed. rewrite length_drop in Ed. apply elem_of_take in Hin as (i & Hi & _). apply lookup_lt_Some in Hi. cbn in Ed. lia. }
    assert (k ∈ l) as Hkl by (rewrite <- (firstn_skipn (length l - keep) l), Ed; set_solver). apply Hl in Hkl as [Hk1 Hk2].
    assert (k <> name) as Hkn.
    { intros ->. pose proof (NoDup_daily written) as Hnd. fold l in Hnd. rewrite <- (firstn_skipn (length l - keep) l), Ed in Hnd.
      apply NoDup_app in Hnd as (_ & Hnd & _). apply (Hnd _ Hin). set_solver. }
    unfold written in Hk1. rewrite lookup_insert_ne, lookup_delete_ne in Hk1 by (done || (intros E; by apply (daily_not_tmp k name))).
    destruct (Hdays k Hk1 Hk2) as (z & -> & Hz & Hle). pose proof (Hlt (today zone t) z Hera Hz Hin ltac:(set_solver)). lia.
Qed.
(** An attempt on a disk that does what it is asked.  If the day's backup is there,
    nothing is done.  If not, the store is written under the day's name, what an interrupted
    attempt left is gone, and of all nightly backups the newest [keep] are left:
    those that go are of earlier days than those that stay, and today's stays if
    none is of a day to come.  Every other file is as it was. *)
Theorem once_exact t db f : in_era (today zone t) ->
  let name := daily_name (today zone t) in
  (is_Some (f !! name) -> once keep zone t db (sound f) = (Ok tt, sound f)) /\
  (f !! name = None -> exists gone kept,
     let written := <[name := Whole db]> (delete (name +:+ ".tmp") f) in
     once keep zone t db (sound f) = (Ok tt, sound (without gone written)) /\
     (forall n, n ∈ gone ++ kept <-> is_Some (written !! n) /\ dailyBackupName n = true) /\ NoDup (gone ++ kept) /\
     length kept = Nat.min keep (length (gone ++ kept)) /\
     (forall x y, in_era x -> in_era y -> daily_name x ∈ gone -> daily_name y ∈ kept -> x < y) /\
     ((0 < keep)%nat -> (forall n, is_Some (f !! n) -> dailyBackupName n = true -> exists z, n = daily_name z /\ in_era z /\ z <= today zone t) ->
      name ∈ kept)).
Proof.
  intros Hera. cbv zeta. split; [|by apply once_fresh].
  intros Hs. unfold once. unfold bind at 1, os_mkdir. rewrite disk_op_sound. cbn [fst snd]. unfold bind, catch, os_Stat.
  rewrite disk_op_sound. cbn [fst snd]. by rewrite bool_decide_eq_true_2.
Qed.
End sound.

(** ** Half past three *)
Section half_past_three.
Context (zone : Z -> Z) (lo : Z).
(** A zone with at most an hour of summer time, which doesn't change it within the hour
    before half past three in the morning. *)
Record calm : Prop := {
  calm_range x : lo <= zone x <= lo + 3600;
  calm_window day x : let w := day * day_seconds + half_past_three - lo in w - 3600 <= x <= w -> zone x = zone w
}.
Context (Hz : calm).
(** The moment of half past three on a day. *)
Definition moment (day : Z) : Z := time_Date zone (day * day_seconds + half_past_three).
Lemma moment_eq day : let w := day * day_seconds + half_past_three - lo in
  moment day = w + lo - zone w /\ zone (moment day) = zone w /\ w - 3600 <= moment day <= w.
Proof.
  cbv zeta. unfold moment, time_Date. set (W := day * day_seconds + half_past_three).
  pose proof (calm_range Hz W). pose proof (calm_window Hz day (W - zone W)) as H1. cbv zeta in H1. fold W in H1.
  pose proof (calm_range Hz (W - lo)). rewrite H1 by lia.
  pose proof (calm_window Hz day (W - zone (W - lo))) as H2. cbv zeta in H2. fold W in H2. rewrite H2 by lia. lia.
Qed.
Lemma moment_next day : day_after zone (moment day) = moment (day + 1).
Proof.
  destruct (moment_eq day) as (E1 & E2 & _). unfold day_after. rewrite E2, E1. unfold moment. f_equal. lia.
Qed.
Lemma moment_reads day : moment day + zone (moment day) = day * day_seconds + half_past_three.
Proof. destruct (moment_eq day) as (E1 & E2 & _). rewrite E2, E1. lia. Qed.
Lemma reads_moment s day : s + zone s = day * day_seconds + half_past_three -> s = moment day.
Proof.
  intros E. destruct (moment_eq day) as (E1 & _ & _). pose proof (calm_range Hz s).
  pose proof (calm_window Hz day s) as H1. cbv zeta in H1. rewrite H1 in E by lia. lia.
Qed.
Lemma moment_mono d1 d2 : d1 < d2 -> moment d1 + 23 * 3600 <= moment d2.
Proof. intros H. destruct (moment_eq d1) as (_ & _ & H1), (moment_eq d2) as (_ & _ & H2). unfold day_seconds, half_past_three in *. lia. Qed.

(** The wait ends at half past three of some day, the first after now. *)
Lemma next_night t : exists day, t + untilNext zone t = moment day * Second /\
  moment (day - 1) * Second <= t < moment day * Second /\ moment day * Second - t <= 25 * Hour.
Proof.
  unfold untilNext. fold (moment (today zone t)). set (d := today zone t).
  pose proof (Z.div_mod t Second ltac:(done)) as Et. pose proof (Z.mod_pos_bound t Second ltac:(done)) as Bt.
  pose proof (Z.div_mod (local_seconds zone t) day_seconds ltac:(done)) as El.
  pose proof (Z.mod_pos_bound (local_seconds zone t) day_seconds ltac:(done)) as Bl.
  assert (d = local_seconds zone t / day_seconds) as Ed by done. rewrite <- Ed in El. unfold local_seconds in El, Bl.
  set (s := t / Second) in *. pose proof (calm_range Hz s).
  destruct (moment_eq d) as (E1 & _ & B1), (moment_eq (d - 1)) as (E0 & _ & B0), (moment_eq (d + 1)) as (E2 & _ & B2).
  set (r := (s + zone s) mod day_seconds) in *. set (u := t mod Second) in *. clearbody r u s. clear Ed.
  destruct (Z.ltb_spec t (moment d * Second)) as [Hlt|Hge]; unfold day_seconds, half_past_three, Hour, Minute, Second, Millisecond in *.
  - exists d. lia.
  - exists (d + 1). rewrite moment_next, Z.add_simpl_r. pose proof (calm_range Hz (d * 86400 + (3 * 3600 + 30 * 60) - lo)).
    pose proof (calm_range Hz ((d + 1) * 86400 + (3 * 3600 + 30 * 60) - lo)). lia.
Qed.
(** The nightly backup is made at the next half past three of the time zone: the
    wait ends when the clock there says so, to the second, after now and within
    twenty-five hours, and it says so at no moment before. *)
Theorem untilNext_exact t : let next := t + untilNext zone t in
  (exists k day, next = k * Second /\ k + zone k = day * day_seconds + half_past_three) /\
  0 < untilNext zone t <= 25 * Hour /\
  forall k day, t < k * Second < next -> k + zone k <> day * day_seconds + half_past_three.
Proof.
  cbv zeta. destruct (next_night t) as (day & Hn & Ht & Hw).
  rewrite Hn. split_and!; [|lia|lia|].
  - exists (moment day), day. split; [done|apply moment_reads].
  - intros k d' Hk Hr. apply reads_moment in Hr as ->. unfold Second, Millisecond in *.
    destruct (Z.lt_trichotomy d' day) as [H|[->|H]]; [|lia|pose proof (moment_mono day d' H); lia].
    destruct (Z.eq_dec d' (day - 1)) as [->|]; [lia|]. pose proof (moment_mono d' (day - 1)). lia.
Qed.
End half_past_three.

(** ** Night after night *)
Section nights.
Context (keep : nat) (Hkeep : (0 < keep)%nat) (zone : Z -> Z) (lo : Z) (Hz : calm zone lo).
Notation Files := (gmap string Blob).
Notation moment := (moment zone).
(** Every nightly backup of the folder is of a day before [d]. *)
Definition before (d : Z) (f : Files) : Prop :=
  forall n, is_Some (f !! n) -> dailyBackupName n = true -> exists z, n = daily_name z /\ in_era z /\ z < d.
Lemma daily_name_inj x y : in_era x -> in_era y -> daily_name x = daily_name y -> x = y.
Proof.
  intros Hx Hy E. assert (forall z : string, String.leb z z = true) as Hr by (intros z; by destruct (String.leb_total z z)).
  apply Z.le_antisymm; (apply daily_leb; [done..|]); rewrite E; apply Hr.
Qed.
(** The days of a list of backups, all after [z] and none after [d], are few. *)
Lemma few_days z d l : in_era z -> z <= d -> NoDup l -> (forall n, n ∈ l -> exists y, n = daily_name y /\ z < y <= d) -> (length l <= Z.to_nat (d - z))%nat.
Proof.
  intros Hz0 Hzd Hnd Hl. rewrite <- (length_seqZ (z + 1) (d - z)), <- (length_fmap daily_name). apply submseteq_length, NoDup_submseteq; [done|].
  intros n (y & -> & Hy)%Hl. apply list_elem_of_fmap. exists y. split; [done|]. apply elem_of_seqZ. lia.
Qed.

(** One night: the day's backup is there, and so are those of the days before it as
    long as there is room for them. *)
Lemma one_night d t db f : today zone t = d -> in_era d -> before d f ->
  exists f', once keep zone t db (sound f) = (Ok tt, sound f') /\ before (d + 1) f' /\ f' !! daily_name d = Some (Whole db) /\
    (length (daily_names f') <= keep)%nat /\
    forall z, in_era z -> z < d -> d - z < Z.of_nat keep -> f' !! daily_name z = f !! daily_name z.
Proof.
  intros Ht Hd Hb. assert (f !! daily_name d = None) as Hnone.
  { apply eq_None_not_Some. intros Hs. destruct (Hb _ Hs (daily_daily d Hd)) as (z & E & Hze & Hlt). apply daily_name_inj in E; [lia|done..]. }
  destruct (once_fresh keep zone t db f) as (gone & kept & Hrun & Hall & Hnd & Hlen & Hlt & Htoday); [by rewrite Ht|by rewrite Ht|]. rewrite Ht in *.
  set (tmp := daily_name d +:+ ".tmp") in *. set (written := <[daily_name d := Whole db]> (delete tmp f)) in *.
  assert (forall n, n <> daily_name d -> n <> tmp -> written !! n = f !! n) as Hw.
  { intros n H1 H2. unfold written. by rewrite lookup_insert_ne, lookup_delete_ne. }
  assert (forall n, n ∈ gone ++ kept -> exists z, n = daily_name z /\ in_era z /\ z <= d) as Hdays.
  { intros n [Hs Hn]%Hall. destruct (decide (n = daily_name d)) as [->|Hne]; [by exists d|].
    rewrite Hw in Hs by (done || (intros ->; unfold tmp in Hn; by rewrite tmp_not_daily in Hn)). destruct (Hb n Hs Hn) as (z & ? & ? & ?). exists z. split_and!; [done..|lia]. }
  apply NoDup_app in Hnd as (Hnd1 & Hdisj & Hnd2).
  assert (forall n b, without gone written !! n = Some b <-> written !! n = Some b /\ n ∉ gone) as Hwo.
  { intros n b. unfold without. by rewrite map_lookup_filter_Some. }
  exists (without gone written). split_and!; [done|..].
  - intros n [b [Hn _]%Hwo] Hdn. destruct (Hdays n) as (z & ? & ? & ?); [apply Hall; eauto|]. exists z. split_and!; [done..|lia].
  - apply Hwo. split; [unfold written; apply lookup_insert_eq|]. intros Hg. apply (Hdisj _ Hg), Htoday; [done|].
    intros n Hs Hn. destruct (Hb n Hs Hn) as (z & ? & ? & ?). exists z. split_and!; [done..|lia].
  - etrans; [|apply (Nat.le_min_l keep (length (gone ++ kept)))]. rewrite <- Hlen. apply submseteq_length, NoDup_submseteq; [apply NoDup_daily|].
    intros n [[b [Hn Hg]%Hwo] Hdn]%elem_of_daily. assert (n ∈ gone ++ kept) as [|]%elem_of_app by (apply Hall; eauto); done.
  - intros z Hze Hzd Hroom. assert (daily_name z <> daily_name d) as Hne by (intros E; apply daily_name_inj in E; [lia|done..]).
    assert (daily_name z <> tmp) as Hnt by (intros E; by apply (daily_not_tmp (daily_name z) (daily_name d) (daily_daily z Hze))).
    rewrite <- (Hw _ Hne Hnt). destruct (written !! daily_name z) as [b|] eqn:Eb; [|by apply eq_None_not_Some; intros [b [? _]%Hwo]; congruence].
    apply Hwo. split; [done|]. intros Hg. (* then [keep] are kept that are newer *)
    assert (length kept <= Z.to_nat (d - z))%nat as Hfew.
    { apply (few_days z d); [done|lia|done|]. intros n Hn. destruct (Hdays n) as (y & -> & Hye & Hyd); [set_solver|]. exists y. split; [done|].
      split; [by apply Hlt|done]. }
    rewrite length_app in Hlen. destruct gone as [|g gone]; [by apply not_elem_of_nil in Hg|]. cbn [length] in Hlen. lia.
Qed.

(** In time: the timer fires and the attempt is over within nineteen hours. *)
Definition in_time (n : Night) : Prop := 0 <= ni_late n /\ 0 <= ni_took n /\ ni_late n + ni_took n < 19 * Hour.
Lemma awake_day d t : moment d * Second <= t < moment d * Second + 19 * Hour -> today zone t = d.
Proof.
  intros Ht. unfold today, local_seconds. pose proof (moment_reads zone lo Hz d) as Hm. pose proof (calm_range zone lo Hz (moment d)). pose proof (calm_range zone lo Hz (t / Second)).
  pose proof (Z.div_mod t Second ltac:(done)). pose proof (Z.mod_pos_bound t Second ltac:(done)).
  set (s := t / Second) in *. set (u := t mod Second) in *. clearbody s u.
  symmetry. apply Z.div_unique with (s + zone s - d * day_seconds); unfold day_seconds, half_past_three, Hour, Minute, Second, Millisecond in *; lia.
Qed.
Lemma next_day d t : moment d * Second <= t < moment d * Second + 19 * Hour -> t + untilNext zone t = moment (d + 1) * Second.
Proof.
  intros Ht. destruct (next_night zone lo Hz t) as (day & -> & Hday & _). do 2 f_equal.
  pose proof (moment_mono zone lo Hz d (d + 1) ltac:(lia)). unfold Hour, Minute, Second, Millisecond in *.
  destruct (Z.lt_trichotomy day (d + 1)) as [Hl|[->|Hl]]; [|done|].
  - destruct (Z.eq_dec day d) as [->|]; [lia|]. pose proof (moment_mono zone lo Hz day d). lia.
  - destruct (Z.eq_dec (day - 1) (d + 1)) as [Eq|]; [rewrite Eq in *; lia|]. pose proof (moment_mono zone lo Hz (d + 1) (day - 1)). lia.
Qed.

Lemma nights_run nights : forall d t f, t + untilNext zone t = moment d * Second -> Forall in_time nights ->
  (forall i, d <= i < d + Z.of_nat (length nights) -> in_era i) -> before d f ->
  exists f', backups_run keep zone t nights (sound f) = (Ok tt, sound f') /\
    (nights <> [] -> (length (daily_names f') <= keep)%nat) /\
    (forall i n, nights !! i = Some n -> (length nights - i <= keep)%nat -> f' !! daily_name (d + Z.of_nat i) = Some (Whole (ni_store n))) /\
    forall z, in_era z -> z < d -> d - z + Z.of_nat (length nights) <= Z.of_nat keep -> f' !! daily_name z = f !! daily_name z.
Proof.
  induction nights as [|n nights IH]; intros d t f Hnext Hin Hera Hb.
  { exists f. split_and!; [done|done|by intros i n Hi|done]. }
  apply Forall_cons in Hin as [Hn Hin]. destruct Hn as (Hl & Ht & Hlt). cbn [backups_run length] in *. rewrite Hnext.
  set (t1 := moment d * Second + ni_late n). assert (today zone t1 = d) as Htd by (apply awake_day; lia).
  destruct (one_night d t1 (ni_store n) f Htd) as (f1 & Hrun & Hb1 & Hnew & Hk1 & Hold); [apply Hera; lia|done|].
  destruct (IH (d + 1) (t1 + ni_took n) f1) as (f' & Hrun' & Hk & Hi & Hz'); [apply next_day; lia|done|intros i Hi; apply Hera; lia|done|].
  exists f'. assert (in_era d) as Hde by (apply Hera; lia). split_and!.
  - unfold bind, catch. rewrite Hrun. exact Hrun'.
  - intros _. destruct nights; [by injection Hrun' as <-|by apply Hk].
  - intros [|i] m Hm Hroom; cbn in Hm.
    + injection Hm as ->. rewrite Z.add_0_r, Hz' by (done || lia). exact Hnew.
    + replace (d + Z.of_nat (S i)) with (d + 1 + Z.of_nat i) by lia. apply Hi; [done|]. cbn in Hroom. lia.
  - intros z Hze Hzd Hroom. rewrite Hz', Hold by (done || lia). done.
Qed.

End nights.

(** Britain's zone is such a zone: its clocks change at one in the morning. *)
Lemma london_calm : calm london_offset 0.
Proof.
  constructor.
  - intros x. unfold london_offset. case_match; lia.
  - intros day x. cbv zeta. intros Hx.
    assert (forall y, day * day_seconds + 3600 <= y < day * day_seconds + day_seconds ->
      london_offset y = london_offset (day * day_seconds + 3600)) as Hsame.
    { intros y Hy. unfold london_offset. unfold day_seconds in *.
      assert (y / 86400 = day) as -> by (symmetry; apply Z.div_unique with (y - day * 86400); lia).
      assert ((day * 86400 + 3600) / 86400 = day) as -> by (symmetry; apply Z.div_unique with 3600; lia).
      unfold last_sunday_1am, day_seconds. repeat match goal with |- context [days_of_civil ?c - weekday ?w] => generalize (days_of_civil c - weekday w); intros ? end.
      repeat match goal with |- context [?a <=? ?b] => destruct (Z.leb_spec a b) | |- context [?a <? ?b] => destruct (Z.ltb_spec a b) end; cbn; lia. }
    unfold half_past_three, day_seconds in *. rewrite (Hsame x), (Hsame (_ - 0)) by lia. done.
Qed.

(** ** A file written in one go *)
(** What is written in one go is there or is not: whatever call is refused and
    wherever the process is killed, the file holds what it held or all of what was
    to be written, and it holds that if no error is reported; and nothing but the
    file and its temporary one is touched. *)
Theorem writeAtomic_safe path b d : let '(r, d') := writeAtomic path b d in
  (dk_files d' !! path = dk_files d !! path \/ dk_files d' !! path = Some b) /\
  (r = Ok tt -> dk_files d' !! path = Some b) /\
  forall n, n <> path -> n <> path +:+ ".tmp" -> dk_files d' !! n = dk_files d !! n.
Proof.
  set (tmp := path +:+ ".tmp").
  assert (path <> tmp) as Hpt.
  { intros E. apply (f_equal String.length) in E. unfold tmp in E. rewrite length_str_app in E. cbn in E. lia. }
  (* whatever is done to the temporary file *)
  pose (R := fun f f' : gmap string string => forall n, n <> tmp -> f' !! n = f !! n).
  assert (PreOrder R) as HR.
  { split; [by intros f n|]. intros f1 f2 f3 H1 H2 n Hn. by rewrite H2, H1. }
  assert (forall f c, R f (<[tmp := c]> f)) as Hins by (intros f c n Hn; by apply lookup_insert_ne).
  assert (stepping (files_rel R) (os_Create tmp)) as H1 by (apply disk_op_steps; [done|by unfold untouched|intros f; apply Hins]).
  assert (stepping (files_rel R) (catch (os_Write tmp b))) as H2 by (apply stepping_catch, disk_op_steps; [done|intros n f; apply Hins|intros f; apply Hins]).
  assert (stepping (files_rel R) (catch os_Sync)) as H3 by (apply stepping_catch, disk_op_steps; [done|by unfold untouched|done]).
  assert (stepping (files_rel R) (catch os_Close)) as H4 by (apply stepping_catch, disk_op_steps; [done|by unfold untouched|done]).
  unfold writeAtomic. fold tmp. unfold bind.
  specialize (H1 d). destruct (os_Create tmp d) as [[[]|e] d1]; cbn in H1; [|split_and!; [left; by apply H1|done|intros n _; apply H1]].
  specialize (H2 d1). destruct (catch (os_Write tmp b) d1) as [w d2] eqn:Ew. cbn in H2. unfold catch in Ew.
  destruct (os_Write tmp b d1) as [werr d2'] eqn:Ew'. injection Ew as <- ->.
  specialize (H3 d2). unfold catch in H3 |- * at 1. destruct (os_Sync d2) as [serr d3] eqn:Es. cbn in H3.
  specialize (H4 d3). unfold catch in H4 |- * at 1. destruct (os_Close d3) as [cerr d4] eqn:Ec. cbn in H4.
  assert (files_rel R d d4) as H by (etrans; [exact H1|]; etrans; [exact H2|]; by etrans). clear H1 H2 H3 H4.
  destruct (join_errs _) as [e|] eqn:Ej; [split_and!; [left; by apply H|done|intros n _; apply H]|].
  destruct werr as [[]|]; [|done]. destruct serr as [[]|]; [|done]. destruct cerr as [[]|]; [|done].
  apply disk_op_ok in Ew'. injection Ew' as Ew'. apply disk_op_ok in Es. injection Es as Es. apply disk_op_ok in Ec. injection Ec as Ec.
  assert (dk_files d4 !! tmp = Some b) as Ht by (rewrite <- Ec, <- Es, <- Ew'; apply lookup_insert_eq).
  unfold os_Rename, disk_op. rewrite Ht.
  assert (forall n, n <> path -> n <> tmp -> (<[path := b]> (delete tmp (dk_files d4))) !! n = dk_files d !! n) as Hn.
  { intros n Hn1 Hn2. rewrite lookup_insert_ne, lookup_delete_ne by done. by apply H. }
  destruct (dk_dead d4); [split_and!; [left; by apply H|done|intros n _; apply H]|].
  destruct (dk_faults d4) as [|[] ]; cbn; (split_and!; [|try done; intros _; apply lookup_insert_eq|try done; intros m _; apply H]);
    first [left; by apply H | right; apply lookup_insert_eq].
Qed.
