(* ===== verification/StoreOpen.v ===== *)
(** internal/store/store.go: opening and closing the store, its migrations, transactions
    and the summary of an upgrade; and what the SQL of the migrations does.

    SQLite and its driver are the interface [Sqlite] over whatever a database file
    is; what the code relies on of it is [SqliteLaws].  Then: that upgrades add up, and
    that an upgrade keeps what there was. *)
From stdpp Require Import pretty.
From S2P Require Import Prelude Text TextCut Db StorePeople StoreWf GoStd AppConfig.
Local Open Scope Z_scope.

(** ** The driver *)
Class Sqlite (F : Type) := {
  sq_open : string -> option string;                 (* sql.Open's error *)
  sq_begin : F -> option string;                     (* BeginTx's *)
  sq_exec : string -> F -> string + F;               (* ExecContext in a transaction *)
  sq_commit : F -> option string;
  sq_user_version : F -> string + Z;                 (* PRAGMA user_version *)
  sq_count : string -> F -> string + Z               (* SELECT count( * ) FROM a table *)
}.
Definition set_user_version (v : Z) : string := "PRAGMA user_version = " +:+ itoa v.
Class SqliteLaws {F} (Q : Sqlite F) := {
  sq_version_set v f f' : sq_exec (set_user_version v) f = inr f' -> sq_user_version f' = inr v
}.

(** ** The connections *)
(** [url.Values.Encode] *)
Definition encode_values (vs : list (string * list string)) : string :=
  strings_Join "&" (concat (map (fun kv => map (fun v => cat [QueryEscape kv.1; "="; QueryEscape v]) kv.2)
                                (order_by (fun a b => String.leb a.1 b.1) vs))).
Definition dsn (path : string) (readOnly : bool) : string :=
  let pragmas := ["busy_timeout(5000)"; "foreign_keys(1)"; "journal_mode(WAL)"; "synchronous(FULL)"] in
  let q := if readOnly then [("_pragma", pragmas ++ ["query_only(1)"])] else [("_pragma", pragmas); ("_txlock", ["immediate"])] in
  cat ["file:"; path; "?"; encode_values q].
Example dsn_writes : dsn "/d/hub.db" false = cat
  ["file:/d/hub.db?_pragma=busy_timeout%285000%29&_pragma=foreign_keys%281%29&_pragma=journal_mode%28WAL%29&_pragma=synchronous%28FULL%29"; "&_txlock=immediate"].
Proof. vm_compute. reflexivity. Qed.

Section store.
Context {F : Type} {Q : Sqlite F}.

(** [runTx]: what [fn] does is kept if it succeeds and the commit does. *)
Definition runTx (fn : F -> string + F) (f : F) : option string * F :=
  match sq_begin f with
  | Some e => (Some ("begin: " +:+ e), f)
  | None =>
    match fn f with
    | inl e => (Some e, f)
    | inr f' => match sq_commit f' with Some e => (Some ("commit: " +:+ e), f) | None => (None, f') end
    end
  end.

(** ** Migrations *)
Record migration := mkMigration { mg_version : Z; mg_name : string; mg_body : string + string }.
(** The steps of the embedded files, in the order of the directory. *)
Fixpoint migration_steps (entries : list (string * (string + string))) : string + list migration :=
  match entries with
  | [] => inr []
  | (name, body) :: entries =>
    let bad := inl (cat ["migration "; name; ": name must start with a positive number and '_'"]) in
    match cut_at_byte name "_" with
    | None => bad
    | Some (n, _) =>
      match atoi n with
      | Some v => if v <? 1 then bad else match migration_steps entries with inl e => inl e | inr l => inr (mkMigration v name body :: l) end
      | None => bad
      end
    end
  end.
Fixpoint numbered (i : Z) (steps : list migration) : option string :=
  match steps with
  | [] => None
  | st :: steps => if mg_version st =? i then numbered (i + 1) steps else Some ("migrations are not numbered 1..n: " +:+ mg_name st)
  end.
Definition migration_tx (st : migration) (body : string) (f : F) : string + F :=
  match sq_exec body f with inl e => inl e | inr f' => sq_exec (set_user_version (mg_version st)) f' end.
Fixpoint run_migrations (steps : list migration) (f : F) : option string * F :=
  match steps with
  | [] => (None, f)
  | st :: steps =>
    match mg_body st with
    | inl e => (Some e, f)
    | inr body =>
      match runTx (migration_tx st body) f with
      | (Some e, f') => (Some (cat ["migration "; mg_name st; ": "; e]), f')
      | (None, f') => run_migrations steps f'
      end
    end
  end.
(** [migrateTo] from the steps; a version below zero, which no release has written,
    would be an index out of range. *)
Definition migrate_steps (steps : list migration) (target : Z) (f : F) : option string * F :=
  let n := Z.of_nat (length steps) in
  match sq_user_version f with
  | inl e => (Some ("read schema version: " +:+ e), f)
  | inr current =>
    if n <? current then
      (Some (cat ["database schema version "; itoa current; " is newer than this build ("; itoa n; "); refusing to run"]), f)
    else if current <? 0 then (Some "slice bounds out of range", f)
    else
      let target := if (target <=? 0) || (n <? target) then n else target in
      run_migrations (drop (Z.to_nat current) (take (Z.to_nat (Z.max current target)) steps)) f
  end.
Definition migrateTo (entries : list (string * (string + string))) (target : Z) (f : F) : option string * F :=
  match migration_steps entries with
  | inl e => (Some e, f)
  | inr steps =>
    let steps := order_by (fun a b => mg_version a <=? mg_version b) steps in
    match numbered 1 steps with
    | Some e => (Some e, f)
    | None => migrate_steps steps target f
    end
  end.
Definition migrate (entries : list (string * (string + string))) : F -> option string * F := migrateTo entries 0.

(** ** [Open] *)
Definition ensureDir (mkdirAll : string -> option string) (path : string) : option string :=
  match mkdirAll (Dir path) with Some e => Some (cat ["create "; Dir path; ": "; e]) | None => None end.
Definition Open (mkdirAll : string -> option string) (entries : list (string * (string + string))) (path : string) (f : F) : option string * F :=
  match ensureDir mkdirAll path with
  | Some e => (Some e, f)
  | None =>
    match sq_open (dsn path false) with
    | Some e => (Some (cat ["open "; path; ": "; e]), f)
    | None =>
      match migrate entries f with
      | (Some e, f') => (Some e, f')
      | (None, f') =>
        match sq_open (dsn path true) with
        | Some e => (Some (cat ["open "; path; " for reading: "; e]), f')
        | None => (None, f')
        end
      end
    end
  end.

(** ** [Summary] *)
Definition old_tables : list string := ["identities"; "names"; "messages"; "members"; "deliveries"; "bans"; "rooms"; "room_roles"; "audit"].
Definition new_tables : list string := ["people"; "link_codes"; "whispers"; "whisper_deliveries"; "ignores"].
Fixpoint count_tables (f : F) (tables : list string) (out : gmap string Z) : string + gmap string Z :=
  match tables with
  | [] => inr out
  | t :: tables => match sq_count t f with inl e => inl (cat ["count "; t; ": "; e]) | inr n => count_tables f tables (<[t := n]> out) end
  end.
Definition Summary (f : F) : string + gmap string Z :=
  match sq_user_version f with
  | inl e => inl e
  | inr v => count_tables f (old_tables ++ (if 4 <=? v then new_tables else [])) {["schema_version" := v]}
  end.
End store.
(** [Store.Close], from what closing the readers (if they are open), the checkpoint and
    closing the writer say: every one is done, and their errors are joined. *)
Definition Close (readers : option (option string)) (checkpoint writer : option string) : list string :=
  option_list (mjoin readers) ++ option_list checkpoint ++ option_list writer.
(** The files of migrations/, whose bodies are SQL. *)
Definition migration_names : list string := ["0001_init.sql"; "0002_lxmf_mine.sql"; "0003_delivery_parts.sql"; "0004_people.sql"].

(** * Upgrades

    internal/store/store.go: an upgrade in several goes, or one that fails partway,
    is an upgrade in one. *)
Section migrations.
Context {F : Type} {Q : Sqlite F} {L : SqliteLaws Q}.

(** What the embedded files are to be: steps numbered from 1. *)
Definition numbered_files (entries : list (string * (string + string))) (steps : list migration) : Prop :=
  exists l, migration_steps entries = inr l /\ order_by (fun a b => mg_version a <=? mg_version b) l = steps /\ numbered 1 steps = None.
Lemma migrateTo_steps entries steps target f : numbered_files entries steps -> migrateTo entries target f = migrate_steps steps target f.
Proof. intros (l & Hl & Hs & Hn). unfold migrateTo. by rewrite Hl, Hs, Hn. Qed.
Lemma numbered_at steps : forall i k st, numbered i steps = None -> steps !! k = Some st -> mg_version st = i + Z.of_nat k.
Proof.
  induction steps as [|s steps IH]; intros i k st Hn Hk; [done|]. cbn in Hn. destruct (Z.eqb_spec (mg_version s) i) as [E|]; [|done].
  destruct k as [|k]; cbn in Hk; [injection Hk as <-; lia|]. rewrite (IH (i + 1) k st Hn Hk). lia.
Qed.

Lemma run_migrations_app l1 l2 f : run_migrations (l1 ++ l2) f =
  match run_migrations l1 f with (None, f1) => run_migrations l2 f1 | r => r end.
Proof.
  revert f. induction l1 as [|st l1 IH]; intros f; [done|]. cbn. destruct (mg_body st) as [|b]; [done|]. destruct (runTx _ f) as [[e|] f']; [done|apply IH].
Qed.
(** A step that succeeds leaves its version. *)
Lemma migration_version st b f f' : runTx (migration_tx st b) f = (None, f') -> sq_user_version f' = inr (mg_version st).
Proof.
  unfold runTx, migration_tx. destruct (sq_begin f); [done|]. destruct (sq_exec b f) as [|f1]; [done|].
  destruct (sq_exec (set_user_version _) f1) as [|f2] eqn:E; [done|]. destruct (sq_commit f2); [done|]. intros [= <-]. by eapply sq_version_set.
Qed.
Lemma run_version l f f' st : run_migrations l f = (None, f') -> last l = Some st -> sq_user_version f' = inr (mg_version st).
Proof.
  intros Hr Hl. apply last_Some in Hl as [l' ->]. rewrite run_migrations_app in Hr. destruct (run_migrations l' f) as [[e|] f1]; [done|].
  cbn in Hr. destruct (mg_body st) as [|b]; [done|]. destruct (runTx _ f1) as [[e|] f2] eqn:E; [done|]. injection Hr as <-. by eapply migration_version.
Qed.
(** A run that fails has done the steps before the one that failed, and nothing of
    that one. *)
Lemma run_fails l : forall f e f', run_migrations l f = (Some e, f') ->
  exists l1 st l2, l = l1 ++ st :: l2 /\ run_migrations l1 f = (None, f').
Proof.
  induction l as [|st l IH]; intros f e f' H; [done|]. cbn in H. destruct (mg_body st) as [|b] eqn:Eb.
  { injection H as _ <-. by exists [], st, l. }
  destruct (runTx _ f) as [[e0|] f1] eqn:E.
  - injection H as _ <-. exists [], st, l. split; [done|]. cbn. f_equal. unfold runTx in E.
    destruct (sq_begin f); [by injection E as _ <-|]. destruct (migration_tx _ _ _); [by injection E as _ <-|].
    destruct (sq_commit _); [by injection E as _ <-|done].
  - apply IH in H as (l1 & st' & l2 & -> & H1). exists (st :: l1), st', l2. split; [done|]. cbn. by rewrite Eb, E.
Qed.

(** The database at version [v] of the steps: what running from there does. *)
Definition target_of (steps : list migration) (target : Z) : Z :=
  if (target <=? 0) || (Z.of_nat (length steps) <? target) then Z.of_nat (length steps) else target.
Lemma migrate_steps_at steps target f v : sq_user_version f = inr v -> 0 <= v <= Z.of_nat (length steps) ->
  migrate_steps steps target f = run_migrations (drop (Z.to_nat v) (take (Z.to_nat (Z.max v (target_of steps target))) steps)) f.
Proof.
  intros Hv Hr. unfold migrate_steps. rewrite Hv. destruct (Z.ltb_spec (Z.of_nat (length steps)) v); [lia|].
  destruct (Z.ltb_spec v 0); [lia|]. done.
Qed.
Lemma target_range steps target : 0 <= target_of steps target <= Z.of_nat (length steps).
Proof. unfold target_of. destruct (Z.leb_spec target 0), (Z.ltb_spec (Z.of_nat (length steps)) target); cbn; lia. Qed.

(** Running some of the steps leaves the version of the last. *)
Lemma run_to steps (v k : nat) f f' : numbered 1 steps = None -> (v < k <= length steps)%nat ->
  run_migrations (drop v (take k steps)) f = (None, f') -> sq_user_version f' = inr (Z.of_nat k).
Proof.
  intros Hn Hk Hr. assert (exists st, steps !! (k - 1)%nat = Some st) as [st Hst] by (apply lookup_lt_is_Some; lia).
  rewrite (run_version _ _ _ st Hr); [|].
  - rewrite (numbered_at steps 1 _ st Hn Hst). f_equal. lia.
  - rewrite last_lookup, length_drop, length_take, lookup_drop, lookup_take_lt by lia. rewrite <- Hst. f_equal. lia.
Qed.

(** C37. Upgrades add up.  Take a database at a version this build knows.  If an older
    build, or an upgrade told to stop there, has brought it to some version, the
    upgrade from where that left it is the upgrade from where it was.  If a
    migration fails, the database is as an upgrade to the version before it leaves
    it, with nothing of the failed one, so that trying again goes on from there.
    A database of a newer build is refused and left alone. *)
Theorem migrations_resume entries steps f v : numbered_files entries steps -> sq_user_version f = inr v ->
  (0 <= v <= Z.of_nat (length steps) ->
     (forall target f1, migrateTo entries target f = (None, f1) ->
        sq_user_version f1 = inr (Z.max v (target_of steps target)) /\ migrate entries f1 = migrate entries f) /\
     (forall e f1, migrate entries f = (Some e, f1) ->
        exists k, v <= k < Z.of_nat (length steps) /\ sq_user_version f1 = inr k /\
          (k = v /\ f1 = f \/ v < k /\ migrateTo entries k f = (None, f1)))) /\
  (Z.of_nat (length steps) < v -> exists e, migrate entries f = (Some e, f)).
Proof.
  intros Hnf Hv. pose proof Hnf as (l & _ & _ & Hnum). unfold migrate. setoid_rewrite (migrateTo_steps entries steps); [|done..].
  split; [intros Hr; split|].
  - intros target f1. rewrite (migrate_steps_at steps target f v Hv Hr). set (k := Z.max v _). intros Hrun.
    pose proof (target_range steps target) as Ht. set (n := Z.of_nat (length steps)) in *.
    assert (sq_user_version f1 = inr k) as Hv1.
    { destruct (Z.eq_dec k v) as [E|Hne].
      - rewrite E in *. rewrite drop_ge in Hrun by (rewrite length_take; lia). by injection Hrun as <-.
      - replace k with (Z.of_nat (Z.to_nat k)) by lia. eapply (run_to steps (Z.to_nat v)); [done| |exact Hrun]. lia. }
    split; [done|]. rewrite (migrate_steps_at steps 0 f1 k), (migrate_steps_at steps 0 f v) by (done || lia).
    change (target_of steps 0) with n. rewrite !Z.max_r by lia. unfold n. rewrite Nat2Z.id, take_ge by done.
    assert (drop (Z.to_nat v) steps = drop (Z.to_nat v) (take (Z.to_nat k) steps) ++ drop (Z.to_nat k) steps) as ->.
    { rewrite <- (firstn_skipn (Z.to_nat k) steps) at 1. rewrite drop_app_le; [done|]. rewrite length_take. lia. }
    by rewrite run_migrations_app, Hrun.
  - intros e f1 H. rewrite (migrate_steps_at steps 0 f v Hv Hr) in H. change (target_of steps 0) with (Z.of_nat (length steps)) in H.
    rewrite Z.max_r, Nat2Z.id, take_ge in H by (done || lia). apply run_fails in H as (l1 & st & l2 & El & H1).
    assert (length l1 + Z.to_nat v < length steps)%nat as Hlen.
    { apply (f_equal length) in El. rewrite length_drop, length_app in El. cbn in El. lia. }
    assert (drop (Z.to_nat v) (take (Z.to_nat v + length l1) steps) = l1) as E1.
    { rewrite <- take_drop_commute, El. by rewrite take_app_length. }
    exists (v + Z.of_nat (length l1)). split; [lia|]. destruct l1 as [|s1 l1]; [injection H1 as <-; split; [rewrite Hv; f_equal; cbn; lia|left; split; [cbn; lia|done]]|].
    assert (run_migrations (drop (Z.to_nat v) (take (Z.to_nat v + length (s1 :: l1)) steps)) f = (None, f1)) as Hrun by (by rewrite E1).
    assert (sq_user_version f1 = inr (v + Z.of_nat (length (s1 :: l1)))) as Hv1.
    { replace (v + Z.of_nat (length (s1 :: l1))) with (Z.of_nat (Z.to_nat v + length (s1 :: l1))) by lia.
      eapply run_to; [done| |exact Hrun]. cbn in *. lia. }
    split; [done|right]. split; [cbn; lia|]. rewrite (migrate_steps_at steps _ f v Hv Hr).
    unfold target_of. destruct (Z.leb_spec (v + Z.of_nat (length (s1 :: l1))) 0); [cbn in *; lia|].
    destruct (Z.ltb_spec (Z.of_nat (length steps)) (v + Z.of_nat (length (s1 :: l1)))); [cbn in *; lia|]. cbn [orb].
    rewrite Z.max_r by (cbn; lia). rewrite Z2Nat.inj_add, Nat2Z.id by lia. exact Hrun.
  - intros Hlt. unfold migrate_steps. rewrite Hv. destruct (Z.ltb_spec (Z.of_nat (length steps)) v); [eauto|lia].
Qed.
End migrations.

(** * What the migrations do

    internal/store/migrations: the tables of each version and the statements that make
    the next.  A statement fails where a constraint does. *)
(** identities, with the rowid SQLite keeps for each row; deliveries and bans as they
    were at first. *)
Record Identity1 := mkIdentity1 { i1_rowid : Z; i1_public_key : option string; i1_first_seen : Z; i1_last_seen : Z; i1_lxmf_mode : LXMFMode }.
Record DeliveryRow1 := mkDeliveryRow1 { dr1_state : DeliveryState; dr1_attempts : Z; dr1_next_at : Z; dr1_updated_at : Z }.
Record Ban1 := mkBan1 { b1_reason : string; b1_banned_by : option ident; b1_banned_at : Z }.
(** The tables before there were people, over the rows of the two that change. *)
Record Tables (I D : Type) := mkTables {
  t_identities : gmap ident I;
  t_names : gmap ident NameRow;
  t_rooms : gmap string Room;
  t_room_roles : gmap (string * ident * Role) RoleRow;
  t_invites : gmap (string * ident) Z;
  t_messages : gmap Z Message;
  t_cursors : gmap (ident * string * Via) Cursor;
  t_members : gmap ident MemberRow;
  t_deliveries : gmap (Z * ident) D;
  t_bans : gmap ident Ban1;
  t_audit : list AuditEntry;
  t_meta : gmap string string
}.
Arguments mkTables {I D}. Arguments t_identities {I D}. Arguments t_names {I D}. Arguments t_rooms {I D}. Arguments t_room_roles {I D}.
Arguments t_invites {I D}. Arguments t_messages {I D}. Arguments t_cursors {I D}. Arguments t_members {I D}. Arguments t_deliveries {I D}.
Arguments t_bans {I D}. Arguments t_audit {I D}. Arguments t_meta {I D}.
Definition V1 : Type := Tables Identity1 DeliveryRow1.
Definition V2 : Type := Tables (Identity1 * bool) DeliveryRow1.
Definition V3 : Type := Tables (Identity1 * bool) DeliveryRow.
Definition with_rows {I I' D D'} (f : I -> I') (g : D -> D') (t : Tables I D) : Tables I' D' :=
  mkTables (f <$> t_identities t) (t_names t) (t_rooms t) (t_room_roles t) (t_invites t) (t_messages t) (t_cursors t) (t_members t)
    (g <$> t_deliveries t) (t_bans t) (t_audit t) (t_meta t).

(** 0001: the tables.  0002 and 0003: a column with its default. *)
Definition init_0001 : V1 := mkTables ∅ ∅ ∅ ∅ ∅ ∅ ∅ ∅ ∅ ∅ [] ∅.
Definition lxmf_mine_0002 : V1 -> V2 := with_rows (fun i => (i, false)) id.
Definition delivery_parts_0003 : V2 -> V3 :=
  with_rows id (fun d => mkDeliveryRow (dr1_state d) (dr1_attempts d) 0 (dr1_next_at d) (dr1_updated_at d)).
(** INSERT ... SELECT into an empty table: a row with a key that is there, or that the
    table's constraints refuse beside one that is, fails. *)
Fixpoint insert_rows {K A} `{Countable K} (beside : A -> A -> bool) (fine : K -> A -> bool) (rows : list (K * A)) (m : gmap K A) : option (gmap K A) :=
  match rows with
  | [] => Some m
  | (k, a) :: rows =>
    if bool_decide (m !! k = None) && fine k a && forallb (beside a) (map_to_list m).*2 then insert_rows beside fine rows (<[k := a]> m) else None
  end.
(** 0004: each identity becomes a person of its own, numbered by its rowid, and holds
    the identity's name. *)
Definition person_0004 (im : Identity1 * bool) : Z * SPerson :=
  (i1_rowid im.1, mkSPerson (i1_rowid im.1) (i1_first_seen im.1) SRankMember None 0 DefaultPrefs).
Definition identity_0004 (id : ident) (im : Identity1 * bool) : Identity :=
  let '(i, mine) := im in
  mkIdentity id (i1_public_key i) (i1_first_seen i) (i1_last_seen i) (i1_lxmf_mode i) mine (i1_rowid i) (i1_first_seen i).
Definition names_0004 (t : V3) : list (Z * NameRow) :=
  omap (fun kn => im ← t_identities t !! kn.1; Some (i1_rowid im.1, kn.2)) (map_to_list (t_names t)).
Definition people_0004 (t : V3) : option DB :=
  people ← insert_rows (fun _ _ => true) (fun _ _ => true) (map person_0004 (map_to_list (t_identities t)).*2) ∅;
  names ← insert_rows (fun a b => negb (bool_decide (nr_skeleton a = nr_skeleton b))) (fun p _ => bool_decide (is_Some (people !! p))) (names_0004 t) ∅;
  Some (mkDB (map_imap (fun id im => Some (identity_0004 id im)) (t_identities t)) people names ∅ (t_rooms t) (t_room_roles t) (t_invites t)
    (t_messages t) (t_cursors t) (t_members t) (t_deliveries t)
    (map_imap (fun id b => Some (mkBan id "" (b1_reason b) (b1_banned_by b) (b1_banned_at b) 0)) (t_bans t)) ∅ ∅ ∅ (t_audit t) (t_meta t)).

(** What the schema and the code kept of such tables. *)
Record tables_wf {I D} (row : I -> Identity1) (t : Tables I D) : Prop := {
  tw_identity : forall id i, t_identities t !! id = Some i -> checkID id = true /\ 0 < i1_rowid (row i);
  tw_rowid : forall id id' i i', t_identities t !! id = Some i -> t_identities t !! id' = Some i' -> i1_rowid (row i) = i1_rowid (row i') -> id = id';
  tw_name : forall id n, t_names t !! id = Some n -> is_Some (t_identities t !! id) /\ nr_name n <> "" /\ nr_skeleton n <> "";
  tw_skeleton : forall id id' n m, t_names t !! id = Some n -> t_names t !! id' = Some m -> nr_skeleton n = nr_skeleton m -> id = id';
  tw_member : forall id r, t_members t !! id = Some r -> is_Some (t_identities t !! id);
  tw_room : forall n r, t_rooms t !! n = Some r -> Room_Name r = n;
  tw_role : forall r id ro x, t_room_roles t !! (r, id, ro) = Some x -> is_Some (t_rooms t !! r);
  tw_invite : forall r id x, t_invites t !! (r, id) = Some x -> is_Some (t_rooms t !! r);
  tw_message : forall k m, t_messages t !! k = Some m -> Message_ID m = k /\ 0 < k;
  tw_origin : forall k l m n o, t_messages t !! k = Some m -> t_messages t !! l = Some n ->
    Message_OriginID m = Some o -> Message_OriginID n = Some o -> Message_Via m = Message_Via n -> k = l
}.
Lemma tables_wf_rows {I I' D D'} (row : I -> Identity1) (row' : I' -> Identity1) (f : I -> I') (g : D -> D') t :
  (forall i, row' (f i) = row i) -> tables_wf row t -> tables_wf row' (with_rows f g t).
Proof.
  intros Hf []. assert (forall id i', t_identities (with_rows f g t) !! id = Some i' -> exists i, t_identities t !! id = Some i /\ i' = f i) as Hi.
  { intros id i' H. cbn in H. rewrite lookup_fmap in H. apply fmap_Some in H. destruct H as (i & ? & ->). eauto. }
  assert (forall id, is_Some (t_identities t !! id) -> is_Some (t_identities (with_rows f g t) !! id)) as Hs.
  { intros id H. cbn. by rewrite lookup_fmap, fmap_is_Some. }
  constructor; try done.
  - intros id i' (i & Hl & ->)%Hi. rewrite Hf. eauto.
  - intros id id' i1 i2 (i & Hl & ->)%Hi (i' & Hl' & ->)%Hi. rewrite !Hf. eauto.
  - intros id n Hn. destruct (tw_name0 id n Hn) as (? & ? & ?). eauto.
  - intros id r Hr. eauto.
Qed.
Lemma tables_wf_init : tables_wf id init_0001.
Proof. constructor; cbn; intros *; rewrite ?lookup_empty; done. Qed.

(** ** Nothing is lost *)
(** Rows that agree with one another all go in. *)
Lemma insert_rows_ok {K A} `{Countable K} (beside : A -> A -> bool) (fine : K -> A -> bool) (rows : list (K * A)) : forall m : gmap K A,
  NoDup rows.*1 -> (forall k a, (k, a) ∈ rows -> m !! k = None /\ fine k a = true) ->
  (forall k a k' b, (k, a) ∈ rows -> (k', b) ∈ rows \/ m !! k' = Some b -> k <> k' -> beside a b = true) ->
  exists m', insert_rows beside fine rows m = Some m' /\ forall k a, m' !! k = Some a <-> m !! k = Some a \/ (k, a) ∈ rows.
Proof.
  induction rows as [|[k a] rows IH]; intros m Hnd Hm Hb; cbn [insert_rows].
  { exists m. split; [done|]. intros k a. split; [by left|]. intros [|Hk%not_elem_of_nil]; done. }
  apply NoDup_cons in Hnd as [Hk Hnd]. destruct (Hm k a ltac:(left)) as [Hn Hf]. rewrite bool_decide_eq_true_2, Hf by done.
  assert (forallb (beside a) (map_to_list m).*2 = true) as ->.
  { apply forallb_forall. intros b Hin%list_elem_of_In. apply elem_of_values in Hin as [k' Hk']. eapply (Hb k a k' b); [left|by right|congruence]. }
  cbn [andb]. destruct (IH (<[k := a]> m)) as (m' & E & Hl); [done|..].
  - intros k' b Hin. assert (k' <> k) as Hne by (intros ->; apply Hk, list_elem_of_fmap; by exists (k, b)).
    destruct (Hm k' b ltac:(by right)). by rewrite lookup_insert_ne.
  - intros k1 a1 k2 b Hin [Hin2|Hin2]; [eapply Hb; [by right|left; by right]|].
    destruct (decide (k2 = k)) as [->|Hne]; [rewrite lookup_insert_eq in Hin2; injection Hin2 as ->; eapply Hb; [by right|left; left]|].
    rewrite lookup_insert_ne in Hin2 by done. eapply Hb; [by right|by right].
  - exists m'. split; [done|]. intros k' b. rewrite Hl, lookup_insert_Some, elem_of_cons. destruct (decide (k = k')) as [<-|Hne].
    + split; [intros [[[_ ->]|[? _]]|]; auto; done|]. intros [?|[[= ->]|]]; [congruence|by left; left|by right].
    + split; [intros [[[? _]|[_ ?]]|]; auto; done|]. intros [?|[[= <- <-]|]]; [by left; right|done|by right].
Qed.

Section people_0004.
Context (t : V3) (Ht : tables_wf fst t).
Notation idents := (t_identities t).

Lemma person_rows p sp : (p, sp) ∈ map person_0004 (map_to_list idents).*2 <->
  exists id im, idents !! id = Some im /\ person_0004 im = (p, sp).
Proof.
  rewrite list_elem_of_fmap. split.
  - intros (im & -> & (id & Hi)%elem_of_values). by exists id, im.
  - intros (id & im & Hi & <-). exists im. split; [done|]. apply elem_of_values. by exists id.
Qed.
Lemma person_rows_once : NoDup (map person_0004 (map_to_list idents).*2).*1.
Proof.
  change (map person_0004) with (fmap (M := list) person_0004). rewrite <- !list_fmap_compose. apply NoDup_fmap_2_strong; [|apply NoDup_map_to_list].
  intros [id im] [id' im'] Hi%elem_of_map_to_list Hi'%elem_of_map_to_list Heq. cbn in Heq.
  assert (id = id') as <- by (by eapply (tw_rowid _ _ Ht)). congruence.
Qed.
Lemma name_rows p n : (p, n) ∈ names_0004 t <-> exists id im, t_names t !! id = Some n /\ idents !! id = Some im /\ p = i1_rowid im.1.
Proof.
  unfold names_0004. rewrite list_elem_of_omap. split.
  - intros ([id m] & Hn%elem_of_map_to_list & E). cbn in E. destruct (idents !! id) as [im|] eqn:Ei; [|done]. injection E as <- <-. by exists id, im.
  - intros (id & im & Hn & Hi & ->). exists (id, n). split; [by apply elem_of_map_to_list|]. cbn. by rewrite Hi.
Qed.
Lemma name_rows_once : NoDup (names_0004 t).*1.
Proof.
  unfold names_0004. pose proof (NoDup_fst_map_to_list (t_names t)) as Hnd. revert Hnd.
  induction (map_to_list (t_names t)) as [|[id n] l IH]; cbn; [constructor|]. intros [Hid Hnd]%NoDup_cons.
  destruct (idents !! id) as [im|] eqn:Ei; cbn; [|by apply IH]. constructor; [|by apply IH].
  intros ([p m] & Hp & ([id' m'] & Hin & E)%list_elem_of_omap)%list_elem_of_fmap. cbn in Hp, E.
  destruct (idents !! id') as [im'|] eqn:Ei'; [|done]. injection E as <- <-. apply Hid.
  assert (id = id') as -> by (by eapply (tw_rowid _ _ Ht)). apply list_elem_of_fmap. by exists (id', m').
Qed.
End people_0004.

(** What the store is after the last migration, and what it says of each identity:
    what the tables said, as a person of its own with the preferences of a new
    one. *)
Record carried (t : V3) (d : DB) : Prop := {
  ca_identity : forall id, identities d !! id = identity_0004 id <$> t_identities t !! id;
  ca_person : forall id im, t_identities t !! id = Some im ->
    (tx_PersonOf id d).1 = Ok (Some (person_0004 im).2) /\ identities_of d (i1_rowid im.1) = [identity_0004 id im];
  ca_name : forall id im, t_identities t !! id = Some im ->
    (tx_NameOf id d).1 = Ok ((fun n => mkName (i1_rowid im.1) id (nr_name n) (nr_skeleton n) (nr_claimed_at n)) <$> t_names t !! id);
  ca_ban : forall id, bans d !! id = (fun b => mkBan id "" (b1_reason b) (b1_banned_by b) (b1_banned_at b) 0) <$> t_bans t !! id;
  ca_rooms : (rooms d, room_roles d, invites d) = (t_rooms t, t_room_roles t, t_invites t);
  ca_messages : (messages d, cursors d) = (t_messages t, t_cursors t);
  ca_group : (members d, deliveries d) = (t_members t, t_deliveries t);
  ca_rest : (audit d, meta d) = (t_audit t, t_meta t);
  ca_new : link_codes d = ∅ /\ whispers d = ∅ /\ whisper_deliveries d = ∅ /\ ignores d = ∅
}.

(** A person of one app. *)
Lemma list_one {A} (l : list A) x : NoDup l -> (forall y, y ∈ l <-> y = x) -> l = [x].
Proof.
  intros Hnd Hl. destruct l as [|y [|z l]].
  - exfalso. by apply (not_elem_of_nil x), Hl.
  - f_equal. apply Hl. left.
  - assert (y = x) as -> by (apply Hl; left). assert (z = x) as -> by (apply Hl; right; left).
    apply NoDup_cons in Hnd as [Hx _]. destruct Hx. left.
Qed.
Lemma identities_of_one d p id i : (forall k j, identities d !! k = Some j -> Identity_ID j = k) ->
  identities d !! id = Some i -> Identity_Person i = p ->
  (forall id' i', identities d !! id' = Some i' -> Identity_Person i' = p -> id' = id) -> identities_of d p = [i].
Proof.
  intros Hid Hi Hp Hone. apply list_one.
  - unfold identities_of. rewrite order_by_perm. apply NoDup_ListNoDup, List.NoDup_filter, NoDup_ListNoDup, NoDup_fmap_2_strong; [|apply NoDup_map_to_list].
    intros [k1 i1] [k2 i2] H1%elem_of_map_to_list%Hid H2%elem_of_map_to_list%Hid Heq. cbn in Heq. congruence.
  - intros j. rewrite elem_of_identities_of. split; [|intros ->; eauto]. intros [(k & Hk) Hj]. assert (k = id) as -> by eauto. congruence.
Qed.

Section upgraded.
Context (t : V3) (Ht : tables_wf fst t).
Notation idents := (t_identities t).

(** The rows after the last migration. *)
Record after_0004 (d : DB) : Prop := {
  af_identity : forall id, identities d !! id = identity_0004 id <$> idents !! id;
  af_person : forall p sp, people d !! p = Some sp <-> exists id im, idents !! id = Some im /\ person_0004 im = (p, sp);
  af_name : forall p n, names d !! p = Some n <-> exists id im, t_names t !! id = Some n /\ idents !! id = Some im /\ p = i1_rowid im.1;
  af_ban : forall id, bans d !! id = (fun b => mkBan id "" (b1_reason b) (b1_banned_by b) (b1_banned_at b) 0) <$> t_bans t !! id;
  af_same : (rooms d, room_roles d, invites d, messages d, cursors d, members d, deliveries d, audit d, meta d) =
    (t_rooms t, t_room_roles t, t_invites t, t_messages t, t_cursors t, t_members t, t_deliveries t, t_audit t, t_meta t);
  af_new : (link_codes d, whispers d, whisper_deliveries d, ignores d) = (∅, ∅, ∅, ∅)
}.
Lemma people_0004_ok : exists d, people_0004 t = Some d /\ after_0004 d.
Proof.
  unfold people_0004.
  destruct (insert_rows_ok (fun _ _ => true) (fun _ _ => true) (map person_0004 (map_to_list idents).*2) ∅ (person_rows_once t Ht)) as (people & -> & Hp);
    [by split|done|]. cbn [mbind option_bind].
  destruct (insert_rows_ok (fun a b => negb (bool_decide (nr_skeleton a = nr_skeleton b))) (fun p _ => bool_decide (is_Some (people !! p))) (names_0004 t) ∅
    (name_rows_once t Ht)) as (names & -> & Hn).
  - intros p n (id & im & _ & Hi & ->)%name_rows. split; [done|]. apply bool_decide_eq_true. exists (person_0004 im).2. apply Hp. right. apply person_rows. by exists id, im.
  - intros p n p' m (id & im & Hn & Hi & ->)%name_rows [(id' & im' & Hn' & Hi' & ->)%name_rows|?]; [|done]. intros Hne. apply negb_true_iff, bool_decide_eq_false.
    intros Hs. assert (id = id') as <- by (by eapply (tw_skeleton _ _ Ht)). congruence.
  - eexists. split; [done|]. constructor; cbn; try done.
    + intros id. rewrite map_lookup_imap. by destruct (idents !! id).
    + intros p sp. rewrite Hp, person_rows, lookup_empty. naive_solver.
    + intros p n. rewrite Hn, name_rows, lookup_empty. naive_solver.
    + intros id. rewrite map_lookup_imap. by destruct (t_bans t !! id).
Qed.

Lemma its_person id im : Identity_Person (identity_0004 id im) = i1_rowid im.1.
Proof. by destruct im. Qed.
Lemma its_id id im : Identity_ID (identity_0004 id im) = id.
Proof. by destruct im. Qed.
Context (d : DB) (Hd : after_0004 d).
Lemma after_identity id i : identities d !! id = Some i -> exists im, idents !! id = Some im /\ i = identity_0004 id im.
Proof. rewrite (af_identity d Hd). intros (im & ? & ->)%fmap_Some. eauto. Qed.
Lemma after_person id im : idents !! id = Some im -> people d !! i1_rowid im.1 = Some (person_0004 im).2.
Proof. intros Him. apply (af_person d Hd). eauto. Qed.
Lemma one_row id id' im im' : idents !! id = Some im -> idents !! id' = Some im' -> i1_rowid im.1 = i1_rowid im'.1 -> id = id' /\ im = im'.
Proof. intros H1 H2 Hr. assert (id = id') as <- by (by eapply (tw_rowid _ _ Ht)). split; [done|congruence]. Qed.

(** A well-formed store. *)
Lemma after_wf : db_wf d.
Proof.
  pose proof (af_same d Hd) as [= Er Err Ei Em Ec Eme Ede Ea Emt]. pose proof (af_new d Hd) as [= Elc Ew Ewd Eig].
  constructor; rewrite ?Er, ?Err, ?Ei, ?Em, ?Eme, ?Elc, ?Ew, ?Ewd, ?Eig; try done; try apply Ht.
  - intros id i (im & Him & ->)%after_identity. rewrite its_person, its_id, (after_person id im Him). split_and!; [done|by apply (tw_identity _ _ Ht id im)|done].
  - intros p sp (id & im & Him & [= <- <-])%(af_person d Hd). split_and!; [done|by apply (tw_identity _ _ Ht id im)|done].
  - intros p [sp (id & im & Him & [= <- _])%(af_person d Hd)]. exists id, (identity_0004 id im). by rewrite (af_identity d Hd), Him, its_person.
  - intros p n (id & im & Hnm & Him & ->)%(af_name d Hd). destruct (tw_name _ _ Ht id n Hnm) as (_ & ? & ?). by rewrite (after_person id im Him).
  - intros p q n m (id & im & Hnm & Him & ->)%(af_name d Hd) (id' & im' & Hnm' & Him' & ->)%(af_name d Hd) Hs.
    assert (id = id') as <- by (by eapply (tw_skeleton _ _ Ht)). congruence.
  - intros id r Hr. rewrite (af_identity d Hd), fmap_is_Some. by eapply (tw_member _ _ Ht).
  - intros id b. rewrite (af_ban d Hd). by intros (b1 & _ & ->)%fmap_Some.
Qed.
(** With everything that was there. *)
Lemma after_carried : carried t d.
Proof.
  pose proof (af_same d Hd) as [= Er Err Ei Em Ec Eme Ede Ea Emt]. pose proof (af_new d Hd) as [= Elc Ew Ewd Eig].
  assert (forall id im, idents !! id = Some im -> identities_of d (i1_rowid im.1) = [identity_0004 id im]) as Hown.
  { intros id im Him. apply (identities_of_one d _ id); [by intros k j (jm & _ & ->)%after_identity; apply its_id|by rewrite (af_identity d Hd), Him|apply its_person|].
    intros id' i (im' & Him' & ->)%after_identity Hp. rewrite its_person in Hp. by eapply one_row. }
  constructor; try congruence; [apply Hd| | |apply Hd|done].
  - intros id im Him. split; [|by apply Hown]. unfold tx_PersonOf, gets. cbn. rewrite (af_identity d Hd), Him. cbn. by rewrite its_person, (after_person id im Him).
  - intros id im Him. unfold tx_NameOf, bind, get. rewrite (af_identity d Hd), Him. cbn [fmap option_fmap option_map mbind option_bind]. rewrite its_person.
    destruct (t_names t !! id) as [n|] eqn:En.
    + rewrite (proj2 (af_name d Hd (i1_rowid im.1) n)) by eauto. cbn. unfold bind, primaryOf, bind, get. rewrite (Hown id im Him). cbn. by rewrite its_id.
    + destruct (names d !! i1_rowid im.1) as [n|] eqn:E2; [|done]. apply (af_name d Hd) in E2 as (id' & im' & Hn' & Him' & Heq).
      destruct (one_row id id' im im' Him Him' Heq) as [<- _]. congruence.
Qed.
End upgraded.

(** ** The driver on such a file *)
(** A file has a version and the tables of one; its statements are the texts of the
    migrations and the setting of the version.  The disk does what it is asked. *)
Inductive Schema := NoTables | At1 (t : V1) | At2 (t : V2) | At3 (t : V3) | At4 (d : DB).
Record DBFile := mkDBFile { fl_version : Z; fl_schema : Schema }.
Lemma set_user_version_inj v w : set_user_version v = set_user_version w -> v = w.
Proof.
  intros H. unfold set_user_version in H. apply (f_equal (str_drop (String.length "PRAGMA user_version = "))) in H.
  rewrite !str_drop_app in H. unfold itoa in H. by apply (inj pretty) in H.
Qed.
Definition release_versions : list Z := [1; 2; 3; 4].
Definition version_set (s : string) : option Z := head (List.filter (fun v => bool_decide (s = set_user_version v)) release_versions).
Lemma version_set_at v w : version_set (set_user_version v) = Some w -> w = v.
Proof.
  unfold version_set. intros Hw%head_Some_elem_of. apply elem_of_bfilter in Hw as [_ Hw%bool_decide_eq_true]. by apply set_user_version_inj in Hw.
Qed.

Section file.
Context (b1 b2 b3 b4 : string).
(** No two texts are the same, and none sets the version. *)
Context (texts : NoDup [b1; b2; b3; b4]) (no_versions : forall v, set_user_version v ∉ [b1; b2; b3; b4]).
Definition exec_sql (s : string) (f : DBFile) : string + DBFile :=
  let '(mkDBFile v sch) := f in
  match version_set s with
  | Some w => inr (mkDBFile w sch)
  | None =>
    if bool_decide (s = b1) then match sch with NoTables => inr (mkDBFile v (At1 init_0001)) | _ => inl "table identities already exists" end
    else if bool_decide (s = b2) then match sch with At1 t => inr (mkDBFile v (At2 (lxmf_mine_0002 t))) | _ => inl "no such table, or duplicate column name: lxmf_mine" end
    else if bool_decide (s = b3) then match sch with At2 t => inr (mkDBFile v (At3 (delivery_parts_0003 t))) | _ => inl "no such table, or duplicate column name: parts_done" end
    else if bool_decide (s = b4) then
      match sch with
      | At3 t => match people_0004 t with Some d => inr (mkDBFile v (At4 d)) | None => inl "constraint failed" end
      | _ => inl "no such table, or table people already exists"
      end
    else inl "not a statement of the program"
  end.
Definition file_sqlite : Sqlite DBFile := {|
  sq_open p := None; sq_begin f := None; sq_exec := exec_sql; sq_commit f := None; sq_user_version f := inr (fl_version f); sq_count t f := inl "not counted"
|}.
#[local] Existing Instance file_sqlite.
Lemma body_no_version b : b ∈ [b1; b2; b3; b4] -> version_set b = None.
Proof.
  intros Hb. destruct (version_set b) as [w|] eqn:E; [exfalso|done]. unfold version_set in E. apply head_Some_elem_of in E.
  apply elem_of_bfilter in E as [_ ->%bool_decide_eq_true]. by eapply no_versions.
Qed.
Lemma file_sqlite_laws : SqliteLaws file_sqlite.
Proof.
  constructor. intros v [w sch] f' H. cbn [sq_exec file_sqlite exec_sql] in H. cbn [sq_user_version file_sqlite]. f_equal.
  destruct (version_set (set_user_version v)) as [x|] eqn:E; [injection H as <-; by apply version_set_at in E|].
  pose proof (no_versions v) as Hv. rewrite !not_elem_of_cons in Hv. destruct Hv as (H1 & H2 & H3 & H4 & _).
  by rewrite !bool_decide_eq_false_2 in H.
Qed.

(** A file of some release, from none to the one before this and this. *)
Definition file_wf (f : DBFile) : Prop :=
  match fl_schema f with
  | NoTables => fl_version f = 0
  | At1 t => fl_version f = 1 /\ tables_wf id t
  | At2 t => fl_version f = 2 /\ tables_wf fst t
  | At3 t => fl_version f = 3 /\ tables_wf fst t
  | At4 d => fl_version f = 4 /\ db_wf d
  end.
Definition upgraded (f : DBFile) (d : DB) : Prop :=
  match fl_schema f with
  | NoTables => carried (delivery_parts_0003 (lxmf_mine_0002 init_0001)) d
  | At1 t => carried (delivery_parts_0003 (lxmf_mine_0002 t)) d
  | At2 t => carried (delivery_parts_0003 t) d
  | At3 t => carried t d
  | At4 d0 => d = d0
  end.
Definition embedded : list (string * (string + string)) := zip_with (fun n b => (n, inr b)) migration_names [b1; b2; b3; b4].
Definition embedded_steps : list migration := zip_with (fun v nb => mkMigration v nb.1 nb.2) release_versions embedded.
Lemma embedded_numbered : numbered_files embedded embedded_steps.
Proof.
  exists embedded_steps. split; [vm_compute; reflexivity|]. split; vm_compute; reflexivity.
Qed.

(** One migration of the program's own: its statement, and the version it leaves. *)
Lemma run_step v n b steps f sch : b ∈ [b1; b2; b3; b4] -> v ∈ release_versions -> exec_sql b f = inr (mkDBFile (fl_version f) sch) ->
  run_migrations (mkMigration v n (inr b) :: steps) f = run_migrations steps (mkDBFile v sch).
Proof.
  intros Hb Hv He. cbn [run_migrations mg_body]. unfold runTx, migration_tx. cbn [sq_begin sq_exec file_sqlite mg_version]. rewrite He. cbn [exec_sql].
  assert (version_set (set_user_version v) = Some v) as ->; [|done]. destruct (version_set (set_user_version v)) as [w|] eqn:E; [by apply version_set_at in E as ->|].
  unfold version_set in E. destruct (List.filter _ _) as [|] eqn:Ef; [|done]. exfalso. apply (not_elem_of_nil v). rewrite <- Ef.
  apply elem_of_bfilter. split; [done|]. by apply bool_decide_eq_true.
Qed.
Lemma exec_texts v :
  exec_sql b1 (mkDBFile v NoTables) = inr (mkDBFile v (At1 init_0001)) /\
  (forall t, exec_sql b2 (mkDBFile v (At1 t)) = inr (mkDBFile v (At2 (lxmf_mine_0002 t)))) /\
  (forall t, exec_sql b3 (mkDBFile v (At2 t)) = inr (mkDBFile v (At3 (delivery_parts_0003 t)))) /\
  (forall t d, people_0004 t = Some d -> exec_sql b4 (mkDBFile v (At3 t)) = inr (mkDBFile v (At4 d))).
Proof.
  pose proof body_no_version as Hn. pose proof texts as Ht. rewrite !NoDup_cons, !not_elem_of_cons in Ht. destruct Ht as ((?&?&?&_)&(?&?&_)&(?&_)&_).
  unfold exec_sql. split_and!; [|intros t|intros t|intros t d Hp]; (rewrite Hn by (repeat (left || right))); repeat (rewrite bool_decide_eq_false_2 by congruence);
    rewrite bool_decide_eq_true_2 by done; [done..|by rewrite Hp].
Qed.
(** From the tables of each release, the migrations that are left. *)
Definition steps_from (k : nat) : list migration := drop k embedded_steps.
Lemma steps_from_3 v t : tables_wf fst t -> exists d, run_migrations (steps_from 3) (mkDBFile v (At3 t)) = (None, mkDBFile 4 (At4 d)) /\ db_wf d /\ carried t d.
Proof.
  intros Ht. destruct (people_0004_ok t Ht) as (d & Hp & Hd). exists d. split; [|split; [by eapply after_wf|by eapply after_carried]].
  unfold steps_from. cbn [drop embedded_steps embedded release_versions migration_names zip_with fst snd].
  erewrite run_step; [done|set_solver..|by apply exec_texts].
Qed.
Lemma steps_from_2 v t : tables_wf fst t -> exists d, run_migrations (steps_from 2) (mkDBFile v (At2 t)) = (None, mkDBFile 4 (At4 d)) /\ db_wf d /\ carried (delivery_parts_0003 t) d.
Proof.
  intros Ht. destruct (steps_from_3 3 (delivery_parts_0003 t)) as (d & H & Hd); [by apply (tables_wf_rows fst)|]. exists d. split; [|done].
  rewrite <- H. unfold steps_from. cbn [drop embedded_steps embedded release_versions migration_names zip_with fst snd].
  erewrite run_step; [done|set_solver..|by apply exec_texts].
Qed.
Lemma steps_from_1 v t : tables_wf id t ->
  exists d, run_migrations (steps_from 1) (mkDBFile v (At1 t)) = (None, mkDBFile 4 (At4 d)) /\ db_wf d /\ carried (delivery_parts_0003 (lxmf_mine_0002 t)) d.
Proof.
  intros Ht. destruct (steps_from_2 2 (lxmf_mine_0002 t)) as (d & H & Hd); [by apply (tables_wf_rows id)|]. exists d. split; [|done].
  rewrite <- H. unfold steps_from. cbn [drop embedded_steps embedded release_versions migration_names zip_with fst snd].
  erewrite run_step; [done|set_solver..|by apply exec_texts].
Qed.
Lemma steps_from_0 v : exists d, run_migrations (steps_from 0) (mkDBFile v NoTables) = (None, mkDBFile 4 (At4 d)) /\ db_wf d /\
  carried (delivery_parts_0003 (lxmf_mine_0002 init_0001)) d.
Proof.
  destruct (steps_from_1 1 init_0001 tables_wf_init) as (d & H & Hd). exists d. split; [|done].
  rewrite <- H. unfold steps_from. cbn [drop embedded_steps embedded release_versions migration_names zip_with fst snd].
  erewrite run_step; [done|set_solver..|by apply exec_texts].
Qed.
Lemma open_steps path f (k : nat) : fl_version f = Z.of_nat k -> (k <= 4)%nat -> Open (fun _ => None) embedded path f = run_migrations (steps_from k) f.
Proof.
  intros Hv Hk. unfold Open, ensureDir. cbn [sq_open file_sqlite]. unfold migrate. rewrite (migrateTo_steps _ _ _ _ embedded_numbered).
  rewrite (migrate_steps_at _ _ _ (Z.of_nat k)) by (cbn; (lia || by rewrite Hv)).
  assert (target_of embedded_steps 0 = 4) as -> by (vm_compute; reflexivity). rewrite Nat2Z.id, Z.max_r, take_ge by (cbn; lia).
  fold (steps_from k). by destruct (run_migrations (steps_from k) f) as [[e|] f'].
Qed.

(** C38. Every upgrade goes through and keeps everything.  Take the file of any release, or
    none yet, with tables as that release kept them.  Opening the store on it, on a
    disk that does what it is asked, succeeds and leaves a well-formed store of this version: every identity is a
    person of its own, without a rank and with a new one's preferences, seen when
    and reached as it was, under the name it had; rooms, roles, invites, messages,
    cursors, members, deliveries and the log are as they were, and bans have no end. *)
Theorem upgrade_exact path f : file_wf f ->
  exists d, Open (fun _ => None) embedded path f = (None, mkDBFile 4 (At4 d)) /\ db_wf d /\ upgraded f d.
Proof.
  intros Hf. destruct f as [v [|t|t|t|d]]; cbn in Hf.
  - subst v. rewrite (open_steps path _ 0) by (done || lia). apply steps_from_0.
  - destruct Hf as [-> Ht]. rewrite (open_steps path _ 1) by (done || lia). by apply steps_from_1.
  - destruct Hf as [-> Ht]. rewrite (open_steps path _ 2) by (done || lia). by apply steps_from_2.
  - destruct Hf as [-> Ht]. rewrite (open_steps path _ 3) by (done || lia). by apply steps_from_3.
  - destruct Hf as [-> Hd]. rewrite (open_steps path _ 4) by (done || lia). by exists d.
Qed.
End file.
