(* ===== verification/AppMain.v ===== *)
(** cmd/scotmesh-chat/main.go: the commands, each with what it prints and its exit
    code.  The flags are as package flag has parsed them; [None] is what it
    refuses. *)
From S2P Require Import Prelude Text TextCut GoStd Db Names HubCore Ranks People Commands Importer AppConfig AppRun AppOps StoreOpen.
Local Open Scope Z_scope.

Record Exit := mkExit { ex_code : Z; ex_out : string; ex_err : string }.
Definition line_ (l : list string) : string := cat (l ++ [newline]).
Definition err_text (e : Error) : string :=
  match e with UserError t => t | ErrNameTaken => "name taken" | ErrPersonHasName => "person has a name" | ErrNotFound w => w | ErrInternal w => w end.

(** ** help-wiki: [HelpWiki] of internal/hub/commands.go *)
Fixpoint wikiEscape (s : string) : string :=
  match s with
  | EmptyString => ""
  | String c s =>
    (if (c =? "|")%char then "&#124;" else if (c =? "<")%char then "&lt;" else if (c =? ">")%char then "&gt;" else String c "") +:+ wikiEscape s
  end.
Definition wiki_who (a : access) : string :=
  match a with anyone => "everyone" | mods => "mods and up" | Commands.admins => "admins and up" | owners => "hub owners" end.
Definition wiki_row (def : command) : string :=
  let usage := "/" +:+ cmd_name def +:+ (if bool_decide (cmd_args def = "") then "" else " " +:+ cmd_args def) in
  let names := cat (["<code>"; wikiEscape usage; "</code>"] ++ map (fun a => cat [" (<code>/"; a; "</code>)"]) (cmd_aliases def)) in
  cat ["|-"; newline; "| "; names; " || "; wiki_who (cmd_access def); " || "; wikiEscape (cmd_help def); newline].
Section wiki.
Context {E : Env}.
Definition wiki_section (section : Z) : string :=
  match List.filter (fun def => cmd_page def =? section) commandTable with
  | [] => ""
  | rows =>
    cat ([newline; newline; "== "; capitalise (default "" (helpSections !! Z.to_nat section)); " =="; newline; newline;
          "{| class="; dquote; "wikitable"; dquote; newline; "! Command !! Who !! What it does"; newline] ++ map wiki_row rows ++ ["|}"; newline])
  end.
Definition HelpWiki : string :=
  let aliases := omap (fun def => if bool_decide (cmd_expand def = "") then None
                                  else Some (cat ["<code>/"; cmd_name def; "</code> is <code>/"; cmd_expand def; "</code>"])) commandTable in
  cat (["Every command works the same in the RRC room, the LXMF group and on the chat page. Start it with <code>/</code> or, where your app keeps <code>/</code> for itself (NomadNet's RRC screen), with <code>!</code>. Rooms are written <code>#room</code>; leave them out to mean the room you're in, or <code>#scotmesh</code> in the group and on the page. <code>/help</code> lists the commands a page at a time."; newline] ++
       map wiki_section (seqZ 1 (Z.of_nat (length helpSections) - 1)) ++
       [newline; "== Shortcuts and older forms =="; newline; newline; strings_Join "; " aliases;
        ". rrcd's room commands (<code>/kick room name</code>, <code>/ban room add name</code>, <code>/op</code>, <code>/voice</code>, <code>/mode</code>, <code>/invite</code>, <code>/register</code>) and <code>/kline</code> still work, and say the form to use next time."; newline]).

End wiki.

Section main.
Context {U : Unicode} {N : Norm} {W : World} {P : Platform} {IC : ImportCodecs}.
Definition config_error (e : option string) : string := line_ [default "" e].

(** ** import *)
Record ImportFlags := mkImportFlags { if_config : string; if_rrc_hub : string; if_bridge : string; if_skip : string; if_dry_run : bool }.
(** [rrc_dir] and [bridge_dir] are what the directories hold.  The store is what it
    was, or what the import has made of it. *)
Definition runImport (flags : option ImportFlags) (rrc_dir : string -> RRCHubDir) (bridge_dir : string -> BridgeDir) (t : Z) : Exit * option DB :=
  match flags with
  | None => (mkExit 2 "" "", None)
  | Some fl =>
    if bool_decide (if_rrc_hub fl = "") && bool_decide (if_bridge fl = "") then
      (mkExit 2 "" (line_ ["import: give --rrc-hub, --bridge or both"]), None)
    else
    match loadConfig (if_config fl) with
    | inl e => (mkExit 2 "" (config_error e), None)
    | inr c =>
      match import_skip (if_skip fl) with
      | inl e => (mkExit 2 "" (line_ [e]), None)
      | inr skip =>
        let dir {A} (path : string) (read : string -> A) := if bool_decide (path = "") then None else Some (read path) in
        let src := mkSources (dir (if_rrc_hub fl) rrc_dir) (dir (if_bridge fl) bridge_dir) skip in
        match pf_open (GoStd.Join (ac_DataDir c) "hub.db") with
        | inl e => (mkExit 1 "" (line_ [e]), None)
        | inr db =>
          let '(rep, err, db') := Import src t (ah_Retention (ac_Hub c)) (if_dry_run fl) db in
          let printed := match rep with Some r => Report_String r | None => "" end in
          match err with
          | Some e => (mkExit 1 printed (line_ ["import failed; nothing was written: "; err_text e]), Some db')
          | None => (mkExit 0 (printed +:+ (if if_dry_run fl then line_ ["dry run: nothing was written"] else "")) "", Some db')
          end
        end
      end
    end
  end.

(** ** check-db *)
Fixpoint spaces (n : nat) : string := match n with O => "" | S n => String " " (spaces n) end.
Definition pad_right (n : nat) (s : string) : string := s +:+ spaces (n - String.length s).
Definition runCheckDB {F} {Q : Sqlite F} (args : list string) (exists_ : string -> bool) (mkdirAll : string -> option string)
    (entries : list (string * (string + string))) (at_path : string -> F) : Exit :=
  match args with
  | [arg] =>
    let path := Clean arg in
    let before := if exists_ path then "an existing database" else "a new database" in
    match Open mkdirAll entries path (at_path path) with
    | (Some e, _) => mkExit 1 "" (line_ ["check-db: "; e])
    | (None, f) =>
      match Summary f with
      | inl e => mkExit 1 "" (line_ ["check-db: "; e])
      | inr sum =>
        let keys := order_by String.leb (map_to_list sum).*1 in
        let count k := itoa (default 0 (sum !! k)) in
        mkExit 0 (cat (line_ ["opened "; before; "; schema now version "; count "schema_version"] ::
                       map (fun k => line_ ["  "; pad_right 20 k; " "; count k]) (List.filter (fun k => negb (bool_decide (k = "schema_version"))) keys))) ""
      end
    end
  | _ => mkExit 2 "" (line_ ["usage: scotmesh-chat check-db COPY_OF_HUB_DB"])
  end.

(** ** healthcheck *)
(** [decode] gives updated_at and backbone_connected; [dur] prints a duration.  The
    difference of two times is an int64, which time.Since keeps within its range. *)
Definition since (t updated : Z) : Z := Z.max int64_min (Z.min int_max (t - updated)).
Definition round_second (d : Z) : Z := let r := Z.rem d Second in
  if d <? 0 then (if - r + - r <? Second then d - r else d - r - Second) else (if r + r <? Second then d - r else d - r + Second).
Definition runHealthcheck (flags : option (string * Z)) (decode : string -> string + Z * bool) (dur : Z -> string) (t : Z) : Exit :=
  match flags with
  | None => mkExit 2 "" ""
  | Some (configPath, maxAge) =>
    let fails code why := mkExit code "" (line_ ("healthcheck: " :: why)) in
    match loadConfig configPath with
    | inl e => fails 2 [default "" e]
    | inr c =>
      let path := GoStd.Join (ac_DataDir c) "health.json" in
      match w_file path with
      | NoFile => fails 1 ["open "; path; ": no such file or directory"]
      | Unreadable e => fails 1 [e]
      | File raw =>
        match decode raw with
        | inl e => fails 1 ["health.json: "; e]
        | inr (updated, connected) =>
          let age := since t updated in
          if maxAge <? age then fails 1 ["health.json is "; dur (round_second age); " old (over "; dur maxAge; ")"]
          else if negb connected then fails 1 ["not connected to the backbone"]
          else mkExit 0 (line_ ["healthy"]) ""
        end
      end
    end
  end.

(** ** [run] *)
Record RunFlags := mkRunFlags { rf_config : string; rf_check : bool; rf_version : bool }.
Inductive Started := Exits (e : Exit) | Runs (c : AConfig) (lvl : Level) (json : bool).
Definition run_service (version : string) (flags : RunFlags) : Started :=
  if rf_version flags then Exits (mkExit 0 (line_ ["scotmesh-chat "; version]) "") else
  match loadConfig (rf_config flags) with
  | inl e => Exits (mkExit 2 "" (config_error e))
  | inr c =>
    if rf_check flags then Exits (mkExit 0 (line_ ["config ok"]) "")
    else Runs c (level (ac_LogLevel c)) (json_logs (ac_LogFormat c))
  end.
End main.
Inductive Cmd_ := RunImport (args : list string) | RunCheckDB (args : list string) | PrintHelp | RunHealthcheck (args : list string) | RunService (args : list string).
(** The first argument, if it names a command. *)
Definition run_command (args : list string) : Cmd_ :=
  match args with
  | a :: rest =>
    if bool_decide (a = "import") then RunImport rest
    else if bool_decide (a = "check-db") then RunCheckDB rest
    else if bool_decide (a = "help-wiki") then PrintHelp
    else if bool_decide (a = "healthcheck") then RunHealthcheck rest
    else RunService args
  | [] => RunService []
  end.
