(* ===== verification/Demo.v ===== *)
(** A small hub to try the theorems on: the default configuration, three
    identities, and the calls that bring them together. *)
From S2P Require Import Prelude Text Db StorePeople StoreRooms StoreMessages StoreGroup StoreInv StoreWf.
From S2P Require Import StoreHistory Names HubCore Clock Ranks People Rooms Post Commands CmdPeople CmdRooms.
From S2P Require Import Moderation Links Whispers Profile Dispatch Maintain HubWf System.
Local Open Scope Z_scope.

Definition ident_of (c : ascii) : ident := of_bytes (replicate 16 (byte c)).
Definition ann : ident := ident_of "a".
Definition bob : ident := ident_of "b".
Definition cat_ : ident := ident_of "c".

(** Noon on 1 July 2025. *)
Definition noon : Z := 1751371200 * Second.
Definition demo_cfg : Config :=
  mkConfig (HubName Defaults) [cat_] (Rooms Defaults) (GroupRoom Defaults) "" (Retention Defaults)
    (ReplayFirstVisit Defaults) (ReplayMax Defaults) (HistoryMax Defaults) (HistoryCooldown Defaults)
    (PostsPerMinute Defaults) (MaxBodyBytes Defaults) (MaxTopicBytes Defaults) (MaxRoomNameBytes Defaults)
    (MaxRoomsPerPerson Defaults) (InviteTTL Defaults) (PruneRoomsAfter Defaults).
Definition demo_env : Env := {|
  cfg := demo_cfg; now := noon; rnd := "abcde"; env_unicode := ascii_unicode; env_norm := ascii_norm
|}.
#[export] Existing Instance demo_env.

Definition demo_start : Hub :=
  match New db_empty with
  | Some h => mkHub (h_db h) (h_mem h) [mkSubscription "rrc" 8 [] 0]
  | None => mkHub db_empty mem_empty []
  end.
Definition say_as (id : ident) (via : Via) (body : string) : Call :=
  CallPost (mkPostRequest via id "" false body None 0 None).
Definition demo_calls : list Call :=
  [CallIdentify ann None; CallClaimName ann "Ann"; CallJoin (mkJoinRequest ann "#scotmesh" "");
   CallIdentify bob None; CallClaimName bob "Bob"; CallJoinGroup bob "";
   CallIdentify cat_ None; say_as ann ViaRRC "hello"].
Definition run_calls (cs : list Call) (h : Hub) : Hub := fold_left (fun h c => perform c h) cs h.
Definition demo : Hub := run_calls demo_calls demo_start.

Lemma rtc_run_calls cs h : rtc step h (run_calls cs h).
Proof.
  revert h. induction cs as [|c cs IH]; intros h; cbn; [done|].
  eapply rtc_l; [apply (step_call noon "abcde")|apply IH].
Qed.
Lemma demo_started : started demo_start.
Proof.
  exists noon, "abcde", [("rrc", 8)]. split_and!; [|vm_compute; reflexivity|vm_compute; reflexivity].
  constructor; [done|constructor].
Qed.
Lemma demo_reachable : reachable demo.
Proof. exists demo_start. split; [apply demo_started|apply rtc_run_calls]. Qed.

Example demo_messages : map Message_Body (map_to_list (messages (h_db demo))).*2 = ["hello"].
Proof. vm_compute. reflexivity. Qed.

Lemma history_kept_witness : later (h_db demo_start) (h_db demo).
Proof.
  apply history_kept.
  - apply (hub_inv_started demo_start); [apply db_wf_empty|apply demo_started].
  - apply rtc_run_calls.
Defined.
