(* ===== verification/AdapterDemo.v ===== *)
(** A small RRC server on the hub of Demo.v, with the codec of WireSpec.v: two
    links that identify, say HELLO and join a room; and a chat page. *)
From stdpp Require Import pretty.
From S2P Require Import Prelude Text TextCut Db StorePeople StoreRooms StoreMessages StoreGroup Names HubCore Clock Ranks People Rooms Post Commands.
From S2P Require Import Whispers Profile Dispatch Maintain HubWf System Adapters Wire WireSpec RrcFrames RrcSession RrcHandle RrcFanout RrcSpec RrcJoin.
From S2P Require Import Micron PageCore PageChat PageMe PageProfile PageSpec Demo.
Local Open Scope Z_scope.

#[export] Instance demo_rrc : RrcEnv := {|
  hubHash := of_bytes (replicate 16 7);
  fresh_id := fun n => of_bytes [1; 2; 3; 4; 5; 6; Z.of_nat n / 256; Z.of_nat n mod 256];
  SendOnLink := fun _ _ _ => true
|}.
Definition demo_frame (t : Z) (room body : string) : string :=
  default "" (Encode (mkEnvelope t (of_bytes [9; 9; 9; 9]) 0 "" room "" None (if bool_decide (body = "") then "" else TextBody body) ∅)).
Definition pub_a : string := of_bytes (replicate 64 1).
Definition link_a : string := "link-a".
Definition run (m : ST (Srv Hub) unit) (s : Srv Hub) : Srv Hub := (m s).2.
Definition jobs_run (js : list job) (s : Srv Hub) : Srv Hub := fold_left (fun s j => run (handleJob server_Defaults j) s) js s.
Definition demo_jobs : list job :=
  [jobEstablished link_a; jobIdentified link_a pub_a; jobData link_a (demo_frame TypeHello "" "")].
Definition demo_srv : Srv Hub := jobs_run demo_jobs (server_New demo).

(** The fan-out takes the next event from the server's subscription, the first of
    the hub's. *)
Definition fan_out (s : Srv Hub) : Srv Hub :=
  match receive_at 0 (s_hub s) with
  | Some (ev, h) => run (deliver server_Defaults ev) (set_s_hub h s)
  | None => s
  end.
Definition fan_outs (n : nat) (s : Srv Hub) : Srv Hub := Nat.iter n fan_out s.
(** Something else happens at the hub. *)
Definition at_hub (c : Call) (s : Srv Hub) : Srv Hub := set_s_hub (perform c (s_hub s)) s.
Definition join_room (link room : string) : job := jobData link (demo_frame TypeJoin room "").

(** * A page

    A chat page on the hub of Demo.v: its tokens are numbers, and a visitor comes
    with an identity. *)
Lemma unhex_char c : unhex_digit (hex_digit (byte c / 16)) = Some (byte c / 16) /\ unhex_digit (hex_digit (byte c mod 16)) = Some (byte c mod 16) /\
  chr (16 * (byte c / 16) + byte c mod 16) = c.
Proof. destruct c as [[] [] [] [] [] [] [] []]; vm_compute; done. Qed.
(** encoding/hex: decoding what has been encoded gives it back. *)
Lemma hex_decode_encode s : hex_decode (hex_encode s) = Some s.
Proof.
  induction s as [|c s IH]; [done|]. cbn [hex_encode hex_decode]. destruct (unhex_char c) as (-> & -> & Hc). by rewrite IH, Hc.
Qed.
#[export] Instance hex_encode_inj : Inj (=) (=) hex_encode.
Proof. intros s t H. pose proof (hex_decode_encode s) as Hs. rewrite H, hex_decode_encode in Hs. by injection Hs. Qed.

#[export] Instance demo_rand : PageRand := fun n => pretty n.
Lemma demo_tokens_fresh j k : token j = token k -> j = k.
Proof. by intros H%hex_encode_inj%(inj pretty). Qed.

Definition demo_page_cfg : PConfig := page_config (mkPConfig "" "" "hub" "group" "node" "" None).
Definition visitor_key : string := of_bytes (replicate 64 1).
Definition visitor : ident := IdentityHashFromPublicKey visitor_key.
Definition ask (path : string) (fs : list (string * string)) : Request :=
  mkRequest path (list_to_map fs) visitor (Some visitor_key) (Some "request").
Definition as_ (id : ident) (path : string) (fs : list (string * string)) : Request :=
  mkRequest path (list_to_map fs) id None (Some "request").
(** What is served on a page that has served no one before, line by line, and the
    hub after it. *)
Definition page_of (h : Hub) (r : Request) : list string :=
  match (Serve demo_page_cfg r (page_New h)).1 with Ok s => split (chr 10) s | Fail _ => [] end.
Definition hub_after (h : Hub) (r : Request) : Hub := pg_hub (Serve demo_page_cfg r (page_New h)).2.
