(* ===== verification/ImportDemo.v ===== *)
(** A cutover on a concrete pair of data directories: the witnesses of the
    importer's theorems, and two things it does that its comments and the hub
    do not expect. *)
From S2P Require Import Prelude Text TextCut GoStd Db StorePeople StoreRooms StoreMessages StoreGroup StoreInv StoreWf StoreHistory Names NamesSpec HubCore Importer ImportWrite ImportMessages.
Local Open Scope Z_scope.

#[local] Existing Instances ascii_unicode ascii_norm.
Definition alex : ident := "aaaaaaaaaaaaaaaa".
Definition rab : ident := "bbbbbbbbbbbbbbbb".
Definition bot : ident := "cccccccccccccccc".
Definition seconds (s : Z) : float64 := float_of s.
Definition demo_peers : list (string * PeerEntry) :=
  [(hex_encode alex, mkPeerEntry "" "Alex" (seconds 1000)); (hex_encode rab, mkPeerEntry "" "A1ex" (seconds 900));
   (hex_encode bot, mkPeerEntry "" "bridge" (seconds 1000)); ("nothex", mkPeerEntry "" "Broken" (seconds 1000))].
Definition demo_rooms : list (string * RoomEntry) :=
  [("ScotMesh", mkRoomEntry (hex_encode alex) "Welcome" false false true false false [hex_encode alex] [] [hex_encode bot; "zz"] (seconds 950));
   ("#Staff", mkRoomEntry (hex_encode alex) "Staff" true true false false false [] [] [] (seconds 950))].
Definition hist (src nick body : string) (typ at_ : Z) (origin : string) : gmap Z HVal :=
  list_to_map [(1, HUint at_); (2, HBytes origin); (3, HBytes src); (4, HText nick); (5, HUint typ); (6, HText body)].
#[export] Instance demo_codecs : ImportCodecs := {|
  toml_peers s := if bool_decide (s = "peers") then inr demo_peers else inl "not toml";
  toml_rooms s := inr demo_rooms;
  toml_klines s := inr [];
  cbor_record s :=
    if bool_decide (s = "one") then Some (hist alex "Alex" "hello" 20 990000 "1")
    else if bool_decide (s = "two") then Some (hist bot "bridge" "a copy" 20 991000 "2")
    else if bool_decide (s = "six") then Some (hist rab "" "waves" 22 980000 "3")
    else if bool_decide (s = "old") then Some (hist alex "Alex" "too old" 20 1000 "4")
    else if bool_decide (s = "new") then Some (hist alex "Alex" "again" 20 990000 "1")
    else None;
  json_state s := inr (mkBridgeState [("x", mkBridgeMember (hex_encode alex) "Lex" true 0 2000000)] []);
  json_line s := if bool_decide (s = "m") then Some (mkBridgeLine 985000 985000 "lxmf" "aa" (hex_encode rab) "Rab" "* dances") else None
|}.
(** Length and body of a record of three bytes. *)
Definition rec3 (s : string) : string := String (chr 0) (String (chr 0) (String (chr 0) (String (chr 3) s))).
Definition demo_hub : RRCHubDir := mkRRCHubDir "/rrc" (File "peers") (File "") NoFile
  [(hex_encode "scotmesh", "1.log", File (cat [rec3 "one"; rec3 "two"; rec3 "six"; rec3 "old"; rec3 "bad"; rec3 "new"; rec3 "x"]))].
Definition demo_bridge : BridgeDir := mkBridgeDir (File "state") (File (cat ["m"; newline; "not json"; newline])).
Definition demo_src : Sources := mkSources (Some demo_hub) (Some demo_bridge) [bot].
Definition demo_now : Z := 1000 * Second.
Definition demo_retention : Z := 100 * Second.

Definition report_of (r : option Report * option Error * DB) : Report := default no_report r.1.1.
Definition db_of (r : option Report * option Error * DB) : DB := r.2.
Definition demo_run : option Report * option Error * DB := Import demo_src demo_now demo_retention false db_empty.

Example demo_report : Report_String (report_of demo_run) = cat [
  "identities 3, names 2, group members 1, rooms 2, bans 0"; newline;
  "messages 3 imported, 1 already there, 1 past retention"; newline;
  "  - rrc-hub peer "; quote "nothex"; " skipped: not an identity hash"; newline;
  "  - ScotMesh: "; quote "zz"; " is not an identity hash; skipped"; newline;
  "  - history 1.log: unreadable record skipped"; newline;
  "  - history 1.log: torn or oversized record at the end, ignored"; newline;
  "  - bridge messages.jsonl: unreadable line skipped"; newline].
Proof. vm_compute. reflexivity. Qed.
Example demo_said :
  map (fun m => (Message_AuthorName m, Message_Body m)) (order_by (fun a b => Message_ID a <=? Message_ID b) (map_to_list (messages (db_of demo_run))).*2) =
  [(GuestName rab, "waves"); ("Rab", "dances"); ("Alex", "hello")].
Proof. vm_compute. reflexivity. Qed.

(** rrc-hub's registry does not come first: an identity it knows gets the bridge's
    nick if the bridge saw it later, and the name the registry had for it goes to
    whoever wants one that looks like it. *)
Example bridge_nick_wins :
  match (tx_NameOf alex (db_of demo_run)).1, (tx_NameOf rab (db_of demo_run)).1 with
  | Ok (Some a), Ok (Some r) => (Name_Name a, Name_Name r) = ("Lex", "A1ex")
  | _, _ => False
  end.
Proof. vm_compute. reflexivity. Qed.
(** A room is written under the name in rooms.toml, tidied but not as the hub
    normalises names: what is registered as #staff is no room of the hub's. *)
Example hash_room_unreachable :
  is_Some (rooms (db_of demo_run) !! "#staff") /\ NormalizeRoom "#Staff" 64 = inr "staff" /\
  rooms (db_of demo_run) !! "staff" = None.
Proof. vm_compute. split; [by eexists|done]. Qed.

(** ** Witnesses *)
Lemma ready_empty : ready db_empty.
Proof. split; [apply db_wf_empty|]. intros id i Hi. cbn in Hi. by rewrite lookup_empty in Hi. Qed.
Definition demo_reading : RState := (read_sources demo_src (mkRState no_data no_report)).2.
Definition demo_data : sourceData := rs_data demo_reading.
Lemma demo_read_run : read_sources demo_src (mkRState no_data no_report) = (Ok tt, demo_reading).
Proof. vm_compute. reflexivity. Qed.
Lemma demo_read : read_ok demo_src demo_data.
Proof. exists demo_reading. split; [apply demo_read_run|reflexivity]. Qed.
Lemma demo_ready : ready (db_of demo_run).
Proof.
  destruct (Import_runs demo_src demo_now demo_retention db_empty demo_data (rs_rep demo_reading)) as (s & l & Ht & _ & _ & E);
    [vm_compute; reflexivity|apply ready_empty|].
  unfold demo_run. rewrite E. apply ready_audit, Ht.
Qed.
Lemma demo_run_ok : Import demo_src demo_now demo_retention false db_empty = (Some (report_of demo_run), None, db_of demo_run).
Proof. vm_compute. reflexivity. Qed.
#[local] Opaque demo_run Import demo_data.

Lemma Import_messages_witness : rep_Messages (report_of demo_run) = Z.of_nat (size (messages (db_of demo_run))) - 0 /\
  rep_Messages (report_of demo_run) = 3.
Proof.
  destruct (Import_messages demo_src demo_now demo_retention db_empty demo_data (report_of demo_run) (db_of demo_run)
              ready_empty demo_read demo_run_ok) as (_ & _ & _ & _ & H & _).
  split; [exact H|vm_compute; reflexivity].
Defined.
Lemma Import_caught_up_witness : exists c,
  cursors (db_of demo_run) !! (alex, "scotmesh", ViaRRC) = Some c /\ 3 <= Cursor_MessageID c.
Proof.
  pose (p := mkPeer alex None "Alex" 1000000).
  pose (m := mkImported "scotmesh" false alex "Alex" "hello" "rrc-hub:31" 990000 990000).
  destruct (Import_caught_up demo_src demo_now demo_retention db_empty demo_data (report_of demo_run) (db_of demo_run)
              p (import_row "scotmesh" m) 3) as (c & Hc & Hle).
  - exact ready_empty.
  - exact demo_read.
  - exact demo_run_ok.
  - apply list_elem_of_In. vm_compute. left. reflexivity.
  - intros H. apply list_elem_of_In in H. vm_compute in H. destruct H as [H|[]]. discriminate H.
  - apply list_elem_of_In. vm_compute. right. right. left. reflexivity.
  - eexists. split; [vm_compute; reflexivity|]. split; reflexivity.
  - exists c. split; [exact Hc|exact Hle].
Defined.
