(* ===== verification/AppDemo.v ===== *)
(** The service on a concrete machine: the witnesses of the theorems about its start,
    its store and its backups, and what a configuration can say that the program
    does not take well. *)
From stdpp Require Import pretty.
From S2P Require Import Prelude Text TextCut GoStd Db StorePeople StoreRooms StoreMessages StoreGroup StoreInv StoreWf StorePolicy Names HubCore Clock.
From S2P Require Import Ranks People Rooms Post Sha256 Commands CmdPeople Links Whispers Profile Dispatch Maintain HubWf System Adapters.
From S2P Require Import LxmfGroup Wire RrcFrames Micron PageCore Importer AppConfig AppRun AppOps BackupSpec StoreOpen.
From S2P Require Import Demo WireSpec.
Local Open Scope Z_scope.

#[local] Existing Instances ascii_unicode ascii_norm.

(** ** The environment *)
(** Nothing but environment variables: no file, and zones and JSON that are fine. *)
Definition world (environ : list string) : World := {|
  w_environ := environ;
  w_stat p := StatNotExist "no such file or directory";
  w_file p := NoFile;
  w_toml s c := inl "no TOML here";
  w_zone z := if bool_decide (z = "UTC") then None else Some "unknown time zone";
  w_json_strings s := inl "no JSON here";
  w_json_rooms s := if bool_decide (s = "rooms") then inr [mkRoomConfig "Highland" "Up north"] else inl "no JSON here"
|}.
Definition container : list string :=
  ["HOME=/root"; "SCOTMESH_CHAT_BACKBONE=net.example:4242"; "SCOTMESH_CHAT_HUB_REPLAY_MAX=7"; "SCOTMESH_CHAT_HUB_REPLAY_MAX=9"].

Lemma env_overlay_exact_witness : exists c', applyEnv (W := world container) app_Defaults container = (c', []) /\ ah_ReplayMax (ac_Hub c') = 9.
Proof.
  assert ((applyEnv (W := world container) app_Defaults container).2 = []) as H by (vm_compute; reflexivity).
  destruct (applyEnv (W := world container) app_Defaults container) as [c' errs] eqn:E. cbn in H. subst errs. exists c'. split; [reflexivity|].
  pose (st := LInt (fun c => ah_ReplayMax (ac_Hub c)) (fun v => with_Hub (fun s => mkHubSection (ah_Name s) (ah_GroupRoom s) (ah_Retention s) (ah_PostsPerMinute s) (ah_MaxBodyBytes s) v (ah_ReplayFirstTime s) (ah_Rooms s)))).
  destruct (env_overlay_exact (W := world container) container app_Defaults c' E) as [_ Hst].
  assert (collectFields "" config_fields !! "HUB_REPLAY_MAX" = Some st) as Hf by (apply field_at; exists 11%nat; reflexivity).
  specialize (Hst _ _ Hf). assert (last (values_for (envPrefix +:+ "HUB_REPLAY_MAX") container) = Some "9") as Hl by (vm_compute; reflexivity).
  rewrite Hl in Hst. destruct Hst as (c1 & Hc1 & Hv). cbn in Hc1. injection Hc1 as <-. cbn in Hv. by injection Hv.
Defined.

(** The documented variable, as a container's file would set it. *)
Definition with_config : list string := "SCOTMESH_CHAT_CONFIG=/config/config.toml" :: container.
Lemma config_variable_refused_witness : exists e, loadConfig (W := world with_config) "" = inl (Some e).
Proof. apply (config_variable_refused (W := world with_config) "" "/config/config.toml"). left. Defined.

(** ** A start, and a restart *)
Definition ids : nat -> string + ident := fun n => inr (of_bytes (replicate 15 7 ++ [Z.of_nat n])).
#[local] Instance demo_platform : Platform := {|
  pf_mkdir p := None; pf_open p := inr db_empty; pf_new_identity := ids; pf_save p := None; pf_dial p := None;
  pf_delivery p := None; pf_register p := None
|}.
#[local] Instance demo_world : World := world container.
Definition service (room : string) (rooms : list RoomConfig) : AConfig :=
  let d := app_Defaults in
  with_Hub (fun s => mkHubSection "Chat" room (ah_Retention s) 0 0 0 0 rooms)
    (mkAConfig "/data" "net.example:4242" [hex_encode cat_] "info" "text" "UTC" (ac_Hub d) (ac_Group d) (ac_Page d) (ac_RRC d)).
Definition chat : AConfig := service "chat" [mkRoomConfig "chat" ""].
Definition new_machine : Machine := mkMachine ∅ 0.
Definition first_run (c : AConfig) : res Wiring * Machine := Run c "v1" noon "abcde" new_machine.
Lemma chat_runs : exists w m', Run chat "v1" noon "abcde" new_machine = (Ok w, m').
Proof.
  assert (is_ok (first_run chat).1 = true) as H by (vm_compute; reflexivity). unfold first_run in H.
  destruct (Run chat "v1" noon "abcde" new_machine) as [[w|e] m']; [eauto|done].
Qed.
Lemma Run_wired_witness : exists w m', Run chat "v1" noon "abcde" new_machine = (Ok w, m') /\
  NormalizeRoom "chat" (MaxRoomNameBytes Defaults) = inr (GroupRoom (wi_Config w)).
Proof.
  destruct chat_runs as (w & m' & E). exists w, m'. split; [exact E|].
  destruct (Run_wired chat "v1" noon "abcde" new_machine w m' E) as (_ & _ & _ & _ & _ & _ & _ & _ & _ & Hg).
  apply Hg. discriminate.
Defined.
Lemma chat_runs_again : exists w m' w2 m2, Run chat "v1" noon "abcde" new_machine = (Ok w, m') /\ Run chat "v2" (noon + Hour) "fghij" m' = (Ok w2, m2).
Proof.
  assert (is_ok (Run chat "v2" (noon + Hour) "fghij" (first_run chat).2).1 = true) as H by (vm_compute; reflexivity). unfold first_run in H.
  destruct chat_runs as (w & m' & E). rewrite E in H. cbn [snd] in H.
  destruct (Run chat "v2" (noon + Hour) "fghij" m') as [[w2|e] m2] eqn:E2; [|done]. by exists w, m', w2, m2.
Qed.
Lemma Run_again_witness : exists w m' w2, Run chat "v1" noon "abcde" new_machine = (Ok w, m') /\
  Run chat "v2" (noon + Hour) "fghij" m' = (Ok w2, m') /\ addresses w2 = addresses w.
Proof.
  destruct chat_runs_again as (w & m' & w2 & m2 & E1 & E2). exists w, m', w2. split; [exact E1|].
  destruct (Run_again chat chat "v1" "v2" noon (noon + Hour) "abcde" "fghij" new_machine w m' m' w2 m2 E1) as (H1 & _ & H3 & _).
  - reflexivity.
  - unfold same_ways. split_and!; reflexivity.
  - exact E2.
  - subst m2. split; [exact E2|exact H3].
Defined.

(** ** The store *)
(** A driver of statements it writes down; one migration it does not take. *)
Definition Ledger : Type := Z * list string.
#[local] Instance ledger : Sqlite Ledger := {|
  sq_open p := None;
  sq_begin f := None;
  sq_exec s f :=
    match List.filter (fun v => bool_decide (s = set_user_version v)) [1; 2; 3; 4] with
    | v :: _ => inr (v, f.2)
    | [] => if has_prefix s "PRAGMA user_version" then inl "not a version" else if bool_decide (s = "bad") then inl "syntax error" else inr (f.1, f.2 ++ [s])
    end;
  sq_commit f := None;
  sq_user_version f := inr f.1;
  sq_count t f := inr (Z.of_nat (length f.2))
|}.
#[local] Instance ledger_laws : SqliteLaws ledger.
Proof.
  constructor. intros v f f' H. cbn [sq_exec ledger] in H. cbn [sq_user_version ledger]. f_equal.
  destruct (List.filter _ _) as [|x l] eqn:E.
  - assert (has_prefix (set_user_version v) "PRAGMA user_version" = true) as Hp by (unfold set_user_version; by destruct (itoa v)). by rewrite Hp in H.
  - injection H as <-. cbn. assert (x ∈ List.filter (fun x => bool_decide (set_user_version v = set_user_version x)) [1; 2; 3; 4]) as Hx by (rewrite E; left).
    apply list_elem_of_In, filter_In in Hx as [_ Hx%bool_decide_eq_true]. by apply set_user_version_inj in Hx.
Qed.
Definition release : list (string * (string + string)) := map (fun n => (n, inr n)) migration_names.
Definition release_steps : list migration :=
  [mkMigration 1 "0001_init.sql" (inr "0001_init.sql"); mkMigration 2 "0002_lxmf_mine.sql" (inr "0002_lxmf_mine.sql");
   mkMigration 3 "0003_delivery_parts.sql" (inr "0003_delivery_parts.sql"); mkMigration 4 "0004_people.sql" (inr "0004_people.sql")].
Example new_store : Open (fun _ => None) release "/data/hub.db" (0, []) = (None, (4, migration_names)).
Proof. vm_compute. reflexivity. Qed.
Lemma migrations_resume_witness : exists f1, migrateTo release 3 ((1, ["0001_init.sql"]) : Ledger) = (None, f1) /\
  migrate release f1 = migrate release ((1, ["0001_init.sql"]) : Ledger).
Proof.
  exists (3, ["0001_init.sql"; "0002_lxmf_mine.sql"; "0003_delivery_parts.sql"]). split; [vm_compute; reflexivity|].
  assert (numbered_files release release_steps) as Hn by (exists release_steps; split_and!; vm_compute; reflexivity).
  destruct (migrations_resume (L := ledger_laws) release release_steps ((1, ["0001_init.sql"]) : Ledger) 1 Hn eq_refl) as [H _].
  destruct H as [H _]; [vm_compute; split; discriminate|]. refine (proj2 (H 3 _ _)). vm_compute. reflexivity.
Defined.

(** A store of the first release, with ann and her name. *)
Definition first_release : V1 :=
  mkTables {[ann := mkIdentity1 3 None noon noon LXMFOff]} {[ann := mkNameRow "Ann" "ann" noon]} ∅ ∅ ∅ ∅ ∅ ∅ ∅ ∅ [] ∅.
Lemma first_release_wf : tables_wf id first_release.
Proof.
  constructor; cbn [first_release t_identities t_names t_rooms t_room_roles t_invites t_messages t_members]; try (intros *; by rewrite lookup_empty).
  - intros id i [<- <-]%lookup_singleton_Some. split; vm_compute; reflexivity.
  - intros id id' i i' [<- <-]%lookup_singleton_Some [<- <-]%lookup_singleton_Some _. done.
  - intros id n [<- <-]%lookup_singleton_Some. split; [exists (mkIdentity1 3 None noon noon LXMFOff); apply lookup_singleton_eq|done].
  - intros id id' n m [<- <-]%lookup_singleton_Some [<- <-]%lookup_singleton_Some _. done.
Qed.
Lemma names_distinct : NoDup migration_names.
Proof. apply (bool_decide_unpack (NoDup migration_names)). vm_compute. constructor. Qed.
Lemma names_no_version v : set_user_version v ∉ migration_names.
Proof. intros H. unfold migration_names in H. rewrite !elem_of_cons, elem_of_nil in H. destruct H as [H|[H|[H|[H|[]]]]]; discriminate H. Qed.
Lemma upgrade_exact_witness : exists d, db_wf d /\ (tx_NameOf ann d).1 = Ok (Some (mkName 3 ann "Ann" "ann" noon)) /\
  Open (Q := file_sqlite "0001_init.sql" "0002_lxmf_mine.sql" "0003_delivery_parts.sql" "0004_people.sql") (fun _ => None)
    (embedded "0001_init.sql" "0002_lxmf_mine.sql" "0003_delivery_parts.sql" "0004_people.sql") "/data/hub.db" (mkDBFile 1 (At1 first_release)) =
  (None, mkDBFile 4 (At4 d)).
Proof.
  destruct (upgrade_exact _ _ _ _ names_distinct names_no_version "/data/hub.db" (mkDBFile 1 (At1 first_release))) as (d & H & Hd & Hu).
  - split; [reflexivity|exact first_release_wf].
  - exists d. split; [exact Hd|]. split; [|exact H].
    rewrite (ca_name _ _ Hu ann (mkIdentity1 3 None noon noon LXMFOff, false)) by (unfold lxmf_mine_0002, delivery_parts_0003, with_rows; cbn [t_identities first_release]; by rewrite !lookup_fmap, lookup_singleton_eq).
    unfold lxmf_mine_0002, delivery_parts_0003, with_rows. cbn [t_names first_release]. by rewrite lookup_singleton_eq.
Defined.

(** ** Backups *)
Definition folder : gmap string Blob := {["hub-before-v1.0.0.db" := Foreign "a copy by hand"; "hub-2025-06-30.db" := Whole db_empty]}.
(** The process is killed while the copy of 1 July is being written; started again,
    it makes it. *)
Definition killed_once : gmap string Blob := dk_files (once 7 london_offset noon (h_db demo) (mkDisk folder [NoFault; NoFault; NoFault; Dies 1] false)).2.
Definition tried_again : gmap string Blob := dk_files (once 7 london_offset noon (h_db demo) (sound killed_once)).2.
Definition names_in (f : gmap string Blob) : list string := order_by String.leb (map_to_list f).*1.
Example what_is_left : (names_in killed_once, names_in tried_again) =
  (["hub-2025-06-30.db"; "hub-2025-07-01.db.tmp"; "hub-before-v1.0.0.db"], ["hub-2025-06-30.db"; "hub-2025-07-01.db"; "hub-before-v1.0.0.db"]).
Proof. vm_compute. reflexivity. Qed.
Lemma noon_in_era : in_era (today london_offset noon).
Proof. vm_compute. split; discriminate. Qed.
Lemma backups_whole_witness : good db_wf folder /\ good db_wf tried_again.
Proof.
  assert (good db_wf folder) as Hg.
  { intros n b Hn Hd. unfold folder in Hn. apply lookup_insert_Some in Hn as [[<- <-]|[_ Hn]]; [vm_compute in Hd; discriminate Hd|].
    apply lookup_singleton_Some in Hn as [_ <-]. exists db_empty. split; [reflexivity|apply db_wf_empty]. }
  split; [exact Hg|]. refine (proj1 (backups_whole 7 london_offset db_wf folder tried_again Hg _)).
  assert (db_wf (h_db demo)) as Hdb by (apply (hub_inv_reachable (I := db_wf)); [apply db_wf_empty|apply demo_reachable]).
  eapply rtc_l; [|eapply rtc_l; [|apply rtc_refl]].
  - apply (folder_attempt 7 london_offset db_wf noon (h_db demo) [NoFault; NoFault; NoFault; Dies 1] folder Hdb noon_in_era).
  - apply (folder_attempt 7 london_offset db_wf noon (h_db demo) [] killed_once Hdb noon_in_era).
Defined.
Lemma once_exact_witness : exists gone kept, once 7 london_offset noon (h_db demo) (sound killed_once) =
    (Ok tt, sound (without gone (<["hub-2025-07-01.db" := Whole (h_db demo)]> (delete "hub-2025-07-01.db.tmp" killed_once)))) /\
  length kept = Nat.min 7 (length (gone ++ kept)).
Proof.
  destruct (once_exact 7 london_offset noon (h_db demo) killed_once noon_in_era) as [_ H].
  destruct H as (gone & kept & H & _ & _ & Hl & _); [vm_compute; reflexivity|].
  exists gone, kept. split; [|exact Hl]. assert (daily_name (today london_offset noon) = "hub-2025-07-01.db") as E by (vm_compute; reflexivity).
  rewrite E in H. exact H.
Defined.
Lemma untilNext_exact_witness : untilNext london_offset noon = 14 * Hour + 30 * Minute /\ untilNext london_offset noon <= 25 * Hour.
Proof. split; [vm_compute; reflexivity|]. apply (untilNext_exact london_offset 0 london_calm noon). Defined.

(** Three nights with the store as it is, the second attempt a minute late. *)
Definition some_nights : list Night := [mkNight 0 Second (h_db demo); mkNight Minute Second db_empty; mkNight 0 Second (h_db demo)].
Definition old_folder : gmap string Blob := {["hub-before-v1.0.0.db" := Foreign "a copy by hand"]}.
#[local] Opaque demo.

#[local] Transparent demo.

(** ** What a configuration can say *)
(** docs/configuration.md's container example and deploy/docker-compose.example.yml
    name a group room and no rooms: the configuration loads, --check-config says it
    is fine, and the hub does not start on it. *)
Definition compose_env : list string := ["SCOTMESH_CHAT_BACKBONE=net.example:4242"; "SCOTMESH_CHAT_HUB_NAME=Highland Mesh"; "SCOTMESH_CHAT_HUB_GROUP_ROOM=highland"].
Example compose_loads : snd (Load (W := world compose_env) "") = None /\
  fst (Run (W := world compose_env) (fst (Load (W := world compose_env) "")) "v1" noon "abcde" new_machine) = Fail (ErrInternal "hub configuration").
Proof. split; vm_compute; reflexivity. Qed.

(** The hub calls the group's room by its normalised name and the ways in by the name
    as it is written, so that with a capital in it what is said there is never on
    the page. *)
Definition highland : AConfig := service "Highland" [mkRoomConfig "Highland" "Up north"].
Definition said_there (w : Wiring) : list (list string) :=
  let E := {| cfg := wi_Config w; now := noon; rnd := "abcde"; env_unicode := ascii_unicode; env_norm := ascii_norm |} in
  let h := fold_left (fun h c => perform (E := E) c h) [CallIdentify ann None; CallClaimName ann "Ann"; CallJoin (mkJoinRequest ann "Highland" "");
                           CallPost (mkPostRequest ViaRRC ann "Highland" false "hello" None 0 None)] (wi_Hub w) in
  map (fun room => match Recent room 50 0 h with Ok ms => map Message_Body ms | Fail _ => ["an error"] end)
    (GroupRoom (wi_Config w) :: group_rooms w).
Example highland_page_is_empty : match (first_run highland).1 with
  | Ok w => (GroupRoom (wi_Config w), group_rooms w, said_there w)
  | Fail _ => ("", [], [])
  end = ("highland", ["Highland"; "Highland"; "Highland"], [["hello"]; []; []; []]).
Proof. vm_compute. reflexivity. Qed.
