(* ===== verification/Findings.v ===== *)
(** What running the model turned up: histories the program handles otherwise
    than its comments and documents say.  Each is a closed computation on the
    hub of [Demo] and the server of [AdapterDemo]. *)
From S2P Require Import Prelude Text Db StorePeople StoreRooms StoreMessages StoreGroup Names HubCore Clock Ranks People.
From S2P Require Import Rooms Post Commands Links Dispatch Maintain System RoomSpec Adapters Wire WireSpec RrcFrames RrcSession RrcHandle RrcFanout RrcSpec Demo AdapterDemo.
From S2P Require Import Micron PageCore PageChat PageMe PageProfile.
Local Open Scope Z_scope.

Definition says (id : ident) (t : string) : Call := CallCommand (mkCommandRequest ViaRRC id "scotmesh" t).
Definition bob_joins : JoinRequest := mkJoinRequest bob "#scotmesh" "".
Definition replayed (h : Hub) : option (list string) :=
  match (Join bob_joins h).1 with Ok r => Some (map Message_Body (jr_Replay r)) | Fail _ => None end.
Definition shown (ms : list Member) : list (ident * string) := map (fun m => (Member_Identity m, Member_Name m)) ms.

(** ** Ids of messages are used again *)
(** Ann says "one" while Bob is in the room, and Bob leaves. *)
Definition bob_away : Hub :=
  run_calls [CallIdentify ann None; CallClaimName ann "Ann"; CallIdentify bob None; CallJoin bob_joins; say_as ann ViaRRC "one";
             CallPart bob "#scotmesh"] demo_start.

(** A message can be missed for good: [messages.id] is a plain rowid, so when
    the newest message is deleted the next one takes its id, and whoever had read
    the deleted one is taken to have read the new one.  Bob, who left before Ann
    deleted "one" and said "two", is replayed nothing; had she not deleted it he
    would be replayed "two". *)
Theorem reused_id_is_missed :
  replayed (run_calls [say_as ann ViaRRC "two"] bob_away) = Some ["two"] /\
  let h := run_calls [says ann "/delete Ann"; say_as ann ViaRRC "two"] bob_away in
  map (fun m => (Message_ID m, Message_Body m)) (map_to_list (messages (h_db h))).*2 = [(1, "two")] /\
  replayed h = Some [].
Proof. vm_compute. done. Qed.

(** ** A person's apps in a list of members *)
(** Ann and Bob are one person's apps; Ann is in the room. *)
Definition apps_linked : Hub :=
  run_calls [CallIdentify ann None; CallClaimName ann "Ann"; CallIdentify bob None; says ann "/link";
             says bob ("/link " +:+ newLinkCode "abcde"); CallJoin (mkJoinRequest ann "#scotmesh" "")] demo_start.

(** The list of members a join is answered with names a person twice who
    joins with a second app, where every other list of the room has them once. *)
Theorem join_lists_person_twice :
  match Join bob_joins apps_linked with
  | (Ok r, h) => (shown (jr_Members r), match Members "scotmesh" h with Ok ms => shown ms | Fail _ => [] end)
  | (Fail _, _) => ([], [])
  end = ([(ann, "Ann"); (bob, "Ann")], [(ann, "Ann")]).
Proof. vm_compute. reflexivity. Qed.

(** ** A message the replay has shown is sent again *)
(** Ann's "hello" waits in the server's subscription while a link joins the room;
    then the fan-out gets to it. *)
Definition joined_srv : Srv Hub := fan_outs 8 (jobs_run [join_room link_a "#scotmesh"] demo_srv).
Definition times_queued (m : Message) (r : nat) (s : Srv Hub) : list nat :=
  map (count_occ string_dec (ss_out (deref r s))) (messageFrames server_Defaults m).

(** A link that joins a room is sent a message twice that was accepted before
    the join and that the fan-out had not got to by then: once in the replay and
    once more, as the fan-out does not look at what the replay covered. *)
Theorem join_repeats_message :
  map (fun m => (Message_Body m, times_queued m 0 joined_srv)) (map_to_list (messages (h_db demo))).*2 = [("hello", [2%nat])].
Proof. vm_compute. reflexivity. Qed.

(** ** Someone who has left is in the room for good *)
(** A person with a link in the room is kicked; before the server hears of it,
    another of their links joins the room; and then both links close. *)
Definition link_b : string := "link-b".
Definition id_a : ident := IdentityHashFromPublicKey pub_a.
Definition kick_a : Call := CallCommand (mkCommandRequest ViaRRC cat_ "scotmesh" ("/kick " +:+ hex_encode id_a)).
Definition two_links : Srv Hub :=
  fan_outs 20 (jobs_run [jobEstablished link_b; jobIdentified link_b pub_a; jobData link_b (demo_frame TypeHello "" "")] joined_srv).
Definition kicked_and_back : Srv Hub := fan_outs 20 (jobs_run [join_room link_b "#scotmesh"] (at_hub kick_a two_links)).
Definition both_closed : Srv Hub := jobs_run [jobClosed link_a; jobClosed link_b] kicked_and_back.

(** A kick that the server hears of after another link of the person has joined
    takes the room from that link too, while the hub goes on counting it; when
    the link closes the hub is not told, and the person stays in the room's list
    with no link left. *)
Theorem kick_leaves_ghost :
  links (h_mem (s_hub two_links)) "scotmesh" id_a = 1 /\
  links (h_mem (s_hub (at_hub kick_a two_links))) "scotmesh" id_a = 0 /\
  elements (ss_rooms (deref 1 kicked_and_back)) = [] /\
  s_sessions both_closed = ∅ /\ links (h_mem (s_hub both_closed)) "scotmesh" id_a = 1.
Proof. vm_compute. done. Qed.

(** ** One app more than a name can have *)
(** Cat, an owner, approves each of her apps.  Calls at a time, with what
    crypto/rand gives them. *)
Definition env_at (t : Z) (code : string) : Env := {|
  cfg := demo_cfg; now := t; rnd := code; env_unicode := ascii_unicode; env_norm := ascii_norm
|}.
Definition perform_at (h : Hub) (c : Z * string * Call) : Hub := @perform (env_at c.1.1 c.1.2) c.2 h.
Definition redeem_at (t : Z) (app : ident) (code : string) : list (Z * string * Call) :=
  [(t, code, CallIdentify app None); (t, code, says cat_ "/link"); (t, code, says app ("/link " +:+ newLinkCode code))].
Definition approve_at (t : Z) (app : ident) : Z * string * Call := (t, "abcde", says cat_ ("/link approve " +:+ hex_encode app)).
Definition cats_apps : Hub :=
  let later := noon + 2 * Hour in let app c := ident_of c in
  fold_left perform_at
    ((noon, "abcde", CallIdentify cat_ None) ::
     redeem_at noon (app "1"%char) "link1" ++ [approve_at noon (app "1"%char)] ++
     redeem_at noon (app "2"%char) "link2" ++ [approve_at noon (app "2"%char)] ++
     redeem_at noon (app "3"%char) "link3" ++ [approve_at noon (app "3"%char)] ++
     redeem_at later (app "4"%char) "link4" ++ redeem_at later (app "5"%char) "link5" ++
     [approve_at later (app "4"%char); approve_at later (app "5"%char)]) demo_start.

(** Whether there is room for an app is looked at when its code is redeemed and not
    when the link is approved: two apps that wait for approval at the same time
    both get in, and the person has six apps where five is the most. *)
Theorem approve_exceeds_limit :
  match PersonOf cat_ cats_apps with Ok p => Some (Z.of_nat (length (p_Identities p))) | Fail _ => None end = Some (maxAppsPerPerson + 1).
Proof. vm_compute. reflexivity. Qed.

(** ** A link built elsewhere that changes a setting *)
Definition lines_of (id : ident) (h : Hub) : option Z :=
  match PersonOf id h with Ok p => Some (PageLines (p_Prefs p)) | Fail _ => None end.
(** The view buttons save what they choose without the visitor's token, so anyone's
    link can change how Ann's page looks for good. *)
Theorem view_link_changes_settings :
  let r := as_ ann PathIndex [("action", "view"); ("lines", "100")] in
  field r "tok" = "" /\ lines_of ann demo = Some 30 /\ lines_of ann (hub_after demo r) = Some 100.
Proof. vm_compute. done. Qed.

(** ** A line of a page that someone else wrote *)
(** Ann says two lines.  The conversation indents the second; but when she asks to
    remove the message the question quotes them as they are, so the second is a line of the page, and may be a directive. *)
Theorem excerpt_starts_line :
  let h := run_calls [say_as ann ViaRRC ("hi" +:+ newline +:+ "#!c=0")] demo in
  existsb (fun l => has_prefix l "#!c=0") (drop 1 (page_of h (as_ ann PathIndex [("action", "view"); ("refresh", "0")]))) = false /\
  existsb (fun l => has_prefix l "#!c=0") (drop 1 (page_of h (as_ ann PathIndex [("action", "delete_confirm"); ("msg", "2")]))) = true.
Proof. vm_compute. done. Qed.

(** ** The end of a link before its start *)
(** A worker whose queue another link has filled: link_a's start has to wait for room.
    The worker takes a job; link_a closes, and the close is queued at once; and when the
    worker has taken another, the start comes in behind it. *)
Definition loud : string := "link-e".
Definition overtaken : Jobs :=
  let take js := match job_take (worker_of (sc_Workers server_Defaults) link_a) js with Some (_, js) => js | None => js end in
  let flooded := Nat.iter 1024 (job_enqueue (jobData loud "")) (jobs_New server_Defaults) in
  job_admit 0 (take (job_enqueue (jobClosed link_a) (take (job_enqueue (jobEstablished link_a) flooded)))).
Definition tomorrow : Env := env_at (noon + 24 * Hour) "abcde".
(** A link's close can be handled before its start, as what has no room in its
    queue is sent to it by a goroutine of its own; the session that the start makes
    then stays for good, since the keepalive asks the transport to close the link,
    which is gone already. *)
Theorem late_start_stays :
  of_link link_a (queue_of overtaken link_a) = [jobClosed link_a; jobEstablished link_a] /\
  let s := jobs_run [jobClosed link_a; jobEstablished link_a] (server_New demo) in
  map fst (map_to_list (s_sessions s)) = [link_a] /\
  map fst (map_to_list (s_sessions (run (keepalive (E := tomorrow) server_Defaults) s))) = [link_a].
Proof. vm_compute. done. Qed.
