(* ===== verification/Witnesses.v ===== *)
(** Each theorem applied to the small hub of [Demo]: its hypotheses hold there,
    and what it says of it can be read off. *)
From S2P Require Import Prelude Text Db StorePeople StoreRooms StoreMessages StoreGroup StoreInv StoreWf StoreHistory.
From S2P Require Import StorePolicy Names HubCore Clock Ranks People Rooms Post Commands CmdPeople CmdRooms Moderation Links.
From S2P Require Import Whispers Profile Dispatch Maintain HubWf System Frame PostSpec RoomSpec ModerationSpec LinkSpec.
From S2P Require Import HubLoop RateSpec RankSpec NamesSpec Demo.
Local Open Scope Z_scope.

Lemma demo_wf : hub_inv db_wf demo.
Proof. exact (hub_inv_reachable (I := db_wf) demo db_wf_empty demo_reachable). Qed.
Lemma demo_db_wf : db_wf (h_db demo).
Proof. apply demo_wf. Qed.

(** Only [vm_compute] runs the demo. *)
#[local] Opaque demo.

(** The outcome [P] of what goes through. *)
Definition yields {A S} (P : A -> Prop) (x : res A * S) : Prop := match x.1 with Ok a => P a | Fail _ => False end.

(** ** Invariants *)
Lemma owners_never_banned_witness : cat_ ∈ Admins (cfg (Env := demo_env)) /\ bans (h_db demo) !! cat_ = None.
Proof. split; [apply list_elem_of_here|]. apply owners_never_banned; [exact demo_reachable|apply list_elem_of_here]. Defined.

Lemma names_clean_and_distinct_witness :
  exists n m, names (h_db demo) !! 1 = Some n /\ names (h_db demo) !! 2 = Some m /\ nr_name n = "Ann" /\ nr_name m = "Bob" /\
    nr_skeleton n <> nr_skeleton m.
Proof.
  destruct (names (h_db demo) !! 1) as [n|] eqn:Hn; [|vm_compute in Hn; discriminate].
  destruct (names (h_db demo) !! 2) as [m|] eqn:Hm; [|vm_compute in Hm; discriminate].
  exists n, m. split; [reflexivity|]. split; [reflexivity|].
  split; [vm_compute in Hn; injection Hn as <-; reflexivity|]. split; [vm_compute in Hm; injection Hm as <-; reflexivity|].
  apply (names_clean_and_distinct demo 1 2 n m demo_reachable Hn Hm). discriminate.
Defined.


(** ** Posting *)
Definition hi : PostRequest := mkPostRequest ViaRRC ann "#scotmesh" false "hi" (Some "m1") 0 None.
Lemma hi_accepted : yields (fun r => po_Duplicate r = false) (Post hi demo).
Proof. vm_compute. reflexivity. Qed.
Lemma post_new_witness :
  exists r h', Post hi demo = (Ok r, h') /\ messages (h_db h') = <[Message_ID (po_Message r) := po_Message r]> (messages (h_db demo)).
Proof.
  pose proof hi_accepted as Hd. destruct (Post hi demo) as [[r|e] h'] eqn:Hp; [|destruct Hd].
  exists r, h'. split; [reflexivity|].
  destruct (post_new hi demo r h' demo_db_wf Hp Hd) as (room & row & name & to & H). apply H.
Defined.


Definition after_hi : Hub := perform (CallPost hi) demo.
Lemma after_hi_wf : hub_inv db_wf after_hi.
Proof. exact (hub_inv_perform (I := db_wf) (CallPost hi) demo demo_wf). Qed.
#[local] Opaque after_hi.
Lemma hi_kept : (fun m => (Message_Via m, Message_OriginID m)) <$> messages (h_db after_hi) !! 2 = Some (ViaRRC, Some "m1").
Proof. vm_compute. reflexivity. Qed.
Lemma hi_answered : yields (fun r => po_Duplicate r = true) (Post hi after_hi).
Proof. vm_compute. reflexivity. Qed.
Lemma post_retry_witness : exists r h', Post hi after_hi = (Ok r, h') /\ po_Duplicate r = true /\ h_subs h' = h_subs after_hi.
Proof.
  pose proof hi_answered as Ha. destruct (Post hi after_hi) as [[r|e] h'] eqn:Hp; [|destruct Ha].
  pose proof hi_kept as Hk. destruct (messages (h_db after_hi) !! 2) as [m|] eqn:Hm; [|discriminate Hk]. injection Hk as Hv Ho.
  exists r, h'. split; [reflexivity|]. split; [exact Ha|].
  apply (post_retry hi after_hi "m1" 2 m r h' (hw_db _ _ after_hi_wf) Hm Hv Ho eq_refl Hp).
Defined.

(** ** Rooms *)
Lemma demo_ids_small : forall k m, messages (h_db demo) !! k = Some m -> k < max_int64.
Proof.
  intros k m Hk. assert ((map_to_list (messages (h_db demo))).*1 = [1]) as Hf by (vm_compute; reflexivity).
  assert (k ∈ (map_to_list (messages (h_db demo))).*1) as Hin
    by (apply list_elem_of_fmap; exists (k, m); split; [done|]; by apply elem_of_map_to_list).
  rewrite Hf in Hin. apply list_elem_of_singleton in Hin as ->. by apply Z.ltb_lt.
Qed.
Lemma bob_reads : yields (fun r => map Message_Body r.1 = ["hello"]) (catchUp bob "scotmesh" (start demo)).
Proof. vm_compute. reflexivity. Qed.
Lemma bob_is_new : cursors (h_db demo) !! (bob, "scotmesh", ViaRRC) = None.
Proof. vm_compute. reflexivity. Qed.
Lemma catch_up_exact_witness :
  exists replay note, catchUp bob "scotmesh" (start demo) = (Ok (replay, note), start demo) /\ map Message_Body replay = ["hello"] /\
    replay = latest (ReplayFirstVisit demo_cfg) (room_log (h_db demo) "scotmesh").
Proof.
  pose proof bob_reads as Hb. destruct (catchUp bob "scotmesh" (start demo)) as [[[replay note]|e] q'] eqn:Hc; [|destruct Hb].
  exists replay, note.
  assert (0 <= ReplayMax (cfg (Env := demo_env))) as Hmax by (apply Z.leb_le; vm_compute; reflexivity).
  destruct (catch_up_exact bob "scotmesh" (start demo) replay note q' demo_db_wf demo_ids_small Hmax Hc) as [Hq H].
  cbn [start q_db] in H. rewrite bob_is_new in H. split; [by rewrite Hq|]. split; [exact Hb|exact H].
Defined.

Definition ann_again : JoinRequest := mkJoinRequest ann "#ScotMesh" "".
Definition ann_opens : JoinRequest := mkJoinRequest ann "#den" "".
Lemma ann_joins_again : yields (fun _ => True) (Join ann_again demo).
Proof. vm_compute. reflexivity. Qed.
Lemma ann_is_there : rrcPresent_in (h_mem demo) "scotmesh" ann = true /\ links (h_mem demo) "scotmesh" ann = 1.
Proof. vm_compute. split; reflexivity. Qed.
Lemma join_exact_witness : exists r h', Join ann_again demo = (Ok r, h') /\ jr_FirstLink r = false /\ links (h_mem h') "scotmesh" ann = 2.
Proof.
  pose proof ann_joins_again as Ha. destruct (Join ann_again demo) as [[r|e] h'] eqn:Hj; [|destruct Ha].
  exists r, h'. split; [reflexivity|].
  destruct (join_exact ann_again demo r h' Hj) as (room & name & Had & Hf & _ & Hl).
  assert (room = "scotmesh") as -> by (pose proof (ad_room _ _ _ Had) as Hr; vm_compute in Hr; by injection Hr).
  destruct ann_is_there as [Hp H1]. change (jr_Identity ann_again) with ann in *. rewrite Hf, Hl, Hp, H1. split; vm_compute; reflexivity.
Defined.
Lemma ann_leaves : yields (fun r => r = "scotmesh") (Part ann "#scotmesh" demo).
Proof. vm_compute. reflexivity. Qed.
Lemma part_exact_witness : exists h', Part ann "#scotmesh" demo = (Ok "scotmesh", h') /\ links (h_mem h') "scotmesh" ann = 0 /\
  is_Some (cursors (h_db h') !! (ann, "scotmesh", ViaRRC)).
Proof.
  pose proof ann_leaves as Ha. destruct (Part ann "#scotmesh" demo) as [[r|e] h'] eqn:Hp; [|destruct Ha].
  change (r = "scotmesh") in Ha. subst r. exists h'. split; [reflexivity|].
  destruct (part_exact ann "#scotmesh" demo "scotmesh" h' demo_wf Hp) as (_ & Hl & _ & Hlast).
  destruct ann_is_there as [_ H1]. split.
  - rewrite Hl, H1. vm_compute. reflexivity.
  - destruct (Hlast H1) as (_ & (c & Hc & _) & _). exists c. exact Hc.
Defined.
Lemma ann_visits : yields (fun _ => True) (Join ann_opens demo) /\ yields (fun r => r = "den") (Part ann "den" (Join ann_opens demo).2).
Proof. vm_compute. split; constructor. Qed.
Lemma join_part_presence_witness :
  exists r h1 h2, Join ann_opens demo = (Ok r, h1) /\ Part ann "den" h1 = (Ok "den", h2) /\
    forall rm x, links (h_mem h2) rm x = links (h_mem demo) rm x.
Proof.
  destruct ann_visits as [Ha Hb]. destruct (Join ann_opens demo) as [[r|e] h1] eqn:Hj; [|destruct Ha]. cbn [snd] in Hb.
  destruct (Part ann "den" h1) as [[p|e] h2] eqn:Hp; [|destruct Hb]. change (p = "den") in Hb. subst p.
  exists r, h1, h2. split; [reflexivity|]. split; [exact Hp|].
  apply (join_part_presence ann_opens "den" demo r "den" h1 h2 demo_wf Hj); [vm_compute; reflexivity|exact Hp].
Defined.

(** ** Bans *)
Definition ban_bob : CommandRequest := mkCommandRequest ViaRRC cat_ "scotmesh" "/ban Bob 2h spam".
Definition person_at (h : Hub) (id : ident) : Person :=
  match (person id (start h)).1 with Ok p => p | Fail _ => unknown_person id end.
Definition cat_bans : Cmd :=
  {| c_req := ban_bob; c_def := default (mkCommand "ban" [] "" "" "" 0 anyone HBan "" None) (lookupCommand "ban"); c_me := person_at demo cat_ |}.

Definition at_the_ban : CState := mkCState (start demo) [] empty_reply.
Lemma bob_banned : p_Identities (person_at demo bob) = [bob] /\
  yields (fun _ => True) (ban_person (c := cat_bans) (person_at demo bob) (2 * Hour) "spam" at_the_ban).
Proof. vm_compute. split; constructor. Qed.

(** Bob is banned for two hours, which are over by tomorrow. *)
Definition cmd (id : ident) (t : string) : Call := CallCommand (mkCommandRequest ViaRRC id "scotmesh" t).
Definition banned : Hub := perform (cmd cat_ "/ban Bob 2h spam") demo.
Definition tomorrow : Z := noon / Millisecond + 86400000.
Lemma banned_wf : hub_inv db_wf banned.
Proof. exact (hub_inv_perform (I := db_wf) (cmd cat_ "/ban Bob 2h spam") demo demo_wf). Qed.
Lemma bob_is_banned : ban_expired tomorrow <$> bans (h_db banned) !! bob = Some true.
Proof. vm_compute. reflexivity. Qed.
#[local] Opaque banned.
Lemma expired_bans_lifted_witness :
  exists d', liftExpiredBans tomorrow (h_db banned) = (Ok tt, d') /\ bans d' !! bob = None.
Proof.
  destruct (expired_bans_lifted tomorrow (h_db banned) (hw_db _ _ banned_wf)) as (d' & Hr & Hb & _).
  exists d'. split; [exact Hr|]. rewrite Hb. pose proof bob_is_banned as Hn.
  destruct (bans (h_db banned) !! bob) as [b|]; [|reflexivity]. injection Hn as Hn. cbn. rewrite Hn. reflexivity.
Defined.
Lemma ban_length_bounds_witness : parseBanLength "2H" = Some (2 * Hour) /\ 2 * Hour <= 9999 * (24 * Hour).
Proof.
  assert (parseBanLength "2H" = Some (2 * Hour)) as H by (vm_compute; reflexivity).
  split; [exact H|]. destruct (ban_length_bounds "2H" (2 * Hour) H) as [H0|[[_ Hl] _]]; [discriminate H0|exact Hl].
Defined.

(** ** Linked apps *)
Definition linked : Tx unit := tx_LinkIdentity cat_ 1 5.
Lemma cat_links : yields (fun _ => True) (linked (h_db demo)).
Proof. vm_compute. constructor. Qed.
Lemma cats_person : Identity_Person <$> identities (h_db demo) !! cat_ = Some 3.
Proof. vm_compute. reflexivity. Qed.
Definition cat_is_ann : DB := (linked (h_db demo)).2.
Lemma cat_is_ann_wf : db_wf cat_is_ann.
Proof.
  pose proof (pres_LinkIdentity cat_ 1 5 (h_db demo) demo_db_wf) as Hp. pose proof cat_links as Hc.
  unfold cat_is_ann, linked in *. destruct (tx_LinkIdentity cat_ 1 5 (h_db demo)) as [[[]|e] d']; [exact Hp|destruct Hc].
Qed.
#[local] Opaque cat_is_ann.
Lemma cat_unlinks : yields (fun p => p = 3) (tx_UnlinkIdentity cat_ 9 cat_is_ann) /\ Identity_Person <$> identities cat_is_ann !! cat_ = Some 1.
Proof. vm_compute. split; reflexivity. Qed.
Lemma unlink_frees_one_app_witness :
  exists d', tx_UnlinkIdentity cat_ 9 cat_is_ann = (Ok 3, d') /\ is_Some (people d' !! 3) /\ names d' !! 3 = None.
Proof.
  destruct cat_unlinks as [Hc Hi]. destruct (tx_UnlinkIdentity cat_ 9 cat_is_ann) as [[p|e] d'] eqn:Hr; [|destruct Hc].
  change (p = 3) in Hc. subst p. exists d'. split; [reflexivity|].
  destruct (unlink_frees_one_app cat_ 9 cat_is_ann 3 d' cat_is_ann_wf Hr) as (i & Hi' & [(_ & H4 & _)|(_ & _ & Hn & _ & _ & (sp & _ & Hsp & _))]).
  - rewrite Hi' in Hi. injection Hi as Hi. rewrite Hi in H4. discriminate H4.
  - split; [exists sp; exact Hsp|exact Hn].
Defined.

(** ** Posting, over time *)
(** Ann and Bob talk at once, a message a second each for a minute, then Ann
    once more. *)
Definition minute_of_talk : list (Z * ident) :=
  concat (map (fun i => [(noon + i * Second, ann); (noon + i * Second, bob)]) (seqZ 0 60)) ++ [(noon + 90 * Second, ann)].
Lemma talk_sorted : Sorted Z.le (noon :: map fst minute_of_talk).
Proof.
  apply (bool_decide_unpack (Sorted Z.le (noon :: map fst minute_of_talk))). vm_compute. constructor.
Qed.
Definition slow_talk : list (Z * ident) :=
  concat (map (fun i => [(noon + i * (10 * Second), ann); (noon + i * Second, bob)]) (seqZ 0 30)).

(** ** Help and names *)
Lemma help_pages_fit_witness : len (page_text (help_pages RankOwner) 2) <= OnePacketText.
Proof. apply (help_pages_fit RankOwner 2). vm_compute. split; discriminate. Defined.
Definition whisper_command : command := nth 20 commandTable (mkCommand "" [] "" "" "" 0 anyone HHelp "" None).
Lemma command_words_unique_witness : cmd_name whisper_command = "whisper" /\ lookupCommand "msg" = Some whisper_command.
Proof.
  assert (words_of whisper_command = ["whisper"; "w"; "msg"; "tell"]) as Hw by (vm_compute; reflexivity).
  split; [vm_compute; reflexivity|]. apply command_words_unique.
  - apply list_elem_of_In, nth_In. apply Nat.ltb_lt. vm_compute. reflexivity.
  - rewrite Hw. apply list_elem_of_further, list_elem_of_further, list_elem_of_here.
Defined.
Lemma NormalizeRoom_normal_witness : NormalizeRoom "#Scot-Mesh" 32 = inr "scot-mesh" /\ NormalizeRoom ("#" +:+ "scot-mesh") 32 = inr "scot-mesh".
Proof.
  assert (NormalizeRoom (U := ascii_unicode) "#Scot-Mesh" 32 = inr "scot-mesh") as H by (vm_compute; reflexivity).
  split; [exact H|]. destruct (NormalizeRoom_normal _ _ _ H) as (_ & _ & _ & _ & Hr). exact Hr.
Defined.
Lemma validate_sound_witness : exists c, validate (cfg (Env := demo_env)) = Some c /\ GroupRoom c ∈ map rc_Name (Rooms c).
Proof.
  assert (is_Some (validate (U := ascii_unicode) demo_cfg)) as [c Hc] by (apply (bool_decide_unpack _); vm_compute; constructor).
  exists c. split; [exact Hc|]. exact (proj1 (validate_sound demo_cfg c Hc)).
Defined.
Lemma CleanName_sound_witness : CleanName "Ann_B" = inr ("Ann_B", "annb") /\ forall id, "annb" <> Skeleton (GuestName id).
Proof.
  assert (CleanName (U := ascii_unicode) (N := ascii_norm) "Ann_B" = inr ("Ann_B", "annb")) as H by (vm_compute; reflexivity).
  split; [exact H|].
  destruct (CleanName_sound (L := ascii_norm_laws) _ _ _ H) as (_ & _ & _ & _ & _ & _ & Hg). exact Hg.
Defined.
Lemma same_name_case_separators_witness : Skeleton "Ann-Bell" = Skeleton "annbell".
Proof.
  apply (same_name_case_separators (U := ascii_unicode) (N := ascii_norm) (L := ascii_norm_laws)); vm_compute; reflexivity.
Defined.

(** ** The request loop *)
(** Ann's call is served; Bob, whose context is over, gives up; Ann's second is in the
    channel when the hub stops, and her third comes when it has. *)
Definition some_turns : list (Turn Call) :=
  [TStart noon "abcde"; TCall (say_as ann ViaRRC "again"); TCall (say_as bob ViaRRC "never"); TExpire 1; TSend 0; TGiveUp 1;
   TServe noon "abcde"; TTick (noon + Minute) "fghij"; TReturn 0; TCall (say_as ann ViaRRC "late"); TSend 2; TCancel;
   TStop (noon + Minute) "klmno"; TUnsubscribe; TFinish; TReturn 2; TCall (say_as ann ViaRRC "too late"); TRefused 3].
Definition ended : Loop Hub Call (option Error) := default (opened demo) (turns (K := hub_work (W := demo_env)) some_turns (opened demo)).
Lemma some_turns_run : turns (K := hub_work (W := demo_env)) some_turns (opened demo) = Some ended.
Proof.
  unfold ended. destruct (turns some_turns (opened demo)) as [l|] eqn:E; [reflexivity|exfalso].
  assert (match turns (K := hub_work (W := demo_env)) some_turns (opened demo) with Some _ => true | None => false end = true) as H by (vm_compute; reflexivity).
  rewrite E in H. discriminate H.
Qed.
Lemma ended_reached : runs_to (K := hub_work (W := demo_env)) demo ended.
Proof. exists some_turns. exact some_turns_run. Qed.
Definition returns_of (l : Loop Hub Call (option Error)) : list (nat * bool) :=
  omap (fun o => match o with OReturn i (Done _) => Some (i, true) | OReturn i _ => Some (i, false) | _ => None end) (lp_trace l).
Example ended_returns : (returns_of ended, map Message_Body (map_to_list (messages (h_db (lp_state ended)))).*2) =
  ([(1, false); (0, true); (2, false); (3, false)], ["again"; "hello"])%nat.
Proof. vm_compute. reflexivity. Qed.
Lemma do_exact_witness : exists j how, own 0 (lp_trace ended) = [OCall 0 j; OSend 0 j; ORun 0 j how None; OReturn 0 (Done None)].
Proof.
  destruct (do_exact (K := hub_work (W := demo_env)) demo ended 0 (Done None) ended_reached) as (j & how & H).
  - apply (list_elem_of_lookup_2 _ 7). vm_compute. reflexivity.
  - exists j, how. exact H.
Defined.
Lemma loop_ends_witness : (length (List.filter works some_turns) <= 3 * (0 + 4) + reqsMax + 4)%nat.
Proof.
  pose proof (proj1 (loop_ends (K := hub_work (W := demo_env)) demo (opened demo) ended some_turns
    (ex_intro _ [] eq_refl) some_turns_run)) as H. exact H.
Defined.
Lemma hub_linearizable_witness : rtc (step (W := demo_env)) demo (lp_state ended) /\ sent (lp_trace ended) = served (lp_trace ended) ++ lp_reqs ended.
Proof. destruct (hub_linearizable (W := demo_env) demo ended ended_reached) as (H1 & _ & H2). split; [exact H1|exact H2]. Defined.
