(* ===== verification/AdapterWitnesses.v ===== *)
(** The adapters' theorems applied to the small hub of Demo.v, with the server of
    AdapterDemo.v and a network that knows one address and loses the first thing sent. *)
From S2P Require Import Prelude Text TextCut Db StorePeople StoreRooms StoreMessages StoreGroup StoreWf Names HubCore Clock Ranks People Rooms Post.
From S2P Require Import Commands Whispers Profile Dispatch Maintain HubWf System Frame RoomSpec Adapters LxmfSplit LxmfGroup LxmfDeliver LxmfSpec.
From S2P Require Import LxmfSched Wire WireSpec RrcFrames RrcSession RrcHandle RrcFanout RrcSpec RrcJoin Micron PageCore PageChat PageMe PageProfile.
From S2P Require Import PageSpec PageSafety PageText Node Demo AdapterDemo.
Local Open Scope Z_scope.

Lemma demo_hub_wf : hub_inv db_wf demo.
Proof. exact (hub_inv_reachable (I := db_wf) demo db_wf_empty demo_reachable). Qed.
#[local] Opaque demo.

(** ** Cutting text *)
Definition sample : string := "one two three four five six seven".
Lemma Split_parts_witness : exists parts, Split sample 20 = Some parts /\ parts <> [].
Proof. destruct (Split_parts sample 20 ltac:(lia)) as (parts & Hs & Hne & _). exists parts. split; [exact Hs|exact Hne]. Defined.
Lemma split_text_ends_witness : exists parts, split_text 33 16 sample = Some parts /\ squeeze " " (cat parts) = squeeze " " sample.
Proof.
  destruct (split_text_ends sample 16 33 ltac:(vm_compute; reflexivity) ltac:(lia) ltac:(vm_compute; lia)) as (parts & H & _ & Hs).
  exists parts. split; [exact H|exact Hs].
Defined.

(** ** The LXMF group *)
Definition demo_net : LxmfNet := {|
  Recall := fun _ => Some (mkKnownIdentity (of_bytes (replicate 64 2)) "");
  DecodeLXMFAppDataDisplayName := fun _ => None;
  send_outcome := fun n _ => match n with O => Some ErrSend | _ => None end
|}.
#[local] Existing Instance demo_net.
Definition hello_again : LMessage := mkLMessage "source" "/help" "key" "id" 0.
Lemma handled_once_witness :
  let g := (group_handle (E := demo_env) (HS := hub_group) group_Defaults hello_again (group_New demo)).2 in
  (group_handle (E := demo_env) (HS := hub_group) group_Defaults hello_again g).1 = Ok tt.
Proof.
  pose proof (handled_once (E := demo_env) (HS := hub_group) group_Defaults hello_again [] (group_New demo)
    (seen_wf_new _) ltac:(intros H; apply elem_of_empty in H; exact H) ltac:(apply Nat.ltb_lt; reflexivity)
    ltac:(exists (mkKnownIdentity (of_bytes (replicate 64 2)) ""); reflexivity)) as H.
  cbn zeta in *. exact (f_equal fst H).
Defined.
Lemma bob_gets_hello : (fun r => (dr_state r, dr_parts_done r)) <$> deliveries (h_db demo) !! (1, bob) = Some (DeliveryQueued, 0).
Proof. vm_compute. reflexivity. Qed.
Lemma hello_stored : is_Some (messages (h_db demo) !! 1).
Proof.
  assert (match messages (h_db demo) !! 1 with Some _ => true | None => false end = true) as H by (vm_compute; reflexivity).
  destruct (messages (h_db demo) !! 1) as [m|]; [exists m; reflexivity|discriminate H].
Qed.
Lemma senders_exclusive_and_current_witness :
  let s := mkSched (group_New demo) [] (Snapshot 0) (fun _ => O) in NoDup (map job_key (sd_jobs s)).
Proof.
  cbn zeta. refine (proj1 (proj2 (senders_exclusive_and_current 2 demo (fun _ => O) _ ltac:(lia) _))).
  eapply rtc_l; [apply sched_snapshot|apply rtc_refl].
Defined.

(** ** Envelopes *)
Definition ping : Envelope := mkEnvelope TypePing (of_bytes [1; 2; 3; 4]) 1000 "source" "" "Ann" None (TextBody "hello") ∅.
Lemma ping_wf : env_wf ping.
Proof.
  constructor.
  - cbn. repeat apply Forall_cons_2; [vm_compute; discriminate..|apply Forall_nil_2].
  - vm_compute. discriminate.
  - split; vm_compute; discriminate.
  - split; vm_compute; discriminate.
  - vm_compute. reflexivity.
  - vm_compute. reflexivity.
  - right. apply item_string; [right; reflexivity|vm_compute; discriminate].
  - intros k v H. discriminate H.
Qed.

(** ** The RRC server *)
Definition hub_at (t : Z) : RrcHub Hub := hub_rrc (E := at_time demo_env t "abcde").
Lemma rrc_sessions_consistent_witness :
  exists s : Srv Hub, is_Some (s_sessions s !! link_a) /\ srv_wf server_Defaults s.
Proof.
  eexists. split; [|eapply (rrc_sessions_consistent (W := demo_env) (HS := hub_at) server_Defaults demo); [vm_compute; discriminate|]].
  2: { eapply rtc_l; [apply (srv_job (W := demo_env) (HS := hub_at) server_Defaults noon (jobEstablished link_a))|apply rtc_refl]. }
  exists O. vm_compute. reflexivity.
Defined.

Lemma jobs_run_wf js s : srv_wf server_Defaults s -> srv_wf server_Defaults (jobs_run js s).
Proof.
  revert s. induction js as [|j js IH]; intros s Hs; [exact Hs|]. apply IH. apply pres_s; [|exact Hs]. apply pres_handleJob.
  vm_compute. discriminate.
Qed.
Lemma demo_srv_wf : srv_wf server_Defaults demo_srv.
Proof. apply jobs_run_wf, srv_wf_new. Qed.
Definition early_srv : Srv Hub := jobs_run [jobEstablished link_a; jobIdentified link_a pub_a] (server_New demo).
Definition early_join : string := demo_frame TypeJoin "#scotmesh" "".
Lemma early_not_welcomed : not_welcomed link_a early_srv.
Proof. vm_compute. reflexivity. Qed.
Lemma early_is_join : (fun e => e_Type e) <$> (match Decode early_join frame_limits with inr e => Some e | inl _ => None end) = Some TypeJoin.
Proof. vm_compute. reflexivity. Qed.
Lemma hello_first_witness : s_hub (data server_Defaults link_a early_join early_srv).2 = s_hub early_srv.
Proof.
  refine (proj1 (hello_first server_Defaults link_a early_join early_srv _ _ early_not_welcomed _)).
  - vm_compute. discriminate.
  - apply jobs_run_wf, srv_wf_new.
  - intros e He. pose proof early_is_join as Ht. rewrite He in Ht. injection Ht as ->. discriminate.
Defined.
Lemma closed_leaves_nothing_witness : s_sessions (closed link_a demo_srv).2 !! link_a = None.
Proof. exact (proj1 (closed_leaves_nothing server_Defaults link_a demo_srv demo_srv_wf)). Defined.

(** ** Joining *)
Definition dee : ident := ident_of "d".
Definition dee_joins : JoinRequest := mkJoinRequest dee "#scotmesh" "".
Lemma dee_is_first : match (Join dee_joins demo).1 with Ok r => jr_FirstLink r | Fail _ => false end = true.
Proof. vm_compute. reflexivity. Qed.
Lemma join_draws_line_witness : exists res h1, Join dee_joins demo = (Ok res, h1) /\
  forall k m, messages (h_db demo) !! k = Some m -> Message_Room m = Room_Name (jr_RoomState res) -> k <= jr_SeenUpTo res.
Proof.
  pose proof dee_is_first as Hf. destruct (Join dee_joins demo) as [[res|e] h1] eqn:Hj; [|discriminate Hf].
  exists res, h1. split; [reflexivity|]. exact (proj1 (proj2 (join_draws_line dee_joins demo res h1 (hw_db _ _ demo_hub_wf) Hj Hf))).
Defined.

(** What the hub answers the link's JOIN, and a message that is accepted then. *)
Definition join_env : Envelope := mkEnvelope TypeJoin (of_bytes [9; 9; 9; 9]) 0 "" "#scotmesh" "" None "" ∅.
Definition hub_answer : res JoinResult := (Join (mkJoinRequest (IdentityHashFromPublicKey pub_a) "#scotmesh" "") demo).1.
Definition default_join : JoinResult := mkJoinResult (mkRoom "" "" None false "" "" 0 0) true [] [] "" 0.
Definition answer : JoinResult := match hub_answer with Ok r => r | Fail _ => default_join end.
Definition later_message : Message := mkMessage 2 "scotmesh" KindMsg ann "Ann" "later" ViaRRC None 0 0 None.
Definition joining_srv : Srv Hub := (join_begin server_Defaults 0 join_env demo_srv).2.
Definition joined_later : Srv Hub :=
  run (deliver_messages server_Defaults [(later_message, [])] ;;;
       join_answer server_Defaults 0 join_env (Room_Name (jr_RoomState answer)) (Ok answer) ;;; deliver_messages server_Defaults []) joining_srv.
Lemma join_begins : (join_begin server_Defaults 0 join_env demo_srv).1 = Ok (Some (Room_Name (jr_RoomState answer))).
Proof. vm_compute. reflexivity. Qed.
Lemma join_not_full : Z.of_nat (length (ss_out (deref 0 joined_later))) < sc_SendQueue server_Defaults.
Proof. vm_compute. reflexivity. Qed.
Lemma demo_session : s_sessions demo_srv !! link_a = Some O /\ open (deref 0 demo_srv) /\ ss_welcomed (deref 0 demo_srv) = true /\
  ss_joining (deref 0 demo_srv) = ∅ /\ Room_Name (jr_RoomState answer) <> "".
Proof. split; [vm_compute; reflexivity|]. split; [split; vm_compute; reflexivity|]. split; [vm_compute; reflexivity|]. split; [vm_compute; reflexivity|]. vm_compute. discriminate. Qed.
Lemma queue_positive : 0 <= sc_SendQueue server_Defaults.
Proof. vm_compute. discriminate. Qed.
Lemma one_held : (length (of_room (Room_Name (jr_RoomState answer)) [(later_message, [] : list ident)].*1) <= maxBuffered)%nat.
Proof. apply Nat.leb_le. vm_compute. reflexivity. Qed.
Lemma join_runs : join_begin server_Defaults 0 join_env demo_srv = (Ok (Some (Room_Name (jr_RoomState answer))), joining_srv).
Proof.
  pose proof join_begins as Hb. unfold joining_srv. destruct (join_begin server_Defaults 0 join_env demo_srv) as [b s].
  cbn [fst] in Hb. rewrite Hb. reflexivity.
Qed.
#[local] Opaque demo_srv joining_srv answer.

(** * The page and the node

    The page's theorems, and those of the program put together, applied to the
    page of AdapterDemo.v. *)
#[local] Opaque demo demo_start Serve.

(** ** A link built elsewhere *)
Definition forged : Request := as_ ann PathIndex [("action", "delete"); ("msg", "1"); ("tok", "guess")].
Lemma hub_after_same h r : hub_same h (pg_hub (Serve demo_page_cfg r (page_New h)).2) -> messages (h_db (hub_after h r)) = messages (h_db h).
Proof. intros [[Ht _ _ _] _ _]. by injection Ht. Qed.

(** ** Tokens *)
Definition ann_asks : list (Z * Request) := [(noon, as_ ann PathIndex [])].
Definition anns_page : Page Hub :=
  (Serve (E := at_time demo_env noon "abcde") (HS := @hub_page (at_time demo_env noon "abcde")) demo_page_cfg (as_ ann PathIndex []) (page_New demo)).2.
Lemma anns_page_served : served (W := demo_env) (HS := @hub_page) demo_page_cfg ann_asks (page_New demo) anns_page.
Proof. exact (served_one _ [] _ _ noon "abcde" (as_ ann PathIndex []) (served_none _ _)). Qed.
Lemma anns_token : session_identity noon (token 0) (pg_sessions anns_page) = Some ann.
Proof. vm_compute. reflexivity. Qed.
Lemma tokens_are_ones_own_witness : exists t0 r, (t0, r) ∈ ann_asks /\ rq_Identity r = ann.
Proof.
  destruct (tokens_are_ones_own (W := demo_env) (HS := @hub_page) (HL := @hub_page_laws) demo_page_cfg demo_tokens_fresh demo ann_asks
    anns_page [] anns_page (token 0) ann noon anns_page_served (served_none demo_page_cfg anns_page) anns_token)
    as [(t0 & r & Hin & Hr & _) _].
  exists t0, r. split; [exact Hin|exact Hr].
Defined.

(** ** What is new *)
Definition msg_at (k : Z) : Message := mkMessage k "scotmesh" KindMsg bob "Bob" "hi" ViaRRC None 0 0 None.
Definition reader : Person := unknown_person ann.
Definition seen_view : View := viewFor (ask PathIndex []) (Some reader).
Lemma new_line_where_witness :
  conversation [msg_at 1; msg_at 2; msg_at 3] (Some reader) 1 true seen_view =
  [messageLine (msg_at 1) (Some reader) seen_view; new_line; messageLine (msg_at 2) (Some reader) seen_view;
   messageLine (msg_at 3) (Some reader) seen_view].
Proof.
  refine (new_line_where reader seen_view 1 true [msg_at 1; msg_at 2; msg_at 3] _ _ _).
  - repeat constructor.
  - discriminate.
  - reflexivity.
Defined.

(** ** The node *)
#[local] Existing Instance demo_net.
Notation demo_step := (node_step (W := demo_env) server_Defaults group_Defaults demo_page_cfg).
(** The chat page is asked for, and a message comes in for the group. *)
Lemma demo_node_steps : exists n, rtc demo_step (node_New demo_start) n /\ length (g_inbox (nd_group n)) = 1%nat.
Proof.
  eexists. split.
  - eapply rtc_l; [apply (n_serve _ _ _ noon "abcde" (as_ ann PathIndex []))|].
    eapply rtc_l; [apply (n_message _ _ _ hello_again)|apply rtc_refl].
  - reflexivity.
Qed.
Lemma node_keeps_invariants_witness : exists n, length (g_inbox (nd_group n)) = 1%nat /\ reachable (nd_hub n).
Proof.
  destruct demo_node_steps as (n & Hn & Hl).
  destruct (node_keeps_invariants server_Defaults group_Defaults demo_page_cfg ltac:(vm_compute; discriminate) demo_tokens_fresh
    demo_start n demo_started Hn) as [Hr _].
  exists n. split; [exact Hl|exact Hr].
Defined.

(** ** The workers' queues *)
Definition some_jobs : JobRun :=
  mkJobRun (job_enqueue (jobClosed link_a) (jobs_New server_Defaults))
    [(jobEstablished link_a, Queued); (jobClosed link_a, Queued)] [jobEstablished link_a].
Lemma some_jobs_run : rtc job_step (job_start server_Defaults) some_jobs.
Proof.
  unfold job_start, some_jobs.
  eapply rtc_l; [apply (job_arrives (jobEstablished link_a))|]. eapply rtc_l; [apply (job_arrives (jobClosed link_a))|].
  eapply rtc_l; [|apply rtc_refl].
  refine (job_taken (worker_of (sc_Workers server_Defaults) link_a) (jobEstablished link_a) _ (job_enqueue (jobClosed link_a) (jobs_New server_Defaults)) _ [] _).
  vm_compute. reflexivity.
Qed.
Lemma jobs_kept_witness : of_link link_a (queue_of (jr_jobs some_jobs) link_a) = [jobClosed link_a].
Proof.
  destruct (jobs_kept server_Defaults some_jobs ltac:(vm_compute; reflexivity) some_jobs_run) as (_ & _ & _ & _ & H).
  specialize (H link_a). assert ([jobEstablished link_a; jobClosed link_a] = jobEstablished link_a :: of_link link_a (queue_of (jr_jobs some_jobs) link_a)) as Hl.
  { apply H. intros j Hj. exfalso. cbn in Hj. apply elem_of_cons in Hj as [Hj|Hj]; [discriminate Hj|].
    apply elem_of_cons in Hj as [Hj|Hj]; [discriminate Hj|]. by apply not_elem_of_nil in Hj. }
  symmetry. exact (f_equal (drop 1) Hl).
Defined.
